(* ===== verification/_CoqProject ===== *)
-Q . S2P
Prelude.v
Timers.v
Wire.v
Names.v
Disk.v
IndexFile.v
Segments.v
Storage.v
LogStore.v
Recovery.v
RaftNode.v
Shutdown.v
Purge.v
Samples.v
StorageTheorems.v
PurgeLoop.v
MemoryStorage.v
Events.v
Packets.v
TrxParser.v
Text.v
Metrics.v
Gtid.v
GtidCodec.v
MetaStore.v
MetaTheorems.v
Progress.v
Membership.v
Config.v
NodeConfig.v
Peers.v
Apply.v
ApplyTheorems.v
LeaderChange.v
Syncer.v
Pipeline.v
ConfTheorems.v
Admin.v
Boot.v
Bootstrap.v
Join.v
BinlogServer.v
SubServers.v
Api.v
Messages.v
DumpTheorems.v
Wakeup.v
Delivery.v
EndToEnd.v
Commands.v
CommandTheorems.v
