(* ===== verification/Prelude.v ===== *)
(** * Kingbus: a distributed store of MySQL binlogs

    Kingbus replicates the binlog of a MySQL master through raft and serves it
    to MySQL slaves. A syncer reads events from the master, cuts large ones into
    parts and proposes them; the raft node stores entries in a log of segment
    files before it applies them; applying an entry follows the transactions,
    records which of them have been received and stores this with the applied
    index in a bolt database; the binlog server reads applied entries from the
    log and sends a slave the events of the transactions that it does not have.
    Members join and leave by configuration changes in the same log.

    The files follow these parts. A Go function is a definition of the same name
    in the module of its type; a method that can fail or that changes state is a
    state transition with an outcome, [St S A := S -> res A * S], where [Panic]
    is a run-time panic or a call of [log.Log.Fatalf]. System calls, writes to a
    connection and commits of the database can fail where the model has a list of
    faults. Integers are in [Z], with the wrap-around of their width written out.

    ** The log

    - [Prelude]: bytes, machine integers, slices, the outcome monad, errors.
    - [Wire]: storage/storagepb/record.pb.go, the entry of the vendored raftpb and
      utils/pb_utils.go: encoders, decoders and checksums.
    - [Names]: the names of log files, storage/segment.go and utils/file_utils.go.
    - [Disk]: files, descriptors and shared mappings; storage/mmap_file.go.
    - [IndexFile]: storage/index.go. [Segments]: storage/segment.go.
    - [Storage]: storage/disk_storage.go. [LogStore] relates it to a list of
      entries ([sto_repr], [holds]), [Recovery] covers closing, crashing and
      opening, [Purge] the two halves of a purge, [Samples] small logs for evaluation.
    - [RaftNode]: raft/raft.go, against the class [RaftStorage] with the laws
      [RaftStorageLaws], which the disk storage satisfies. [MemoryStorage]:
      storage/memory_storage.go over the memory storage of the raft library, the other
      instance of the class; the two answer the same calls in the same way.
    - [StorageTheorems]: the storage is a log. Saving extends it, truncating cuts
      it, the node's append replaces a suffix, reading returns what it holds within
      the size limit, a reader walks it; it is the same after [Close] and opening
      again and after a crash between calls, and a record that was cut off is
      dropped; a purge drops whole segments at its start only; the node stores the
      entries of a [Ready] before it applies or, as a follower, sends. The states in
      which the storage fails are theorems too: truncating at the first index of a
      segment, a crash while rolling.
    - [Timers], [PurgeLoop]: timers of package time, and the purger as a goroutine
      with its timer, [StopPurgeLog] and the entries that are saved in the meantime. No
      call fails, the log keeps its end, a stop returns; and the log is purged once only.

    ** Transactions and the store

    - [Events]: headers and bodies of binlog events, from the vendored
      replication package. [Text]: strings, strconv, hex and UUIDs.
    - [TrxParser]: mysql/trx_boundary_parser.go. The parser accepts exactly the
      sequences of DDL and DML groups.
    - [Gtid], [GtidCodec]: the vendored GTID sets. Sets of intervals are sets of
      numbers: normal forms are unique, [Contain] is inclusion, adding adds, and both
      the text and the binary form are read back.
    - [MetaStore], [MetaTheorems]: storage/meta_storage.go. The bucket is a finite
      map in the order of keys; progress is stored in one transaction; previous GTID
      sets, format descriptions and file names are found by raft index.
    - [Progress]: server/binlog_progress.go. [Config]: config/server_config.go.
      [NodeConfig]: config/config.go and the vendored [URLsMap].
    - [Membership]: raft/membership/cluster.go and member.go, with SHA-1 for the ids.
      Quorum checks are counted; the ids do not depend on the order of the map.
    - [Apply]: server/apply.go. [ApplyTheorems]: entries are applied once and in
      order, a transaction is in the executed set exactly from its last entry on, and
      a restart goes on from the store without losing one; an event of 16MB ends the
      process. [ConfTheorems]: the members in memory, in the store and in the raft
      library stay the same, a removed member stays out, and what a crash between the
      two writes of a change does. [LeaderChange]: logs in which a leader has left
      a transaction in the middle, the next one resets the progress with the purged
      GTIDs of its master and sends the transaction again.

    ** The server

    - [Syncer]: server/binlog_syncer.go and the start of it in server/server.go: the
      questions to the master, and the set of transactions that replication starts
      with. [Pipeline]: the goroutines of the syncer, of [StartProposeBinlog] and of
      the leadership as one step relation: in every interleaving the proposed values are
      those of the master in their order, and every order of the two channels occurs.
    - [Boot]: [NewKingbusServer] with its three ways to start and what the raft library
      does for them; a server that stops between two calls comes back as it was.
      [Bootstrap]: a new cluster, and configuration changes that are applied again.
      [Join], [Peers]: a node that joins, raft/peer_handler.go, and why its request for
      the members is not answered.
    - [Admin]: requests to change the members, server/util.go, with the answer when the
      change is applied; the strict check keeps a quorum of connected members.
    - [SubServers]: starting, stopping and the status of the two sub-servers, elections.
      [Api]: the handlers of api/ against the class [Server], of which the server is
      an instance; a request to a follower is forwarded and answered as by the leader.
    - [Shutdown]: [Stop] and [Run] of server.go, the loop of raft.go and the loop that
      applies entries, as goroutines that meet at channels: a stop ends, and nothing is
      written after the storage is closed.
    - [Metrics]: utils/metrics_utils.go, the registry and server/prometheus.go.

    ** Slaves

    - [Packets]: mysql/base_conn.go, the division of events in
      server/binlog_syncer.go and the events made by mysql/command.go. A client that
      joins packets as the protocol says reads each event, unless its length is a
      multiple of the largest payload.
    - [BinlogServer]: server/binlog_server.go, the registration of slaves and the
      GTID dump of mysql/command.go, against the class [EntryReader].
    - [DumpTheorems]: in every interleaving with new entries a dump has read the
      applied entries in order, ends up with every event of the transactions that the
      slave does not have, and is allowed exactly for slaves that are neither ahead
      nor behind what was purged.
    - [Messages]: what a client of the protocol reads from a stream of packets.
      [Delivery]: from the log to the client, a slave reads the rotate event, the
      format description and then the events that it does not have.
    - [Wakeup]: utils/broadcast.go, between the loop that applies entries and the loop
      of a dump. A reader that is awake catches up; the wake-up for the last event can
      be lost.
    - [EndToEnd]: [Pipeline], a log with a beginning of what was proposed, [DumpTheorems]
      and [Delivery] together: a slave reads a beginning of what the master sent, byte
      for byte, without the transactions that it has.
    - [Commands]: mysql/conn.go, auth.go, resp.go and the SQL statements of
      command.go: a connection from the handshake to its end. [CommandTheorems]: who
      may log in, what a query of a variable answers, and which answer to the
      handshake ends the process.

    ** Bounds

    Loops that are not structural take fuel. A varint has ten groups at most. The
    decoders take one round for each byte and the skipping of a field two, which
    [Wire.unmarshal_terminates] shows to be enough. Rebuilding an index and reading a
    segment take a round for each byte of the file, and every record has at least a
    length of four. Packets take a round for each byte of the message. A syncer that
    is started waits until the entries are applied: [Syncer.syncer_starts] takes as many
    rounds as the wait lasts. Where fuel could end first the outcome is [Panic], and the
    theorems say that calls return [Ok] or a given error.

    ** Parameters

    The encoding of Go values as JSON is the class [Json] with its round trip
    [JsonLaws]; the encoding of configuration changes by raftpb is a pair of functions;
    times are the answers of a clock. The raft library appears as the [Ready] values
    that it returns, as the sets of nodes that [ApplyConfChange] changes and as what
    [StartNode] and [RestartNode] put into the log; that the log holds a beginning of
    what its leader proposed is a hypothesis of [EndToEnd]. The SQL parser is the class
    [SqlParser], the texts of errors the class [ErrorText], the configuration file the
    class [Viper], the parser of URLs the class [URLParser], the connections of rafthttp
    the class [Transport]. The driver for the connection to the master, the listeners
    and HTTP requests are functions that answer or fail. The mean and the percentile of a
    histogram are functions, since they are floating point numbers.

    ** Not modelled

    The raft algorithm itself, bolt, echo, rafthttp, the HTTP server for Prometheus and
    the client of the replication protocol are libraries that the code calls. Logging,
    the tools, the flags of the process, [sync_file_range] (a call of the file system
    model that can fail) and the handler of snapshots, which is empty, do input and output
    or nothing. The ticker of the raft node drives the clock of the library, and its
    detection of contention only writes to the log file. *)
From Stdlib Require Export ZArith Lia.
From stdpp Require Export base list gmap strings numbers.
#[export] Set Default Goal Selector "!".

(** * Notation, tactics and hint databases *)

Declare Scope go_scope.
Delimit Scope go_scope with go.

Create HintDb go.
Create Rewrite HintDb len.

Open Scope Z_scope.

(** Splits the boolean tests of the model ([Z.ltb], [Z.leb], [Z.eqb], ...) into
    their propositions, so that [lia] sees them. *)
Ltac zbool :=
  repeat match goal with
  | H : (_ <? _) = true |- _ => apply Z.ltb_lt in H
  | H : (_ <? _) = false |- _ => apply Z.ltb_ge in H
  | H : (_ <=? _) = true |- _ => apply Z.leb_le in H
  | H : (_ <=? _) = false |- _ => apply Z.leb_gt in H
  | H : (_ =? _) = true |- _ => apply Z.eqb_eq in H
  | H : (_ =? _) = false |- _ => apply Z.eqb_neq in H
  | H : (_ && _)%bool = true |- _ => apply andb_true_iff in H; destruct H
  | H : (_ || _)%bool = false |- _ => apply orb_false_iff in H; destruct H
  | H : (_ && _)%bool = false |- _ => apply andb_false_iff in H; destruct H
  | H : (_ || _)%bool = true |- _ => apply orb_true_iff in H; destruct H
  | H : negb _ = true |- _ => apply negb_true_iff in H
  | H : negb _ = false |- _ => apply negb_false_iff in H
  end.

(** Case analysis on a boolean test of the goal; [zcase] keeps both cases,
    [ztrue]/[zfalse] discharge the other case by [lia]. *)
Ltac zcase :=
  match goal with
  | |- context [if ?b then _ else _] => destruct b eqn:?; zbool
  end.
Ltac zdecide := repeat (zcase; try lia).

(** * Machine integers

    An integer of width [w] is a [Z]; the wrap-around of Go's unsigned and
    two's complement signed types is written out where the code can wrap. *)

Definition u8 (z : Z) : Z := z mod 2 ^ 8.
Definition u16 (z : Z) : Z := z mod 2 ^ 16.
Definition u32 (z : Z) : Z := z mod 2 ^ 32.
Definition u64 (z : Z) : Z := z mod 2 ^ 64.
Definition i32 (z : Z) : Z := (z + 2 ^ 31) mod 2 ^ 32 - 2 ^ 31.
Definition i64 (z : Z) : Z := (z + 2 ^ 63) mod 2 ^ 64 - 2 ^ 63.

Definition is_u8 (z : Z) : Prop := 0 <= z < 2 ^ 8.
Definition is_u32 (z : Z) : Prop := 0 <= z < 2 ^ 32.
Definition is_u64 (z : Z) : Prop := 0 <= z < 2 ^ 64.

(** [math.MaxUint64], the [noLimit] of the storage. *)
Definition MaxUint64 : Z := 2 ^ 64 - 1.

Lemma u8_small z : is_u8 z -> u8 z = z.
Proof. apply Z.mod_small. Qed.
Lemma u32_small z : is_u32 z -> u32 z = z.
Proof. apply Z.mod_small. Qed.
Lemma u64_small z : is_u64 z -> u64 z = z.
Proof. apply Z.mod_small. Qed.
Lemma i64_small z : - 2 ^ 63 <= z < 2 ^ 63 -> i64 z = z.
Proof. intros. unfold i64. rewrite Z.mod_small; lia. Qed.
Lemma i32_small z : - 2 ^ 31 <= z < 2 ^ 31 -> i32 z = z.
Proof. intros. unfold i32. rewrite Z.mod_small; lia. Qed.
Lemma u64_range z : is_u64 (u64 z).
Proof. apply Z.mod_pos_bound. lia. Qed.
Lemma u32_range z : is_u32 (u32 z).
Proof. apply Z.mod_pos_bound. lia. Qed.
Lemma u8_range z : is_u8 (u8 z).
Proof. apply Z.mod_pos_bound. lia. Qed.

#[export] Hint Resolve u8_range u32_range u64_range : go.

(** Bit fields that do not overlap add up. *)
Lemma lor_shiftl_add a x n : 0 <= n -> 0 <= a < 2 ^ n -> Z.lor a (Z.shiftl x n) = a + x * 2 ^ n.
Proof.
  intros Hn Ha. rewrite <- Z.add_nocarry_lor; [by rewrite Z.shiftl_mul_pow2|].
  apply Z.bits_inj'. intros l Hl. rewrite Z.land_spec, Z.bits_0, Z.shiftl_spec by lia.
  destruct (Z.lt_ge_cases l n).
  - by rewrite (Z.testbit_neg_r x), andb_false_r by lia.
  - rewrite (proj1 (Z.bounded_iff_bits_nonneg' n a Hn (proj1 Ha)) Ha l) by lia. done.
Qed.

(** * Byte strings *)

Abbreviation bytes := (list Z).

Definition bytes_ok (l : bytes) : Prop := Forall is_u8 l.

#[export] Instance is_u8_dec z : Decision (is_u8 z).
Proof. unfold is_u8. apply _. Defined.
#[export] Instance is_u32_dec z : Decision (is_u32 z).
Proof. unfold is_u32. apply _. Defined.
#[export] Instance is_u64_dec z : Decision (is_u64 z).
Proof. unfold is_u64. apply _. Defined.
#[export] Instance bytes_ok_dec l : Decision (bytes_ok l).
Proof. unfold bytes_ok. apply _. Defined.

(** Go's [len] of a slice. *)
Definition blen {A} (l : list A) : Z := Z.of_nat (length l).

Definition zeros (n : Z) : bytes := replicate (Z.to_nat n) 0.

(** Go's [l[lo:hi]]: [None] is the run-time panic on bad bounds. *)
Definition slice {A} (l : list A) (lo hi : Z) : option (list A) :=
  if (0 <=? lo) && (lo <=? hi) && (hi <=? blen l)
  then Some (take (Z.to_nat (hi - lo)) (drop (Z.to_nat lo) l))
  else None.

(** Go's [l[i]]: [None] is the run-time panic. *)
Definition index {A} (l : list A) (i : Z) : option A :=
  if i <? 0 then None else l !! Z.to_nat i.

(** [copy(l[pos:pos+len(data)], data)] when the range is in bounds. *)
Definition splice (l : bytes) (pos : Z) (data : bytes) : bytes :=
  take (Z.to_nat pos) l ++ data ++ drop (Z.to_nat (pos + blen data)) l.

(** [binary.LittleEndian.PutUintXX] and [UintXX], [n] bytes. *)
Fixpoint le_bytes (n : nat) (v : Z) : bytes :=
  match n with
  | O => []
  | S n' => v mod 2 ^ 8 :: le_bytes n' (v / 2 ^ 8)
  end.

Fixpoint le_val (l : bytes) : Z :=
  match l with
  | [] => 0
  | b :: l' => b + 2 ^ 8 * le_val l'
  end.

(** [binary.BigEndian.PutUint64] and [Uint64]. *)
Definition be_bytes (n : nat) (v : Z) : bytes := rev (le_bytes n v).
Definition be_val (l : bytes) : Z := le_val (rev l).

(** ** Lengths *)

Lemma blen_nonneg {A} (l : list A) : 0 <= blen l.
Proof. unfold blen. lia. Qed.
Lemma blen_nil {A} : blen (@nil A) = 0.
Proof. done. Qed.
Lemma blen_cons {A} (x : A) l : blen (x :: l) = 1 + blen l.
Proof. unfold blen. simpl. lia. Qed.
Lemma blen_app {A} (l k : list A) : blen (l ++ k) = blen l + blen k.
Proof. unfold blen. rewrite length_app. lia. Qed.
Lemma blen_take {A} n (l : list A) :
  0 <= n -> blen (take (Z.to_nat n) l) = Z.min n (blen l).
Proof. unfold blen. rewrite length_take. lia. Qed.
Lemma blen_drop {A} n (l : list A) :
  0 <= n -> blen (drop (Z.to_nat n) l) = Z.max 0 (blen l - n).
Proof. unfold blen. rewrite length_drop. lia. Qed.
Lemma blen_zeros n : blen (zeros n) = Z.max 0 n.
Proof. unfold blen, zeros. rewrite length_replicate. lia. Qed.
Lemma blen_fmap {A B} (f : A -> B) l : blen (f <$> l) = blen l.
Proof. unfold blen. by rewrite length_fmap. Qed.
Lemma length_le_bytes n v : length (le_bytes n v) = n.
Proof. revert v. induction n; simpl; auto. Qed.
Lemma blen_le_bytes n v : blen (le_bytes n v) = Z.of_nat n.
Proof. unfold blen. by rewrite length_le_bytes. Qed.
Lemma blen_0_nil {A} (l : list A) : blen l = 0 -> l = [].
Proof. unfold blen. destruct l; simpl; [done | lia]. Qed.
Lemma to_nat_blen {A} (l : list A) : Z.to_nat (blen l) = length l.
Proof. unfold blen. lia. Qed.

#[export] Hint Rewrite @blen_nil @blen_cons @blen_app @blen_fmap blen_zeros blen_le_bytes : len.
#[export] Hint Rewrite @blen_take @blen_drop using lia : len.

(** Records that every length in sight is nonnegative. *)
Ltac blen_pos :=
  repeat match goal with
  | |- context [blen ?l] =>
      lazymatch goal with
      | _ : 0 <= blen l |- _ => fail
      | _ => pose proof (blen_nonneg l)
      end
  | _ : context [blen ?l] |- _ =>
      lazymatch goal with
      | _ : 0 <= blen l |- _ => fail
      | _ => pose proof (blen_nonneg l)
      end
  end.

(** Normalises lengths and calls [lia]. *)
Ltac len := blen_pos; autorewrite with len in *; blen_pos; try lia.

(** ** Slices *)

Lemma slice_mid {A} (a b c : list A) lo hi :
  lo = blen a -> hi = blen a + blen b -> slice (a ++ b ++ c) lo hi = Some b.
Proof.
  intros -> ->. unfold slice.
  replace (0 <=? blen a) with true by (symmetry; apply Z.leb_le; len).
  replace (blen a <=? blen a + blen b) with true by (symmetry; apply Z.leb_le; len).
  replace (blen a + blen b <=? blen (a ++ b ++ c)) with true
    by (symmetry; apply Z.leb_le; len).
  simpl. replace (blen a + blen b - blen a) with (blen b) by lia.
  by rewrite !to_nat_blen, drop_app_length, take_app_length.
Qed.

Lemma slice_prefix {A} (b c : list A) hi :
  hi = blen b -> slice (b ++ c) 0 hi = Some b.
Proof. intros ->. apply (slice_mid []); by len. Qed.

Lemma slice_suffix {A} (a b : list A) lo hi :
  lo = blen a -> hi = blen (a ++ b) -> slice (a ++ b) lo hi = Some b.
Proof.
  intros -> ->. pose proof (slice_mid a b [] (blen a) (blen a + blen b)) as H.
  rewrite app_nil_r in H. rewrite blen_app. by apply H.
Qed.

Lemma slice_Some {A} (l r : list A) lo hi :
  slice l lo hi = Some r -> 0 <= lo <= hi /\ hi <= blen l /\ blen r = hi - lo.
Proof.
  unfold slice. destruct (0 <=? lo) eqn:?; simpl; [|done].
  destruct (lo <=? hi) eqn:?; simpl; [|done].
  destruct (hi <=? blen l) eqn:?; [|done]. zbool. intros [= <-]. len.
Qed.

Lemma slice_in_bounds {A} (l : list A) lo hi :
  0 <= lo <= hi -> hi <= blen l ->
  slice l lo hi = Some (take (Z.to_nat (hi - lo)) (drop (Z.to_nat lo) l)).
Proof.
  intros. unfold slice.
  rewrite (proj2 (Z.leb_le 0 lo)), (proj2 (Z.leb_le lo hi)),
    (proj2 (Z.leb_le hi (blen l))) by lia. done.
Qed.

Lemma index_mid {A} (a : list A) x c i : i = blen a -> index (a ++ x :: c) i = Some x.
Proof.
  intros ->. unfold index. pose proof (blen_nonneg a).
  rewrite (proj2 (Z.ltb_ge (blen a) 0)) by lia.
  by rewrite to_nat_blen, list_lookup_middle.
Qed.

Lemma index_Some_lt {A} (l : list A) i x : index l i = Some x -> 0 <= i < blen l.
Proof.
  unfold index, blen. zcase; [done|]. intros ?%lookup_lt_Some. lia.
Qed.

Lemma index_lookup {A} (l : list A) (i : nat) : index l (Z.of_nat i) = l !! i.
Proof. unfold index. rewrite (proj2 (Z.ltb_ge _ _)) by lia. by rewrite Nat2Z.id. Qed.

Lemma splice_mid (a b c data : bytes) pos :
  pos = blen a -> blen data = blen b -> splice (a ++ b ++ c) pos data = a ++ data ++ c.
Proof.
  intros -> Hd. unfold splice.
  replace (Z.to_nat (blen a + blen data)) with (length a + length b)%nat by (unfold blen in *; lia).
  rewrite to_nat_blen, take_app_length, <- drop_drop, drop_app_length.
  by rewrite drop_app_length.
Qed.

Lemma blen_splice l pos data :
  0 <= pos -> pos + blen data <= blen l -> blen (splice l pos data) = blen l.
Proof. intros. unfold splice. len. Qed.

(** Any in-bounds position splits the list. *)
Lemma split_at {A} (l : list A) n :
  0 <= n <= blen l -> exists a b, l = a ++ b /\ blen a = n.
Proof.
  intros. exists (take (Z.to_nat n) l), (drop (Z.to_nat n) l).
  split; [by rewrite take_drop | len].
Qed.

Lemma zeros_split n m : 0 <= n <= m -> zeros m = zeros n ++ zeros (m - n).
Proof. intros. unfold zeros. rewrite <- replicate_add. f_equal. lia. Qed.

Lemma zeros_app n m : 0 <= n -> 0 <= m -> zeros n ++ zeros m = zeros (n + m).
Proof. intros. unfold zeros. rewrite <- replicate_add. f_equal. lia. Qed.

(** ** Little-endian integers *)

Lemma le_val_bytes n v : le_val (le_bytes n v) = v mod 2 ^ (8 * Z.of_nat n).
Proof.
  revert v. induction n as [|n IH]; intros v; [by rewrite Z.mod_1_r|].
  cbn [le_bytes le_val]. rewrite IH.
  replace (8 * Z.of_nat (S n)) with (8 + 8 * Z.of_nat n) by lia.
  rewrite Z.pow_add_r, Z.rem_mul_r by lia. lia.
Qed.

Lemma le_val_bytes_small n v :
  0 <= v < 2 ^ (8 * Z.of_nat n) -> le_val (le_bytes n v) = v.
Proof. intros. rewrite le_val_bytes. by apply Z.mod_small. Qed.

Lemma le_val_u32 v : is_u32 v -> le_val (le_bytes 4 v) = v.
Proof. intros H. by apply le_val_bytes_small. Qed.
Lemma le_val_u64 v : is_u64 v -> le_val (le_bytes 8 v) = v.
Proof. intros H. by apply le_val_bytes_small. Qed.

Lemma be_val_bytes_small n v :
  0 <= v < 2 ^ (8 * Z.of_nat n) -> be_val (be_bytes n v) = v.
Proof. intros. unfold be_val, be_bytes. rewrite rev_involutive. by apply le_val_bytes_small. Qed.

Lemma le_bytes_ok n v : bytes_ok (le_bytes n v).
Proof.
  revert v. induction n; intros v; constructor; [apply u8_range | apply IHn].
Qed.

Lemma le_val_range l : bytes_ok l -> 0 <= le_val l < 2 ^ (8 * blen l).
Proof.
  induction 1 as [|b l Hb _ IH]; [done|]. rewrite blen_cons. cbn [le_val].
  unfold is_u8 in Hb. replace (8 * (1 + blen l)) with (8 + 8 * blen l) by lia.
  pose proof (blen_nonneg l). rewrite Z.pow_add_r by lia. nia.
Qed.

Lemma bytes_ok_app l k : bytes_ok (l ++ k) <-> bytes_ok l /\ bytes_ok k.
Proof. apply Forall_app. Qed.
Lemma bytes_ok_zeros n : bytes_ok (zeros n).
Proof. apply Forall_replicate. unfold is_u8. lia. Qed.

#[export] Hint Resolve le_bytes_ok bytes_ok_zeros : go.

(** * Outcomes

    A Go call returns a value, returns an error, or ends the process or the
    goroutine ([log.Fatalf], [panic], a run-time panic). *)

Inductive error : Type :=
  (* storage/errors.go *)
  | ErrKeyNotFound | ErrKeyIsNil | ErrArgsIllegal | ErrNotContain
  | ErrOutOfBound | ErrNotContinuous | ErrClosed | ErrNotWritable
  (* etcd raft *)
  | ErrCompacted | ErrUnavailable | ErrSnapshotTemporarilyUnavailable | ErrProposalDropped
  (* storagepb *)
  | ErrIntOverflow | ErrInvalidLength | ErrUnexpectedEOF | ErrProto
  (* mysql/errors.go *)
  | ErrSQLNotSupport | ErrBadConn | ErrLargePacket | ErrChecksum | ErrUpdateState
  (* server/errors.go, where ErrNotContain is another error than that of storage *)
  | ErrStopped | ErrStarted | ErrCanceled | ErrTimeout | ErrNotEnoughStartedMembers | ErrUnhealthy
  | ErrUnsupport | ErrArgs | ErrSlaveNotContain | ErrUUIDIsNull
  (* raft/membership/errors.go *)
  | ErrIDRemoved | ErrIDExists | ErrIDNotFound | ErrPeerURLexists
  (* errors made with fmt.Errorf or errors.New where they are returned *)
  | ErrInvalidPayload | ErrInvalidSequence | ErrInvalidEvent | ErrGtidFormat | ErrFormat
  | ErrServerStopping | ErrRemovedSender
  | ErrConfigPath | ErrAdminURLs | ErrNoLocalMember | ErrInitialMissing | ErrPeerMissing | ErrUnresolved
  | ErrDuplicateURL | ErrClusterUnset | ErrReserveTooSmall | ErrFetchCluster | ErrPeerURLs | ErrBootstrapped
  | ErrNotWriteable | ErrNoSuchMember | ErrMemberRemoved | ErrNoResp
  (* api/errors.go *)
  | ErrNoLeader | ErrNotLeader
  (* errors of the vendored mysql package and of the SQL parser *)
  | ErrNoSuchUser | ErrAccessDenied | ErrSyntax | ErrDriverBadConn
  (* the standard library, and a panic that was recovered *)
  | ErrEOF | ErrJson | ErrRuntime
  (* bolt *)
  | ErrKeyRequired | ErrDatabaseNotOpen
  (* an error of the operating system *)
  | ErrOS (errno : Z).

#[export] Instance error_eq_dec : EqDecision error.
Proof. solve_decision. Defined.

Inductive res (A : Type) : Type :=
  | Ok (a : A)
  | Err (e : error)
  | Panic.
Arguments Ok {A} a.
Arguments Err {A} e.
Arguments Panic {A}.

(** A stateful Go call: the state survives an error, and what survives a
    panic is what a restarted process finds. *)
Definition St (S A : Type) : Type := S -> res A * S.

Definition ret {S A} (a : A) : St S A := fun s => (Ok a, s).
Definition throw {S A} (e : error) : St S A := fun s => (Err e, s).
Definition panic {S A} : St S A := fun s => (Panic, s).
Definition bind {S A B} (m : St S A) (f : A -> St S B) : St S B :=
  fun s => match m s with
           | (Ok a, s') => f a s'
           | (Err e, s') => (Err e, s')
           | (Panic, s') => (Panic, s')
           end.
Definition gets {S A} (f : S -> A) : St S A := fun s => (Ok (f s), s).
Definition modify {S} (f : S -> S) : St S unit := fun s => (Ok tt, f s).

(** [if err != nil { log.Log.Fatalf(...) }] *)
Definition fatal_on_err {S A} (m : St S A) : St S A :=
  fun s => match m s with
           | (Err _, s') => (Panic, s')
           | r => r
           end.

(** A Go expression that panics when [o] is [None]. *)
Definition must {S A} (o : option A) : St S A :=
  match o with Some a => ret a | None => panic end.

(** A pure fallible call inside a stateful one. *)
Definition lift {S A} (r : res A) : St S A := fun s => (r, s).

Notation "'let!' x ':=' m 'in' k" := (bind m (fun x => k))
  (at level 10, x pattern, m at level 100, k at level 200) : go_scope.
Notation "m ;! k" := (bind m (fun _ => k))
  (at level 100, k at level 200, right associativity) : go_scope.

(** Running a method of a component of the state. *)
Definition zoom {S T A} (get : S -> T) (put : T -> S -> S) (m : St T A) : St S A :=
  fun s => let '(r, t) := m (get s) in (r, put t s).

Lemma bind_ok {S A B} (m : St S A) (f : A -> St S B) s a s' :
  m s = (Ok a, s') -> bind m f s = f a s'.
Proof. unfold bind. by intros ->. Qed.
Lemma bind_gets {S A B} (g : S -> A) (f : A -> St S B) s : bind (gets g) f s = f (g s) s.
Proof. reflexivity. Qed.
Lemma bind_err {S A B} (m : St S A) (f : A -> St S B) s e s' :
  m s = (Err e, s') -> bind m f s = (Err e, s').
Proof. unfold bind. by intros ->. Qed.
Lemma bind_panic {S A B} (m : St S A) (f : A -> St S B) s s' :
  m s = (Panic, s') -> bind m f s = (Panic, s').
Proof. unfold bind. by intros ->. Qed.
Lemma bind_inv {S A B} (m : St S A) (f : A -> St S B) s b s' :
  bind m f s = (Ok b, s') -> exists a s1, m s = (Ok a, s1) /\ f a s1 = (Ok b, s').
Proof. unfold bind. destruct (m s) as [[] ?]; naive_solver. Qed.

Lemma bind_must {S A B} (a : A) (f : A -> St S B) s : bind (must (Some a)) f s = f a s.
Proof. done. Qed.

(** Steps through the first call of a sequence with a lemma about it. *)
Tactic Notation "step" uconstr(H) := erewrite bind_ok; [| eapply H]; cbn beta iota.
Ltac mstep := rewrite ?(bind_ok (ret _)) by reflexivity.

#[global] Arguments blen : simpl never.
#[global] Arguments zeros : simpl never.
#[global] Arguments slice : simpl never.
#[global] Arguments index : simpl never.
#[global] Arguments splice : simpl never.
#[global] Arguments le_val : simpl never.
