(* ===== verification/Timers.v ===== *)
(** Timers of the package time, and how command.go resets the one for heartbeats. *)
From S2P Require Import Prelude.

(** A timer runs or not; its channel has room for one value. *)
Module Timer.
Record t : Type := mk { running : bool; C : bool }.

Definition NewTimer : t := mk true false.

(** The time is over. *)
Definition fire (x : t) : option t := if running x then Some (mk false true) else None.

(** [<-t.C]. *)
Definition receive (x : t) : option t := if C x then Some (mk (running x) false) else None.

(** [Stop] tells whether the timer was running. *)
Definition Stop (x : t) : bool * t := (running x, mk false (C x)).
Definition Reset (x : t) : t := mk true (C x).

(** Nothing is to be received from the timer, now or later. *)
Definition spent (x : t) : Prop := running x = false /\ C x = false.

(** The value in the channel is that of the last time the timer was set. *)
Definition fresh (x : t) : Prop := running x = true -> C x = false.

Lemma spent_stays x : spent x -> fire x = None /\ receive x = None.
Proof. destruct x as [[] []]; by intros [? ?]. Qed.

Lemma receive_spends x y : fresh x -> receive x = Some y -> spent y.
Proof. destruct x as [[] []]; intros Hf; try done; [by specialize (Hf eq_refl)|]. by intros [= <-]. Qed.

Lemma fire_fresh x y : fire x = Some y -> fresh y /\ C y = true.
Proof. destruct x as [[] []]; by intros [= <-]. Qed.
End Timer.

(** [resetTime]. *)
Definition resetTime (x : Timer.t) : Timer.t :=
  let '(active, x) := Timer.Stop x in
  let x := if active then x else match Timer.receive x with Some x' => x' | None => x end in
  Timer.Reset x.

(** After a reset the whole period is waited for: a value that the timer had sent
    before is not taken for the new one. *)
Lemma resetTime_fresh x : Timer.fresh x -> resetTime x = Timer.NewTimer.
Proof. destruct x as [[] []]; intros Hf; try done. by specialize (Hf eq_refl). Qed.
