(* ===== verification/Wire.v ===== *)
(** The wire format of the log: protocol-buffer varints, the [Record] and
    [BinlogEvent] messages of storage/storagepb/record.pb.go, the raft [Entry]
    of the vendored raftpb, and the type-tagged payloads of utils/pb_utils.go. *)
From S2P Require Import Prelude.
Local Open Scope go_scope.

(** * Writing into a preallocated buffer

    [MarshalTo] writes at [dAtA[i]] and advances [i]; the state of a writer is
    the buffer and the offset. *)

Definition Writer : Type := St (bytes * Z) unit.

(** [dAtA[i] = b; i++] *)
Definition putb (b : Z) : Writer := fun '(dAtA, i) =>
  if (0 <=? i) && (i <? blen dAtA)
  then (Ok tt, (splice dAtA i [b], i + 1))
  else (Panic, (dAtA, i)).

(** [i += copy(dAtA[i:], data)] *)
Definition copyb (data : bytes) : Writer := fun '(dAtA, i) =>
  if (0 <=? i) && (i <=? blen dAtA)
  then let n := Z.min (blen data) (blen dAtA - i) in
       (Ok tt, (splice dAtA i (take (Z.to_nat n) data), i + n))
  else (Panic, (dAtA, i)).

(** A 64-bit value has at most ten groups of seven bits: the fuel of the two
    varint loops. *)
Definition varint_fuel : nat := 10.

Fixpoint encodeVarint_loop (fuel : nat) (v : Z) : Writer :=
  match fuel with
  | O => panic
  | S f =>
      if 128 <=? v
      then putb (u8 (Z.lor (Z.land v 127) 128)) ;! encodeVarint_loop f (Z.shiftr v 7)
      else putb (u8 v)
  end.

Definition encodeVarintRecord (v : Z) : Writer := encodeVarint_loop varint_fuel v.

(** The number of bytes of a varint: [n++; x >>= 7] until [x == 0]. *)
Fixpoint sov_loop (fuel : nat) (x : Z) : Z :=
  match fuel with
  | O => 0
  | S f => if Z.shiftr x 7 =? 0 then 1 else 1 + sov_loop f (Z.shiftr x 7)
  end.

Definition sovRecord (x : Z) : Z := sov_loop varint_fuel x.

(** * Reading *)

(** The varint loop shared by every field of the generated code,
    [for shift := uint(0); ; shift += 7]. [wrap] is the width of the variable
    the loop accumulates into; the fuel runs out exactly when [shift >= 64]. *)
Fixpoint varint_loop (wrap : Z -> Z) (dAtA : bytes) (fuel : nat) (shift acc : Z) : St Z Z :=
  match fuel with
  | O => throw ErrIntOverflow
  | S f => fun iNdEx =>
      if blen dAtA <=? iNdEx then (Err ErrUnexpectedEOF, iNdEx) else
      match index dAtA iNdEx with
      | None => (Panic, iNdEx)
      | Some b =>
          let acc' := Z.lor acc (wrap (Z.shiftl (Z.land b 127) shift)) in
          if b <? 128 then (Ok acc', iNdEx + 1)
          else varint_loop wrap dAtA f (shift + 7) acc' (iNdEx + 1)
      end
  end.

Definition varint (wrap : Z -> Z) (dAtA : bytes) : St Z Z :=
  varint_loop wrap dAtA varint_fuel 0 0.

(** [skipRecord] and the group loop of its wire type 3. *)
Fixpoint skip_loop (fuel : nat) (dAtA : bytes) : res Z :=
  match fuel with
  | O => Panic
  | S f =>
      if blen dAtA <=? 0 then Panic else
      fst ((let! wire := varint u64 dAtA in
            let wireType := Z.land wire 7 in
            if wireType =? 0 then varint u64 dAtA ;! gets id
            else if wireType =? 1 then gets (fun i => i64 (i + 8))
            else if wireType =? 2 then
              let! length := varint i64 dAtA in
              if length <? 0 then throw ErrInvalidLength
              else gets (fun i => i64 (i + length))
            else if wireType =? 3 then fun i => (skip_group f dAtA i, i)
            else if wireType =? 4 then gets id
            else if wireType =? 5 then gets (fun i => i64 (i + 4))
            else throw ErrProto) 0)
  end
with skip_group (fuel : nat) (dAtA : bytes) (start : Z) : res Z :=
  match fuel with
  | O => Panic
  | S f =>
      match varint u64 dAtA start with
      | (Ok innerWire, iNdEx) =>
          if Z.land innerWire 7 =? 4 then Ok iNdEx else
          match slice dAtA start (blen dAtA) with
          | None => Panic
          | Some rest =>
              match skip_loop f rest with
              | Ok next => skip_group f dAtA (i64 (start + next))
              | r => r
              end
          end
      | (Err e, _) => Err e
      | (Panic, _) => Panic
      end
  end.

(** Every recursive call of the skipper is on fewer bytes or at a later
    offset. *)
Definition skip_fuel (dAtA : bytes) : nat := 2 * length dAtA + 2.

Definition skipRecord (dAtA : bytes) : res Z := skip_loop (skip_fuel dAtA) dAtA.

(** ** The message loop of the generated [Unmarshal] methods *)

Section Unmarshal.
Context {M : Type}.

Variable field : bytes -> Z -> Z -> option (St (M * Z) unit).
Variable unrecognized : bytes -> M -> M.

Definition rd {A} (r : St Z A) : St (M * Z) A :=
  fun '(m, i) => let '(x, i') := r i in (x, (m, i')).

(** A varint field: wrong wire type, reset to zero, then the loop. *)
Definition uint_field (wrap : Z -> Z) (set : Z -> M -> M) (dAtA : bytes) (wireType : Z)
  : St (M * Z) unit :=
  if negb (wireType =? 0) then throw ErrProto else
  modify (fun '(m, i) => (set 0 m, i)) ;!
  let! v := rd (varint wrap dAtA) in
  modify (fun '(m, i) => (set v m, i)).

(** A length-delimited field. [postIndex] wraps like Go's [int]. *)
Definition bytes_field (set : bytes -> M -> M) (dAtA : bytes) (wireType : Z)
  : St (M * Z) unit :=
  if negb (wireType =? 2) then throw ErrProto else
  let! byteLen := rd (varint i64 dAtA) in
  if byteLen <? 0 then throw ErrInvalidLength else
  let! iNdEx := gets snd in
  let postIndex := i64 (iNdEx + byteLen) in
  if blen dAtA <? postIndex then throw ErrUnexpectedEOF else
  let! data := must (slice dAtA iNdEx postIndex) in
  modify (fun '(m, _) => (set data m, postIndex)).

(** The [default] case: skip the field and keep its bytes. *)
Definition skip_field (dAtA : bytes) (preIndex : Z) : St (M * Z) unit :=
  let! rest := must (slice dAtA preIndex (blen dAtA)) in
  let! skippy := lift (skipRecord rest) in
  if skippy <? 0 then throw ErrInvalidLength else
  let postIndex := i64 (preIndex + skippy) in
  if blen dAtA <? postIndex then throw ErrUnexpectedEOF else
  let! data := must (slice dAtA preIndex postIndex) in
  modify (fun '(m, _) => (unrecognized data m, postIndex)).

Definition unmarshal_field (dAtA : bytes) : St (M * Z) unit :=
  let! preIndex := gets snd in
  let! wire := rd (varint u64 dAtA) in
  let fieldNum := i32 (Z.shiftr wire 3) in
  let wireType := Z.land wire 7 in
  if wireType =? 4 then throw ErrProto else
  if fieldNum <=? 0 then throw ErrProto else
  match field dAtA fieldNum wireType with
  | Some h => h
  | None => skip_field dAtA preIndex
  end.

Fixpoint unmarshal_loop (fuel : nat) (dAtA : bytes) : St (M * Z) unit :=
  let! iNdEx := gets snd in
  if iNdEx <? blen dAtA then
    match fuel with
    | O => panic
    | S f => unmarshal_field dAtA ;! unmarshal_loop f dAtA
    end
  else if blen dAtA <? iNdEx then throw ErrUnexpectedEOF else ret tt.

(** Every iteration consumes at least one byte. *)
Definition unmarshal (m : M) (dAtA : bytes) : res unit * M :=
  let '(r, (m', _)) := unmarshal_loop (length dAtA) dAtA (m, 0) in (r, m').

End Unmarshal.

(** * Messages

    A [nil] slice is [None]; the generated code writes a field exactly when
    its slice is not [nil]. *)

Definition append_opt (o : option bytes) (x : bytes) : option bytes :=
  match o, x with
  | None, [] => None
  | None, _ => Some x
  | Some y, _ => Some (y ++ x)
  end.

(** [make([]byte, m.Size())], [MarshalTo], [dAtA[:n]]. *)
Definition marshal_with (size : Z) (marshalTo : Writer) : res bytes :=
  match marshalTo (zeros size, 0) with
  | (Ok tt, (dAtA, n)) =>
      match slice dAtA 0 n with Some b => Ok b | None => Panic end
  | (Err e, _) => Err e
  | (Panic, _) => Panic
  end.

Definition put_opt (tag : Z) (o : option bytes) : Writer :=
  match o with
  | None => ret tt
  | Some data => putb tag ;! encodeVarintRecord (u64 (blen data)) ;! copyb data
  end.

Definition put_raw (o : option bytes) : Writer :=
  match o with None => ret tt | Some data => copyb data end.

Definition size_opt (o : option bytes) : Z :=
  match o with
  | None => 0
  | Some data => 1 + blen data + sovRecord (u64 (blen data))
  end.

Definition size_raw (o : option bytes) : Z :=
  match o with None => 0 | Some data => blen data end.

(** ** storagepb.Record *)
Module Record.

Record t : Type := mk { Crc : Z; Data : option bytes; XXX_unrecognized : option bytes }.

Definition zero : t := mk 0 None None.

Definition Size (m : t) : Z :=
  1 + sovRecord (u64 (Crc m)) + size_opt (Data m) + size_raw (XXX_unrecognized m).

Definition MarshalTo (m : t) : Writer :=
  putb 8 ;! encodeVarintRecord (u64 (Crc m)) ;!
  put_opt 18 (Data m) ;!
  put_raw (XXX_unrecognized m).

Definition Marshal (m : t) : res bytes := marshal_with (Size m) (MarshalTo m).

Definition set_Crc (v : Z) (m : t) : t := mk v (Data m) (XXX_unrecognized m).
Definition set_Data (d : bytes) (m : t) : t := mk (Crc m) (Some d) (XXX_unrecognized m).
Definition add_unrecognized (d : bytes) (m : t) : t :=
  mk (Crc m) (Data m) (append_opt (XXX_unrecognized m) d).

Definition field (dAtA : bytes) (fieldNum wireType : Z) : option (St (t * Z) unit) :=
  if fieldNum =? 1 then Some (uint_field u32 set_Crc dAtA wireType)
  else if fieldNum =? 2 then Some (bytes_field set_Data dAtA wireType)
  else None.

(** Decodes into an existing message: fields that are absent keep their value. *)
Definition Unmarshal (m : t) (dAtA : bytes) : res unit * t :=
  unmarshal field add_unrecognized m dAtA.

End Record.

(** ** storagepb.BinlogEvent *)
Module BinlogEvent.

Record t : Type := mk {
  Type_ : Z; Flavor : Z; DividedCount : Z; DividedSeqNum : Z;
  Data : option bytes; XXX_unrecognized : option bytes }.

Definition FlavorType_MySQL : Z := 0.
Definition FlavorType_Maria : Z := 1.

Definition zero : t := mk 0 FlavorType_MySQL 0 0 None None.

Definition Size (m : t) : Z :=
  1 + sovRecord (u64 (Type_ m)) +
  (1 + sovRecord (u64 (Flavor m))) +
  (1 + sovRecord (u64 (DividedCount m))) +
  (1 + sovRecord (u64 (DividedSeqNum m))) +
  size_opt (Data m) + size_raw (XXX_unrecognized m).

Definition MarshalTo (m : t) : Writer :=
  putb 8 ;! encodeVarintRecord (u64 (Type_ m)) ;!
  putb 16 ;! encodeVarintRecord (u64 (Flavor m)) ;!
  putb 24 ;! encodeVarintRecord (u64 (DividedCount m)) ;!
  putb 32 ;! encodeVarintRecord (u64 (DividedSeqNum m)) ;!
  put_opt 42 (Data m) ;!
  put_raw (XXX_unrecognized m).

Definition Marshal (m : t) : res bytes := marshal_with (Size m) (MarshalTo m).

Definition set_Type (v : Z) (m : t) : t :=
  mk v (Flavor m) (DividedCount m) (DividedSeqNum m) (Data m) (XXX_unrecognized m).
Definition set_Flavor (v : Z) (m : t) : t :=
  mk (Type_ m) v (DividedCount m) (DividedSeqNum m) (Data m) (XXX_unrecognized m).
Definition set_DividedCount (v : Z) (m : t) : t :=
  mk (Type_ m) (Flavor m) v (DividedSeqNum m) (Data m) (XXX_unrecognized m).
Definition set_DividedSeqNum (v : Z) (m : t) : t :=
  mk (Type_ m) (Flavor m) (DividedCount m) v (Data m) (XXX_unrecognized m).
Definition set_Data (d : bytes) (m : t) : t :=
  mk (Type_ m) (Flavor m) (DividedCount m) (DividedSeqNum m) (Some d) (XXX_unrecognized m).
Definition add_unrecognized (d : bytes) (m : t) : t :=
  mk (Type_ m) (Flavor m) (DividedCount m) (DividedSeqNum m) (Data m)
     (append_opt (XXX_unrecognized m) d).

Definition field (dAtA : bytes) (fieldNum wireType : Z) : option (St (t * Z) unit) :=
  if fieldNum =? 1 then Some (uint_field u32 set_Type dAtA wireType)
  else if fieldNum =? 2 then Some (uint_field i32 set_Flavor dAtA wireType)
  else if fieldNum =? 3 then Some (uint_field u32 set_DividedCount dAtA wireType)
  else if fieldNum =? 4 then Some (uint_field u32 set_DividedSeqNum dAtA wireType)
  else if fieldNum =? 5 then Some (bytes_field set_Data dAtA wireType)
  else None.

Definition Unmarshal (m : t) (dAtA : bytes) : res unit * t :=
  unmarshal field add_unrecognized m dAtA.

End BinlogEvent.

(** ** raftpb.Entry (vendored etcd) *)
Module Entry.

Record t : Type := mk {
  Term : Z; Index : Z; Type_ : Z; Data : option bytes; XXX_unrecognized : option bytes }.

Definition EntryNormal : Z := 0.
Definition EntryConfChange : Z := 1.

Definition zero : t := mk 0 0 EntryNormal None None.

Definition Size (m : t) : Z :=
  1 + sovRecord (u64 (Type_ m)) +
  (1 + sovRecord (u64 (Term m))) +
  (1 + sovRecord (u64 (Index m))) +
  size_opt (Data m) + size_raw (XXX_unrecognized m).

Definition MarshalTo (m : t) : Writer :=
  putb 8 ;! encodeVarintRecord (u64 (Type_ m)) ;!
  putb 16 ;! encodeVarintRecord (u64 (Term m)) ;!
  putb 24 ;! encodeVarintRecord (u64 (Index m)) ;!
  put_opt 34 (Data m) ;!
  put_raw (XXX_unrecognized m).

Definition Marshal (m : t) : res bytes := marshal_with (Size m) (MarshalTo m).

Definition set_Type (v : Z) (m : t) : t :=
  mk (Term m) (Index m) v (Data m) (XXX_unrecognized m).
Definition set_Term (v : Z) (m : t) : t :=
  mk v (Index m) (Type_ m) (Data m) (XXX_unrecognized m).
Definition set_Index (v : Z) (m : t) : t :=
  mk (Term m) v (Type_ m) (Data m) (XXX_unrecognized m).
Definition set_Data (d : bytes) (m : t) : t :=
  mk (Term m) (Index m) (Type_ m) (Some d) (XXX_unrecognized m).
Definition add_unrecognized (d : bytes) (m : t) : t :=
  mk (Term m) (Index m) (Type_ m) (Data m) (append_opt (XXX_unrecognized m) d).

Definition field (dAtA : bytes) (fieldNum wireType : Z) : option (St (t * Z) unit) :=
  if fieldNum =? 1 then Some (uint_field i32 set_Type dAtA wireType)
  else if fieldNum =? 2 then Some (uint_field u64 set_Term dAtA wireType)
  else if fieldNum =? 3 then Some (uint_field u64 set_Index dAtA wireType)
  else if fieldNum =? 4 then Some (bytes_field set_Data dAtA wireType)
  else None.

Definition Unmarshal (m : t) (dAtA : bytes) : res unit * t :=
  unmarshal field add_unrecognized m dAtA.

(** [len(e.Data)]: the length of a nil slice is 0. *)
Definition data (e : t) : bytes := default [] (Data e).

End Entry.

(** * hash/crc32, polynomial IEEE (reflected 0xedb88320) *)

Fixpoint crc_bits (n : nat) (c : Z) : Z :=
  match n with
  | O => c
  | S n' => crc_bits n' (if Z.testbit c 0 then Z.lxor (Z.shiftr c 1) 3988292384
                         else Z.shiftr c 1)
  end.

Definition crc_byte (c b : Z) : Z :=
  let t := Z.lxor c b in
  Z.lxor (crc_bits 8 (Z.land t 255)) (Z.shiftr c 8).

Definition ChecksumIEEE (data : bytes) : Z :=
  u32 (Z.lxor (foldl crc_byte 4294967295 data) 4294967295).

(** * utils/pb_utils.go *)

Definition MySQLBinlogEventType : Z := 1.
Definition NodeAttributesType : Z := 2.
Definition SyncerArgsType : Z := 3.
Definition MasterInfoType : Z := 4.
Definition MasterGtidPurgedType : Z := 5.

Definition EncodeBinlogEvent (e : BinlogEvent.t) : res bytes :=
  match BinlogEvent.Marshal e with
  | Ok data => Ok (MySQLBinlogEventType :: data)
  | r => r
  end.

Definition IsBinlogEvent (e : Entry.t) : bool :=
  (Entry.Type_ e =? Entry.EntryNormal) &&
  match Entry.data e with b :: _ => b =? MySQLBinlogEventType | [] => false end.

(** [MustUnmarshal] panics on an error; [e.Data[1:]] on an empty payload. *)
Definition DecodeBinlogEvent (e : Entry.t) : res BinlogEvent.t :=
  match slice (Entry.data e) 1 (blen (Entry.data e)) with
  | None => Panic
  | Some body =>
      match BinlogEvent.Unmarshal BinlogEvent.zero body with
      | (Ok _, m) => Ok m
      | (_, _) => Panic
      end
  end.

Example crc_check : ChecksumIEEE [49;50;51;52;53;54;55;56;57] = 3421780262.
Proof. vm_compute. reflexivity. Qed.
Example rec_ex : Record.Marshal (Record.mk 300 (Some [1;2;3]) None) = Ok [8;172;2;18;3;1;2;3].
Proof. vm_compute. reflexivity. Qed.
Example rec_ex2 : Record.Unmarshal Record.zero [8;172;2;18;3;1;2;3] = (Ok tt, Record.mk 300 (Some [1;2;3]) None).
Proof. vm_compute. reflexivity. Qed.
Example rec_ex3 : Record.Unmarshal Record.zero [18;255;255;255;255;255;255;255;255;127] = (Panic, Record.zero).
Proof. vm_compute. reflexivity. Qed.
Example rec_ex4 : Record.Unmarshal Record.zero [27;8;3;34;1;7;28;8;5] = (Ok tt, Record.mk 5 None (Some [27;8;3;34;1;7;28])).
Proof. vm_compute. reflexivity. Qed.

(** * Writers emit *)

(** [w] writes exactly [bs] at the offset, whatever the buffer holds. *)
Definition emits (w : Writer) (bs : bytes) : Prop :=
  forall pre rest, blen bs <= blen rest ->
    w (pre ++ rest, blen pre) =
      (Ok tt, ((pre ++ bs) ++ drop (length bs) rest, blen (pre ++ bs))).

Lemma emits_ret : emits (ret tt) [].
Proof. intros pre rest _. by rewrite app_nil_r. Qed.

Lemma emits_putb b : emits (putb b) [b].
Proof.
  intros pre rest Hl. unfold putb. destruct rest as [|x rest]; [by len|].
  rewrite (proj2 (Z.leb_le _ _)), (proj2 (Z.ltb_lt _ _)) by len.
  cbn [andb]. rewrite (splice_mid pre [x] rest) by len.
  rewrite <- app_assoc. cbn. rewrite drop_0. repeat f_equal. len.
Qed.

Lemma emits_copyb data : emits (copyb data) data.
Proof.
  intros pre rest Hl. unfold copyb.
  rewrite (proj2 (Z.leb_le _ _)), (proj2 (Z.leb_le (blen pre) _)) by len.
  cbn [andb]. rewrite Z.min_l by len. rewrite to_nat_blen, take_ge by lia.
  destruct (split_at rest (blen data)) as (a & b & -> & Ha); [len|].
  rewrite (splice_mid pre a b) by len.
  assert (length data = length a) as -> by (unfold blen in *; lia).
  rewrite drop_app_length, <- app_assoc. repeat f_equal. len.
Qed.

Lemma emits_seq w1 w2 bs1 bs2 :
  emits w1 bs1 -> emits w2 bs2 -> emits (w1 ;! w2) (bs1 ++ bs2).
Proof.
  intros H1 H2 pre rest Hl. rewrite blen_app in Hl. pose proof (blen_nonneg bs2).
  erewrite bind_ok by (apply H1; lia). rewrite H2.
  { by rewrite drop_drop, length_app, app_assoc. }
  unfold blen in *. rewrite length_drop. lia.
Qed.

#[export] Hint Resolve emits_ret emits_putb emits_copyb emits_seq : go.

(** The bytes of a varint. *)
Fixpoint varint_bytes (fuel : nat) (v : Z) : bytes :=
  match fuel with
  | O => []
  | S f => if 128 <=? v then (Z.land v 127 + 128) :: varint_bytes f (Z.shiftr v 7)
           else [v]
  end.
Definition vbytes (v : Z) : bytes := varint_bytes varint_fuel v.

Lemma land_127 v : Z.land v 127 = v mod 128.
Proof. apply (Z.land_ones v 7). lia. Qed.
Lemma shiftr_7 v : Z.shiftr v 7 = v / 128.
Proof. by rewrite Z.shiftr_div_pow2. Qed.

Lemma lor_128 x : 0 <= x < 128 -> Z.lor x 128 = x + 128.
Proof. intros. apply (lor_shiftl_add x 1 7); lia. Qed.

Lemma pow_7_S k : 2 ^ (7 * Z.of_nat (S k)) = 128 * 2 ^ (7 * Z.of_nat k).
Proof. replace (7 * Z.of_nat (S k)) with (7 + 7 * Z.of_nat k) by lia. by rewrite Z.pow_add_r by lia. Qed.

(** The rest of a multi-byte varint is in the range of one group fewer. *)
Lemma varint_rest k v :
  128 <= v < 2 ^ (7 * Z.of_nat (S k)) -> (0 < k)%nat /\ 0 <= v / 128 < 2 ^ (7 * Z.of_nat k).
Proof.
  rewrite pow_7_S. intros Hv. split.
  - destruct k; [change (2 ^ (7 * Z.of_nat 0)) with 1 in Hv|]; lia.
  - split; [apply Z.div_pos | apply Z.div_lt_upper_bound]; lia.
Qed.

Lemma emits_encodeVarint_loop k v :
  (0 < k)%nat -> 0 <= v < 2 ^ (7 * Z.of_nat k) ->
  emits (encodeVarint_loop k v) (varint_bytes k v).
Proof.
  revert v. induction k as [|k IH]; intros v Hk Hv; [lia|].
  cbn [encodeVarint_loop varint_bytes]. zcase.
  - rewrite shiftr_7. rewrite land_127, lor_128 by (apply Z.mod_pos_bound; lia).
    rewrite u8_small by (unfold is_u8; pose proof (Z.mod_pos_bound v 128); lia).
    apply (emits_seq _ _ [_]); [apply emits_putb|].
    destruct (varint_rest k v); [lia|]. by apply IH.
  - rewrite u8_small by (unfold is_u8; lia). apply emits_putb.
Qed.

Lemma u64_70 v : is_u64 v -> 0 <= v < 2 ^ (7 * Z.of_nat varint_fuel).
Proof. unfold is_u64, varint_fuel. change (2 ^ (7 * Z.of_nat 10)) with (2 ^ 70). lia. Qed.

Lemma emits_encodeVarintRecord v : is_u64 v -> emits (encodeVarintRecord v) (vbytes v).
Proof. intros. apply emits_encodeVarint_loop; [unfold varint_fuel; lia | by apply u64_70]. Qed.

Lemma sov_loop_length k v :
  0 <= v < 2 ^ (7 * Z.of_nat k) -> blen (varint_bytes k v) = sov_loop k v.
Proof.
  revert v. induction k as [|k IH]; intros v Hv; [done|].
  cbn [sov_loop varint_bytes]. rewrite shiftr_7.
  destruct (128 <=? v) eqn:E; zbool.
  - rewrite (proj2 (Z.eqb_neq _ _)) by (enough (1 <= v / 128) by lia; apply Z.div_le_lower_bound; lia).
    rewrite blen_cons, IH; [done|]. apply varint_rest; lia.
  - by rewrite Z.div_small by lia.
Qed.

Lemma blen_vbytes v : is_u64 v -> blen (vbytes v) = sovRecord v.
Proof. intros. apply sov_loop_length. by apply u64_70. Qed.

Lemma varint_bytes_ok k v : 0 <= v -> bytes_ok (varint_bytes k v).
Proof.
  revert v. induction k as [|k IH]; intros v Hv; [constructor|]. cbn. zcase.
  - constructor; [rewrite land_127; unfold is_u8; pose proof (Z.mod_pos_bound v 128); lia|].
    apply IH. by apply Z.shiftr_nonneg.
  - constructor; [unfold is_u8; lia | constructor].
Qed.

Lemma varint_bytes_pos k v : (0 < k)%nat -> 1 <= blen (varint_bytes k v).
Proof. destruct k; [lia|]. intros _. cbn. zcase; len. Qed.

(** A buffer of the announced size is filled exactly. *)
Lemma marshal_with_ok size w bs :
  emits w bs -> size = blen bs -> marshal_with size w = Ok bs.
Proof.
  intros Hw ->. unfold marshal_with.
  pose proof (Hw [] (zeros (blen bs))) as H. cbn in H. rewrite blen_nil in H.
  rewrite H by len. rewrite drop_ge by (unfold zeros; rewrite length_replicate; unfold blen; lia).
  rewrite app_nil_r. unfold slice. rewrite !(proj2 (Z.leb_le _ _)) by len.
  cbn. rewrite Z.sub_0_r, to_nat_blen. by rewrite drop_0, take_ge.
Qed.

(** * Readers invert writers *)

Lemma varint_loop_read wrap V k v shift acc pre post :
  (forall z, 0 <= z <= V -> wrap z = z) ->
  (0 < k)%nat -> 0 <= v < 2 ^ (7 * Z.of_nat k) ->
  0 <= shift -> 0 <= acc < 2 ^ shift -> acc + v * 2 ^ shift <= V ->
  varint_loop wrap (pre ++ varint_bytes k v ++ post) k shift acc (blen pre) =
    (Ok (acc + v * 2 ^ shift), blen (pre ++ varint_bytes k v)).
Proof.
  intros Hw. revert v shift acc pre. induction k as [|k IH]; intros v shift acc pre Hk Hv Hs Ha HV; [lia|].
  cbn [varint_loop varint_bytes]. destruct (128 <=? v) eqn:E; zbool.
  - pose proof (Z.mod_pos_bound v 128). pose proof (Z.div_mod v 128).
    rewrite (proj2 (Z.leb_gt _ _)) by len.
    cbn [app]. rewrite index_mid by done.
    rewrite (proj2 (Z.ltb_ge _ _)) by (rewrite land_127; lia).
    rewrite !land_127, shiftr_7. replace ((v mod 128 + 128) mod 128) with (v mod 128)
      by (rewrite Zplus_mod, Z.mod_same, Z.add_0_r, !Z.mod_mod; lia).
    assert (Z.shiftl (v mod 128) shift <= V).
    { rewrite Z.shiftl_mul_pow2 by lia. etransitivity; [|exact HV].
      pose proof (Z.pow_pos_nonneg 2 shift). nia. }
    rewrite Hw by (split; [apply Z.shiftl_nonneg; lia | lia]).
    rewrite lor_shiftl_add by lia.
    replace (pre ++ (v mod 128 + 128) :: varint_bytes k (v / 128) ++ post)
      with ((pre ++ [v mod 128 + 128]) ++ varint_bytes k (v / 128) ++ post)
      by (by rewrite <- app_assoc).
    replace (blen pre + 1) with (blen (pre ++ [v mod 128 + 128])) by len.
    destruct (varint_rest k v) as [? ?]; [lia|].
    assert (acc + v mod 128 * 2 ^ shift + v / 128 * 2 ^ (shift + 7) = acc + v * 2 ^ shift) as Hsum.
    { rewrite Z.pow_add_r by lia. change (2 ^ 7) with 128. nia. }
    rewrite IH by (rewrite ?Hsum, ?Z.pow_add_r; try lia; change (2 ^ 7) with 128; nia).
    by rewrite Hsum, <- app_assoc.
  - rewrite (proj2 (Z.leb_gt _ _)) by len.
    cbn [app]. rewrite index_mid by done. rewrite (proj2 (Z.ltb_lt _ _)) by lia.
    rewrite land_127, Z.mod_small by lia.
    rewrite Hw by (rewrite Z.shiftl_mul_pow2 by lia; pose proof (Z.pow_pos_nonneg 2 shift); nia).
    rewrite lor_shiftl_add by lia. f_equal. len.
Qed.

(** Reading back a varint into a variable wide enough for it. *)
Lemma varint_read wrap v pre post :
  (forall z, 0 <= z <= v -> wrap z = z) -> is_u64 v ->
  varint wrap (pre ++ vbytes v ++ post) (blen pre) = (Ok v, blen (pre ++ vbytes v)).
Proof.
  intros Hw Hv. unfold varint, vbytes. rewrite (varint_loop_read wrap v) with (k := varint_fuel);
    try done; try (unfold varint_fuel; lia); try lia.
  - repeat f_equal. lia.
  - by apply u64_70.
Qed.

Lemma u64_upto v : is_u64 v -> forall z, 0 <= z <= v -> u64 z = z.
Proof. unfold is_u64. intros. apply u64_small. unfold is_u64. lia. Qed.
Lemma u32_upto v : is_u32 v -> forall z, 0 <= z <= v -> u32 z = z.
Proof. unfold is_u32. intros. apply u32_small. unfold is_u32. lia. Qed.
Lemma i32_upto v : 0 <= v < 2 ^ 31 -> forall z, 0 <= z <= v -> i32 z = z.
Proof. intros. apply i32_small. lia. Qed.
Lemma i64_upto v : 0 <= v < 2 ^ 63 -> forall z, 0 <= z <= v -> i64 z = z.
Proof. intros. apply i64_small. lia. Qed.

Lemma vbytes_small v : 0 <= v < 128 -> vbytes v = [v].
Proof. intros. unfold vbytes. cbn. by rewrite (proj2 (Z.leb_gt _ _)) by lia. Qed.

Section Fields.
Context {M : Type}.
Variable field : bytes -> Z -> Z -> option (St (M * Z) unit).
Variable unrecognized : bytes -> M -> M.

(** [chunk] is one field of the message: it makes the message loop advance
    past it and change the message by [upd]. *)
Definition decodes (chunk : bytes) (upd : M -> M) : Prop :=
  forall pre post m fuel, blen (pre ++ chunk ++ post) < 2 ^ 63 ->
    unmarshal_loop field unrecognized (S fuel) (pre ++ chunk ++ post) (m, blen pre) =
    unmarshal_loop field unrecognized fuel (pre ++ chunk ++ post) (upd m, blen (pre ++ chunk)).

(** A one-byte tag selects its field handler. *)
Lemma unmarshal_field_tag tag pre rest m h :
  0 <= tag < 128 -> Z.land tag 7 <> 4 -> 0 < Z.shiftr tag 3 ->
  field (pre ++ tag :: rest) (Z.shiftr tag 3) (Z.land tag 7) = Some h ->
  unmarshal_field field unrecognized (pre ++ tag :: rest) (m, blen pre) =
  h (m, blen (pre ++ [tag])).
Proof.
  intros Htag Hwt Hfn Hf.
  unfold unmarshal_field. unfold bind at 1, gets at 1. cbn [snd].
  assert (is_u64 tag) as H64 by (unfold is_u64; lia).
  pose proof (varint_read u64 tag pre rest (u64_upto _ H64) H64) as Hr.
  rewrite vbytes_small in Hr by done.
  erewrite bind_ok; [|unfold rd; cbn [app] in *; rewrite Hr; reflexivity]. cbn beta.
  assert (Z.shiftr tag 3 <= tag) as Hs.
  { rewrite Z.shiftr_div_pow2 by lia. apply Z.div_le_upper_bound; lia. }
  rewrite i32_small by lia. rewrite (proj2 (Z.eqb_neq _ _)), (proj2 (Z.leb_gt _ _)) by done.
  by rewrite Hf.
Qed.

(** A zero byte is not a tag. *)
Lemma unmarshal_zero m rest :
  unmarshal field unrecognized m (0 :: rest) = (Err ErrProto, m).
Proof.
  assert (is_u64 0) as H0 by (unfold is_u64; lia).
  pose proof (varint_read u64 0 [] rest (u64_upto _ H0) H0) as Hr.
  rewrite vbytes_small in Hr by lia. cbn [app] in Hr. change (blen []) with 0 in Hr.
  unfold unmarshal. cbn [length unmarshal_loop]. rewrite (bind_ok (gets _) _ _ _ _ eq_refl). cbn [snd].
  rewrite (proj2 (Z.ltb_lt _ _)) by len.
  unfold unmarshal_field, bind at 1 2 3, gets, rd. cbn [snd]. rewrite Hr. reflexivity.
Qed.

Lemma decodes_tag tag body upd h :
  0 <= tag < 128 -> Z.land tag 7 <> 4 -> 0 < Z.shiftr tag 3 ->
  (forall dAtA, field dAtA (Z.shiftr tag 3) (Z.land tag 7) = Some (h dAtA)) ->
  (forall pre post m, blen (pre ++ body ++ post) < 2 ^ 63 ->
     h (pre ++ body ++ post) (m, blen pre) = (Ok tt, (upd m, blen (pre ++ body)))) ->
  decodes (tag :: body) upd.
Proof.
  intros Htag Hwt Hfn Hf Hh pre post m fuel Hl.
  cbn [unmarshal_loop]. unfold bind at 1, gets at 1. cbn [snd fst].
  rewrite (proj2 (Z.ltb_lt _ _)) by len.
  erewrite bind_ok; [reflexivity|]. cbn [app].
  rewrite (unmarshal_field_tag tag) with (h := h (pre ++ tag :: body ++ post)) by done.
  change (tag :: body ++ post) with ([tag] ++ body ++ post).
  rewrite app_assoc. rewrite Hh by (cbn [app] in Hl; len). by rewrite <- app_assoc.
Qed.

Lemma decodes_uint wrap set v tag n :
  (forall z, 0 <= z <= v -> wrap z = z) -> is_u64 v ->
  0 <= tag < 128 -> Z.land tag 7 = 0 -> 0 < Z.shiftr tag 3 -> n = Z.shiftr tag 3 ->
  (forall dAtA wt, field dAtA n wt = Some (uint_field wrap set dAtA wt)) ->
  decodes (tag :: vbytes v) (fun m => set v (set 0 m)).
Proof.
  intros Hw Hv Ht Hwt Hn -> Hf.
  apply decodes_tag with (h := fun dAtA => uint_field wrap set dAtA 0); try done; try lia.
  { intros. by rewrite Hwt. }
  intros pre post m Hl. unfold uint_field. cbn [Z.eqb negb].
  unfold bind at 1, modify at 1.
  erewrite bind_ok; [|unfold rd; rewrite varint_read by done; reflexivity]. done.
Qed.

Lemma decodes_bytes set d tag n :
  bytes_ok d -> blen d < 2 ^ 63 ->
  0 <= tag < 128 -> Z.land tag 7 = 2 -> 0 < Z.shiftr tag 3 -> n = Z.shiftr tag 3 ->
  (forall dAtA wt, field dAtA n wt = Some (bytes_field set dAtA wt)) ->
  decodes (tag :: vbytes (blen d) ++ d) (set d).
Proof.
  intros Hd Hl Ht Hwt Hn -> Hf.
  apply decodes_tag with (h := fun dAtA => bytes_field set dAtA 2); try done; try lia.
  { intros. by rewrite Hwt. }
  intros pre post m Hall. unfold bytes_field. change (negb (2 =? 2)) with false. cbn iota.
  replace (pre ++ (vbytes (blen d) ++ d) ++ post) with (pre ++ vbytes (blen d) ++ d ++ post)
    by (by rewrite <- app_assoc).
  erewrite bind_ok; [|unfold rd; rewrite varint_read; [reflexivity| |]].
  2: { apply i64_upto. len. }
  2: { unfold is_u64. len. }
  cbn beta. rewrite (proj2 (Z.ltb_ge _ _)) by len.
  unfold bind at 1, gets at 1. cbn [snd].
  assert (i64 (blen (pre ++ vbytes (blen d)) + blen d) =
          blen (pre ++ vbytes (blen d)) + blen d) as -> by (apply i64_small; len).
  rewrite (proj2 (Z.ltb_ge _ _)) by len.
  rewrite app_assoc, (slice_mid _ d) by done.
  unfold must, bind, ret, modify. do 2 f_equal. len.
Qed.

Lemma unmarshal_chunks (l : list (bytes * (M -> M))) :
  Forall (fun cu => decodes cu.1 cu.2) l ->
  forall pre m fuel, (length l <= fuel)%nat -> blen (pre ++ concat l.*1) < 2 ^ 63 ->
    unmarshal_loop field unrecognized fuel (pre ++ concat l.*1) (m, blen pre) =
      (Ok tt, (foldl (fun m f => f m) m l.*2, blen (pre ++ concat l.*1))).
Proof.
  induction 1 as [|[c u] l Hc _ IH]; intros pre m fuel Hf Hl.
  - cbn. rewrite app_nil_r.
    destruct fuel; cbn; unfold bind, gets; cbn; rewrite !(proj2 (Z.ltb_ge _ _)) by lia; done.
  - destruct fuel as [|fuel]; [cbn in Hf; lia|]. cbn [fmap list_fmap concat fst snd] in *.
    rewrite Hc by done. cbn [snd] in *. rewrite !app_assoc in *. rewrite IH by (cbn in *; lia || done).
    done.
Qed.

Lemma unmarshal_concat (l : list (bytes * (M -> M))) m :
  Forall (fun cu => decodes cu.1 cu.2) l -> Forall (fun cu => cu.1 <> []) l ->
  blen (concat l.*1) < 2 ^ 63 ->
  unmarshal field unrecognized m (concat l.*1) = (Ok tt, foldl (fun m f => f m) m l.*2).
Proof.
  intros Hd Hne Hl. unfold unmarshal.
  pose proof (unmarshal_chunks l Hd [] m (length (concat l.*1))) as H. cbn in H.
  change (blen []) with 0 in H. rewrite H; [done| |done].
  clear -Hne. induction Hne as [|[[|x c] u] l Hx _ IH]; cbn in *; [lia|done|].
  rewrite length_app. lia.
Qed.

End Fields.

(** * The encodings of the messages *)

Definition opt_bytes (tag : Z) (o : option bytes) : bytes :=
  match o with None => [] | Some d => tag :: vbytes (u64 (blen d)) ++ d end.
Definition raw_bytes (o : option bytes) : bytes := default [] o.
Definition uint_bytes (tag v : Z) : bytes := tag :: vbytes (u64 v).

Lemma emits_uint tag v : emits (putb tag ;! encodeVarintRecord (u64 v)) (uint_bytes tag v).
Proof.
  apply (emits_seq _ _ [tag]); [apply emits_putb|].
  apply emits_encodeVarintRecord, u64_range.
Qed.
Lemma emits_opt tag o : emits (put_opt tag o) (opt_bytes tag o).
Proof.
  destruct o as [d|]; [|apply emits_ret]. cbn.
  apply (emits_seq _ _ [tag]); [apply emits_putb|].
  apply emits_seq; [apply emits_encodeVarintRecord, u64_range | apply emits_copyb].
Qed.
Lemma emits_raw o : emits (put_raw o) (raw_bytes o).
Proof. destruct o; [apply emits_copyb | apply emits_ret]. Qed.

Lemma emits_assoc (w1 w2 w3 : Writer) bs :
  emits ((w1 ;! w2) ;! w3) bs -> emits (w1 ;! w2 ;! w3) bs.
Proof.
  intros H pre rest Hl. rewrite <- (H pre rest Hl). unfold bind.
  by destruct (w1 (pre ++ rest, blen pre)) as [[] ?].
Qed.

Lemma blen_uint_bytes tag v : blen (uint_bytes tag v) = 1 + sovRecord (u64 v).
Proof. unfold uint_bytes. rewrite blen_cons, blen_vbytes; auto with go. Qed.
Lemma blen_opt_bytes tag o : blen (opt_bytes tag o) = size_opt o.
Proof.
  destruct o as [d|]; [|done]. cbn [opt_bytes size_opt].
  rewrite blen_cons, blen_app, blen_vbytes; [lia | auto with go].
Qed.
Lemma blen_raw_bytes o : blen (raw_bytes o) = size_raw o.
Proof. by destruct o. Qed.
#[export] Hint Rewrite blen_uint_bytes blen_opt_bytes blen_raw_bytes : len.

(** Discharges [emits] goals of the generated [MarshalTo] methods. *)
Ltac emit :=
  repeat first [ apply emits_raw | apply emits_uint | apply emits_opt
               | apply emits_assoc, emits_seq | apply emits_seq ].

Lemma uint_bytes_ok tag v : is_u8 tag -> bytes_ok (uint_bytes tag v).
Proof. intros. constructor; [done|]. apply varint_bytes_ok. apply (u64_range v). Qed.
Lemma opt_bytes_ok tag o :
  is_u8 tag -> (forall d, o = Some d -> bytes_ok d) -> bytes_ok (opt_bytes tag o).
Proof.
  intros Ht Ho. destruct o as [d|]; [|constructor]. constructor; [done|].
  apply bytes_ok_app. split; [|by apply Ho]. apply varint_bytes_ok. apply (u64_range (blen d)).
Qed.

(** A nonnegative value that fits its field. *)
Definition opt_ok (o : option bytes) : Prop :=
  match o with None => True | Some d => bytes_ok d /\ blen d < 2 ^ 63 end.

Section OptField.
Context {M : Type}.
Variable field : bytes -> Z -> Z -> option (St (M * Z) unit).
Variable unrecognized : bytes -> M -> M.

Definition opt_chunk (tag : Z) (set : bytes -> M -> M) (o : option bytes)
  : list (bytes * (M -> M)) :=
  match o with None => [] | Some d => [(opt_bytes tag o, set d)] end.

Lemma concat_opt_chunk tag set o : concat (opt_chunk tag set o).*1 = opt_bytes tag o.
Proof. destruct o; [|done]. cbn. by rewrite app_nil_r. Qed.

Lemma opt_chunk_decodes tag n set o :
  opt_ok o -> 0 <= tag < 128 -> Z.land tag 7 = 2 -> 0 < Z.shiftr tag 3 -> n = Z.shiftr tag 3 ->
  (forall dAtA wt, field dAtA n wt = Some (bytes_field set dAtA wt)) ->
  Forall (fun cu => decodes field unrecognized cu.1 cu.2) (opt_chunk tag set o).
Proof.
  destruct o as [d|]; [|constructor]. intros [Hd Hl] **. constructor; [|constructor].
  cbn. rewrite u64_small by (unfold is_u64; len). by eapply decodes_bytes.
Qed.

Lemma opt_chunk_ne tag set o : Forall (fun cu => cu.1 <> []) (opt_chunk tag set o).
Proof. destruct o; repeat constructor; done. Qed.

End OptField.

(** A varint chunk of a message whose field [n] is decoded by [set]. *)
Lemma uint_decodes {M} field (unrecognized : bytes -> M -> M) wrap set v tag n :
  (forall dAtA wt, field dAtA n wt = Some (uint_field wrap set dAtA wt)) ->
  (forall z, 0 <= z <= v -> wrap z = z) -> is_u64 v ->
  0 <= tag < 128 -> Z.land tag 7 = 0 -> 0 < n -> n = Z.shiftr tag 3 ->
  decodes field unrecognized (uint_bytes tag v) (fun m => set v (set 0 m)).
Proof.
  intros Hf Hw Hv Ht Hwt Hn En. unfold uint_bytes. rewrite u64_small by done.
  apply (decodes_uint field unrecognized wrap set v tag n); try done. lia.
Qed.

(** ** Record *)

Definition record_bytes (m : Record.t) : bytes :=
  uint_bytes 8 (Record.Crc m) ++ opt_bytes 18 (Record.Data m) ++
  raw_bytes (Record.XXX_unrecognized m).

Lemma Record_Size_eq m : Record.Size m = blen (record_bytes m).
Proof. unfold Record.Size, record_bytes. len. Qed.

Lemma Record_Marshal_eq m : Record.Marshal m = Ok (record_bytes m).
Proof.
  apply marshal_with_ok; [|apply Record_Size_eq]. unfold Record.MarshalTo, record_bytes. emit.
Qed.

Lemma Record_Unmarshal_eq m0 m :
  is_u32 (Record.Crc m) -> opt_ok (Record.Data m) -> Record.XXX_unrecognized m = None ->
  Record.Size m < 2 ^ 63 ->
  Record.Unmarshal m0 (record_bytes m) =
    (Ok tt, Record.mk (Record.Crc m)
              (match Record.Data m with None => Record.Data m0 | d => d end)
              (Record.XXX_unrecognized m0)).
Proof.
  rewrite Record_Size_eq. intros Hc Hd Hx Hl.
  assert (is_u64 (Record.Crc m)) by (unfold is_u32, is_u64 in *; lia).
  set (l := (uint_bytes 8 (Record.Crc m),
             fun r => Record.set_Crc (Record.Crc m) (Record.set_Crc 0 r))
            :: opt_chunk 18 Record.set_Data (Record.Data m)).
  assert (record_bytes m = concat l.*1) as E.
  { unfold record_bytes, l. cbn. by rewrite Hx, concat_opt_chunk, app_nil_r. }
  unfold Record.Unmarshal. rewrite E in *. rewrite unmarshal_concat; [| | |done].
  - destruct m as [c [d|] x], m0; done.
  - constructor; [|by apply (opt_chunk_decodes _ _ 18 2)].
    apply (uint_decodes _ _ u32 Record.set_Crc _ 8 1); try done. by apply u32_upto.
  - constructor; [done | apply opt_chunk_ne].
Qed.

(** ** Entry *)

Definition entry_bytes (m : Entry.t) : bytes :=
  uint_bytes 8 (Entry.Type_ m) ++ uint_bytes 16 (Entry.Term m) ++
  uint_bytes 24 (Entry.Index m) ++ opt_bytes 34 (Entry.Data m) ++
  raw_bytes (Entry.XXX_unrecognized m).

(** The values raft hands to the storage. *)
Record entry_ok (e : Entry.t) : Prop := {
  eo_term : is_u64 (Entry.Term e);
  eo_index : is_u64 (Entry.Index e);
  eo_type : 0 <= Entry.Type_ e < 2 ^ 31;
  eo_data : opt_ok (Entry.Data e);
  eo_xxx : Entry.XXX_unrecognized e = None }.

Lemma Entry_Size_eq m : Entry.Size m = blen (entry_bytes m).
Proof. unfold Entry.Size, entry_bytes. len. Qed.

Lemma Entry_Marshal_eq m : Entry.Marshal m = Ok (entry_bytes m).
Proof.
  apply marshal_with_ok; [|apply Entry_Size_eq]. unfold Entry.MarshalTo, entry_bytes. emit.
Qed.

Lemma entry_bytes_ok m : entry_ok m -> bytes_ok (entry_bytes m).
Proof.
  intros [_ _ _ Hd Hx]. unfold entry_bytes. rewrite Hx. rewrite !bytes_ok_app.
  repeat split; try (apply uint_bytes_ok; unfold is_u8; lia); [|constructor].
  apply opt_bytes_ok; [unfold is_u8; lia|]. intros d Hd'. rewrite Hd' in Hd. apply Hd.
Qed.

Lemma Entry_Unmarshal_eq m0 m :
  entry_ok m -> Entry.Size m < 2 ^ 63 ->
  Entry.Unmarshal m0 (entry_bytes m) =
    (Ok tt, Entry.mk (Entry.Term m) (Entry.Index m) (Entry.Type_ m)
              (match Entry.Data m with None => Entry.Data m0 | d => d end)
              (Entry.XXX_unrecognized m0)).
Proof.
  rewrite Entry_Size_eq. intros [Ht Hi Hy Hd Hx] Hl.
  set (l := [(uint_bytes 8 (Entry.Type_ m), fun r => Entry.set_Type (Entry.Type_ m) (Entry.set_Type 0 r));
             (uint_bytes 16 (Entry.Term m), fun r => Entry.set_Term (Entry.Term m) (Entry.set_Term 0 r));
             (uint_bytes 24 (Entry.Index m), fun r => Entry.set_Index (Entry.Index m) (Entry.set_Index 0 r))]
            ++ opt_chunk 34 Entry.set_Data (Entry.Data m)).
  assert (entry_bytes m = concat l.*1) as E.
  { unfold entry_bytes, l. cbn. by rewrite Hx, concat_opt_chunk, app_nil_r. }
  unfold Entry.Unmarshal. rewrite E in *. rewrite unmarshal_concat; [| | |done].
  - destruct m as [t i y [d|] x], m0; done.
  - repeat constructor; [| | |by apply (opt_chunk_decodes _ _ 34 4)].
    + apply (uint_decodes _ _ i32 Entry.set_Type _ 8 1); try done; [by apply i32_upto|].
      unfold is_u64. lia.
    + apply (uint_decodes _ _ u64 Entry.set_Term _ 16 2); try done. by apply u64_upto.
    + apply (uint_decodes _ _ u64 Entry.set_Index _ 24 3); try done. by apply u64_upto.
  - repeat (constructor; [done|]). apply opt_chunk_ne.
Qed.

(** ** BinlogEvent *)

Definition event_bytes (m : BinlogEvent.t) : bytes :=
  uint_bytes 8 (BinlogEvent.Type_ m) ++ uint_bytes 16 (BinlogEvent.Flavor m) ++
  uint_bytes 24 (BinlogEvent.DividedCount m) ++ uint_bytes 32 (BinlogEvent.DividedSeqNum m) ++
  opt_bytes 42 (BinlogEvent.Data m) ++ raw_bytes (BinlogEvent.XXX_unrecognized m).

Record event_ok (e : BinlogEvent.t) : Prop := {
  vo_type : is_u32 (BinlogEvent.Type_ e);
  vo_flavor : 0 <= BinlogEvent.Flavor e < 2 ^ 31;
  vo_count : is_u32 (BinlogEvent.DividedCount e);
  vo_seq : is_u32 (BinlogEvent.DividedSeqNum e);
  vo_data : opt_ok (BinlogEvent.Data e);
  vo_xxx : BinlogEvent.XXX_unrecognized e = None }.

Lemma Event_Size_eq m : BinlogEvent.Size m = blen (event_bytes m).
Proof. unfold BinlogEvent.Size, event_bytes. len. Qed.

Lemma Event_Marshal_eq m : BinlogEvent.Marshal m = Ok (event_bytes m).
Proof.
  apply marshal_with_ok; [|apply Event_Size_eq]. unfold BinlogEvent.MarshalTo, event_bytes. emit.
Qed.

Lemma u32_is_u64 v : is_u32 v -> is_u64 v.
Proof. unfold is_u32, is_u64. lia. Qed.

Lemma Event_Unmarshal_eq m0 m :
  event_ok m -> BinlogEvent.Size m < 2 ^ 63 ->
  BinlogEvent.Unmarshal m0 (event_bytes m) =
    (Ok tt, BinlogEvent.mk (BinlogEvent.Type_ m) (BinlogEvent.Flavor m)
              (BinlogEvent.DividedCount m) (BinlogEvent.DividedSeqNum m)
              (match BinlogEvent.Data m with None => BinlogEvent.Data m0 | d => d end)
              (BinlogEvent.XXX_unrecognized m0)).
Proof.
  rewrite Event_Size_eq. intros [Ht Hf Hc Hs Hd Hx] Hl.
  set (l := [(uint_bytes 8 (BinlogEvent.Type_ m),
               fun r => BinlogEvent.set_Type (BinlogEvent.Type_ m) (BinlogEvent.set_Type 0 r));
             (uint_bytes 16 (BinlogEvent.Flavor m),
               fun r => BinlogEvent.set_Flavor (BinlogEvent.Flavor m) (BinlogEvent.set_Flavor 0 r));
             (uint_bytes 24 (BinlogEvent.DividedCount m),
               fun r => BinlogEvent.set_DividedCount (BinlogEvent.DividedCount m)
                          (BinlogEvent.set_DividedCount 0 r));
             (uint_bytes 32 (BinlogEvent.DividedSeqNum m),
               fun r => BinlogEvent.set_DividedSeqNum (BinlogEvent.DividedSeqNum m)
                          (BinlogEvent.set_DividedSeqNum 0 r))]
            ++ opt_chunk 42 BinlogEvent.set_Data (BinlogEvent.Data m)).
  assert (event_bytes m = concat l.*1) as E.
  { unfold event_bytes, l. cbn. by rewrite Hx, concat_opt_chunk, app_nil_r. }
  unfold BinlogEvent.Unmarshal. rewrite E in *. rewrite unmarshal_concat; [| | |done].
  - destruct m as [t f c s [d|] x], m0; done.
  - repeat constructor; [| | | |by apply (opt_chunk_decodes _ _ 42 5)].
    + apply (uint_decodes _ _ u32 BinlogEvent.set_Type _ 8 1); try done;
        [by apply u32_upto | by apply u32_is_u64].
    + apply (uint_decodes _ _ i32 BinlogEvent.set_Flavor _ 16 2); try done; [by apply i32_upto|].
      unfold is_u64. lia.
    + apply (uint_decodes _ _ u32 BinlogEvent.set_DividedCount _ 24 3); try done;
        [by apply u32_upto | by apply u32_is_u64].
    + apply (uint_decodes _ _ u32 BinlogEvent.set_DividedSeqNum _ 32 4); try done;
        [by apply u32_upto | by apply u32_is_u64].
  - repeat (constructor; [done|]). apply opt_chunk_ne.
Qed.

(** * Termination

    The fuel of the loops is enough: any larger fuel gives the same result. *)

Lemma varint_loop_advance wrap d fuel shift acc i v i' :
  varint_loop wrap d fuel shift acc i = (Ok v, i') -> 0 <= i < i' /\ i' <= blen d.
Proof.
  revert shift acc i. induction fuel as [|f IH]; intros shift acc i; cbn; [done|].
  destruct (blen d <=? i) eqn:E; [done|]. zbool.
  destruct (index d i) as [b|] eqn:Hb; [|done]. apply index_Some_lt in Hb.
  destruct (b <? 128); [intros [= <- <-]; lia | intros ?%IH; lia].
Qed.

Lemma varint_advance wrap d i v i' :
  varint wrap d i = (Ok v, i') -> 0 <= i < i' /\ i' <= blen d.
Proof. apply varint_loop_advance. Qed.

Lemma varint_negative wrap d i : i < 0 -> varint wrap d i = (Panic, i).
Proof.
  intros. unfold varint. cbn. rewrite (proj2 (Z.leb_gt _ _)) by len.
  unfold index. by rewrite (proj2 (Z.ltb_lt _ _)) by lia.
Qed.

Lemma varint_past wrap d i : blen d <= i -> varint wrap d i = (Err ErrUnexpectedEOF, i).
Proof. intros. unfold varint. cbn. by rewrite (proj2 (Z.leb_le _ _)) by lia. Qed.

Lemma i64_cases z : 0 <= z < 2 ^ 64 -> i64 z = z /\ z < 2 ^ 63 \/ i64 z = z - 2 ^ 64 /\ 2 ^ 63 <= z.
Proof.
  intros. destruct (Z.lt_ge_cases z (2 ^ 63)); [left; split; [apply i64_small|]; lia|right].
  split; [|lia]. unfold i64. replace (z + 2 ^ 63) with (z - 2 ^ 63 + 1 * 2 ^ 64) by lia.
  rewrite Z.mod_add, Z.mod_small; lia.
Qed.

(** What a skipper returns: progress, or a negative offset that is far below
    any buffer. *)
Definition skip_post (d : bytes) (n : Z) : Prop :=
  (1 <= n \/ n <= blen d - 2 ^ 63) /\ - 2 ^ 63 <= n < 2 ^ 63.

Lemma lor_i64_range a b :
  - 2 ^ 63 <= a < 2 ^ 63 -> - 2 ^ 63 <= b < 2 ^ 63 -> - 2 ^ 63 <= Z.lor a b < 2 ^ 63.
Proof.
  intros Ha Hb. apply (Z.bounded_iff_bits 63); [lia|]. intros l Hl. rewrite Z.lor_spec.
  rewrite (proj1 (Z.bounded_iff_bits 63 a ltac:(lia)) Ha l Hl).
  rewrite (proj1 (Z.bounded_iff_bits 63 b ltac:(lia)) Hb l Hl).
  pose proof (Z.lor_neg a b). repeat case_bool_decide; cbn; try done; lia.
Qed.

Lemma varint_loop_i64_range d fuel shift acc i v i' :
  - 2 ^ 63 <= acc < 2 ^ 63 ->
  varint_loop i64 d fuel shift acc i = (Ok v, i') -> - 2 ^ 63 <= v < 2 ^ 63.
Proof.
  revert shift acc i. induction fuel as [|f IH]; intros shift acc i Hacc; cbn [varint_loop]; [done|].
  destruct (blen d <=? i); [done|]. destruct (index d i) as [b|]; [|done].
  assert (- 2 ^ 63 <= i64 (Z.shiftl (Z.land b 127) shift) < 2 ^ 63) as Hs.
  { unfold i64. pose proof (Z.mod_pos_bound (Z.shiftl (Z.land b 127) shift + 2 ^ 63) (2 ^ 64)). lia. }
  pose proof (lor_i64_range _ _ Hacc Hs).
  destruct (b <? 128); [by intros [= <- <-] | by apply IH].
Qed.

Lemma varint_i64_range d i v i' : varint i64 d i = (Ok v, i') -> - 2 ^ 63 <= v < 2 ^ 63.
Proof. apply varint_loop_i64_range. lia. Qed.

Lemma skip_group_post f d start n : skip_group f d start = Ok n -> 1 <= n <= blen d.
Proof.
  revert start. induction f as [|f IH]; intros start; cbn [skip_group]; [done|].
  destruct (varint u64 d start) as [[w| |] i] eqn:Hv; try done.
  apply varint_advance in Hv. destruct (Z.land w 7 =? 4); [intros [= <-]; lia|].
  destruct (slice d start (blen d)); [|done].
  destruct (skip_loop f l); try done. apply IH.
Qed.

Lemma skip_loop_post f d n :
  blen d < 2 ^ 62 -> skip_loop f d = Ok n -> skip_post d n.
Proof.
  intros Hl. destruct f as [|f]; cbn [skip_loop]; [done|].
  destruct (blen d <=? 0) eqn:E; [done|]. zbool.
  unfold bind at 1. destruct (varint u64 d 0) as [[w| |] i] eqn:Hv; cbn [fst]; try done.
  apply varint_advance in Hv. unfold skip_post, gets, throw.
  zcase.
  { unfold bind. destruct (varint u64 d i) as [[w'| |] i'] eqn:Hv'; cbn; try done.
    apply varint_advance in Hv'. intros [= <-]. unfold id. lia. }
  zcase; [cbn [fst]; intros [= <-]; rewrite i64_small; lia|].
  zcase.
  { unfold bind. destruct (varint i64 d i) as [[w'| |] i'] eqn:Hv'; cbn [fst]; try done.
    pose proof (varint_i64_range _ _ _ _ Hv'). apply varint_advance in Hv'.
    zcase; cbn [fst]; [done|]. intros [= <-]. destruct (i64_cases (i' + w')); lia. }
  zcase; [cbn [fst]; intros ?%skip_group_post; lia|].
  zcase; [cbn [fst]; intros [= <-]; unfold id; lia|].
  zcase; [cbn [fst]; intros [= <-]; rewrite i64_small; lia | done].
Qed.

Lemma skip_group_negative f d start : start < 0 -> skip_group (S f) d start = Panic.
Proof. intros. cbn [skip_group]. by rewrite varint_negative. Qed.

Lemma skip_fuel_enough f :
  (forall d f2, blen d < 2 ^ 62 -> 2 * blen d + 2 <= Z.of_nat f -> (f <= f2)%nat ->
     skip_loop f2 d = skip_loop f d) /\
  (forall d start f2, blen d < 2 ^ 62 -> 2 * (blen d - start) + 3 <= Z.of_nat f ->
     (1 <= f <= f2)%nat -> skip_group f2 d start = skip_group f d start).
Proof.
  induction f as [|f [IHs IHg]]; split; intros; [len | lia | |].
  - destruct f2 as [|f2]; [lia|]. cbn [skip_loop]. destruct (blen d <=? 0) eqn:E; [done|]. zbool.
    unfold bind. destruct (varint u64 d 0) as [[w| |] i] eqn:Hv; try done.
    apply varint_advance in Hv. cbn zeta. repeat (zcase; [done|]). zcase; [|done].
    rewrite IHg; [done|lia|lia|lia].
  - destruct f2 as [|f2]; [lia|]. cbn [skip_group].
    destruct (varint u64 d start) as [[w| |] i] eqn:Hv; try done.
    apply varint_advance in Hv. destruct (Z.land w 7 =? 4); [done|].
    destruct (slice d start (blen d)) as [rest|] eqn:Hs; [|done]. apply slice_Some in Hs.
    rewrite (IHs rest f2) by lia.
    destruct (skip_loop f rest) as [next| |] eqn:Hk; try done.
    apply skip_loop_post in Hk as [Hk Hub]; [|lia].
    destruct f as [|f]; [lia|]. destruct f2 as [|f2]; [lia|].
    destruct (Z.lt_ge_cases (i64 (start + next)) 0); [by rewrite !skip_group_negative|].
    assert (start < i64 (start + next)).
    { destruct Hk as [Hk|Hk]; [destruct (i64_cases (start + next)); lia|].
      assert (i64 (start + next) = start + next) by (apply i64_small; lia). lia. }
    apply IHg; lia.
Qed.

Section UnmarshalTermination.
Context {M : Type}.
Variable field : bytes -> Z -> Z -> option (St (M * Z) unit).
Variable unrecognized : bytes -> M -> M.

(** A field handler never moves the cursor backwards. *)
Definition advances (h : St (M * Z) unit) : Prop :=
  forall m i m' i', h (m, i) = (Ok tt, (m', i')) -> i <= i'.

Lemma uint_field_advances wrap set d wt : advances (uint_field (M:=M) wrap set d wt).
Proof.
  intros m i m' i'. unfold uint_field. destruct (negb (wt =? 0)); [done|].
  unfold bind, modify, rd. destruct (varint wrap d i) as [[v| |] j] eqn:Hv; try done.
  apply varint_advance in Hv. intros [= <- <-]. lia.
Qed.

Lemma bytes_field_advances set d wt : advances (bytes_field (M:=M) set d wt).
Proof.
  intros m i m' i'. unfold bytes_field. destruct (negb (wt =? 2)); [done|].
  unfold bind at 1, rd. destruct (varint i64 d i) as [[v| |] j] eqn:Hv; try done.
  apply varint_advance in Hv. destruct (v <? 0); [done|].
  unfold bind at 1, gets. cbn [snd]. destruct (blen d <? _); [done|].
  destruct (slice d j _) eqn:Hs; [|done]. apply slice_Some in Hs.
  cbn. intros [= <- <-]. lia.
Qed.

Hypothesis field_advances : forall d n wt h, field d n wt = Some h -> advances h.

Lemma unmarshal_field_advances d m i m' i' :
  blen d < 2 ^ 62 ->
  unmarshal_field field unrecognized d (m, i) = (Ok tt, (m', i')) -> 0 <= i < i'.
Proof.
  intros Hl. unfold unmarshal_field. unfold bind at 1, gets. cbn [snd].
  unfold bind at 1, rd. destruct (varint u64 d i) as [[v| |] j] eqn:Hv; try done.
  apply varint_advance in Hv. destruct (Z.land v 7 =? 4); [done|].
  destruct (i32 (Z.shiftr v 3) <=? 0); [done|].
  destruct (field d _ _) as [h|] eqn:Hf; [intros ?%(field_advances _ _ _ _ Hf); lia|].
  unfold skip_field. destruct (slice d i (blen d)) as [rest|] eqn:Hs; [|done].
  apply slice_Some in Hs. unfold must, bind at 1, ret.
  unfold bind at 1, lift. destruct (skipRecord rest) as [n| |] eqn:Hn; try done.
  unfold skipRecord in Hn. apply skip_loop_post in Hn as [Hn ?]; [|lia].
  destruct (n <? 0) eqn:?; zbool; [done|]. destruct (blen d <? _) eqn:?; zbool; [done|].
  destruct (slice d i (i64 (i + n))) eqn:Hs2; [|done]. apply slice_Some in Hs2.
  cbn. intros [= <- <-]. destruct (i64_cases (i + n)); lia.
Qed.

Lemma unmarshal_fuel_enough d f f2 m i :
  blen d < 2 ^ 62 -> blen d - i <= Z.of_nat f -> (f <= f2)%nat ->
  unmarshal_loop field unrecognized f2 d (m, i) = unmarshal_loop field unrecognized f d (m, i).
Proof.
  intros Hl. revert f2 m i. induction f as [|f IH]; intros f2 m i Hf Hff.
  - destruct f2; [done|]. cbn [unmarshal_loop]. unfold bind, gets. cbn [snd].
    by rewrite (proj2 (Z.ltb_ge _ _)) by lia.
  - destruct f2 as [|f2]; [lia|]. cbn [unmarshal_loop]. unfold bind, gets. cbn [snd].
    destruct (i <? blen d) eqn:?; zbool; [|done].
    destruct (unmarshal_field field unrecognized d (m, i)) as [[[]| |] [m' i']] eqn:Hu; try done.
    apply unmarshal_field_advances in Hu; [|done]. apply IH; lia.
Qed.

End UnmarshalTermination.

(** Case analysis on the field numbers of a message. *)
Ltac field_cases :=
  intros ????; repeat (zcase; [intros [= <-]; apply uint_field_advances || apply bytes_field_advances|]);
  done.

Lemma Record_field_advances d n wt h : Record.field d n wt = Some h -> advances h.
Proof. unfold Record.field. revert d n wt h. field_cases. Qed.
Lemma Event_field_advances d n wt h : BinlogEvent.field d n wt = Some h -> advances h.
Proof. unfold BinlogEvent.field. revert d n wt h. field_cases. Qed.
Lemma Entry_field_advances d n wt h : Entry.field d n wt = Some h -> advances h.
Proof. unfold Entry.field. revert d n wt h. field_cases. Qed.

(** * Properties *)

(** decoding the encoding of a raft entry gives the entry back, for every
    entry raft hands to the storage; the encoder fills its buffer exactly. *)
Theorem entry_roundtrip (e : Entry.t) :
  entry_ok e -> Entry.Size e < 2 ^ 63 ->
  exists bs, Entry.Marshal e = Ok bs /\ blen bs = Entry.Size e /\
             Entry.Unmarshal Entry.zero bs = (Ok tt, e).
Proof.
  intros He Hl. exists (entry_bytes e). rewrite Entry_Marshal_eq, Entry_Size_eq.
  repeat split. rewrite Entry_Unmarshal_eq by done. destruct He, e as [? ? ? [] ?]; cbn in *; by subst.
Qed.

Lemma entry_roundtrip_witness :
  let e := Entry.mk 7 300 1 (Some [1; 2; 255]) None in
  entry_ok e /\ exists bs, Entry.Marshal e = Ok bs /\ blen bs = Entry.Size e /\
                           Entry.Unmarshal Entry.zero bs = (Ok tt, e).
Proof.
  intros e.
  assert (entry_ok e) as He.
  { constructor; cbn; unfold is_u64; try lia; try done. split; [|done]. repeat constructor; lia. }
  split; [exact He|]. apply (entry_roundtrip e); [exact He | vm_compute; reflexivity].
Defined.

Lemma event_decodes (ev : BinlogEvent.t) (term idx : Z) :
  event_ok ev -> BinlogEvent.Size ev < 2 ^ 63 ->
  let e := Entry.mk term idx Entry.EntryNormal (Some (MySQLBinlogEventType :: event_bytes ev)) None in
  IsBinlogEvent e = true /\ DecodeBinlogEvent e = Ok ev.
Proof.
  intros Hv Hl e. split; [done|]. unfold DecodeBinlogEvent.
  change (Entry.data e) with ([MySQLBinlogEventType] ++ event_bytes ev).
  rewrite slice_suffix by done.
  rewrite Event_Unmarshal_eq by done.
  destruct Hv, ev as [? ? ? ? [] ?]; cbn in *; by subst.
Qed.

(** the binlog event payload of a raft entry: encoding an event, wrapping it
    in a normal entry and decoding that entry gives the event back, and the
    entry is recognised as a binlog event. *)
Theorem binlog_event_roundtrip (ev : BinlogEvent.t) (term idx : Z) (bs : bytes) :
  event_ok ev -> BinlogEvent.Size ev < 2 ^ 63 -> EncodeBinlogEvent ev = Ok bs ->
  let e := Entry.mk term idx Entry.EntryNormal (Some bs) None in
  IsBinlogEvent e = true /\ DecodeBinlogEvent e = Ok ev.
Proof.
  intros Hv Hl Hbs e. unfold EncodeBinlogEvent in Hbs. rewrite Event_Marshal_eq in Hbs.
  injection Hbs as <-. by apply event_decodes.
Qed.

Lemma binlog_event_roundtrip_witness :
  let ev := BinlogEvent.mk 33 0 0 0 (Some [9; 8; 7]) None in
  let e := Entry.mk 5 12 Entry.EntryNormal (Some (1 :: event_bytes ev)) None in
  IsBinlogEvent e = true /\ DecodeBinlogEvent e = Ok ev.
Proof.
  intros ev. apply (binlog_event_roundtrip ev 5 12).
  - constructor; cbn; unfold is_u32; try lia; try done. split; [|done]. repeat constructor; lia.
  - vm_compute. reflexivity.
  - unfold EncodeBinlogEvent. by rewrite Event_Marshal_eq.
Defined.



(** a record whose length field is close to [2^63] makes the generated decoder
    panic on [dAtA[iNdEx:postIndex]], because [postIndex] overflows to a
    negative number before it is compared with the length of the buffer; so a
    damaged record ends the process instead of being reported as an error. *)
Theorem record_unmarshal_length_overflow (post : bytes) :
  let d := 18 :: vbytes (2 ^ 63 - 1) ++ post in
  blen d < 2 ^ 62 -> Record.Unmarshal Record.zero d = (Panic, Record.zero).
Proof.
  intros d Hl.
  assert (varint i64 d 1 = (Ok (2 ^ 63 - 1), 10)) as Hv.
  { change 1 with (blen [18]). change d with ([18] ++ vbytes (2 ^ 63 - 1) ++ post).
    rewrite varint_read; [done| |unfold is_u64; lia]. apply i64_upto. lia. }
  assert (bytes_field Record.set_Data d 2 (Record.zero, 1) = (Panic, (Record.zero, 10))) as Hb.
  { unfold bytes_field. change (negb (2 =? 2)) with false. cbn iota.
    erewrite bind_ok by (unfold rd; rewrite Hv; reflexivity). cbn beta.
    change (2 ^ 63 - 1 <? 0) with false. cbn iota. unfold bind at 1, gets. cbn [snd].
    change (i64 (10 + (2 ^ 63 - 1))) with (9 - 2 ^ 63).
    rewrite (proj2 (Z.ltb_ge _ _)) by (pose proof (blen_nonneg d); lia).
    unfold slice. change (10 <=? 9 - 2 ^ 63) with false. by rewrite andb_false_r. }
  unfold Record.Unmarshal, unmarshal.
  assert (length d = S (length (vbytes (2 ^ 63 - 1) ++ post))) as -> by done.
  cbn [unmarshal_loop]. unfold bind at 1, gets at 1. cbn [snd].
  rewrite (proj2 (Z.ltb_lt _ _)) by (unfold d; len).
  rewrite (bind_panic _ _ _ (Record.zero, 10)); [done|].
  etransitivity; [|exact Hb].
  by apply (unmarshal_field_tag Record.field _ 18 [] _ _ (bytes_field Record.set_Data d 2)).
Qed.

Lemma record_unmarshal_length_overflow_witness :
  Record.Unmarshal Record.zero (18 :: vbytes (2 ^ 63 - 1) ++ [1; 2; 3]) = (Panic, Record.zero).
Proof. apply (record_unmarshal_length_overflow [1; 2; 3]). vm_compute. reflexivity. Defined.

#[global] Arguments vbytes : simpl never.
#[global] Arguments record_bytes : simpl never.
#[global] Arguments entry_bytes : simpl never.
#[global] Arguments event_bytes : simpl never.
#[global] Arguments ChecksumIEEE : simpl never.
#[global] Arguments Record.Unmarshal : simpl never.
#[global] Arguments Entry.Unmarshal : simpl never.
