(* ===== verification/Names.v ===== *)
(** File names of the log directory: the patterns of storage/segment.go and the
    helpers of utils/file_utils.go. A segment and its index carry the first
    raft index, and the last one once they are read-only, as twenty decimal
    digits; the directory is opened in the order of the names. *)
From S2P Require Import Prelude.
From Stdlib Require Import String Ascii.
From stdpp Require Import sorting.
Local Open Scope string_scope.
Local Open Scope Z_scope.

(** * fmt *)

Definition digit (d : Z) : ascii := ascii_of_N (Z.to_N (48 + d mod 10)).

(** The [k] low decimal digits of [n], most significant first. *)
Fixpoint digits (k : nat) (n : Z) : string :=
  match k with
  | O => ""
  | S k' => String (digit (n / 10 ^ Z.of_nat k')) (digits k' n)
  end.

(** [%020d] of a [uint64]: such a number never has more than twenty digits. *)
Definition fmt_020d (n : Z) : string := digits 20 n.

(** ReadonlySegmentPattern, ReadonlyIndexPattern, ReadWriteSegmentPattern and
    ReadWriteIndexPattern applied to their arguments. *)
Definition ReadonlySegmentName (first last : Z) : string :=
  fmt_020d first +:+ "-" +:+ fmt_020d last +:+ ".log".
Definition ReadonlyIndexName (first last : Z) : string :=
  fmt_020d first +:+ "-" +:+ fmt_020d last +:+ ".index".
Definition ReadWriteSegmentName (first : Z) : string :=
  fmt_020d first +:+ "-inprogress.log".
Definition ReadWriteIndexName (first : Z) : string :=
  fmt_020d first +:+ "-inprogress.index".

(** * fmt.Sscanf *)

Definition digit_val (c : ascii) : option Z :=
  let d := Z.of_N (N_of_ascii c) - 48 in
  if (0 <=? d) && (d <=? 9) then Some d else None.

(** [%020d]: at most twenty digits, the value so far and the rest. *)
Fixpoint scan_digits (width : nat) (acc : Z) (s : string) : Z * nat * string :=
  match width, s with
  | S w, String c s' =>
      match digit_val c with
      | Some d => let '(v, n, r) := scan_digits w (10 * acc + d) s' in (v, S n, r)
      | None => (acc, O, s)
      end
  | _, _ => (acc, O, s)
  end.

(** A [uint64] operand: no digits or a value out of range is an error. *)
Definition scan_020d (s : string) : option (Z * string) :=
  let '(v, n, r) := scan_digits 20 0 s in
  if (n =? 0)%nat then None else
  if v <? 2 ^ 64 then Some (v, r) else None.

(** Literal text of the format. *)
Fixpoint scan_lit (lit s : string) : option string :=
  match lit, s with
  | "", _ => Some s
  | String c lit', String d s' => if ascii_dec c d then scan_lit lit' s' else None
  | String _ _, "" => None
  end.

(** [Sscanf(name, ReadonlySegmentPattern, &first, &last)] without an error. *)
Definition scanReadonlySegment (name : string) : option (Z * Z) :=
  match scan_020d name with
  | None => None
  | Some (first, r) =>
      match scan_lit "-" r with
      | None => None
      | Some r =>
          match scan_020d r with
          | None => None
          | Some (last, r) => match scan_lit ".log" r with
                              | None => None
                              | Some _ => Some (first, last)
                              end
          end
      end
  end.

(** [Sscanf(name, ReadWriteSegmentPattern, &first)] without an error. *)
Definition scanReadWriteSegment (name : string) : option Z :=
  match scan_020d name with
  | None => None
  | Some (first, r) => match scan_lit "-inprogress.log" r with
                       | None => None
                       | Some _ => Some first
                       end
  end.

(** * utils/file_utils.go *)

Fixpoint HasSuffix (s suffix : string) : bool :=
  String.eqb s suffix ||
  match s with "" => false | String _ s' => HasSuffix s' suffix end.

(** [strings.TrimSuffix]. *)
Fixpoint TrimSuffix (s suffix : string) : string :=
  if String.eqb s suffix then "" else
  match s with
  | "" => ""
  | String c s' => String c (TrimSuffix s' suffix)
  end.

Definition LogSuffix : string := ".log".
Definition IndexSuffix : string := ".index".

Definition GetIndexName (segmentName : string) : string :=
  TrimSuffix segmentName LogSuffix +:+ IndexSuffix.

(** [list[i].Name() < list[j].Name()] *)
Definition name_lt (a b : string) : Prop := String.ltb a b = true.
Definition name_le (a b : string) : Prop := String.leb a b = true.

#[export] Instance name_lt_dec : RelDecision name_lt.
Proof. intros a b. unfold name_lt. apply _. Defined.
#[export] Instance name_le_dec : RelDecision name_le.
Proof. intros a b. unfold name_le. apply _. Defined.

(** [sort.Slice] of the names of a directory. *)
Definition sorted_names {A} (dir : gmap string A) : list string :=
  merge_sort name_le ((map_to_list dir).*1).

(** * Decimal digits *)

Lemma string_app_cons c s t : String c s +:+ t = String c (s +:+ t).
Proof. reflexivity. Qed.

Lemma N_of_digit d : N_of_ascii (digit d) = Z.to_N (48 + d mod 10).
Proof.
  unfold digit. apply N_ascii_embedding.
  pose proof (Z.mod_pos_bound d 10). lia.
Qed.

Lemma digit_val_digit d : digit_val (digit d) = Some (d mod 10).
Proof.
  unfold digit_val. rewrite N_of_digit.
  pose proof (Z.mod_pos_bound d 10 ltac:(lia)).
  rewrite Z2N.id by lia. replace (48 + d mod 10 - 48) with (d mod 10) by lia. zdecide. done.
Qed.

Lemma scan_digits_spec k acc n r :
  scan_digits k acc (digits k n +:+ r) = (10 ^ Z.of_nat k * acc + n mod 10 ^ Z.of_nat k, k, r).
Proof.
  revert acc. induction k as [|k IH]; intros acc.
  - simpl. rewrite Z.mod_1_r. by destruct acc.
  - cbn [digits]. rewrite string_app_cons. cbn [scan_digits]. rewrite digit_val_digit, IH. f_equal; f_equal.
    rewrite Nat2Z.inj_succ, Z.pow_succ_r by lia.
    rewrite (Z.mul_comm 10 (10 ^ Z.of_nat k)), Z.rem_mul_r by lia. ring.
Qed.

Lemma scan_020d_fmt n r : is_u64 n -> scan_020d (fmt_020d n +:+ r) = Some (n, r).
Proof.
  intros Hn. unfold scan_020d, fmt_020d. rewrite scan_digits_spec.
  unfold is_u64 in Hn. rewrite Z.mod_small by lia.
  rewrite Z.mul_0_r, Z.add_0_l. cbn [Nat.eqb]. by zdecide.
Qed.

Lemma scan_lit_app lit r : scan_lit lit (lit +:+ r) = Some r.
Proof.
  induction lit as [|c lit IH]; [done|].
  rewrite string_app_cons. cbn [scan_lit]. by destruct (ascii_dec c c).
Qed.

(** * Lexicographic order *)

Lemma ascii_compare_N a b : Ascii.compare a b = N.compare (N_of_ascii a) (N_of_ascii b).
Proof. reflexivity. Qed.

(** Equally many digits compare as the numbers do, whatever follows. *)
Lemma digits_compare_lt k a b x y :
  a mod 10 ^ Z.of_nat k < b mod 10 ^ Z.of_nat k ->
  String.compare (digits k a +:+ x) (digits k b +:+ y) = Lt.
Proof.
  induction k as [|k IH]; intros H.
  - rewrite !Z.mod_1_r in H. lia.
  - cbn [digits]. rewrite !string_app_cons. cbn [String.compare].
    rewrite ascii_compare_N, !N_of_digit.
    rewrite Nat2Z.inj_succ, Z.pow_succ_r in H by lia.
    rewrite (Z.mul_comm 10 (10 ^ Z.of_nat k)), !Z.rem_mul_r in H by lia.
    pose proof (Z.mod_pos_bound (a / 10 ^ Z.of_nat k) 10 ltac:(lia)).
    pose proof (Z.mod_pos_bound (b / 10 ^ Z.of_nat k) 10 ltac:(lia)).
    pose proof (Z.mod_pos_bound a (10 ^ Z.of_nat k) ltac:(lia)).
    pose proof (Z.mod_pos_bound b (10 ^ Z.of_nat k) ltac:(lia)).
    destruct (N.compare_spec (Z.to_N (48 + (a / 10 ^ Z.of_nat k) mod 10))
                             (Z.to_N (48 + (b / 10 ^ Z.of_nat k) mod 10))) as [E|E|E].
    + apply IH. assert ((a / 10 ^ Z.of_nat k) mod 10 = (b / 10 ^ Z.of_nat k) mod 10) by lia. nia.
    + done.
    + nia.
Qed.

Lemma fmt_020d_compare a b x y :
  is_u64 a -> is_u64 b -> a < b ->
  String.compare (fmt_020d a +:+ x) (fmt_020d b +:+ y) = Lt.
Proof.
  unfold is_u64, fmt_020d. intros. apply digits_compare_lt.
  rewrite !Z.mod_small; lia.
Qed.

Lemma string_compare_app s x y :
  String.compare (s +:+ x) (s +:+ y) = String.compare x y.
Proof.
  induction s as [|c s IH]; [done|].
  rewrite !string_app_cons. cbn [String.compare]. by rewrite ascii_compare_N, N.compare_refl.
Qed.

(** * Suffixes *)

Lemma string_app_length s t : String.length (s +:+ t) = (String.length s + String.length t)%nat.
Proof. induction s as [|c s IH]; [done|]. rewrite ?string_app_cons. cbn. by rewrite IH. Qed.

Lemma string_app_assoc (s t u : string) : (s +:+ t) +:+ u = s +:+ t +:+ u.
Proof. induction s as [|c s IH]; [done|]. rewrite ?string_app_cons. cbn. by rewrite IH. Qed.

Lemma string_eqb_longer c s t : String.eqb (String c s +:+ t) t = false.
Proof.
  apply String.eqb_neq. intros E. apply (f_equal String.length) in E.
  rewrite string_app_length in E. cbn in E. lia.
Qed.

Lemma TrimSuffix_app s t : TrimSuffix (s +:+ t) t = s.
Proof.
  induction s as [|c s IH].
  - change ("" +:+ t) with t. destruct t; cbn; [done|].
    by rewrite Ascii.eqb_refl, String.eqb_refl.
  - rewrite string_app_cons. cbn [TrimSuffix]. rewrite <-string_app_cons.
    by rewrite string_eqb_longer, IH.
Qed.

Lemma HasSuffix_app s t : HasSuffix (s +:+ t) t = true.
Proof.
  induction s as [|c s IH].
  - change ("" +:+ t) with t. destruct t; cbn; [done|].
    by rewrite Ascii.eqb_refl, String.eqb_refl.
  - rewrite string_app_cons. cbn [HasSuffix]. rewrite IH. apply orb_true_r.
Qed.

(** * Properties of the names *)

(** Every name of a segment file, as the program makes them. *)
Inductive segment_name : Z -> string -> Prop :=
| readonly_name first last : segment_name first (ReadonlySegmentName first last)
| readwrite_name first : segment_name first (ReadWriteSegmentName first).

Lemma segment_name_prefix first n :
  segment_name first n -> exists r, n = fmt_020d first +:+ r.
Proof. intros []; eauto. Qed.

Lemma index_name_readonly first last :
  GetIndexName (ReadonlySegmentName first last) = ReadonlyIndexName first last.
Proof.
  unfold GetIndexName, ReadonlySegmentName, ReadonlyIndexName.
  rewrite <-2!string_app_assoc, TrimSuffix_app. by rewrite 2!string_app_assoc.
Qed.

Lemma index_name_readwrite first :
  GetIndexName (ReadWriteSegmentName first) = ReadWriteIndexName first.
Proof.
  unfold GetIndexName, ReadWriteSegmentName, ReadWriteIndexName.
  change "-inprogress.log" with ("-inprogress" +:+ LogSuffix).
  by rewrite <-string_app_assoc, TrimSuffix_app, string_app_assoc.
Qed.

Lemma segment_name_log first n : segment_name first n -> HasSuffix n LogSuffix = true.
Proof.
  intros [].
  - unfold ReadonlySegmentName. rewrite <-2!string_app_assoc. apply HasSuffix_app.
  - unfold ReadWriteSegmentName. change "-inprogress.log" with ("-inprogress" +:+ LogSuffix).
    rewrite <-string_app_assoc. apply HasSuffix_app.
Qed.

Lemma scan_readonly first last :
  is_u64 first -> is_u64 last ->
  scanReadonlySegment (ReadonlySegmentName first last) = Some (first, last).
Proof.
  intros H1 H2. unfold scanReadonlySegment, ReadonlySegmentName.
  rewrite scan_020d_fmt by done. rewrite scan_lit_app, scan_020d_fmt by done. done.
Qed.

Lemma scan_readwrite first :
  is_u64 first -> scanReadWriteSegment (ReadWriteSegmentName first) = Some first.
Proof.
  intros H. unfold scanReadWriteSegment, ReadWriteSegmentName.
  by rewrite scan_020d_fmt.
Qed.

(** A read-only name is not a name of an in-progress segment. *)
Lemma scan_readwrite_readonly first last :
  is_u64 first -> scanReadWriteSegment (ReadonlySegmentName first last) = None.
Proof.
  intros H. unfold scanReadWriteSegment, ReadonlySegmentName.
  rewrite scan_020d_fmt by done.
  change ("-" +:+ ?s) with (String "-" s). unfold fmt_020d. cbn [digits].
  rewrite string_app_cons. cbn [scan_lit].
  destruct (ascii_dec _ _) as [_|]; [|done].
  destruct (ascii_dec _ _) as [E|]; [|done].
  apply (f_equal N_of_ascii) in E. rewrite N_of_digit in E.
  pose proof (Z.mod_pos_bound (last / 10 ^ Z.of_nat 19) 10 ltac:(lia)).
  change (N_of_ascii "i") with 105%N in E. lia.
Qed.

Lemma segment_name_lt f g n m :
  is_u64 f -> is_u64 g -> f < g -> segment_name f n -> segment_name g m -> name_lt n m.
Proof.
  intros Hf Hg Hlt [r ->]%segment_name_prefix [r' ->]%segment_name_prefix.
  unfold name_lt, String.ltb. by rewrite fmt_020d_compare.
Qed.

(** ** Whose file a name is *)

(** The files of the segment that starts at [base]. *)
Definition owned (base : Z) (n : string) : Prop := exists r, n = fmt_020d base +:+ r.

Lemma owned_inj f g n : is_u64 f -> is_u64 g -> owned f n -> owned g n -> f = g.
Proof.
  intros Hf Hg [r ->] [r' E]. apply (f_equal scan_020d) in E.
  rewrite !scan_020d_fmt in E by done. by injection E.
Qed.

Lemma owned_readonly_log f l : owned f (ReadonlySegmentName f l).
Proof. by eexists. Qed.
Lemma owned_readonly_index f l : owned f (ReadonlyIndexName f l).
Proof. by eexists. Qed.
Lemma owned_readwrite_log f : owned f (ReadWriteSegmentName f).
Proof. by eexists. Qed.
Lemma owned_readwrite_index f : owned f (ReadWriteIndexName f).
Proof. by eexists. Qed.

#[export] Hint Resolve owned_readonly_log owned_readonly_index owned_readwrite_log
  owned_readwrite_index : go.

Lemma scan_lit_inv lit s r : scan_lit lit s = Some r -> s = lit +:+ r.
Proof.
  revert s. induction lit as [|c lit IH]; intros s; cbn [scan_lit]; [by intros [= ->]|].
  destruct s as [|a s]; [done|]. destruct (ascii_dec c a) as [->|]; [|done].
  intros ->%IH. by rewrite string_app_cons.
Qed.

#[export] Instance owned_dec base n : Decision (owned base n).
Proof.
  destruct (scan_lit (fmt_020d base) n) as [r|] eqn:E.
  - left. exists r. by apply scan_lit_inv.
  - right. intros [r ->]. by rewrite scan_lit_app in E.
Defined.

Fixpoint last_char (s : string) : option ascii :=
  match s with
  | "" => None
  | String c s' => match last_char s' with None => Some c | r => r end
  end.

Lemma last_char_app s t c : last_char t = Some c -> last_char (s +:+ t) = Some c.
Proof.
  intros H. induction s as [|a s IH]; [done|]. rewrite string_app_cons. cbn. by rewrite IH.
Qed.

Lemma HasSuffix_last_char s t c : last_char t = Some c -> HasSuffix s t = true -> last_char s = Some c.
Proof.
  intros Ht. induction s as [|a s IH]; cbn [HasSuffix].
  - rewrite orb_false_r. by intros <-%String.eqb_eq.
  - intros [E%String.eqb_eq|E]%orb_true_iff; [by rewrite E|]. cbn. by rewrite IH.
Qed.

(** Index files are not log files. *)
Lemma readonly_index_not_log f l : HasSuffix (ReadonlyIndexName f l) LogSuffix = false.
Proof.
  apply not_true_iff_false. intros E%(HasSuffix_last_char _ _ "g"); [|done].
  unfold ReadonlyIndexName in E. by rewrite !(last_char_app _ _ "x") in E by (by rewrite ?(last_char_app _ _ "x")).
Qed.
Lemma readwrite_index_not_log f : HasSuffix (ReadWriteIndexName f) LogSuffix = false.
Proof.
  apply not_true_iff_false. intros E%(HasSuffix_last_char _ _ "g"); [|done].
  unfold ReadWriteIndexName in E. by rewrite (last_char_app _ _ "x") in E.
Qed.

(** ** The order of a directory *)

Lemma string_compare_lt_trans a b c :
  String.compare a b = Lt -> String.compare b c = Lt -> String.compare a c = Lt.
Proof.
  revert b c. induction a as [|x a IH]; intros [|y b] [|z c]; cbn; try done.
  rewrite !ascii_compare_N.
  destruct (N.compare_spec (N_of_ascii x) (N_of_ascii y)) as [E1|E1|E1]; try done;
  destruct (N.compare_spec (N_of_ascii y) (N_of_ascii z)) as [E2|E2|E2]; try done; intros H1 H2;
  destruct (N.compare_spec (N_of_ascii x) (N_of_ascii z)) as [E3|E3|E3]; try done;
    try (exfalso; lia). by apply (IH b).
Qed.

Lemma name_le_cases a b : name_le a b <-> a = b \/ name_lt a b.
Proof.
  unfold name_le, name_lt, String.leb, String.ltb. split.
  - destruct (String.compare a b) eqn:E; try done; [|auto].
    intros _. left. by apply String.compare_eq_iff.
  - intros [->|H]; [|by destruct (String.compare a b)].
    pose proof (String.compare_antisym b b). by destruct (String.compare b b).
Qed.

#[export] Instance name_lt_trans : Transitive name_lt.
Proof.
  intros a b c. unfold name_lt, String.ltb. intros H1 H2.
  destruct (String.compare a b) eqn:E1; try done.
  destruct (String.compare b c) eqn:E2; try done.
  by rewrite (string_compare_lt_trans _ _ _ E1 E2).
Qed.
Lemma name_lt_irrefl a : ~ name_lt a a.
Proof.
  unfold name_lt, String.ltb. pose proof (String.compare_antisym a a).
  by destruct (String.compare a a).
Qed.
#[export] Instance name_le_trans : Transitive name_le.
Proof.
  intros a b c. rewrite !name_le_cases. intros [->|H1] [->|H2]; auto. right. by trans b.
Qed.
#[export] Instance name_le_antisym : AntiSymm eq name_le.
Proof.
  intros a b. rewrite !name_le_cases. intros [->|H1] [E|H2]; auto.
  destruct (name_lt_irrefl a). by trans b.
Qed.
#[export] Instance name_le_total : Total name_le.
Proof.
  intros a b. unfold name_le, String.leb. rewrite (String.compare_antisym b a).
  destruct (String.compare a b); cbn; auto.
Qed.

Lemma StronglySorted_filter {A} (R : relation A) (P : A -> Prop) `{forall x, Decision (P x)} l :
  StronglySorted R l -> StronglySorted R (filter P l).
Proof.
  induction 1 as [|x l Hs IH Hx]; [constructor|].
  rewrite filter_cons. case_decide; [|done]. constructor; [done|].
  apply Forall_forall. intros y [_ Hy]%list_elem_of_filter.
  by apply (proj1 (Forall_forall _ _) Hx).
Qed.

(** The names with a property, in order. *)
Lemma sorted_filter {A} (P : string -> Prop) `{forall n, Decision (P n)} (dir : gmap string A) (names : list string) :
  StronglySorted name_lt names ->
  (forall n, n ∈ names <-> is_Some (dir !! n) /\ P n) ->
  filter P (sorted_names dir) = names.
Proof.
  intros Hs Hin. apply (StronglySorted_unique name_le).
  - apply StronglySorted_filter, StronglySorted_merge_sort; apply _.
  - clear Hin. induction Hs as [|x l Hs IH Hx]; constructor; [done|].
    eapply Forall_impl; [exact Hx|]. intros y Hy. apply name_le_cases. auto.
  - apply NoDup_Permutation.
    + apply NoDup_filter. unfold sorted_names. rewrite merge_sort_Permutation. apply NoDup_fst_map_to_list.
    + clear Hin. induction Hs as [|x l Hs IH Hx]; constructor; [|done].
      intros Hx'. by apply (name_lt_irrefl x), (proj1 (Forall_forall _ _) Hx).
    + intros n. rewrite list_elem_of_filter, Hin. unfold sorted_names.
      rewrite merge_sort_Permutation, list_elem_of_fmap. split.
      * intros [Hl ([m c] & -> & Hm%elem_of_map_to_list)]. cbn in *. eauto.
      * intros [[c Hc] Hl]. split; [done|]. exists (n, c). split; [done|].
        by apply elem_of_map_to_list.
Qed.

(** The log files of a directory are opened in the order of [names], if that
    is the order of their names. *)
Lemma sorted_logs {A} (dir : gmap string A) (names : list string) :
  StronglySorted name_lt names ->
  (forall n, n ∈ names <-> is_Some (dir !! n) /\ HasSuffix n LogSuffix = true) ->
  filter (fun n => HasSuffix n LogSuffix = true) (sorted_names dir) = names.
Proof. apply (sorted_filter (fun n => HasSuffix n LogSuffix = true)). Qed.
