(* ===== verification/Disk.v ===== *)
(** The log directory as the storage sees it: files by base name, the system
    calls that the storage makes on them, and the memory-mapped file of
    storage/mmap_file.go.

    Every file of the storage is in the one directory [DiskStorage.Dir], so a
    path is its base name. A mapping is [MAP_SHARED]: the mapped bytes are the
    file's bytes, and they outlive the process. *)
From S2P Require Import Prelude Wire Names.
From Stdlib Require Import String.
Local Open Scope Z_scope.
Local Open Scope go_scope.

(** * Files and system calls *)

(** [faults] decides the system calls to come: [Some errno] at the head makes
    the next one fail and have no effect; when it is empty, calls fail only
    for a reason in [files]. *)
Record FS : Type := mkFS { files : gmap string bytes; faults : list (option Z) }.

Definition syscall {A} (m : St (gmap string bytes) A) : St FS A := fun fs =>
  match faults fs with
  | Some errno :: fl => (Err (ErrOS errno), mkFS (files fs) fl)
  | _ => let '(r, d) := m (files fs) in (r, mkFS d (tail (faults fs)))
  end.

Definition ENOENT : Z := 2.
Definition EEXIST : Z := 17.
Definition EINVAL : Z := 22.

Definition with_file {A} (name : string) (k : bytes -> St (gmap string bytes) A)
    : St (gmap string bytes) A := fun d =>
  match d !! name with
  | None => (Err (ErrOS ENOENT), d)
  | Some content => k content d
  end.

(** [os.OpenFile(name, os.O_RDWR|os.O_CREATE|os.O_EXCL, FileMode)] *)
Definition OpenFile_excl (name : string) : St FS unit :=
  syscall (fun d => match d !! name with
                    | Some _ => (Err (ErrOS EEXIST), d)
                    | None => (Ok tt, <[name := []]> d)
                    end).

(** [os.OpenFile(name, os.O_RDWR, FileMode)] *)
Definition OpenFile_rdwr (name : string) : St FS unit :=
  syscall (with_file name (fun _ => ret tt)).

Definition Stat_Size (name : string) : St FS Z :=
  syscall (with_file name (fun c => ret (blen c))).

(** [fileutil.Preallocate(f, size, true)]: the file has at least [size] bytes
    afterwards. *)
Definition Preallocate (name : string) (size : Z) : St FS unit :=
  if size =? 0 then ret tt else
  syscall (with_file name (fun c => modify (insert name (c ++ zeros (size - blen c))))).

(** [syscall.Mmap] of the whole file. *)
Definition Mmap (size : Z) : St FS unit :=
  syscall (if size <=? 0 then throw (ErrOS EINVAL) else ret tt).

(** [syscall.Munmap] of a slice that [Mmap] returned, or not. *)
Definition Munmap (mapped : bool) : St FS unit :=
  syscall (if mapped then ret tt else throw (ErrOS EINVAL)).

Definition Close : St FS unit := syscall (ret tt).

(** [utils.Syncfilerange] *)
Definition Syncfilerange : St FS unit := syscall (ret tt).

Definition Remove (name : string) : St FS unit :=
  syscall (with_file name (fun _ => modify (delete name))).

Definition Rename (old new : string) : St FS unit :=
  syscall (with_file old (fun c => modify (fun d => <[new := c]> (delete old d)))).

(** [f.ReadAt(buf, pos)], [n] bytes: fewer at the end of the file. *)
Definition ReadAt (name : string) (pos n : Z) : St FS bytes :=
  syscall (with_file name (fun c => ret (take (Z.to_nat n) (drop (Z.to_nat pos) c)))).

(** [f.Write(data)] at the file's offset [pos]. *)
Definition WriteAt (name : string) (pos : Z) (data : bytes) : St FS unit :=
  syscall (with_file name (fun c =>
    modify (insert name (splice (c ++ zeros (pos + blen data - blen c)) pos data)))).

Definition Truncate (name : string) (size : Z) : St FS unit :=
  syscall (if size <? 0 then throw (ErrOS EINVAL) else with_file name (fun c =>
    modify (insert name (take (Z.to_nat size) c ++ zeros (size - blen c))))).

(** [f.Seek] from the start, or to the end: the new offset. *)
Definition SeekStart (pos : Z) : St FS Z :=
  syscall (if pos <? 0 then throw (ErrOS EINVAL) else ret pos).
Definition SeekEnd (name : string) : St FS Z :=
  syscall (with_file name (fun c => ret (blen c))).

(** utils/file_utils.go: [ReadDir] and [ExistLog]. *)
Definition ReadDir : St FS (list string) :=
  syscall (ret tt) ;! syscall (gets sorted_names).

Definition ExistLog (fs : FS) : bool * FS :=
  match ReadDir fs with
  | (Ok names, fs') => (existsb (fun name => HasSuffix name LogSuffix) names, fs')
  | (_, fs') => (false, fs')
  end.

(** A file system call made by a method of an object of type [T]. *)
Definition on_fs {T A} (m : St FS A) : St (T * FS) A :=
  zoom snd (fun fs s => (s.1, fs)) m.

(** A constructor that stores the object it makes. *)
Definition obj {T A} (f : T -> A) : St (T * FS) A := gets (fun s => f s.1).
Definition set_obj {T} (f : T -> T) : St (T * FS) unit := modify (fun s => (f s.1, s.2)).

(** * storage/mmap_file.go *)

Definition RecordLengthSize : Z := 4.

Module MmapFile.

(** [mapped] holds between the constructor and [close]; [mappedData] is then
    the content of the file at [filePath]. *)
Record t : Type := mk {
  filePath : string; mapped : bool;
  writePosition : Z; syncPosition : Z; maxBytes : Z }.

Definition set_pos (w s : Z) (f : t) : t := mk (filePath f) (mapped f) w s (maxBytes f).
Definition set_filePath (p : string) (f : t) : t :=
  mk p (mapped f) (writePosition f) (syncPosition f) (maxBytes f).
Definition unmap (f : t) : t :=
  mk (filePath f) false (writePosition f) (syncPosition f) (maxBytes f).

Definition newMmapFile (name : string) (fileSize : Z) : St FS t :=
  fatal_on_err (OpenFile_excl name) ;!
  fatal_on_err (Preallocate name fileSize) ;!
  fatal_on_err (Mmap fileSize) ;!
  ret (mk name true 0 0 fileSize).

Definition openMmapFile (name : string) : St FS t :=
  fatal_on_err (OpenFile_rdwr name) ;!
  let! fileSize := fatal_on_err (Stat_Size name) in
  fatal_on_err (Preallocate name fileSize) ;!
  fatal_on_err (Mmap fileSize) ;!
  ret (mk name true 0 0 fileSize).

(** The mapped bytes; touching them after [Munmap] is a fault of the process. *)
Definition mappedData : St (t * FS) bytes := fun s =>
  must (if mapped s.1 then files s.2 !! filePath s.1 else None) s.

Definition set_mappedData (data : bytes) : St (t * FS) unit :=
  modify (fun s => (s.1, mkFS (<[filePath s.1 := data]> (files s.2)) (faults s.2))).

Definition append (data : bytes) : St (t * FS) Z :=
  let! startPos := obj writePosition in
  let! m := mappedData in
  let! _ := must (slice m startPos (startPos + blen data)) in
  set_mappedData (splice m startPos data) ;!
  set_obj (fun f => set_pos (writePosition f + blen data) (syncPosition f) f) ;!
  ret startPos.

Definition sync : St (t * FS) unit :=
  on_fs Syncfilerange ;!
  set_obj (fun f => set_pos (writePosition f) (writePosition f) f).

Definition setPosition (position : Z) : St (t * FS) unit :=
  if position <? 0 then panic else set_obj (set_pos position position).

Definition readRaftEntry (position : Z) : St (t * FS) (Entry.t * Z) :=
  let! m := mappedData in
  let! lenBuf := must (slice m position (position + RecordLengthSize)) in
  let recordLen := le_val lenBuf in
  let position := position + RecordLengthSize in
  let endPosition := position + recordLen in
  let! recordBuf := must (slice m position endPosition) in
  match Record.Unmarshal Record.zero recordBuf with
  | (Ok _, record) =>
      let data := default [] (Record.Data record) in
      if negb (ChecksumIEEE data =? Record.Crc record) then panic else
      match Entry.Unmarshal Entry.zero data with
      | (Ok _, entry) => ret (entry, endPosition)
      | _ => panic
      end
  | _ => panic
  end.

Definition close : St (t * FS) unit :=
  let! b := obj mapped in
  on_fs (Munmap b) ;!
  set_obj unmap ;!
  on_fs Close.

Definition remove : St (t * FS) unit :=
  close ;!
  let! p := obj filePath in
  on_fs (Remove p).

Definition truncateSuffix (position : Z) : St (t * FS) unit :=
  let! w := obj writePosition in
  if w <? position then throw ErrOutOfBound else
  let zeroDataLen := w - position in
  let! m := mappedData in
  let! _ := must (slice m position (position + zeroDataLen)) in
  set_mappedData (splice m position (zeros zeroDataLen)) ;!
  on_fs Syncfilerange ;!
  set_obj (set_pos position position).

Definition rename (name : string) : St (t * FS) unit :=
  let! p := obj filePath in
  on_fs (Rename p name) ;!
  set_obj (set_filePath name).

End MmapFile.

(** * Reasoning about the calls *)

(** A file system in which every call succeeds that can. *)
Abbreviation quiet d := (mkFS d []).

(** Evaluates a sequence of calls whose outcomes are known. *)
Ltac run := repeat first [
  progress unfold bind, ret, gets, modify, must, throw, panic, lift, zoom, on_fs, obj, set_obj,
    fatal_on_err, syscall, with_file in *
| progress cbn -[zeros blen insert lookup delete splice slice Z.add Z.sub take drop Z.mul
    Z.of_nat Z.to_nat Z.leb Z.ltb Z.eqb Z.pow le_bytes le_val String.eqb entry_bytes record_bytes
    Record.Unmarshal Entry.Unmarshal ChecksumIEEE] in * ].

(** Decides one integer test of the goal by [lia]. *)
Ltac ztest :=
  match goal with
  | |- context [?a <? ?b] =>
      first [rewrite (proj2 (Z.ltb_lt a b)) by lia | rewrite (proj2 (Z.ltb_ge a b)) by lia]
  | |- context [?a <=? ?b] =>
      first [rewrite (proj2 (Z.leb_le a b)) by lia | rewrite (proj2 (Z.leb_gt a b)) by lia]
  | |- context [?a =? ?b] =>
      first [rewrite (proj2 (Z.eqb_eq a b)) by lia | rewrite (proj2 (Z.eqb_neq a b)) by lia]
  end.

(** [run], looking up what the hypotheses say of files and flags. *)
Ltac runs := run; repeat (
  first [ match goal with
          | H : _ !! _ = _ |- _ => progress rewrite !H
          | H : _ = true |- _ => progress rewrite !H
          | |- context [<[?k := _]> _ !! ?k] => rewrite lookup_insert_eq
          | |- context [slice _ _ _] => rewrite slice_in_bounds by len
          end
        | ztest ]; run).

Section MmapFileLemmas.
Import MmapFile.

Lemma newMmapFile_ok d name size :
  d !! name = None -> 0 < size ->
  newMmapFile name size (quiet d) =
    (Ok (mk name true 0 0 size), quiet (<[name := zeros size]> d)).
Proof.
  intros Hn Hs. unfold newMmapFile, OpenFile_excl, Preallocate, Mmap. runs.
  rewrite insert_insert_eq. do 3 f_equal. by rewrite Z.sub_0_r.
Qed.

Lemma newMmapFile_exists d name size fl c :
  d !! name = Some c -> exists fs, newMmapFile name size (mkFS d fl) = (Panic, fs) /\ files fs = d.
Proof.
  intros Hn. unfold newMmapFile, OpenFile_excl. run.
  destruct fl as [|[]]; runs; eexists; split; reflexivity.
Qed.

Lemma openMmapFile_ok d name c :
  d !! name = Some c -> 0 < blen c ->
  openMmapFile name (quiet d) = (Ok (mk name true 0 0 (blen c)), quiet d).
Proof.
  intros Hn Hs. unfold openMmapFile, OpenFile_rdwr, Stat_Size, Preallocate, Mmap. runs.
  rewrite Z.sub_diag, app_nil_r, insert_id; done.
Qed.

(** An empty file cannot be mapped: opening it ends the process. *)
Lemma openMmapFile_empty d name :
  d !! name = Some [] -> openMmapFile name (quiet d) = (Panic, quiet d).
Proof.
  intros Hn. unfold openMmapFile, OpenFile_rdwr, Stat_Size, Preallocate, Mmap. by runs.
Qed.

Lemma append_ok f d fl m data :
  mapped f = true -> d !! filePath f = Some m ->
  0 <= writePosition f -> writePosition f + blen data <= blen m ->
  append data (f, mkFS d fl) =
    (Ok (writePosition f),
     (set_pos (writePosition f + blen data) (syncPosition f) f,
      mkFS (<[filePath f := splice m (writePosition f) data]> d) fl)).
Proof. intros Hm Hd H1 H2. unfold append, mappedData, set_mappedData. by runs. Qed.

Lemma append_overflow f d fl m data :
  mapped f = true -> d !! filePath f = Some m ->
  blen m < writePosition f + blen data ->
  append data (f, mkFS d fl) = (Panic, (f, mkFS d fl)).
Proof.
  intros Hm Hd H. unfold append, mappedData. run. rewrite Hm, Hd. run.
  destruct (slice m _ _) eqn:E; [|done]. apply slice_Some in E. lia.
Qed.

Lemma sync_ok f d :
  sync (f, quiet d) = (Ok tt, (set_pos (writePosition f) (writePosition f) f, quiet d)).
Proof. done. Qed.

Lemma close_ok f d :
  mapped f = true -> close (f, quiet d) = (Ok tt, (unmap f, quiet d)).
Proof. intros Hm. unfold close, Munmap, Close. by runs. Qed.

Lemma remove_ok f d c :
  mapped f = true -> d !! filePath f = Some c ->
  remove (f, quiet d) = (Ok tt, (unmap f, quiet (delete (filePath f) d))).
Proof.
  intros Hm Hd. unfold remove. rewrite (bind_ok _ _ _ _ _ (close_ok f d Hm)).
  unfold Remove. by runs.
Qed.

Lemma rename_ok f d c name :
  d !! filePath f = Some c ->
  rename name (f, quiet d) =
    (Ok tt, (set_filePath name f, quiet (<[name := c]> (delete (filePath f) d)))).
Proof. intros Hd. unfold rename, Rename. by runs. Qed.

Lemma truncateSuffix_ok f d m position :
  mapped f = true -> d !! filePath f = Some m ->
  0 <= position <= writePosition f -> writePosition f <= blen m ->
  truncateSuffix position (f, quiet d) =
    (Ok tt, (set_pos position position f,
             quiet (<[filePath f := splice m position (zeros (writePosition f - position))]> d))).
Proof.
  intros Hm Hd H1 H2. unfold truncateSuffix, mappedData, set_mappedData, Syncfilerange. by runs.
Qed.

Lemma truncateSuffix_past f fs position :
  writePosition f < position ->
  truncateSuffix position (f, fs) = (Err ErrOutOfBound, (f, fs)).
Proof. intros H. unfold truncateSuffix. by runs. Qed.

End MmapFileLemmas.

(** Two directories that differ at most in the files [P]. *)
Definition same_except (P : string -> Prop) (d d' : gmap string bytes) : Prop :=
  forall n, ~ P n -> d' !! n = d !! n.

Lemma same_except_refl P d : same_except P d d.
Proof. done. Qed.
Lemma same_except_trans P d1 d2 d3 :
  same_except P d1 d2 -> same_except P d2 d3 -> same_except P d1 d3.
Proof. intros H1 H2 n Hn. by rewrite H2, H1. Qed.
Lemma same_except_insert (P : string -> Prop) d n c : P n -> same_except P d (<[n := c]> d).
Proof. intros Hn m Hm. rewrite lookup_insert_ne; [done|]. by intros ->. Qed.
Lemma same_except_delete (P : string -> Prop) d n : P n -> same_except P d (delete n d).
Proof. intros Hn m Hm. rewrite lookup_delete_ne; [done|]. by intros ->. Qed.
Lemma same_except_mono (P Q : string -> Prop) d d' :
  (forall n, P n -> Q n) -> same_except P d d' -> same_except Q d d'.
Proof. intros Hs H n Hn. apply H. auto. Qed.

#[export] Hint Resolve same_except_refl same_except_insert same_except_delete : go.

(** * Frames *)

(** The record of an entry, as [entriesToRecords] makes it. *)
Definition record_of (e : Entry.t) : Record.t :=
  Record.mk (ChecksumIEEE (entry_bytes e)) (Some (entry_bytes e)) None.

(** The bytes of an entry in a segment file. *)
Definition frame (e : Entry.t) : bytes :=
  le_bytes 4 (blen (record_bytes (record_of e))) ++ record_bytes (record_of e).

(** An entry that fits a segment. *)
Record storable (e : Entry.t) : Prop := {
  st_ok : entry_ok e;
  st_size : blen (record_bytes (record_of e)) < 2 ^ 32 }.

#[global] Arguments frame : simpl never.

Lemma blen_frame e : blen (frame e) = 4 + blen (record_bytes (record_of e)).
Proof. unfold frame. len. Qed.

Lemma blen_record_of e : blen (entry_bytes e) + 2 <= blen (record_bytes (record_of e)).
Proof.
  unfold record_bytes, record_of. cbn [Record.Data Record.Crc]. unfold opt_bytes, uint_bytes. len.
Qed.

Lemma blen_frame_pos e : 6 <= blen (frame e).
Proof. rewrite blen_frame. pose proof (blen_record_of e). len. Qed.

Lemma record_of_unmarshal m0 e :
  storable e ->
  Record.Unmarshal m0 (record_bytes (record_of e)) =
    (Ok tt, Record.mk (ChecksumIEEE (entry_bytes e)) (Some (entry_bytes e))
              (Record.XXX_unrecognized m0)).
Proof.
  intros [He Hs]. pose proof (blen_record_of e).
  rewrite Record_Unmarshal_eq; cbn [record_of Record.Crc Record.Data Record.XXX_unrecognized]; try done.
  - apply u32_range.
  - split; [by apply entry_bytes_ok | lia].
  - rewrite Record_Size_eq. lia.
Qed.

Lemma storable_entry_unmarshal e :
  storable e -> Entry.Unmarshal Entry.zero (entry_bytes e) = (Ok tt, e).
Proof.
  intros [He Hs]. pose proof (blen_record_of e).
  rewrite Entry_Unmarshal_eq; [|done|rewrite Entry_Size_eq; lia].
  destruct He, e as [? ? ? [] ?]; cbn in *; by subst.
Qed.

(** Reading at the start of a frame gives its entry and the next frame. *)
Lemma readRaftEntry_frame f fs pre e post :
  MmapFile.mapped f = true ->
  files fs !! MmapFile.filePath f = Some (pre ++ frame e ++ post) -> storable e ->
  MmapFile.readRaftEntry (blen pre) (f, fs) =
    (Ok (e, blen pre + blen (frame e)), (f, fs)).
Proof.
  intros Hm Hd Hs. rewrite blen_frame. unfold frame in Hd. rewrite <-app_assoc in Hd.
  unfold MmapFile.readRaftEntry, MmapFile.mappedData, RecordLengthSize. run. rewrite Hm, Hd. run.
  rewrite (slice_mid pre (le_bytes 4 _)) by len. run.
  rewrite le_val_u32 by (destruct Hs; unfold is_u32; len).
  rewrite (app_assoc pre), (slice_mid (pre ++ _)) by len. run.
  rewrite record_of_unmarshal by done. run.
  rewrite Z.eqb_refl. run. rewrite storable_entry_unmarshal by done. run.
  by rewrite Z.add_assoc.
Qed.
