(* ===== verification/IndexFile.v ===== *)
(** The index of a segment, storage/index.go: one twelve byte entry per raft
    entry, giving its position in the segment file. The index of the segment
    that is written keeps its entries in memory and appends to its file
    through a buffer; a read-only index is a mapped file. *)
From S2P Require Import Prelude Wire Names Disk.
Local Open Scope Z_scope.
Local Open Scope go_scope.

(** segment.go: the status of a segment, which the index is asked for too. *)
Inductive SegmentStatus : Type := SegmentReadOnly | SegmentRDWR | SegmentClosed.

#[export] Instance SegmentStatus_eq_dec : EqDecision SegmentStatus.
Proof. solve_decision. Defined.

Definition IndexEntrySize : Z := 12.

Module IndexEntry.

Record t : Type := mk { RaftIndex : Z; FilePosition : Z }.

Definition Marshal (i : t) : bytes :=
  le_bytes 8 (RaftIndex i) ++ le_bytes 4 (FilePosition i).

(** [None] is the run-time panic on a buffer that is too short. *)
Definition Unmarshal (data : bytes) : option t :=
  match slice data 0 8, slice data 8 12 with
  | Some a, Some b => Some (mk (le_val a) (le_val b))
  | _, _ => None
  end.

End IndexEntry.

(** storage/mmap_file.go: [readIndexEntry]. *)
Definition readIndexEntry (position : Z) : St (MmapFile.t * FS) IndexEntry.t :=
  let! m := MmapFile.mappedData in
  let! indexEntryBuf := must (slice m position (position + IndexEntrySize)) in
  must (IndexEntry.Unmarshal indexEntryBuf).

Module RWFile.

(** [buf] and [werr] are the pending bytes and the sticky error of the
    [bufio.Writer], [offset] the offset of the file. *)
Record t : Type := mk {
  entries : list IndexEntry.t;
  buf : bytes; werr : option error;
  offset : Z; filePath : string }.

Definition bufferSize : Z := IndexEntrySize * 1024 * 1024.

Definition set_entries (l : list IndexEntry.t) (rw : t) : t :=
  mk l (buf rw) (werr rw) (offset rw) (filePath rw).
Definition set_buf (b : bytes) (rw : t) : t :=
  mk (entries rw) b (werr rw) (offset rw) (filePath rw).
Definition set_werr (e : option error) (rw : t) : t :=
  mk (entries rw) (buf rw) e (offset rw) (filePath rw).
Definition set_offset (o : Z) (rw : t) : t :=
  mk (entries rw) (buf rw) (werr rw) o (filePath rw).
Definition set_filePath (p : string) (rw : t) : t :=
  mk (entries rw) (buf rw) (werr rw) (offset rw) p.

(** [writer.Flush()] *)
Definition Flush : St (t * FS) unit := fun s =>
  match werr s.1 with
  | Some e => (Err e, s)
  | None =>
      if blen (buf s.1) =? 0 then (Ok tt, s) else
      match WriteAt (filePath s.1) (offset s.1) (buf s.1) s.2 with
      | (Ok _, fs) => (Ok tt, (set_offset (offset s.1 + blen (buf s.1)) (set_buf [] s.1), fs))
      | (Err e, fs) => (Err e, (set_werr (Some e) s.1, fs))
      | (Panic, fs) => (Panic, (s.1, fs))
      end
  end.

(** [writer.Write(p)] for [p] no longer than the buffer: what does not fit
    goes in after the buffer is flushed. *)
Definition Write (p : bytes) : St (t * FS) unit := fun s =>
  match werr s.1 with
  | Some e => (Err e, s)
  | None =>
      let n := Z.to_nat (bufferSize - blen (buf s.1)) in
      if blen p <=? bufferSize - blen (buf s.1)
      then (Ok tt, (set_buf (buf s.1 ++ p) s.1, s.2))
      else (set_obj (fun rw => set_buf (buf rw ++ take n p) rw) ;!
            Flush ;!
            set_obj (fun rw => set_buf (buf rw ++ drop n p) rw)) s
  end.

Definition newRWFile (name : string) : St FS t :=
  fatal_on_err (OpenFile_excl name) ;!
  let! _ := fatal_on_err (SeekStart 0) in
  ret (mk [] [] None 0 name).

(** Reads the entries from [pos] on; a file of [n] bytes has at most [n]. *)
Fixpoint read_entries (fuel : nat) (name : string) (pos : Z) (acc : list IndexEntry.t)
    : St FS (list IndexEntry.t) :=
  match fuel with
  | O => panic
  | S fuel' =>
      let! b := fatal_on_err (ReadAt name pos IndexEntrySize) in
      if blen b <? IndexEntrySize then
        if blen b =? 0 then ret acc else panic
      else
        let! indexEntry := must (IndexEntry.Unmarshal b) in
        read_entries fuel' name (pos + IndexEntrySize) (acc ++ [indexEntry])
  end.

Definition openRWFile (name : string) : St FS t :=
  fatal_on_err (OpenFile_rdwr name) ;!
  let! fuel := gets (fun fs => S (length (default [] (files fs !! name)))) in
  let! l := read_entries fuel name 0 [] in
  let! newPos := fatal_on_err (SeekEnd name) in
  ret (mk l [] None newPos name).

Definition close : St (t * FS) unit :=
  set_obj (set_entries []) ;!
  Flush ;!
  on_fs Close.

Definition remove : St (t * FS) unit :=
  close ;!
  let! p := obj filePath in
  on_fs (Remove p).

Definition rename (name : string) : St (t * FS) unit :=
  let! p := obj filePath in
  on_fs (Rename p name) ;!
  set_obj (set_filePath name).

End RWFile.

Module Index.

Record t : Type := mk { readonly : option MmapFile.t; readWrite : option RWFile.t }.

(** A method call on [d.readonly] or [d.readWrite]: a nil receiver panics. *)
Definition on_readonly {A} (m : St (MmapFile.t * FS) A) : St (t * FS) A := fun s =>
  match readonly s.1 with
  | None => (Panic, s)
  | Some f => let '(r, (f', fs)) := m (f, s.2) in (r, (mk (Some f') (readWrite s.1), fs))
  end.
Definition on_readWrite {A} (m : St (RWFile.t * FS) A) : St (t * FS) A := fun s =>
  match readWrite s.1 with
  | None => (Panic, s)
  | Some rw => let '(r, (rw', fs)) := m (rw, s.2) in (r, (mk (readonly s.1) (Some rw'), fs))
  end.

Definition newIndex (name : string) : St FS t :=
  let! rw := RWFile.newRWFile name in ret (mk None (Some rw)).

Definition openIndex (name : string) (status : SegmentStatus) : St FS t :=
  if decide (status = SegmentReadOnly)
  then let! f := MmapFile.openMmapFile name in ret (mk (Some f) None)
  else let! rw := RWFile.openRWFile name in ret (mk None (Some rw)).

Definition getRaftEntryPosition (i firstIndex : Z) (status : SegmentStatus) : St (t * FS) Z :=
  if i <? firstIndex then throw ErrOutOfBound else
  let position := i64 (i64 (i - firstIndex) * IndexEntrySize) in
  let! indexEntry :=
    (if decide (status = SegmentReadOnly)
     then on_readonly (readIndexEntry position)
     else let! es := on_readWrite (obj RWFile.entries) in
          must (index es (i64 (i - firstIndex)))) in
  if negb (IndexEntry.RaftIndex indexEntry =? i) then panic else
  ret (IndexEntry.FilePosition indexEntry).

Definition appendIndexEntry (entry : IndexEntry.t) : St (t * FS) unit :=
  on_readWrite (
    RWFile.Write (IndexEntry.Marshal entry) ;!
    set_obj (fun rw => RWFile.set_entries (RWFile.entries rw ++ [entry]) rw)).

Definition close : St (t * FS) unit := fun s =>
  match readonly s.1 with
  | Some _ => on_readonly MmapFile.close s
  | None => on_readWrite RWFile.close s
  end.

Definition getLastRaftEntry (status : SegmentStatus) : St (t * FS) IndexEntry.t :=
  if decide (status = SegmentRDWR) then
    let! es := on_readWrite (obj RWFile.entries) in
    must (index es (blen es - 1))
  else panic.

Definition truncateSuffix (i firstIndex : Z) (status : SegmentStatus) : St (t * FS) unit :=
  if i <? firstIndex then throw ErrOutOfBound else
  let position := i64 (i64 (i - firstIndex) * IndexEntrySize) in
  (if decide (status = SegmentReadOnly) then
     let newName := ReadWriteIndexName firstIndex in
     on_readonly (MmapFile.rename newName) ;!
     on_readonly MmapFile.close ;!
     set_obj (fun d => mk None (readWrite d)) ;!
     let! rw := on_fs (RWFile.openRWFile newName) in
     set_obj (fun d => mk (readonly d) (Some rw))
   else on_readWrite RWFile.Flush) ;!
  on_readWrite (
    let! p := obj RWFile.filePath in
    on_fs (Truncate p position) ;!
    let! newPos := on_fs (SeekStart position) in
    set_obj (RWFile.set_offset newPos) ;!
    (* the caller has found entry [i], so the bound is below the length *)
    let! es := obj RWFile.entries in
    let! es' := must (slice es 0 (i - firstIndex)) in
    set_obj (RWFile.set_entries es')).

Definition changeToReadonly : St (t * FS) unit :=
  let! es := on_readWrite (obj RWFile.entries) in
  let! first := must (index es 0) in
  let! last := must (index es (blen es - 1)) in
  let newName := ReadonlyIndexName (IndexEntry.RaftIndex first) (IndexEntry.RaftIndex last) in
  on_readWrite (RWFile.rename newName) ;!
  on_readWrite RWFile.close ;!
  set_obj (fun d => mk (readonly d) None) ;!
  let! f := on_fs (MmapFile.openMmapFile newName) in
  set_obj (fun d => mk (Some f) (readWrite d)).

Definition remove : St (t * FS) unit := fun s =>
  match readonly s.1, readWrite s.1 with
  | None, Some _ => on_readWrite RWFile.remove s
  | Some _, None => on_readonly MmapFile.remove s
  | _, _ => (Ok tt, s)
  end.

End Index.

(** * Index entries in a file *)

Definition index_entry_ok (i : IndexEntry.t) : Prop :=
  is_u64 (IndexEntry.RaftIndex i) /\ is_u32 (IndexEntry.FilePosition i).

Definition index_bytes (l : list IndexEntry.t) : bytes := concat (IndexEntry.Marshal <$> l).

#[global] Arguments IndexEntry.Marshal : simpl never.
#[global] Arguments index_bytes : simpl never.

Lemma index_bytes_app l k : index_bytes (l ++ k) = index_bytes l ++ index_bytes k.
Proof. unfold index_bytes. by rewrite fmap_app, concat_app. Qed.
Lemma index_bytes_one i : index_bytes [i] = IndexEntry.Marshal i.
Proof. unfold index_bytes. cbn [fmap list_fmap concat]. by rewrite app_nil_r. Qed.
Lemma blen_marshal i : blen (IndexEntry.Marshal i) = 12.
Proof. unfold IndexEntry.Marshal. len. Qed.
Lemma blen_index_bytes l : blen (index_bytes l) = 12 * blen l.
Proof.
  induction l as [|i l IH]; [done|]. unfold index_bytes in *. cbn [fmap list_fmap concat].
  rewrite blen_app, IH, blen_marshal. len.
Qed.
#[export] Hint Rewrite blen_marshal blen_index_bytes : len.

Lemma index_entry_unmarshal i :
  index_entry_ok i -> IndexEntry.Unmarshal (IndexEntry.Marshal i) = Some i.
Proof.
  intros [H1 H2]. unfold IndexEntry.Unmarshal, IndexEntry.Marshal.
  rewrite slice_prefix, slice_suffix by len.
  rewrite le_val_u64, le_val_u32 by done. by destruct i.
Qed.

(** The twelve bytes of the entry number [k]. *)
Lemma index_bytes_slice l k i :
  l !! k = Some i ->
  slice (index_bytes l) (Z.of_nat k * 12) (Z.of_nat k * 12 + 12) = Some (IndexEntry.Marshal i).
Proof.
  intros Hk. pose proof (lookup_lt_Some _ _ _ Hk).
  rewrite <-(take_drop_middle l k i Hk) at 1. rewrite index_bytes_app.
  change (i :: drop (S k) l) with ([i] ++ drop (S k) l). rewrite index_bytes_app, index_bytes_one.
  apply slice_mid.
  - rewrite blen_index_bytes. unfold blen. rewrite length_take. lia.
  - rewrite blen_marshal, blen_index_bytes. unfold blen. rewrite length_take. lia.
Qed.

(** * The file of an index that is written *)

Lemma splice_end (c b : bytes) n :
  n = blen b -> splice (c ++ zeros n) (blen c) b = c ++ b.
Proof.
  intros ->. pose proof (splice_mid c (zeros (blen b)) [] b (blen c)) as H.
  rewrite !app_nil_r in H. apply H; len.
Qed.

(** [rw] holds the entries [l]: what is not in the file yet is in the buffer,
    and both hold whole entries. *)
Record rw_repr (d : gmap string bytes) (name : string) (l : list IndexEntry.t) (rw : RWFile.t)
  : Prop := {
  rr_path : RWFile.filePath rw = name;
  rr_entries : RWFile.entries rw = l;
  rr_ok : Forall index_entry_ok l;
  rr_werr : RWFile.werr rw = None;
  rr_buf : blen (RWFile.buf rw) <= RWFile.bufferSize;
  rr_aligned : blen (RWFile.buf rw) mod IndexEntrySize = 0;
  rr_file : exists c, d !! name = Some c /\ RWFile.offset rw = blen c /\
                      c ++ RWFile.buf rw = index_bytes l }.

Definition flushed (rw : RWFile.t) (l : list IndexEntry.t) : RWFile.t :=
  RWFile.set_offset (blen (index_bytes l)) (RWFile.set_buf [] rw).

Lemma Flush_file d name bs rw c :
  RWFile.filePath rw = name -> RWFile.werr rw = None ->
  d !! name = Some c -> RWFile.offset rw = blen c -> c ++ RWFile.buf rw = bs ->
  RWFile.Flush (rw, quiet d) =
    (Ok tt, (RWFile.set_offset (blen bs) (RWFile.set_buf [] rw), quiet (<[name := bs]> d))).
Proof.
  intros Hp Hw Hc Ho Hb. unfold RWFile.Flush. cbn [fst snd].
  rewrite Hw. destruct (Z.eqb_spec (blen (RWFile.buf rw)) 0) as [E|E].
  - apply blen_0_nil in E. rewrite E, app_nil_r in Hb. subst c. rewrite insert_id by done.
    do 3 f_equal. destruct rw; cbn in *; by subst.
  - unfold WriteAt. rewrite Hp, Ho. runs. rewrite splice_end by lia. rewrite Hb.
    by rewrite <-blen_app, Hb.
Qed.

Lemma Flush_ok d name l rw :
  rw_repr d name l rw ->
  RWFile.Flush (rw, quiet d) =
    (Ok tt, (flushed rw l, quiet (<[name := index_bytes l]> d))).
Proof. intros [Hp _ _ Hw _ _ (c & Hc & Ho & Hb)]. by apply (Flush_file _ _ _ _ c). Qed.

Lemma rw_repr_flushed d name l rw :
  rw_repr d name l rw -> rw_repr (<[name := index_bytes l]> d) name l (flushed rw l).
Proof.
  intros [Hp He Ho Hw Hb Ha Hf]. split; cbn; try done.
  exists (index_bytes l). by rewrite lookup_insert_eq, app_nil_r.
Qed.

(** A change of other files does not matter. *)
Lemma rw_repr_frame d d' name l rw :
  d' !! name = d !! name -> rw_repr d name l rw -> rw_repr d' name l rw.
Proof.
  intros E [Hp He Ho Hw Hb Ha (c & Hc & Hf)]. split; try done. exists c. by rewrite E.
Qed.

Lemma Write_ok d name l rw i :
  rw_repr d name l rw -> index_entry_ok i ->
  exists rw' d',
    RWFile.Write (IndexEntry.Marshal i) (rw, quiet d) = (Ok tt, (rw', quiet d')) /\
    RWFile.entries rw' = l /\ same_except (eq name) d d' /\
    rw_repr d' name (l ++ [i]) (RWFile.set_entries (l ++ [i]) rw').
Proof.
  intros H Hi. pose proof H as [Hp He Ho Hw Hb Ha (c & Hc & Hoff & Hf)].
  unfold RWFile.Write. cbn [fst snd]. rewrite Hw.
  assert (index_bytes (l ++ [i]) = index_bytes l ++ IndexEntry.Marshal i) as El.
  { by rewrite index_bytes_app, index_bytes_one. }
  assert (Forall index_entry_ok (l ++ [i])) by (apply Forall_app; auto).
  destruct (Z.leb_spec (blen (IndexEntry.Marshal i)) (RWFile.bufferSize - blen (RWFile.buf rw))).
  - eexists _, d. split; [done|]. split; [done|]. split; [auto with go|].
    split; cbn; try done; [len | |exists c; by rewrite app_assoc, Hf, El].
    rewrite blen_app, blen_marshal. unfold IndexEntrySize in *. Z.div_mod_to_equations. lia.
  - rewrite blen_marshal in *.
    assert (blen (RWFile.buf rw) = RWFile.bufferSize) as E
      by (unfold RWFile.bufferSize, IndexEntrySize in *; Z.div_mod_to_equations; lia).
    rewrite E, Z.sub_diag. cbn [Z.to_nat take drop].
    assert (rw_repr d name l (RWFile.set_buf (RWFile.buf rw ++ []) rw)) as H'.
    { rewrite app_nil_r. by destruct rw. }
    exists (RWFile.set_buf (IndexEntry.Marshal i) (flushed rw l)), (<[name := index_bytes l]> d).
    split.
    + unfold set_obj at 1. unfold modify at 1. unfold bind at 1. cbn [fst snd].
      rewrite (bind_ok _ _ _ _ _ (Flush_ok _ _ _ _ H')). done.
    + split; [done|]. split; [by apply same_except_insert|].
      split; cbn; try done.
      exists (index_bytes l). by rewrite lookup_insert_eq, El.
Qed.

Lemma newRWFile_ok d name :
  d !! name = None ->
  RWFile.newRWFile name (quiet d) =
    (Ok (RWFile.mk [] [] None 0 name), quiet (<[name := []]> d)).
Proof. intros H. unfold RWFile.newRWFile, OpenFile_excl, SeekStart. by runs. Qed.

Lemma rw_repr_new d name : rw_repr (<[name := []]> d) name [] (RWFile.mk [] [] None 0 name).
Proof.
  split; cbn; try done.
  exists []. by rewrite lookup_insert_eq.
Qed.

Lemma read_entries_ok d name l acc fuel :
  d !! name = Some (index_bytes (acc ++ l)) -> Forall index_entry_ok l ->
  (length l < fuel)%nat ->
  RWFile.read_entries fuel name (12 * blen acc) acc (quiet d) = (Ok (acc ++ l), quiet d).
Proof.
  intros Hd Hl. revert acc fuel Hd. induction Hl as [|i l Hi Hl IH]; intros acc fuel Hd Hf;
    (destruct fuel as [|fuel]; [cbn in Hf; lia|]); cbn [RWFile.read_entries];
    unfold ReadAt; pose proof (blen_nonneg acc).
  - rewrite app_nil_r in *. run. rewrite Hd. run. rewrite drop_ge.
    { by rewrite take_nil. }
    pose proof (blen_index_bytes acc). unfold blen in *. lia.
  - assert (drop (Z.to_nat (12 * blen acc)) (index_bytes (acc ++ i :: l)) =
            IndexEntry.Marshal i ++ index_bytes l) as E.
    { rewrite index_bytes_app. change (i :: l) with ([i] ++ l).
      rewrite index_bytes_app, index_bytes_one. apply drop_app_length'.
      rewrite <-blen_index_bytes. by rewrite to_nat_blen. }
    run. rewrite Hd. run. rewrite E.
    rewrite (take_app_length' (IndexEntry.Marshal i))
      by (pose proof (blen_marshal i); unfold blen, IndexEntrySize in *; lia).
    rewrite blen_marshal. cbn [Z.ltb Z.compare]. change (12 <? IndexEntrySize) with false. cbn iota.
    rewrite index_entry_unmarshal by done.
    replace (12 * blen acc + IndexEntrySize) with (12 * blen (acc ++ [i]))
      by (unfold IndexEntrySize; len).
    rewrite (IH (acc ++ [i])); [by rewrite <-app_assoc | by rewrite <-app_assoc | cbn in Hf; lia].
Qed.

Lemma openRWFile_ok d name l :
  d !! name = Some (index_bytes l) -> Forall index_entry_ok l ->
  RWFile.openRWFile name (quiet d) =
    (Ok (RWFile.mk l [] None (blen (index_bytes l)) name), quiet d).
Proof.
  intros Hd Hl. unfold RWFile.openRWFile.
  rewrite (bind_ok _ _ (quiet d) tt (quiet d)) by (unfold OpenFile_rdwr; by runs).
  rewrite (bind_ok (gets _) _ _ _ _ eq_refl). cbn [files]. rewrite Hd. cbn [default].
  erewrite bind_ok; [|apply (read_entries_ok d name l []); [done..|]].
  - unfold SeekEnd. by runs.
  - pose proof (blen_index_bytes l). unfold blen in *. cbn. lia.
Qed.

Lemma rw_repr_open d name l :
  d !! name = Some (index_bytes l) -> Forall index_entry_ok l ->
  rw_repr d name l (RWFile.mk l [] None (blen (index_bytes l)) name).
Proof.
  intros Hd Hl. split; cbn; try done. exists (index_bytes l). by rewrite app_nil_r.
Qed.

Lemma rw_close_ok d name l rw :
  rw_repr d name l rw ->
  RWFile.close (rw, quiet d) =
    (Ok tt, (flushed (RWFile.set_entries [] rw) l, quiet (<[name := index_bytes l]> d))).
Proof.
  intros [Hp _ _ Hw _ _ (c & Hc & Ho & Hb)].
  unfold RWFile.close. rewrite (bind_ok (set_obj _) _ _ _ _ eq_refl). cbn [fst snd].
  erewrite bind_ok; [|by apply (Flush_file _ name (index_bytes l) _ c)]. done.
Qed.

Lemma rw_remove_ok d name l rw :
  rw_repr d name l rw ->
  RWFile.remove (rw, quiet d) =
    (Ok tt, (flushed (RWFile.set_entries [] rw) l, quiet (delete name d))).
Proof.
  intros H. unfold RWFile.remove. rewrite (bind_ok _ _ _ _ _ (rw_close_ok _ _ _ _ H)).
  destruct H as [Hp _ _ _ _ _ _]. unfold Remove. run. rewrite Hp. runs.
  by rewrite delete_insert_eq.
Qed.

Lemma rw_rename_ok d name l rw new :
  rw_repr d name l rw ->
  exists d', RWFile.rename new (rw, quiet d) = (Ok tt, (RWFile.set_filePath new rw, quiet d')) /\
    d' = <[new := default [] (d !! name)]> (delete name d) /\
    rw_repr d' new l (RWFile.set_filePath new rw).
Proof.
  intros [Hp He Ho Hw Hb Ha (c & Hc & Hoff & Hf)]. eexists. split.
  - unfold RWFile.rename, Rename. run. rewrite Hp. runs. reflexivity.
  - rewrite Hc. split; [done|]. split; cbn; try done. exists c. by rewrite lookup_insert_eq.
Qed.

(** * The index of a segment *)

(** [idx] has the entries [l] and is backed by the file [name]. *)
Inductive idx_repr (d : gmap string bytes) (name : string) (l : list IndexEntry.t)
  : Index.t -> SegmentStatus -> Prop :=
| idx_rw rw : rw_repr d name l rw -> idx_repr d name l (Index.mk None (Some rw)) SegmentRDWR
| idx_ro f :
    MmapFile.mapped f = true -> MmapFile.filePath f = name ->
    d !! name = Some (index_bytes l) -> Forall index_entry_ok l ->
    idx_repr d name l (Index.mk (Some f) None) SegmentReadOnly.

Lemma idx_repr_ok d name l idx st : idx_repr d name l idx st -> Forall index_entry_ok l.
Proof. intros [rw H|]; [apply H | done]. Qed.

Lemma idx_repr_frame d d' name l idx st :
  d' !! name = d !! name -> idx_repr d name l idx st -> idx_repr d' name l idx st.
Proof.
  intros E [rw H|f Hm Hp Hd Hl]; constructor; try done.
  - by apply (rw_repr_frame d).
  - by rewrite E.
Qed.

Lemma newIndex_ok d name :
  d !! name = None ->
  exists idx, Index.newIndex name (quiet d) = (Ok idx, quiet (<[name := []]> d)) /\
    idx_repr (<[name := []]> d) name [] idx SegmentRDWR.
Proof.
  intros H. eexists. unfold Index.newIndex. rewrite (bind_ok _ _ _ _ _ (newRWFile_ok _ _ H)).
  split; [done|]. constructor. apply rw_repr_new.
Qed.

Lemma openIndex_rw d name l :
  d !! name = Some (index_bytes l) -> Forall index_entry_ok l ->
  exists idx, Index.openIndex name SegmentRDWR (quiet d) = (Ok idx, quiet d) /\
    idx_repr d name l idx SegmentRDWR.
Proof.
  intros Hd Hl. eexists. unfold Index.openIndex. cbn [decide].
  rewrite decide_False by done. rewrite (bind_ok _ _ _ _ _ (openRWFile_ok _ _ _ Hd Hl)).
  split; [done|]. constructor. by apply rw_repr_open.
Qed.

Lemma openIndex_ro d name l :
  d !! name = Some (index_bytes l) -> Forall index_entry_ok l -> l <> [] ->
  exists idx, Index.openIndex name SegmentReadOnly (quiet d) = (Ok idx, quiet d) /\
    idx_repr d name l idx SegmentReadOnly.
Proof.
  intros Hd Hl Hne. eexists. unfold Index.openIndex. rewrite decide_True by done.
  assert (0 < blen (index_bytes l)) by (destruct l; [done|]; len).
  rewrite (bind_ok _ _ _ _ _ (openMmapFile_ok _ _ _ Hd ltac:(done))).
  split; [done|]. by constructor.
Qed.

Lemma appendIndexEntry_ok d name l idx i :
  idx_repr d name l idx SegmentRDWR -> index_entry_ok i ->
  exists idx' d',
    Index.appendIndexEntry i (idx, quiet d) = (Ok tt, (idx', quiet d')) /\
    idx_repr d' name (l ++ [i]) idx' SegmentRDWR /\ same_except (eq name) d d'.
Proof.
  intros H Hi. inversion H as [rw Hrw|]; subst.
  destruct (Write_ok _ _ _ _ _ Hrw Hi) as (rw' & d' & HW & He & Hs & Hr).
  eexists _, d'. unfold Index.appendIndexEntry, Index.on_readWrite. cbn [fst snd Index.readWrite].
  rewrite (bind_ok _ _ _ _ _ HW). run. rewrite He.
  split; [done|]. split; [by constructor | done].
Qed.

Lemma getRaftEntryPosition_ok d fl name l idx st i first pos :
  idx_repr d name l idx st -> 0 <= first <= i -> i - first < 2 ^ 59 ->
  l !! Z.to_nat (i - first) = Some (IndexEntry.mk i pos) ->
  Index.getRaftEntryPosition i first st (idx, mkFS d fl) = (Ok pos, (idx, mkFS d fl)).
Proof.
  intros H Hi Hm Hl. unfold Index.getRaftEntryPosition.
  destruct (Z.ltb_spec i first); [lia|].
  unfold IndexEntrySize. rewrite !i64_small by (rewrite ?i64_small by lia; lia).
  destruct H as [rw Hrw|f Hmap Hp Hd Hok].
  - rewrite decide_False by done. destruct Hrw as [_ He _ _ _ _ _].
    unfold Index.on_readWrite. run. rewrite He. unfold index. by runs.
  - rewrite decide_True by done.
    assert (Index.on_readonly (readIndexEntry ((i - first) * 12))
              (Index.mk (Some f) None, mkFS d fl) =
            (Ok (IndexEntry.mk i pos), (Index.mk (Some f) None, mkFS d fl))) as E.
    { unfold Index.on_readonly, readIndexEntry, MmapFile.mappedData, IndexEntrySize. run.
      rewrite Hmap, Hp, Hd. run.
      replace (i - first) with (Z.of_nat (Z.to_nat (i - first))) by lia.
      rewrite (index_bytes_slice _ _ _ Hl). run.
      rewrite index_entry_unmarshal; [done|].
      by apply (Forall_lookup_1 _ _ _ _ Hok Hl). }
    rewrite (bind_ok _ _ _ _ _ E). cbn. by rewrite Z.eqb_refl.
Qed.

Lemma getRaftEntryPosition_before i first st s :
  i < first -> Index.getRaftEntryPosition i first st s = (Err ErrOutOfBound, s).
Proof. intros H. unfold Index.getRaftEntryPosition. by runs. Qed.

Lemma getLastRaftEntry_ok d fl name l idx i :
  idx_repr d name (l ++ [i]) idx SegmentRDWR ->
  Index.getLastRaftEntry SegmentRDWR (idx, mkFS d fl) = (Ok i, (idx, mkFS d fl)).
Proof.
  intros H. inversion H as [rw [_ He _ _ _ _ _]|]; subst.
  unfold Index.getLastRaftEntry. rewrite decide_True by done.
  unfold Index.on_readWrite. run. rewrite He.
  rewrite (index_mid l i []) by len. by run.
Qed.

(** With no entries there is no last one: a run-time panic. *)
Lemma getLastRaftEntry_empty d fl name idx :
  idx_repr d name [] idx SegmentRDWR ->
  Index.getLastRaftEntry SegmentRDWR (idx, mkFS d fl) = (Panic, (idx, mkFS d fl)).
Proof.
  intros H. inversion H as [rw [_ He _ _ _ _ _]|]; subst.
  unfold Index.getLastRaftEntry. rewrite decide_True by done.
  unfold Index.on_readWrite. run. by rewrite He.
Qed.

Lemma take_index_bytes l k :
  take (Z.to_nat (12 * Z.of_nat k)) (index_bytes l) = index_bytes (take k l).
Proof.
  destruct (decide (k <= length l)%nat) as [Hk|Hk].
  - rewrite <-(take_drop k l) at 1. rewrite index_bytes_app. apply take_app_length'.
    pose proof (blen_index_bytes (take k l)). unfold blen in *. rewrite length_take in *. lia.
  - rewrite !take_ge; [done|lia|].
    pose proof (blen_index_bytes l). unfold blen in *. lia.
Qed.

(** [truncateSuffix] once the index is writable and its buffer is empty. *)
Lemma truncate_tail d name l rw i first s0 :
  rw_repr d name l rw -> RWFile.buf rw = [] -> 0 <= first <= i -> i - first <= blen l ->
  exists rw',
    Index.on_readWrite (
      let! p := obj RWFile.filePath in
      on_fs (Truncate p ((i - first) * 12)) ;!
      let! newPos := on_fs (SeekStart ((i - first) * 12)) in
      set_obj (RWFile.set_offset newPos) ;!
      let! es := obj RWFile.entries in
      let! es' := must (slice es 0 (i - first)) in
      set_obj (RWFile.set_entries es')) (Index.mk s0 (Some rw), quiet d) =
      (Ok tt, (Index.mk s0 (Some rw'),
               quiet (<[name := index_bytes (take (Z.to_nat (i - first)) l)]> d))) /\
    rw_repr (<[name := index_bytes (take (Z.to_nat (i - first)) l)]> d) name
      (take (Z.to_nat (i - first)) l) rw'.
Proof.
  intros H Hbuf Hi Hle. destruct H as [Hp He Ho Hw Hb Ha (c & Hc & Hoff & Hf)].
  rewrite Hbuf, app_nil_r in Hf. subst c.
  exists (RWFile.set_entries (take (Z.to_nat (i - first)) l)
            (RWFile.set_offset ((i - first) * 12) rw)).
  assert (take (Z.to_nat ((i - first) * 12)) (index_bytes l) ++
            zeros ((i - first) * 12 - blen (index_bytes l)) =
          index_bytes (take (Z.to_nat (i - first)) l)) as E.
  { rewrite <-take_index_bytes. unfold zeros.
    replace (Z.to_nat ((i - first) * 12 - blen (index_bytes l))) with 0%nat by len.
    cbn. rewrite app_nil_r. f_equal. lia. }
  split.
  - unfold Index.on_readWrite, Truncate, SeekStart. run. rewrite Hp. runs. rewrite He, E.
    rewrite slice_in_bounds by len. run. by rewrite Z.sub_0_r.
  - split; cbn; try done; [by apply Forall_take |].
    exists (index_bytes (take (Z.to_nat (i - first)) l)).
    rewrite lookup_insert_eq, Hbuf, app_nil_r. repeat split. len.
Qed.

Lemma idx_truncate_rw d name l idx i first :
  idx_repr d name l idx SegmentRDWR -> 0 <= first <= i -> i - first <= blen l -> blen l < 2 ^ 59 ->
  let l' := take (Z.to_nat (i - first)) l in
  exists idx',
    Index.truncateSuffix i first SegmentRDWR (idx, quiet d) =
      (Ok tt, (idx', quiet (<[name := index_bytes l']> d))) /\
    idx_repr (<[name := index_bytes l']> d) name l' idx' SegmentRDWR.
Proof.
  intros H Hi Hle Hm l'. inversion H as [rw Hrw|]; subst.
  unfold Index.truncateSuffix, IndexEntrySize. destruct (Z.ltb_spec i first); [lia|].
  rewrite !i64_small by (rewrite ?i64_small by lia; lia). rewrite decide_False by done.
  destruct (truncate_tail _ _ _ _ i first None (rw_repr_flushed _ _ _ _ Hrw) eq_refl Hi Hle)
    as (rw' & Ht & Hr). rewrite insert_insert_eq in Ht, Hr.
  exists (Index.mk None (Some rw')). split; [|by constructor].
  erewrite bind_ok; [exact Ht|].
  unfold Index.on_readWrite. cbn [fst snd Index.readWrite Index.readonly].
  by rewrite (Flush_ok _ _ _ _ Hrw).
Qed.

Lemma idx_truncate_ro d name l idx i first :
  idx_repr d name l idx SegmentReadOnly -> 0 <= first <= i -> i - first <= blen l ->
  blen l < 2 ^ 59 ->
  let l' := take (Z.to_nat (i - first)) l in
  let new := ReadWriteIndexName first in
  let d' := <[new := index_bytes l']> (delete name d) in
  exists idx',
    Index.truncateSuffix i first SegmentReadOnly (idx, quiet d) = (Ok tt, (idx', quiet d')) /\
    idx_repr d' new l' idx' SegmentRDWR.
Proof.
  intros H Hi Hle Hm l' new d'. inversion H as [|f Hmap Hp Hd Hok]; subst.
  unfold Index.truncateSuffix, IndexEntrySize. destruct (Z.ltb_spec i first); [lia|].
  rewrite !i64_small by (rewrite ?i64_small by lia; lia). rewrite decide_True by done.
  set (d1 := <[new := index_bytes l]> (delete (MmapFile.filePath f) d)).
  assert (d1 !! new = Some (index_bytes l)) as Hd1 by apply lookup_insert_eq.
  destruct (truncate_tail d1 new l (RWFile.mk l [] None (blen (index_bytes l)) new) i first None
              (rw_repr_open _ _ _ Hd1 Hok) eq_refl Hi Hle) as (rw' & Ht & Hr).
  unfold d1 in Ht, Hr. rewrite insert_insert_eq in Ht, Hr.
  exists (Index.mk None (Some rw')). split; [|by constructor].
  erewrite bind_ok; [exact Ht|].
  erewrite bind_ok; [|unfold Index.on_readonly; cbn [fst snd Index.readonly];
    by rewrite (rename_ok _ _ _ _ Hd)]. cbn beta.
  erewrite bind_ok; [|unfold Index.on_readonly; cbn [fst snd Index.readonly];
    by rewrite close_ok]. cbn beta.
  erewrite bind_ok; [|reflexivity]. cbn beta.
  pose proof (openRWFile_ok _ _ _ Hd1 Hok) as Hop. unfold d1, new in Hop.
  erewrite bind_ok; [|unfold on_fs, zoom; cbn [fst snd]; by rewrite Hop]. done.
Qed.

Lemma idx_changeToReadonly d name l idx l0 l1 i0 i1 :
  idx_repr d name l idx SegmentRDWR -> l = i0 :: l0 -> l = l1 ++ [i1] ->
  let new := ReadonlyIndexName (IndexEntry.RaftIndex i0) (IndexEntry.RaftIndex i1) in
  let d' := <[new := index_bytes l]> (delete name d) in
  exists idx',
    Index.changeToReadonly (idx, quiet d) = (Ok tt, (idx', quiet d')) /\
    idx_repr d' new l idx' SegmentReadOnly.
Proof.
  intros H H0 H1 new d'. inversion H as [rw Hrw|]; subst idx.
  destruct (rw_rename_ok _ _ _ _ new Hrw) as (d1 & Hren & -> & Hr1).
  pose proof (rw_close_ok _ _ _ _ Hr1) as Hcl. rewrite insert_insert_eq in Hcl.
  assert (d' !! new = Some (index_bytes l)) as Hd' by apply lookup_insert_eq.
  assert (0 < blen (index_bytes l)) by (rewrite H0; len).
  pose proof (openMmapFile_ok _ _ _ Hd' ltac:(done)) as Hop.
  assert (RWFile.entries rw = l) as He by apply Hrw.
  assert (index l 0 = Some i0) as E0 by (by rewrite H0).
  assert (index l (blen l - 1) = Some i1) as E1.
  { rewrite H1. apply index_mid. len. }
  unfold d', new in *. eexists. split.
  - unfold Index.changeToReadonly.
    erewrite bind_ok; [|unfold Index.on_readWrite; cbn; reflexivity]. cbn beta.
    rewrite He, E0, bind_must, E1, bind_must.
    erewrite bind_ok; [|unfold Index.on_readWrite; cbn [fst snd Index.readWrite];
      by rewrite Hren]. cbn beta.
    erewrite bind_ok; [|unfold Index.on_readWrite; cbn [fst snd Index.readWrite];
      by rewrite Hcl]. cbn beta.
    erewrite bind_ok; [|reflexivity]. cbn beta.
    erewrite bind_ok; [|unfold on_fs, zoom; cbn [fst snd]; by rewrite Hop].
    reflexivity.
  - constructor; try done. by apply (idx_repr_ok _ _ _ _ _ H).
Qed.

Lemma idx_close_ok d name l idx st :
  idx_repr d name l idx st ->
  exists idx', Index.close (idx, quiet d) =
    (Ok tt, (idx', quiet (<[name := index_bytes l]> d))).
Proof.
  intros [rw Hrw|f Hm Hp Hd Hok]; unfold Index.close; cbn [fst snd Index.readonly].
  - unfold Index.on_readWrite. cbn [fst snd Index.readWrite]. rewrite (rw_close_ok _ _ _ _ Hrw). eauto.
  - unfold Index.on_readonly. cbn [fst snd Index.readonly]. rewrite close_ok by done.
    rewrite insert_id by done. eauto.
Qed.

Lemma idx_remove_ok d name l idx st :
  idx_repr d name l idx st ->
  exists idx', Index.remove (idx, quiet d) = (Ok tt, (idx', quiet (delete name d))).
Proof.
  intros [rw Hrw|f Hm Hp Hd Hok]; unfold Index.remove; cbn [fst snd Index.readonly Index.readWrite].
  - unfold Index.on_readWrite. cbn [fst snd Index.readWrite]. rewrite (rw_remove_ok _ _ _ _ Hrw). eauto.
  - unfold Index.on_readonly. cbn [fst snd Index.readonly]. subst name.
    rewrite (remove_ok _ _ _ Hm Hd). eauto.
Qed.
