(* ===== verification/Segments.v ===== *)
(** A segment of the log, storage/segment.go: a preallocated mapped file of
    framed records and the index of their positions. The last section states
    when a segment holds a list of entries, and that every operation takes a
    segment that does to one that does. *)
From S2P Require Import Prelude Wire Names Disk IndexFile.
Local Open Scope Z_scope.
Local Open Scope go_scope.

(** disk_storage.go: the package variable [SegmentSize]. *)
Class Settings : Type := { SegmentSize : Z }.

Module Segment.

Record t : Type := mk {
  FirstIndex : Z; LastIndex : Z;
  LogFile : MmapFile.t; LogIndex : Index.t;
  Status : SegmentStatus }.

Definition set_range (f l : Z) (s : t) : t := mk f l (LogFile s) (LogIndex s) (Status s).
Definition set_log (f : MmapFile.t) (s : t) : t :=
  mk (FirstIndex s) (LastIndex s) f (LogIndex s) (Status s).
Definition set_index (i : Index.t) (s : t) : t :=
  mk (FirstIndex s) (LastIndex s) (LogFile s) i (Status s).
Definition set_Status (st : SegmentStatus) (s : t) : t :=
  mk (FirstIndex s) (LastIndex s) (LogFile s) (LogIndex s) st.

(** Methods of [s.LogFile] and [s.LogIndex]. *)
Definition on_log {A} (m : St (MmapFile.t * FS) A) : St (t * FS) A :=
  zoom (fun s => (LogFile s.1, s.2)) (fun x s => (set_log x.1 s.1, x.2)) m.
Definition on_index {A} (m : St (Index.t * FS) A) : St (t * FS) A :=
  zoom (fun s => (LogIndex s.1, s.2)) (fun x s => (set_index x.1 s.1, x.2)) m.

Section Segment.
Context `{Settings}.

Definition newSegment (name : string) : St FS t :=
  let! logFile := MmapFile.newMmapFile name SegmentSize in
  let! logIndex := Index.newIndex (GetIndexName name) in
  ret (mk 0 0 logFile logIndex SegmentRDWR).

(** The loop of [rebuildIndex] over the mapped bytes [m]. The variables
    [record] and [raftEntry] are shared by the iterations; each one that does
    not leave the loop moves on by at least five bytes. *)
Fixpoint rebuild_loop (fuel : nat) (m : bytes) (position : Z)
    (record : Record.t) (raftEntry : Entry.t) : St (Index.t * FS) unit :=
  match fuel with
  | O => panic
  | S fuel' =>
      if SegmentSize <=? position + RecordLengthSize then ret tt else
      let! lenBuf := must (slice m position (position + RecordLengthSize)) in
      let recordLen := le_val lenBuf in
      let position := position + RecordLengthSize in
      if (SegmentSize <=? position) || (SegmentSize <? position + recordLen) then ret tt else
      let! recordBuf := must (slice m position (position + recordLen)) in
      if blen recordBuf =? 0 then ret tt else
      match Record.Unmarshal record recordBuf with
      | (Err _, _) => ret tt
      | (Panic, _) => panic
      | (Ok _, record) =>
          let data := default [] (Record.Data record) in
          if negb (ChecksumIEEE data =? Record.Crc record) then ret tt else
          match Entry.Unmarshal raftEntry data with
          | (Err _, _) => ret tt
          | (Panic, _) => panic
          | (Ok _, raftEntry) =>
              fatal_on_err (Index.appendIndexEntry
                (IndexEntry.mk (Entry.Index raftEntry) (u32 (position - RecordLengthSize)))) ;!
              rebuild_loop fuel' m (position + recordLen) record raftEntry
          end
      end
  end.

Definition rebuildIndex : St (MmapFile.t * FS) Index.t :=
  let! p := obj MmapFile.filePath in
  let indexPath := GetIndexName p in
  fatal_on_err (on_fs (Remove indexPath)) ;!
  let! logIndex := on_fs (Index.newIndex indexPath) in
  let! m := MmapFile.mappedData in
  fun s =>
    match rebuild_loop (S (length m)) m 0 Record.zero Entry.zero (logIndex, s.2) with
    | (Ok _, (logIndex, fs)) => (Ok logIndex, (s.1, fs))
    | (Err e, (_, fs)) => (Err e, (s.1, fs))
    | (Panic, (_, fs)) => (Panic, (s.1, fs))
    end.

(** Runs a method on an object that a constructor has just made. *)
Definition run_on {T A} (f : T) (m : St (T * FS) A) : St FS (A * T) := fun fs =>
  let '(r, (f', fs')) := m (f, fs) in
  (match r with Ok a => Ok (a, f') | Err e => Err e | Panic => Panic end, fs').

Definition openSegment (name : string) (status : SegmentStatus) (needRecover : bool) : St FS t :=
  let indexFileName := GetIndexName name in
  let! logFile := MmapFile.openMmapFile name in
  if decide (status = SegmentReadOnly) then
    let! fl := must (scanReadonlySegment name) in
    let! logIndex := Index.openIndex indexFileName SegmentReadOnly in
    ret (mk fl.1 fl.2 logFile logIndex status)
  else
    let! first := must (scanReadWriteSegment name) in
    let! p :=
      (if needRecover then run_on logFile rebuildIndex
       else let! i := Index.openIndex indexFileName SegmentRDWR in ret (i, logFile)) in
    let '(logIndex, logFile) := p in
    let! q := run_on logIndex (Index.getLastRaftEntry SegmentRDWR) in
    let '(lastIndexEntry, logIndex) := q in
    let lastRecordPosition := IndexEntry.FilePosition lastIndexEntry in
    let! q := run_on logFile
      (let! m := MmapFile.mappedData in
       let! lenBuf := must (slice m lastRecordPosition (lastRecordPosition + RecordLengthSize)) in
       MmapFile.setPosition (lastRecordPosition + le_val lenBuf + RecordLengthSize)) in
    ret (mk first (IndexEntry.RaftIndex lastIndexEntry) q.2 logIndex status).

Fixpoint open_readonly (names : list string) : St FS (list t) :=
  match names with
  | [] => ret []
  | name :: names' =>
      let! s := openSegment name SegmentReadOnly false in
      let! ss := open_readonly names' in
      ret (s :: ss)
  end.

Definition openSegments (needRecover : bool) : St FS (list t) :=
  let! files := fatal_on_err ReadDir in
  let logFiles := filter (fun name => HasSuffix name LogSuffix = true) files in
  match rev logFiles with
  | [] => ret []
  | lastName :: firsts =>
      let! ss := open_readonly (rev firsts) in
      let! s := openSegment lastName SegmentRDWR needRecover in
      ret (ss ++ [s])
  end.

Definition getFirstIndex (s : t) : Z := FirstIndex s.
Definition getLastIndex (s : t) : Z := LastIndex s.

Definition appendRecord (record : Record.t) (raftIndex : Z) : St (t * FS) unit :=
  let! recordBuf := lift (Record.Marshal record) in
  let recordLengthBuf := le_bytes 4 (u32 (Record.Size record)) in
  let! startPos := on_log (MmapFile.append recordLengthBuf) in
  let! _ := on_log (MmapFile.append recordBuf) in
  on_index (Index.appendIndexEntry (IndexEntry.mk raftIndex (u32 startPos))).

Fixpoint append_loop (records : list Record.t) (raftIndex : Z) : St (t * FS) unit :=
  match records with
  | [] => ret tt
  | r :: records' => appendRecord r raftIndex ;! append_loop records' (u64 (raftIndex + 1))
  end.

Definition appendRecords (records : list Record.t) (startIndex : Z) : St (t * FS) unit :=
  let! st := obj Status in
  if negb (bool_decide (st = SegmentRDWR)) then throw ErrNotWritable else
  let! li := obj LastIndex in
  if negb (li =? 0) && negb (u64 (li + 1) =? startIndex) then throw ErrNotContinuous else
  append_loop records startIndex ;!
  on_log MmapFile.sync ;!
  let last := u64 (startIndex + u64 (blen records - 1)) in
  set_obj (fun s => if FirstIndex s =? 0 then set_range startIndex (LastIndex s) s else s) ;!
  set_obj (fun s => if LastIndex s <? last then set_range (FirstIndex s) last s else s).

(** The reading loop: each iteration moves on by at least four bytes, and
    reading past the end of the mapping panics. *)
Fixpoint read_loop (fuel : nat) (position last maxSize : Z) (acc : list Entry.t) (readSize : Z)
    : St (t * FS) (list Entry.t * Z) :=
  match fuel with
  | O => panic
  | S fuel' =>
      let! p := on_log (MmapFile.readRaftEntry position) in
      let '(entry, nextReadPosition) := p in
      let acc := acc ++ [entry] in
      let readSize := u64 (readSize + Entry.Size entry) in
      let! li := obj LastIndex in
      if (maxSize <? readSize) || (Entry.Index entry =? last) || (Entry.Index entry =? li)
      then ret (acc, readSize)
      else read_loop fuel' nextReadPosition last maxSize acc readSize
  end.

Definition readRaftEntries (first last maxSize : Z) : St (t * FS) (list Entry.t * Z) :=
  let! st := obj Status in
  if bool_decide (st = SegmentClosed) then throw ErrClosed else
  (* the capacity of the result: [make] panics on a negative one *)
  if i64 (u64 (last - first + 1)) <? 0 then panic else
  let! firstIndex := obj FirstIndex in
  let! position := on_index (Index.getRaftEntryPosition first firstIndex st) in
  let! fuel := gets (fun s => S (length (default [] (files s.2 !! MmapFile.filePath (LogFile s.1))))) in
  let! p := read_loop fuel position last maxSize [] 0 in
  let '(entries, readSize) := p in
  ret (entries, if maxSize <? readSize then 0 else maxSize - readSize).

Definition needRolling (s : t) (size : Z) : bool :=
  MmapFile.maxBytes (LogFile s) <? MmapFile.writePosition (LogFile s) + size.

Definition close : St (t * FS) unit :=
  set_obj (fun s => set_range 0 0 (set_Status SegmentClosed s)) ;!
  fatal_on_err (on_log MmapFile.close) ;!
  fatal_on_err (on_index Index.close).

Definition truncateSuffix (i : Z) : St (t * FS) unit :=
  let! first := obj FirstIndex in
  let! st := obj Status in
  let! segmentPos := on_index (Index.getRaftEntryPosition i first st) in
  on_log (MmapFile.truncateSuffix segmentPos) ;!
  (if decide (st = SegmentRDWR) then
     on_index (Index.truncateSuffix i first SegmentRDWR)
   else
     on_log (MmapFile.rename (ReadWriteSegmentName first)) ;!
     on_index (Index.truncateSuffix i first SegmentReadOnly) ;!
     set_obj (set_Status SegmentRDWR)) ;!
  set_obj (fun s => if i =? FirstIndex s then set_range 0 0 s
                    else set_range (FirstIndex s) (u64 (i - 1)) s).

Definition changeToReadonly : St (t * FS) unit :=
  let! st := obj Status in
  if negb (bool_decide (st = SegmentRDWR)) then throw ErrArgsIllegal else
  let! first := obj FirstIndex in
  let! last := obj LastIndex in
  on_log (MmapFile.rename (ReadonlySegmentName first last)) ;!
  on_index Index.changeToReadonly ;!
  set_obj (set_Status SegmentReadOnly).

Definition remove : St (t * FS) unit :=
  set_obj (fun s => set_range 0 0 (set_Status SegmentClosed s)) ;!
  on_log MmapFile.remove ;!
  on_index Index.remove.

End Segment.
End Segment.

Lemma set_log_id s : Segment.set_log (Segment.LogFile s) s = s.
Proof. by destruct s. Qed.
Lemma set_index_id s : Segment.set_index (Segment.LogIndex s) s = s.
Proof. by destruct s. Qed.

(** * The entries of a segment *)

Definition frames (es : list Entry.t) : bytes := concat (frame <$> es).

#[global] Arguments frames : simpl never.

(** The index of entries that are stored from position [pos] on. *)
Fixpoint index_for (pos : Z) (es : list Entry.t) : list IndexEntry.t :=
  match es with
  | [] => []
  | e :: es' => IndexEntry.mk (Entry.Index e) pos :: index_for (pos + blen (frame e)) es'
  end.

(** Consecutive indexes from [base] on. *)
Definition contig (base : Z) (es : list Entry.t) : Prop :=
  forall k e, es !! k = Some e -> Entry.Index e = base + Z.of_nat k.

Definition log_name (st : SegmentStatus) (base : Z) (es : list Entry.t) : string :=
  match st with
  | SegmentRDWR => ReadWriteSegmentName base
  | _ => ReadonlySegmentName base (base + blen es - 1)
  end.
Definition idx_name (st : SegmentStatus) (base : Z) (es : list Entry.t) : string :=
  match st with
  | SegmentRDWR => ReadWriteIndexName base
  | _ => ReadonlyIndexName base (base + blen es - 1)
  end.

Lemma GetIndexName_log st base es : GetIndexName (log_name st base es) = idx_name st base es.
Proof. destruct st; [apply index_name_readonly | apply index_name_readwrite | apply index_name_readonly]. Qed.

Lemma owned_log st base es : owned base (log_name st base es).
Proof. destruct st; cbn; auto with go. Qed.
Lemma owned_idx st base es : owned base (idx_name st base es).
Proof. destruct st; cbn; auto with go. Qed.
#[export] Hint Resolve owned_log owned_idx : go.

Lemma log_name_suffix st base es : HasSuffix (log_name st base es) LogSuffix = true.
Proof. destruct st; cbn; eapply segment_name_log; constructor. Qed.
Lemma idx_name_suffix st base es : HasSuffix (idx_name st base es) LogSuffix = false.
Proof.
  destruct st; cbn; [apply readonly_index_not_log | apply readwrite_index_not_log
    | apply readonly_index_not_log].
Qed.
Lemma log_idx_ne st base es st' base' es' : log_name st base es <> idx_name st' base' es'.
Proof.
  intros E. pose proof (log_name_suffix st base es) as H1.
  rewrite E, idx_name_suffix in H1. done.
Qed.

Lemma rw_idx_log_ne base : ReadWriteIndexName base <> ReadWriteSegmentName base.
Proof. apply not_eq_sym, (log_idx_ne SegmentRDWR base [] SegmentRDWR base []). Qed.

Lemma frames_app es es' : frames (es ++ es') = frames es ++ frames es'.
Proof. unfold frames. by rewrite fmap_app, concat_app. Qed.
Lemma frames_one e : frames [e] = frame e.
Proof. unfold frames. cbn [fmap list_fmap concat]. apply app_nil_r. Qed.
Lemma frames_cons e es : frames (e :: es) = frame e ++ frames es.
Proof. done. Qed.

Lemma index_for_app p es es' :
  index_for p (es ++ es') = index_for p es ++ index_for (p + blen (frames es)) es'.
Proof.
  revert p. induction es as [|e es IH]; intros p; cbn [app index_for].
  - by rewrite Z.add_0_r.
  - rewrite IH, frames_cons, blen_app. by rewrite Z.add_assoc.
Qed.
Lemma length_index_for p es : length (index_for p es) = length es.
Proof. revert p. induction es; intros p; cbn; auto. Qed.
Lemma blen_index_for p es : blen (index_for p es) = blen es.
Proof. unfold blen. by rewrite length_index_for. Qed.
#[export] Hint Rewrite blen_index_for : len.

Lemma take_index_for p es k : take k (index_for p es) = index_for p (take k es).
Proof.
  revert p k. induction es as [|e es IH]; intros p [|k]; cbn; try done. by rewrite IH.
Qed.

Lemma index_for_lookup p es k e :
  es !! k = Some e ->
  index_for p es !! k = Some (IndexEntry.mk (Entry.Index e) (p + blen (frames (take k es)))).
Proof.
  revert p k. induction es as [|e' es IH]; intros p [|k]; cbn; try done.
  - intros [= ->]. by rewrite Z.add_0_r.
  - intros H. rewrite (IH _ k H), frames_cons, blen_app. by rewrite Z.add_assoc.
Qed.

Lemma index_for_ok p es :
  Forall storable es -> 0 <= p -> p + blen (frames es) <= 2 ^ 32 ->
  Forall index_entry_ok (index_for p es).
Proof.
  intros H. revert p. induction H as [|e es He Hes IH]; intros p Hp Hle; cbn; [constructor|].
  rewrite frames_cons in Hle. pose proof (blen_frame_pos e). constructor.
  - split; cbn; [apply He|]. unfold is_u32. len.
  - apply IH; len.
Qed.

Lemma contig_nil base : contig base [].
Proof. intros k e. by rewrite lookup_nil. Qed.
Lemma contig_app base es es' :
  contig base es -> contig (base + blen es) es' -> contig base (es ++ es').
Proof.
  intros H1 H2 k e. rewrite lookup_app. destruct (es !! k) eqn:E; [intros [= <-]; auto|].
  intros ?%H2. apply lookup_ge_None in E. unfold blen in *. lia.
Qed.
Lemma contig_take base es k : contig base es -> contig base (take k es).
Proof. intros H j e [Hj _]%lookup_take_Some. by apply H. Qed.
Lemma contig_drop base es k : contig base es -> contig (base + Z.of_nat k) (drop k es).
Proof. intros H j e. rewrite lookup_drop. intros ?%H. lia. Qed.
Lemma contig_cons base e es :
  contig base (e :: es) <-> Entry.Index e = base /\ contig (base + 1) es.
Proof.
  split.
  - intros H. split; [by rewrite (H 0%nat e eq_refl), Z.add_0_r|].
    intros k e' Hk. rewrite (H (S k) e' Hk). lia.
  - intros [He H] [|k] e'; cbn; [intros [= <-]; lia|]. intros ?%H. lia.
Qed.

(** The segment has no files but its log and its index. *)
Definition only_files (d : gmap string bytes) (st : SegmentStatus) (base : Z) (es : list Entry.t) : Prop :=
  forall n, owned base n -> is_Some (d !! n) -> n = log_name st base es \/ n = idx_name st base es.

Lemma only_files_same d d' st base es :
  only_files d st base es ->
  same_except (fun n => n = log_name st base es \/ n = idx_name st base es) d d' ->
  only_files d' st base es.
Proof.
  intros H Hs n Hn Hd. destruct (decide (n = log_name st base es)); [by left|].
  destruct (decide (n = idx_name st base es)); [by right|].
  apply H; [done|]. rewrite Hs in Hd; [done|]. by intros [].
Qed.

Lemma only_files_renamed d st es st' es' base a b :
  only_files d st base es ->
  only_files (<[idx_name st' base es' := a]> (delete (idx_name st base es)
    (<[log_name st' base es' := b]> (delete (log_name st base es) d)))) st' base es'.
Proof.
  intros H n Hn Hd. destruct (decide (n = idx_name st' base es')); [by right|].
  rewrite lookup_insert_ne in Hd by done.
  destruct (decide (n = log_name st' base es')); [by left|].
  apply lookup_delete_is_Some in Hd as [Hn1 Hd]. rewrite lookup_insert_ne in Hd by done.
  apply lookup_delete_is_Some in Hd as [Hn2 Hd]. by destruct (H n Hn Hd).
Qed.

(** The memory and the files of a segment that holds the entries [es].
    [base] is the index in its file name; [tail] is what follows the frames of
    the entries in the file: zeros, unless a crash left the beginning of a
    frame there. *)
Section Repr.
Context `{Settings}.

Record seg_data (d : gmap string bytes) (base : Z) (es : list Entry.t) (tail : bytes)
  (s : Segment.t) : Prop := {
  sd_status : Segment.Status s <> SegmentClosed;
  sd_base : 0 < base < 2 ^ 64 /\ base + blen es <= 2 ^ 64;
  sd_contig : contig base es;
  sd_storable : Forall storable es;
  sd_mapped : MmapFile.mapped (Segment.LogFile s) = true;
  sd_path : MmapFile.filePath (Segment.LogFile s) = log_name (Segment.Status s) base es;
  sd_file : d !! log_name (Segment.Status s) base es =
              Some (frames es ++ tail);
  sd_fits : blen (frames es) + blen tail = SegmentSize;
  sd_max : MmapFile.maxBytes (Segment.LogFile s) = SegmentSize;
  sd_pos : MmapFile.writePosition (Segment.LogFile s) = blen (frames es) \/
           Segment.Status s = SegmentReadOnly /\ MmapFile.writePosition (Segment.LogFile s) = 0;
  sd_idx : idx_repr d (idx_name (Segment.Status s) base es) (index_for 0 es)
             (Segment.LogIndex s) (Segment.Status s);
  sd_only : only_files d (Segment.Status s) base es }.

Arguments sd_status {d base es tail s}.
Arguments sd_base {d base es tail s}.
Arguments sd_contig {d base es tail s}.
Arguments sd_storable {d base es tail s}.
Arguments sd_mapped {d base es tail s}.
Arguments sd_path {d base es tail s}.
Arguments sd_file {d base es tail s}.
Arguments sd_fits {d base es tail s}.
Arguments sd_max {d base es tail s}.
Arguments sd_pos {d base es tail s}.
Arguments sd_idx {d base es tail s}.
Arguments sd_only {d base es tail s}.

(** [FirstIndex] and [LastIndex]: zero when the segment is empty. *)
Definition seg_range (base : Z) (es : list Entry.t) (s : Segment.t) : Prop :=
  if decide (es = [])
  then Segment.FirstIndex s = 0 /\ Segment.LastIndex s = 0 /\ Segment.Status s = SegmentRDWR
  else Segment.FirstIndex s = base /\ Segment.LastIndex s = base + blen es - 1.

Definition seg_repr (d : gmap string bytes) (base : Z) (es : list Entry.t) (tail : bytes)
    (s : Segment.t) : Prop :=
  seg_data d base es tail s /\ seg_range base es s.

Lemma seg_data_frame d d' base es tail s :
  same_except (fun n => ~ owned base n) d d' -> seg_data d base es tail s -> seg_data d' base es tail s.
Proof.
  intros Hs []. split; try done.
  - rewrite Hs; [done|]. intros Hn. apply Hn. auto with go.
  - apply (idx_repr_frame d); [|done]. apply Hs. intros Hn. apply Hn. auto with go.
  - intros n Hn Hd. rewrite Hs in Hd by auto. by apply sd_only0.
Qed.

Lemma seg_repr_frame d d' base es tail s :
  same_except (fun n => ~ owned base n) d d' -> seg_repr d base es tail s -> seg_repr d' base es tail s.
Proof. intros Hs [H1 H2]. split; [|done]. by apply (seg_data_frame d). Qed.

(** The size of a segment: positions must fit the four bytes of the index. *)
Hypothesis size_ok : 0 < SegmentSize <= 2 ^ 32.

(** * Appending *)

(** Writing behind the bytes [pre] of a file. *)
Lemma log_append d fl f name (pre tail b : bytes) :
  MmapFile.mapped f = true -> MmapFile.filePath f = name ->
  d !! name = Some (pre ++ tail) ->
  MmapFile.writePosition f = blen pre -> blen b <= blen tail ->
  MmapFile.append b (f, mkFS d fl) =
    (Ok (blen pre),
     (MmapFile.set_pos (blen (pre ++ b)) (MmapFile.syncPosition f) f,
      mkFS (<[name := (pre ++ b) ++ drop (length b) tail]> d) fl)).
Proof.
  intros Hm <- Hd Hw Hle. rewrite (append_ok _ _ _ _ _ Hm Hd) by (rewrite Hw; len).
  rewrite Hw. rewrite <-(take_drop (length b) tail) at 1.
  rewrite splice_mid; [|done|unfold blen in *; rewrite length_take; lia].
  by rewrite blen_app, <-app_assoc.
Qed.

Lemma appendRecord_ok d base es tail s e :
  seg_data d base es tail s -> Segment.Status s = SegmentRDWR -> storable e ->
  Entry.Index e = base + blen es -> base + blen es + 1 <= 2 ^ 64 ->
  blen (frame e) <= blen tail ->
  exists s' d',
    Segment.appendRecord (record_of e) (Entry.Index e) (s, quiet d) = (Ok tt, (s', quiet d')) /\
    seg_data d' base (es ++ [e]) (drop (length (frame e)) tail) s' /\ Segment.Status s' = SegmentRDWR /\
    Segment.FirstIndex s' = Segment.FirstIndex s /\ Segment.LastIndex s' = Segment.LastIndex s /\
    same_except (owned base) d d'.
Proof.
  intros [Hst Hb Hc Hs Hm Hp Hf Hfit Hmax Hpos Hidx Honly] Est He Hi Hlast Hsz.
  rewrite Est in *. destruct Hpos as [Hpos|[? _]]; [|done]. cbn [log_name idx_name] in *.
  rewrite blen_frame in Hsz. set (rb := record_bytes (record_of e)) in *.
  set (hdr := le_bytes 4 (blen rb)).
  assert (blen hdr = 4) as Hh by apply blen_le_bytes.
  pose proof (log_append d [] _ _ (frames es) tail hdr Hm Hp Hf Hpos ltac:(len)) as A1.
  set (f1 := MmapFile.set_pos _ _ _) in A1. set (d1 := <[_ := _]> d) in A1.
  assert (blen (drop (length hdr) tail) = blen tail - 4) as Ht.
  { unfold blen in *. rewrite length_drop. lia. }
  pose proof (log_append d1 [] f1 _ (frames es ++ hdr) _ rb Hm Hp (lookup_insert_eq _ _ _) eq_refl
                ltac:(lia)) as A2.
  unfold d1 in A2. rewrite insert_insert_eq, drop_drop in A2. fold d1 in A2.
  assert (length hdr + length rb = length (frame e))%nat as Hfl by (unfold frame; by rewrite length_app).
  rewrite Hfl in A2.
  assert ((frames es ++ hdr) ++ rb = frames (es ++ [e])) as Ef.
  { by rewrite frames_app, frames_one, <-app_assoc. }
  rewrite Ef in A2. set (f2 := MmapFile.set_pos _ _ f1) in A2. set (d2 := <[_ := _]> d) in A2.
  assert (idx_repr d2 (ReadWriteIndexName base) (index_for 0 es) (Segment.LogIndex s) SegmentRDWR)
    as Hidx2.
  { apply (idx_repr_frame d); [|done]. apply lookup_insert_ne.
    apply not_eq_sym, rw_idx_log_ne. }
  destruct (appendIndexEntry_ok _ _ _ _ (IndexEntry.mk (Entry.Index e) (blen (frames es))) Hidx2)
    as (idx' & d' & HI & Hidx' & Hsame).
  { split; cbn; [apply He|]. unfold is_u32. len. }
  exists (Segment.set_index idx' (Segment.set_log f2 s)), d'.
  assert (same_except (owned base) d d') as Hsame'.
  { apply (same_except_trans _ _ d2); [apply same_except_insert; auto with go|].
    apply (same_except_mono (eq (ReadWriteIndexName base))); [|done]. intros n <-. auto with go. }
  destruct Hb as [[Hb1 Hb1'] Hb2].
  split; [|repeat split; try done; cbn; rewrite ?Est; try done; cbn].
  - unfold Segment.appendRecord. rewrite Record_Marshal_eq, Record_Size_eq.
    rewrite u32_small by (unfold is_u32; fold rb; len). fold rb. fold hdr.
    erewrite bind_ok; [|reflexivity]. unfold Segment.on_log, Segment.on_index, zoom.
    erewrite bind_ok; [|cbn [fst snd]; by rewrite A1]. cbn beta.
    erewrite bind_ok; [|cbn [fst snd Segment.LogFile Segment.set_log]; by rewrite A2]. cbn beta.
    cbn [fst snd Segment.LogIndex Segment.set_log].
    rewrite u32_small by (unfold is_u32; len). by rewrite HI.
  - len.
  - apply contig_app; [done|]. apply contig_cons. split; [done | apply contig_nil].
  - apply Forall_app; auto.
  - rewrite Hsame by apply rw_idx_log_ne.
    apply lookup_insert_eq.
  - rewrite frames_app, frames_one, blen_app. unfold blen in *. rewrite length_drop. lia.
  - by left.
  - by rewrite index_for_app.
  - apply (only_files_same d _ SegmentRDWR base es Honly). intros n Hn.
    rewrite Hsame by (intros <-; apply Hn; by right).
    apply lookup_insert_ne. intros <-. apply Hn. by left.
Qed.

Lemma append_loop_ok d base es tail s es' i :
  seg_data d base es tail s -> Segment.Status s = SegmentRDWR ->
  Forall storable es' -> contig (base + blen es) es' -> i = base + blen es ->
  base + blen es + blen es' <= 2 ^ 64 ->
  blen (frames es') <= blen tail ->
  exists s' d',
    Segment.append_loop (record_of <$> es') i (s, quiet d) = (Ok tt, (s', quiet d')) /\
    seg_data d' base (es ++ es') (drop (length (frames es')) tail) s' /\ Segment.Status s' = SegmentRDWR /\
    Segment.FirstIndex s' = Segment.FirstIndex s /\ Segment.LastIndex s' = Segment.LastIndex s /\
    same_except (owned base) d d'.
Proof.
  intros Hd Hst Hs. revert d es tail s i Hd Hst.
  induction Hs as [|e es' He Hs IH]; intros d es tail s i Hd Hst Hc Hi Hle Hsz.
  - exists s, d. rewrite app_nil_r. auto 10 with go.
  - apply contig_cons in Hc as [Hidx Hc]. rewrite frames_cons in Hsz.
    destruct (appendRecord_ok _ _ _ _ _ e Hd Hst He) as (s1 & d1 & H1 & Hd1 & Hst1 & HF1 & HL1 & Hx1);
      [done | len | len |].
    destruct (IH d1 (es ++ [e]) _ s1 (base + blen (es ++ [e])) Hd1 Hst1)
      as (s2 & d2 & H2 & Hd2 & Hst2 & HF2 & HL2 & Hx2); [|done| | |].
    { rewrite blen_app, Z.add_assoc. done. }
    { len. }
    { unfold blen in *. rewrite length_app in Hsz. rewrite length_drop. lia. }
    exists s2, d2. rewrite <-app_assoc, drop_drop, <-length_app in Hd2. split; [|split; [done|split; [done|]]].
    + cbn [fmap list_fmap Segment.append_loop]. rewrite Hi, <-Hidx, (bind_ok _ _ _ _ _ H1), Hidx.
      destruct es' as [|e' es']; [done|].
      replace (u64 (base + blen es + 1)) with (base + blen (es ++ [e])); [exact H2|].
      rewrite blen_app, u64_small; [len|]. pose proof (sd_base Hd). unfold is_u64. len.
    + split; [congruence|]. split; [congruence|]. by apply (same_except_trans _ _ d1).
Qed.

Lemma appendRecords_ok d base es tail s es' :
  seg_repr d base es tail s -> Segment.Status s = SegmentRDWR ->
  es' <> [] -> Forall storable es' -> contig (base + blen es) es' ->
  base + blen es + blen es' <= 2 ^ 64 ->
  blen (frames es') <= blen tail ->
  exists s' d',
    Segment.appendRecords (record_of <$> es') (base + blen es) (s, quiet d) =
      (Ok tt, (s', quiet d')) /\
    seg_repr d' base (es ++ es') (drop (length (frames es')) tail) s' /\ Segment.Status s' = SegmentRDWR /\
    same_except (owned base) d d'.
Proof.
  intros [Hd Hr] Hst Hne Hs Hc Hle Hsz. pose proof (sd_base Hd) as [Hb _].
  destruct (append_loop_ok _ _ _ _ _ _ _ Hd Hst Hs Hc eq_refl Hle Hsz)
    as (s1 & d1 & H1 & Hd1 & Hst1 & HF1 & HL1 & Hx1).
  assert (1 <= blen es') by (destruct es'; [done|]; len).
  set (s2 := Segment.set_range base (base + blen (es ++ es') - 1)
               (Segment.set_log (MmapFile.set_pos (MmapFile.writePosition (Segment.LogFile s1))
                                  (MmapFile.writePosition (Segment.LogFile s1))
                                  (Segment.LogFile s1)) s1)).
  exists s2, d1. split; [|split; [split|split; [done|done]]].
  - unfold Segment.appendRecords. rewrite (bind_ok (obj _) _ _ _ _ eq_refl). cbn [fst snd].
    rewrite Hst. cbn [negb bool_decide]. rewrite bool_decide_true by done. cbn [negb].
    rewrite (bind_ok (obj _) _ _ _ _ eq_refl). cbn [fst snd].
    assert (negb (Segment.LastIndex s =? 0) &&
            negb (u64 (Segment.LastIndex s + 1) =? base + blen es) = false) as ->.
    { unfold seg_range in Hr. case_decide; destruct Hr as [HF HL].
      - destruct HL as [-> _]. done.
      - rewrite HL. rewrite u64_small by (unfold is_u64; len).
        rewrite (proj2 (Z.eqb_eq _ (base + blen es))) by lia. apply andb_false_r. }
    rewrite (bind_ok _ _ _ _ _ H1). cbn beta.
    erewrite bind_ok; [|reflexivity]. cbn beta.
    erewrite bind_ok; [|reflexivity]. cbn beta.
    unfold set_obj, modify. cbn [fst snd]. rewrite blen_fmap.
    rewrite (u64_small (blen es' - 1)), u64_small by (unfold is_u64; len).
    do 2 f_equal. unfold s2. destruct s1 as [F L lf li st]. cbn in *.
    unfold Segment.set_range, seg_range in *. cbn. rewrite blen_app.
    subst F L. case_decide; destruct Hr as [-> HL]; [destruct HL as [-> _]; subst es | rewrite HL];
      blen_pos; rewrite ?blen_nil in *; repeat (ztest; cbn); f_equal; len.
  - by destruct Hd1; split.
  - unfold seg_range. rewrite decide_False; [done|]. by destruct es; [|done].
Qed.

Lemma appendRecords_not_writable s fs records startIndex :
  Segment.Status s <> SegmentRDWR ->
  Segment.appendRecords records startIndex (s, fs) = (Err ErrNotWritable, (s, fs)).
Proof.
  intros H1. unfold Segment.appendRecords. rewrite (bind_ok (obj _) _ _ _ _ eq_refl). cbn [fst].
  by rewrite bool_decide_false.
Qed.

Lemma appendRecords_not_continuous s fs records startIndex :
  Segment.Status s = SegmentRDWR -> Segment.LastIndex s <> 0 ->
  startIndex <> u64 (Segment.LastIndex s + 1) ->
  Segment.appendRecords records startIndex (s, fs) = (Err ErrNotContinuous, (s, fs)).
Proof.
  intros H1 H2 H3. unfold Segment.appendRecords. rewrite (bind_ok (obj _) _ _ _ _ eq_refl). cbn [fst].
  rewrite bool_decide_true by done. cbn [negb]. rewrite (bind_ok (obj _) _ _ _ _ eq_refl). cbn [fst].
  by repeat (ztest; cbn).
Qed.

(** * Reading *)

(** Entries are taken up to and including the one that exceeds [maxSize]. *)
Fixpoint take_until (maxSize readSize : Z) (es : list Entry.t) : list Entry.t * Z :=
  match es with
  | [] => ([], readSize)
  | e :: es' =>
      let readSize := readSize + Entry.Size e in
      if maxSize <? readSize then ([e], readSize)
      else let '(l, r) := take_until maxSize readSize es' in (e :: l, r)
  end.

Lemma blen_frame_Size e : 0 <= Entry.Size e < blen (frame e).
Proof. rewrite blen_frame, Entry_Size_eq. pose proof (blen_record_of e). len. Qed.

Lemma blen_frames_length es : 6 * blen es <= blen (frames es).
Proof.
  induction es as [|e es IH]; [done|]. rewrite frames_cons. pose proof (blen_frame_pos e). len.
Qed.

Lemma seg_data_read d fl base es tail s pre e post :
  seg_data d base es tail s -> es = pre ++ e :: post ->
  Segment.on_log (MmapFile.readRaftEntry (blen (frames pre))) (s, mkFS d fl) =
    (Ok (e, blen (frames (pre ++ [e]))), (s, mkFS d fl)).
Proof.
  intros [Hst Hb Hc Hs Hm Hp Hf Hfit Hmax Hpos Hidx Honly] E.
  assert (frames es = frames pre ++ frame e ++ frames post) as Ef.
  { by rewrite E, frames_app, frames_cons. }
  unfold Segment.on_log, zoom. cbn [fst snd].
  erewrite (readRaftEntry_frame (Segment.LogFile s) (mkFS d fl) (frames pre) e);
    [|done| |].
  - rewrite frames_app, frames_one, blen_app. by destruct s.
  - cbn [files]. rewrite Hp, Hf. f_equal.
    rewrite Ef, <-!app_assoc. reflexivity.
  - rewrite E in Hs. by apply Forall_app in Hs as [_ Hs]; inversion Hs.
Qed.

Lemma read_loop_ok d fl base es tail s last maxSize w :
  seg_repr d base es tail s -> w <> [] ->
  forall pre post acc rs fuel,
  es = pre ++ w ++ post -> last = base + blen pre + blen w - 1 -> (length w <= fuel)%nat ->
  0 <= rs -> rs + blen (frames w) < 2 ^ 64 ->
  Segment.read_loop fuel (blen (frames pre)) last maxSize acc rs (s, mkFS d fl) =
    (Ok (acc ++ (take_until maxSize rs w).1, (take_until maxSize rs w).2), (s, mkFS d fl)).
Proof.
  intros [Hd Hr]. induction w as [|e w IH]; intros Hne pre post acc rs fuel E Hl Hfu Hrs Hov; [done|].
  destruct fuel as [|fuel]; [cbn in Hfu; lia|]. cbn [Segment.read_loop].
  rewrite (bind_ok _ _ _ _ _ (seg_data_read _ _ _ _ _ _ pre e (w ++ post) Hd E)). cbn iota beta.
  rewrite (bind_ok (obj _) _ _ _ _ eq_refl). cbn [fst].
  rewrite frames_cons in Hov. pose proof (blen_frame_Size e).
  rewrite u64_small by (unfold is_u64; len).
  assert (Entry.Index e = base + blen pre) as Hi.
  { apply (sd_contig Hd). rewrite E. by apply list_lookup_middle. }
  assert (Segment.LastIndex s = base + blen es - 1) as HL.
  { unfold seg_range in Hr. case_decide as En; [|apply Hr]. by destruct pre; rewrite En in E. }
  cbn [take_until]. destruct (Z.ltb_spec maxSize (rs + Entry.Size e)); [done|]. cbn [orb].
  rewrite Hi, HL. assert (blen es = blen pre + (1 + blen w) + blen post) as El by (rewrite E; len).
  destruct w as [|e' w].
  - rewrite (proj2 (Z.eqb_eq _ last)) by (rewrite Hl; len). done.
  - rewrite (proj2 (Z.eqb_neq _ last)) by (rewrite Hl; len).
    rewrite (proj2 (Z.eqb_neq _ (base + blen es - 1))) by (rewrite El; len). cbn [orb].
    rewrite (IH ltac:(done) (pre ++ [e]) post (acc ++ [e])); try lia.
    + rewrite <-app_assoc. by destruct (take_until _ _ (e' :: w)) as [l r].
    + by rewrite E, <-app_assoc.
    + len.
    + cbn in *; lia.
    + len.
Qed.

(** The entries of [first .. last] in a segment that starts at [base]. *)
Definition window (base first last : Z) (es : list Entry.t) : list Entry.t :=
  take (Z.to_nat (last - first + 1)) (drop (Z.to_nat (first - base)) es).

Lemma window_split base first last es :
  base <= first <= last -> last <= base + blen es - 1 ->
  es = take (Z.to_nat (first - base)) es ++ window base first last es ++
         drop (Z.to_nat (last - base + 1)) es /\
  blen (take (Z.to_nat (first - base)) es) = first - base /\
  blen (window base first last es) = last - first + 1.
Proof.
  intros H1 H2. unfold window. split; [|len].
  replace (Z.to_nat (last - base + 1)) with
    (Z.to_nat (first - base) + Z.to_nat (last - first + 1))%nat by lia.
  by rewrite <-drop_drop, !take_drop.
Qed.

Lemma readRaftEntries_ok d fl base es tail s first last maxSize :
  seg_repr d base es tail s -> base <= first <= last -> last <= base + blen es - 1 ->
  let r := take_until maxSize 0 (window base first last es) in
  Segment.readRaftEntries first last maxSize (s, mkFS d fl) =
    (Ok (r.1, if maxSize <? r.2 then 0 else maxSize - r.2), (s, mkFS d fl)).
Proof.
  intros Hrep H1 H2 r. pose proof Hrep as [Hd Hr]. pose proof Hd as [Hst Hb _ _ _ Hp Hf Hfit _ _ Hidx _].
  destruct (window_split base first last es H1 H2) as (E & Hpre & Hw).
  set (pre := take (Z.to_nat (first - base)) es) in *. set (w := window base first last es) in *.
  set (post := drop _ es) in E.
  assert (w <> []) as Hne by (intros Hw'; rewrite Hw', blen_nil in Hw; lia).
  assert (Segment.FirstIndex s = base) as HF.
  { unfold seg_range in Hr. case_decide as En; [|apply Hr].
    rewrite En in E. by destruct pre, w. }
  assert (blen (frames pre) + blen (frames w) + blen (frames post) = blen (frames es)) as Hlen.
  { rewrite E, !frames_app. len. }
  pose proof (blen_frames_length es). pose proof (blen_nonneg tail).
  unfold Segment.readRaftEntries. rewrite (bind_ok (obj _) _ _ _ _ eq_refl). cbn [fst].
  rewrite bool_decide_false by done.
  rewrite (u64_small (last - first + 1)), i64_small by (unfold is_u64; lia). ztest.
  rewrite (bind_ok (obj _) _ _ _ _ eq_refl). cbn [fst]. rewrite HF.
  erewrite bind_ok; cycle 1.
  { unfold Segment.on_index, zoom. cbn [fst snd].
    rewrite (getRaftEntryPosition_ok _ fl _ _ _ _ first base (blen (frames pre)) Hidx); [|lia|lia|].
    - cbn [fst snd]. by rewrite set_index_id.
    - destruct (drop (Z.to_nat (first - base)) es) as [|e tl] eqn:Ed.
      { apply (f_equal blen) in Ed. revert Ed. len. }
      assert (es !! Z.to_nat (first - base) = Some e) as Hl.
      { rewrite <-(Nat.add_0_r (Z.to_nat _)), <-lookup_drop, Ed. done. }
      rewrite (index_for_lookup _ _ _ _ Hl). f_equal. f_equal.
      rewrite (sd_contig Hd _ _ Hl). lia. }
  cbn beta. rewrite (bind_ok (gets _) _ _ _ _ eq_refl). cbn [fst snd files].
  rewrite Hp, Hf. cbn [default].
  erewrite bind_ok; [|apply (read_loop_ok d fl base es tail s last maxSize w Hrep Hne pre post [] 0 _ E)].
  - done.
  - lia.
  - unfold id. rewrite length_app. pose proof (blen_nonneg post). assert (blen es = blen pre + blen w + blen post) by (rewrite E at 1; len). unfold blen in *. lia.
  - lia.
  - len.
Qed.

(** * Creating, truncating and closing *)

Lemma newSegment_ok d base :
  0 < base < 2 ^ 64 -> (forall n, owned base n -> d !! n = None) ->
  exists s d',
    Segment.newSegment (ReadWriteSegmentName base) (quiet d) = (Ok s, quiet d') /\
    seg_repr d' base [] (zeros SegmentSize) s /\ same_except (owned base) d d' /\
    Segment.Status s = SegmentRDWR.
Proof.
  intros Hb Hno. pose proof (Hno _ (owned_readwrite_log base)) as Hl.
  pose proof (Hno _ (owned_readwrite_index base)) as Hi. set (d1 := <[ReadWriteSegmentName base := zeros SegmentSize]> d).
  assert (d1 !! ReadWriteIndexName base = None) as Hi1.
  { unfold d1. rewrite lookup_insert_ne; [done|]. apply not_eq_sym, rw_idx_log_ne. }
  destruct (newIndex_ok d1 _ Hi1) as (idx & Hn & Hidx).
  eexists _, _. split; [|split; [split|]].
  - unfold Segment.newSegment. rewrite (bind_ok _ _ _ _ _ (newMmapFile_ok _ _ _ Hl (proj1 size_ok))).
    rewrite index_name_readwrite. fold d1. rewrite (bind_ok _ _ _ _ _ Hn). reflexivity.
  - split; cbn; try done; [| | |by left|].
    + split; [|rewrite blen_nil]; lia.
    + rewrite lookup_insert_ne by apply rw_idx_log_ne. unfold d1. by rewrite lookup_insert_eq.
    + change (blen (frames [])) with 0. len.
    + intros n Ho Hd. destruct (decide (n = ReadWriteIndexName base)); [by right|].
      destruct (decide (n = ReadWriteSegmentName base)); [by left|].
      unfold d1 in Hd. rewrite !lookup_insert_ne, Hno in Hd by done. by destruct Hd.
  - done.
  - split; [|done]. apply (same_except_trans _ _ d1); apply same_except_insert; auto with go.
Qed.

(** Zeroing what follows the first [k] entries. *)
Definition cut_tail (k : nat) (es : list Entry.t) (tail : bytes) : bytes :=
  zeros (blen (frames es) - blen (frames (take k es))) ++ tail.

Lemma splice_truncate es k tail :
  splice (frames es ++ tail) (blen (frames (take k es)))
    (zeros (blen (frames es) - blen (frames (take k es)))) =
  frames (take k es) ++ cut_tail k es tail.
Proof.
  assert (frames es = frames (take k es) ++ frames (drop k es)) as E.
  { by rewrite <-frames_app, take_drop. }
  rewrite E at 1. rewrite <-app_assoc. rewrite splice_mid; [done|done|rewrite E; len].
Qed.

Lemma seg_position d fl base es tail s i :
  seg_data d base es tail s -> base <= i <= base + blen es - 1 ->
  Segment.on_index (Index.getRaftEntryPosition i base (Segment.Status s)) (s, mkFS d fl) =
    (Ok (blen (frames (take (Z.to_nat (i - base)) es))), (s, mkFS d fl)).
Proof.
  intros Hd Hi. pose proof (blen_frames_length es). pose proof (blen_nonneg tail). pose proof (sd_fits Hd).
  pose proof (sd_base Hd).
  unfold Segment.on_index, zoom. cbn [fst snd].
  destruct (lookup_lt_is_Some_2 es (Z.to_nat (i - base))) as [e He]; [unfold blen in *; lia|].
  erewrite (getRaftEntryPosition_ok d fl); [|apply (sd_idx Hd) | lia | lia|].
  - cbn [fst snd]. by rewrite set_index_id.
  - rewrite (index_for_lookup _ _ _ _ He). f_equal. f_equal.
    rewrite (sd_contig Hd _ _ He). lia.
Qed.

Lemma take_contents d base es tail s k :
  seg_data d base es tail s ->
  contig base (take k es) /\ Forall storable (take k es) /\
  blen (frames (take k es)) <= blen (frames es) /\ base + blen (take k es) <= 2 ^ 64.
Proof.
  intros Hd. pose proof (sd_base Hd). split; [|split; [|split]].
  - apply contig_take, Hd.
  - apply Forall_take, Hd.
  - assert (frames es = frames (take k es) ++ frames (drop k es)) as ->
      by (by rewrite <-frames_app, take_drop). len.
  - unfold blen in *. rewrite length_take. lia.
Qed.

Lemma seg_range_take base es s i s' :
  0 < base -> base + blen es <= 2 ^ 64 ->
  base <= i <= base + blen es - 1 -> Segment.Status s = SegmentRDWR ->
  Segment.FirstIndex s = base ->
  s' = (if i =? Segment.FirstIndex s then Segment.set_range 0 0 s
        else Segment.set_range (Segment.FirstIndex s) (u64 (i - 1)) s) ->
  seg_range base (take (Z.to_nat (i - base)) es) s'.
Proof.
  intros Hb Hb' Hi Hst HF ->. rewrite HF. unfold seg_range.
  assert (blen (take (Z.to_nat (i - base)) es) = i - base) as Hl by len.
  destruct (Z.eqb_spec i base) as [->|].
  - rewrite Z.sub_diag, decide_True by done. done.
  - rewrite decide_False; [|intros E; rewrite E, blen_nil in Hl; lia].
    cbn. split; [done|]. rewrite u64_small by (unfold is_u64; lia). lia.
Qed.

Lemma on_log_ok {A} (m : St (MmapFile.t * FS) A) s fs a f fs' :
  m (Segment.LogFile s, fs) = (Ok a, (f, fs')) ->
  Segment.on_log m (s, fs) = (Ok a, (Segment.set_log f s, fs')).
Proof. intros H1. unfold Segment.on_log, zoom. cbn [fst snd]. by rewrite H1. Qed.
Lemma on_index_ok {A} (m : St (Index.t * FS) A) s fs a i fs' :
  m (Segment.LogIndex s, fs) = (Ok a, (i, fs')) ->
  Segment.on_index m (s, fs) = (Ok a, (Segment.set_index i s, fs')).
Proof. intros H1. unfold Segment.on_index, zoom. cbn [fst snd]. by rewrite H1. Qed.

(** The first two steps of [truncateSuffix]: the log file. *)
Lemma truncate_log d base es tail s i :
  seg_data d base es tail s -> MmapFile.writePosition (Segment.LogFile s) = blen (frames es) ->
  base <= i <= base + blen es - 1 ->
  let es1 := take (Z.to_nat (i - base)) es in
  Segment.on_log (MmapFile.truncateSuffix (blen (frames es1))) (s, quiet d) =
    (Ok tt, (Segment.set_log (MmapFile.set_pos (blen (frames es1)) (blen (frames es1))
                               (Segment.LogFile s)) s,
             quiet (<[log_name (Segment.Status s) base es :=
                       frames es1 ++ cut_tail (Z.to_nat (i - base)) es tail]> d))).
Proof.
  intros Hd Hw Hi es1. pose proof (take_contents _ _ _ _ _ (Z.to_nat (i - base)) Hd) as (_ & _ & Hle & _).
  fold es1 in Hle. destruct Hd as [Hst Hb Hc Hs Hm Hp Hf Hfit Hmax Hpos Hidx Honly].
  apply on_log_ok. rewrite <-Hp in Hf.
  rewrite (truncateSuffix_ok _ _ _ _ Hm Hf) by (rewrite Hw; len).
  rewrite Hw, Hp. unfold es1. by rewrite splice_truncate.
Qed.

(** The last step: the range of the segment. *)
Lemma truncate_finish d base es tail i s :
  seg_data d base (take (Z.to_nat (i - base)) es) tail s -> Segment.Status s = SegmentRDWR ->
  Segment.FirstIndex s = base -> base <= i <= base + blen es - 1 -> base + blen es <= 2 ^ 64 ->
  exists s',
    set_obj (fun s => if i =? Segment.FirstIndex s then Segment.set_range 0 0 s
                      else Segment.set_range (Segment.FirstIndex s) (u64 (i - 1)) s) (s, quiet d) =
      (Ok tt, (s', quiet d)) /\
    seg_repr d base (take (Z.to_nat (i - base)) es) tail s' /\ Segment.Status s' = SegmentRDWR.
Proof.
  intros Hd Hst HF Hi Hb. pose proof (sd_base Hd).
  eexists. split; [reflexivity|]. split; [split|].
  - cbn. destruct (_ =? _); destruct Hd; by split.
  - eapply (seg_range_take base es s i); [lia|done|done|done|done|reflexivity].
  - cbn. by destruct (_ =? _).
Qed.

Lemma seg_first d base es tail s i :
  seg_repr d base es tail s -> base <= i <= base + blen es - 1 -> Segment.FirstIndex s = base.
Proof.
  intros [_ Hr] Hi. unfold seg_range in Hr. case_decide as En; [|apply Hr].
  rewrite En, blen_nil in Hi. lia.
Qed.

Lemma truncateSuffix_rw_ok d base es tail s i :
  seg_repr d base es tail s -> Segment.Status s = SegmentRDWR -> base <= i <= base + blen es - 1 ->
  exists s' d',
    Segment.truncateSuffix i (s, quiet d) = (Ok tt, (s', quiet d')) /\
    seg_repr d' base (take (Z.to_nat (i - base)) es)
      (cut_tail (Z.to_nat (i - base)) es tail) s' /\
    Segment.Status s' = SegmentRDWR /\ same_except (owned base) d d'.
Proof.
  intros Hrep Hst Hi. pose proof (seg_first _ _ _ _ _ _ Hrep Hi) as HF. destruct Hrep as [Hd Hr].
  set (es1 := take (Z.to_nat (i - base)) es).
  pose proof (take_contents _ _ _ _ _ (Z.to_nat (i - base)) Hd) as (Hc1 & Hs1 & Hle1 & Hb1).
  assert (MmapFile.writePosition (Segment.LogFile s) = blen (frames es)) as Hw.
  { destruct (sd_pos Hd) as [?|[E _]]; [done|]. by rewrite Hst in E. }
  pose proof (truncate_log _ _ _ _ _ _ Hd Hw Hi) as HT. cbv zeta in HT.
  pose proof (seg_position _ [] _ _ _ _ _ Hd Hi) as HP.
  destruct Hd as [_ Hb Hc Hs Hm Hp Hf Hfit Hmax _ Hidx Honly].
  rewrite Hst in *. cbn [log_name idx_name] in *. fold es1 in HT, HP, Hc1, Hs1, Hle1, Hb1.
  set (s1 := Segment.set_log _ s) in HT. set (d1 := <[_ := _]> d) in HT.
  assert (idx_repr d1 (ReadWriteIndexName base) (index_for 0 es) (Segment.LogIndex s) SegmentRDWR) as Hidx1.
  { apply (idx_repr_frame d); [|done]. apply lookup_insert_ne. apply not_eq_sym, rw_idx_log_ne. }
  pose proof (blen_frames_length es). pose proof (blen_nonneg tail).
  destruct (idx_truncate_rw _ _ _ _ i base Hidx1) as (idx' & HI & Hidx'); [lia|len|len|].
  rewrite take_index_for in HI, Hidx'. fold es1 in HI, Hidx'.
  set (d2 := <[ReadWriteIndexName base := _]> d1) in HI, Hidx'.
  destruct (truncate_finish d2 base es (cut_tail (Z.to_nat (i - base)) es tail) i (Segment.set_index idx' s1)) as (s' & HE & Hrep' & Hst');
    [|done|done|done|lia|].
  { fold es1. split; cbn; rewrite ?Hst; try done; [| |unfold cut_tail; fold es1; len|by left|].
    - split; [apply Hb | done].
    - unfold d2. rewrite lookup_insert_ne by apply rw_idx_log_ne. apply lookup_insert_eq.
    - apply (only_files_same d _ SegmentRDWR base es Honly). intros n Hn. unfold d2, d1.
      rewrite !lookup_insert_ne; [done| |]; intros <-; apply Hn; [by left | by right]. }
  exists s', d2. split; [|split; [done|split; [done|]]].
  - unfold Segment.truncateSuffix. rewrite (bind_ok (obj _) _ _ _ _ eq_refl).
    rewrite (bind_ok (obj _) _ _ _ _ eq_refl). cbn [fst snd]. rewrite HF, Hst.
    rewrite (bind_ok _ _ _ _ _ HP), (bind_ok _ _ _ _ _ HT).
    rewrite decide_True by done.
    by rewrite (bind_ok _ _ _ _ _ (on_index_ok _ s1 _ _ _ _ HI)).
  - apply (same_except_trans _ _ d1); apply same_except_insert; auto with go.
Qed.

(** A read-only segment that was written by this process becomes the segment
    that is written again. *)
Lemma truncateSuffix_ro_ok d base es tail s i :
  seg_repr d base es tail s -> Segment.Status s = SegmentReadOnly ->
  MmapFile.writePosition (Segment.LogFile s) = blen (frames es) ->
  base <= i <= base + blen es - 1 ->
  exists s' d',
    Segment.truncateSuffix i (s, quiet d) = (Ok tt, (s', quiet d')) /\
    seg_repr d' base (take (Z.to_nat (i - base)) es)
      (cut_tail (Z.to_nat (i - base)) es tail) s' /\
    Segment.Status s' = SegmentRDWR /\ same_except (owned base) d d'.
Proof.
  intros Hrep Hst Hw Hi. pose proof (seg_first _ _ _ _ _ _ Hrep Hi) as HF. destruct Hrep as [Hd Hr].
  set (es1 := take (Z.to_nat (i - base)) es).
  pose proof (take_contents _ _ _ _ _ (Z.to_nat (i - base)) Hd) as (Hc1 & Hs1 & Hle1 & Hb1).
  pose proof (truncate_log _ _ _ _ _ _ Hd Hw Hi) as HT. cbv zeta in HT.
  pose proof (seg_position _ [] _ _ _ _ _ Hd Hi) as HP.
  destruct Hd as [_ Hb Hc Hs Hm Hp Hf Hfit Hmax _ Hidx Honly].
  rewrite Hst in *. fold es1 in HT, HP, Hc1, Hs1, Hle1, Hb1.
  set (ro := log_name SegmentReadOnly base es) in *.
  set (ri := idx_name SegmentReadOnly base es) in *.
  set (s1 := Segment.set_log _ s) in HT.
  set (c1 := frames es1 ++ cut_tail (Z.to_nat (i - base)) es tail) in HT.
  assert (<[ro := c1]> d !! MmapFile.filePath (Segment.LogFile s1) = Some c1) as Hc1'.
  { cbn. rewrite Hp. apply lookup_insert_eq. }
  pose proof (rename_ok _ _ _ (ReadWriteSegmentName base) Hc1') as HR.
  cbn [Segment.LogFile s1 MmapFile.filePath MmapFile.set_pos Segment.set_log] in HR.
  rewrite Hp, delete_insert_eq in HR.
  set (d2 := <[ReadWriteSegmentName base := c1]> (delete ro d)) in HR.
  set (f2 := MmapFile.set_filePath _ _) in HR.
  assert (idx_repr d2 ri (index_for 0 es) (Segment.LogIndex s) SegmentReadOnly) as Hidx2.
  { apply (idx_repr_frame d); [|done]. unfold d2.
    rewrite lookup_insert_ne by apply (log_idx_ne SegmentRDWR base es).
    rewrite lookup_delete_ne; [done|]. apply log_idx_ne. }
  pose proof (blen_frames_length es). pose proof (blen_nonneg tail).
  destruct (idx_truncate_ro _ _ _ _ i base Hidx2) as (idx' & HI & Hidx'); [lia|len|len|].
  rewrite take_index_for in HI, Hidx'. fold es1 in HI, Hidx'.
  set (d3 := <[ReadWriteIndexName base := _]> (delete ri d2)) in HI, Hidx'.
  set (s3 := Segment.set_Status SegmentRDWR (Segment.set_index idx' (Segment.set_log f2 s1))).
  destruct (truncate_finish d3 base es (cut_tail (Z.to_nat (i - base)) es tail) i s3) as (s' & HE & Hrep' & Hst'); [|done|done|done|lia|].
  { fold es1. split; cbn; try done; [| |unfold cut_tail; fold es1; len|by left|].
    - split; [apply Hb | done].
    - unfold d3. rewrite lookup_insert_ne by apply rw_idx_log_ne.
      rewrite lookup_delete_ne by apply not_eq_sym, (log_idx_ne SegmentRDWR base es).
      apply lookup_insert_eq.
    - exact (only_files_renamed d SegmentReadOnly es SegmentRDWR es1 base _ _ Honly). }
  exists s', d3. split; [|split; [done|split; [done|]]].
  - unfold Segment.truncateSuffix. rewrite (bind_ok (obj _) _ _ _ _ eq_refl).
    rewrite (bind_ok (obj _) _ _ _ _ eq_refl). cbn [fst snd]. rewrite HF, Hst.
    rewrite (bind_ok _ _ _ _ _ HP), (bind_ok _ _ _ _ _ HT).
    rewrite decide_False by done.
    erewrite bind_ok; [exact HE|].
    rewrite (bind_ok _ _ _ _ _ (on_log_ok _ s1 _ _ _ _ HR)).
    by rewrite (bind_ok _ _ _ _ _ (on_index_ok _ (Segment.set_log f2 s1) _ _ _ _ HI)).
  - intros n Hn. unfold d3, d2, ro, ri.
    rewrite lookup_insert_ne by (intros <-; auto with go).
    rewrite lookup_delete_ne by (intros <-; auto with go).
    rewrite lookup_insert_ne by (intros <-; auto with go).
    by rewrite lookup_delete_ne by (intros <-; auto with go).
Qed.

Lemma contig_ends base es :
  contig base es -> es <> [] ->
  exists e0 es0 es1 e1, es = e0 :: es0 /\ es = es1 ++ [e1] /\
    Entry.Index e0 = base /\ Entry.Index e1 = base + blen es - 1.
Proof.
  intros Hc Hne. destruct es as [|e0 es0]; [done|].
  destruct (exists_last Hne) as (es1 & e1 & E).
  exists e0, es0, es1, e1. repeat split; [done | by apply contig_cons in Hc as [? _] |].
  rewrite (Hc (length es1) e1); [rewrite E; len; unfold blen; lia|].
  rewrite E. by apply list_lookup_middle.
Qed.

Lemma changeToReadonly_ok d base es tail s :
  seg_repr d base es tail s -> Segment.Status s = SegmentRDWR -> es <> [] ->
  exists s' d',
    Segment.changeToReadonly (s, quiet d) = (Ok tt, (s', quiet d')) /\
    seg_repr d' base es tail s' /\ Segment.Status s' = SegmentReadOnly /\
    MmapFile.writePosition (Segment.LogFile s') = blen (frames es) /\
    same_except (owned base) d d'.
Proof.
  intros [Hd Hr] Hst Hne. unfold seg_range in Hr. rewrite decide_False in Hr by done.
  destruct Hr as [HF HL]. destruct Hd as [_ Hb Hc Hs Hm Hp Hf Hfit Hmax Hpos Hidx Honly].
  rewrite Hst in *. destruct Hpos as [Hpos|[? _]]; [|done].
  set (ro := log_name SegmentReadOnly base es).
  cbn [log_name idx_name] in *. set (c := frames es ++ _) in Hf.
  rewrite <-Hp in Hf. pose proof (rename_ok _ _ _ ro Hf) as HR. rewrite Hp in HR, Hf.
  set (d1 := <[ro := c]> _) in HR. set (f1 := MmapFile.set_filePath _ _) in HR.
  assert (idx_repr d1 (ReadWriteIndexName base) (index_for 0 es) (Segment.LogIndex s) SegmentRDWR) as Hidx1.
  { apply (idx_repr_frame d); [|done]. unfold d1.
    rewrite lookup_insert_ne by apply (log_idx_ne SegmentReadOnly base es SegmentRDWR base es).
    rewrite lookup_delete_ne; [done|]. apply not_eq_sym, rw_idx_log_ne. }
  destruct (contig_ends _ _ Hc Hne) as (e0 & es0 & es1 & e1 & E0 & E1 & Hi0 & Hi1).
  destruct (idx_changeToReadonly _ _ _ _ (index_for (0 + blen (frame e0)) es0) (index_for 0 es1)
              (IndexEntry.mk (Entry.Index e0) 0)
              (IndexEntry.mk (Entry.Index e1) (0 + blen (frames es1))) Hidx1)
    as (idx' & HI & Hidx'); [by rewrite E0 | by rewrite E1, index_for_app |].
  cbn [IndexEntry.RaftIndex] in HI, Hidx'. rewrite Hi0, Hi1 in HI, Hidx'.
  change (ReadonlyIndexName base (base + blen es - 1)) with (idx_name SegmentReadOnly base es) in HI, Hidx'.
  set (d2 := <[_ := _]> (delete _ d1)) in HI, Hidx'.
  exists (Segment.set_Status SegmentReadOnly (Segment.set_index idx' (Segment.set_log f1 s))), d2.
  split; [|split; [split|split; [done|split; [done|]]]].
  - unfold Segment.changeToReadonly. rewrite (bind_ok (obj _) _ _ _ _ eq_refl). cbn [fst snd].
    rewrite Hst, bool_decide_true by done. cbn [negb].
    rewrite (bind_ok (obj _) _ _ _ _ eq_refl), (bind_ok (obj _) _ _ _ _ eq_refl). cbn [fst snd].
    rewrite HF, HL. change (ReadonlySegmentName base (base + blen es - 1)) with ro.
    rewrite (bind_ok _ _ _ _ _ (on_log_ok _ s _ _ _ _ HR)).
    by rewrite (bind_ok _ _ _ _ _ (on_index_ok _ (Segment.set_log f1 s) _ _ _ _ HI)).
  - split; cbn; try done; [|by left
      |exact (only_files_renamed d SegmentRDWR es SegmentReadOnly es base _ _ Honly)]. fold ro.
    change (ReadonlySegmentName base (base + blen es - 1)) with ro.
    unfold d2. rewrite lookup_insert_ne
      by apply not_eq_sym, (log_idx_ne SegmentReadOnly base es SegmentReadOnly base es).
    rewrite lookup_delete_ne
      by apply not_eq_sym, (log_idx_ne SegmentReadOnly base es SegmentRDWR base es).
    apply lookup_insert_eq.
  - unfold seg_range. by rewrite decide_False.
  - intros n Hn. unfold d2, d1, ro.
    rewrite lookup_insert_ne by (intros <-; auto with go).
    rewrite lookup_delete_ne by (intros <-; auto with go).
    rewrite lookup_insert_ne by (intros <-; auto with go).
    by rewrite lookup_delete_ne by (intros <-; auto with go).
Qed.

(** The files of a segment that is not open. *)
Definition seg_files (d : gmap string bytes) (st : SegmentStatus) (base : Z) (es : list Entry.t)
    (tail : bytes) : Prop :=
  d !! log_name st base es = Some (frames es ++ tail) /\
  d !! idx_name st base es = Some (index_bytes (index_for 0 es)) /\
  only_files d st base es.

Lemma close_segment_ok d base es tail s :
  seg_repr d base es tail s ->
  exists s' d',
    Segment.close (s, quiet d) = (Ok tt, (s', quiet d')) /\
    Segment.Status s' = SegmentClosed /\ seg_files d' (Segment.Status s) base es tail /\
    same_except (owned base) d d'.
Proof.
  intros [Hd _]. destruct Hd as [Hst Hb Hc Hs Hm Hp Hf Hfit Hmax Hpos Hidx Honly].
  destruct (idx_close_ok _ _ _ _ _ Hidx) as (idx' & HI).
  eexists _, _. split; [|split; [|split; [split; [|split]|]]].
  - unfold Segment.close. erewrite bind_ok; [|reflexivity]. cbn [fst snd].
    set (s1 := Segment.set_range 0 0 (Segment.set_Status SegmentClosed s)).
    pose proof (on_log_ok _ s1 _ _ _ _ (close_ok _ d Hm)) as HL.
    erewrite bind_ok; [|unfold fatal_on_err; cbn [fst snd]; by rewrite HL].
    unfold fatal_on_err. by rewrite (on_index_ok _ (Segment.set_log _ s1) _ _ _ _ HI).
  - done.
  - rewrite lookup_insert_ne by apply not_eq_sym, log_idx_ne. done.
  - apply lookup_insert_eq.
  - apply (only_files_same d); [done|]. apply same_except_insert. by right.
  - apply same_except_insert. auto with go.
Qed.

Lemma remove_segment_ok d base es tail s :
  seg_repr d base es tail s ->
  exists s' d',
    Segment.remove (s, quiet d) = (Ok tt, (s', quiet d')) /\
    Segment.Status s' = SegmentClosed /\
    (forall n, owned base n -> d' !! n = None) /\ same_except (owned base) d d'.
Proof.
  intros [Hd _]. destruct Hd as [Hst Hb Hc Hs Hm Hp Hf Hfit Hmax Hpos Hidx Honly].
  rewrite <-Hp in Hf. pose proof (remove_ok _ _ _ Hm Hf) as HR. rewrite Hp in HR, Hf.
  set (d1 := delete _ d) in HR.
  assert (idx_repr d1 (idx_name (Segment.Status s) base es) (index_for 0 es) (Segment.LogIndex s)
            (Segment.Status s)) as Hidx1.
  { apply (idx_repr_frame d); [|done]. apply lookup_delete_ne. apply log_idx_ne. }
  destruct (idx_remove_ok _ _ _ _ _ Hidx1) as (idx' & HI).
  eexists _, _. split; [|split; [|split]].
  - unfold Segment.remove. erewrite bind_ok; [|reflexivity]. cbn [fst snd].
    set (s1 := Segment.set_range 0 0 (Segment.set_Status SegmentClosed s)).
    cbn [fst snd]. rewrite (bind_ok _ _ _ _ _ (on_log_ok _ s1 _ _ _ _ HR)).
    by rewrite (on_index_ok _ (Segment.set_log _ s1) _ _ _ _ HI).
  - done.
  - intros n Hn. apply eq_None_not_Some. intros [Hn1 Hd]%lookup_delete_is_Some.
    apply lookup_delete_is_Some in Hd as [Hn2 Hd]. by destruct (Honly n Hn Hd).
  - apply (same_except_trans _ _ d1); apply same_except_delete; auto with go.
Qed.

(** * Recovery *)

(** One iteration of [rebuildIndex] over a complete frame. *)
Lemma rebuild_step d name l idx fuel (pre : bytes) e post r ent :
  idx_repr d name l idx SegmentRDWR -> storable e ->
  blen (pre ++ frame e ++ post) = SegmentSize ->
  exists idx' d' r' ent',
    Segment.rebuild_loop (S fuel) (pre ++ frame e ++ post) (blen pre) r ent (idx, quiet d) =
    Segment.rebuild_loop fuel (pre ++ frame e ++ post) (blen (pre ++ frame e)) r' ent' (idx', quiet d') /\
    idx_repr d' name (l ++ [IndexEntry.mk (Entry.Index e) (blen pre)]) idx' SegmentRDWR /\
    same_except (eq name) d d'.
Proof.
  intros Hidx He Hsz. pose proof (blen_frame_pos e) as Hfp. pose proof (blen_frame e) as Hfl.
  set (rb := record_bytes (record_of e)) in *.
  destruct (appendIndexEntry_ok _ _ _ _ (IndexEntry.mk (Entry.Index e) (blen pre)) Hidx)
    as (idx' & d' & HA & Hidx' & Hx).
  { split; cbn; [apply He|]. unfold is_u32. len. }
  assert (pre ++ frame e ++ post = pre ++ le_bytes 4 (blen rb) ++ rb ++ post) as E.
  { unfold frame. by rewrite <-app_assoc. }
  assert (blen rb < 2 ^ 32) by apply He.
  pose proof (blen_record_of e) as Hrb. fold rb in Hrb.
  eexists idx', d', _, _. split; [|split; [exact Hidx'|exact Hx]].
  cbn [Segment.rebuild_loop]. unfold RecordLengthSize. rewrite E in *.
  rewrite (proj2 (Z.leb_gt _ _)) by len.
  rewrite (slice_mid pre (le_bytes 4 _)) by len. rewrite bind_must.
  rewrite le_val_u32 by (unfold is_u32; len).
  rewrite (proj2 (Z.ltb_ge _ _)) by len. cbn [orb].
  rewrite (app_assoc pre), (slice_mid (pre ++ _)) by len. rewrite bind_must.
  rewrite (proj2 (Z.eqb_neq _ _)) by len.
  unfold rb at 1. rewrite record_of_unmarshal by done. cbn [Record.Data Record.Crc default id].
  rewrite Z.eqb_refl. cbn [negb].
  rewrite Entry_Unmarshal_eq; [|apply He|rewrite Entry_Size_eq; lia].
  cbn [Entry.Index]. rewrite Z.add_simpl_r, u32_small by (unfold is_u32; len).
  erewrite bind_ok; [|unfold fatal_on_err; by rewrite HA].
  rewrite <-app_assoc. f_equal. len.
Qed.

Lemma rebuild_frames d name idx es :
  forall pre fuel tail r ent l,
  Forall storable es -> idx_repr d name l idx SegmentRDWR ->
  blen (pre ++ frames es ++ tail) = SegmentSize -> (length es <= fuel)%nat ->
  exists idx' d' r' ent',
    Segment.rebuild_loop fuel (pre ++ frames es ++ tail) (blen pre) r ent (idx, quiet d) =
    Segment.rebuild_loop (fuel - length es) (pre ++ frames es ++ tail) (blen (pre ++ frames es))
      r' ent' (idx', quiet d') /\
    idx_repr d' name (l ++ index_for (blen pre) es) idx' SegmentRDWR /\
    same_except (eq name) d d'.
Proof.
  revert d idx. induction es as [|e es IH]; intros d idx pre fuel tail r ent l Hs Hidx Hsz Hf.
  - exists idx, d, r, ent. change (frames []) with (@nil Z). cbn [length index_for].
    rewrite Nat.sub_0_r, !app_nil_r. auto with go.
  - inversion Hs as [|? ? He Hs']; subst. destruct fuel as [|fuel]; [cbn in Hf; lia|].
    rewrite frames_cons in *. rewrite <-(app_assoc (frame e)) in *.
    destruct (rebuild_step d name l idx fuel pre e (frames es ++ tail) r ent Hidx He Hsz)
      as (idx1 & d1 & r1 & ent1 & H1 & Hidx1 & Hx1).
    assert (pre ++ frame e ++ frames es ++ tail = (pre ++ frame e) ++ frames es ++ tail) as E
      by (by rewrite <-!app_assoc).
    destruct (IH d1 idx1 (pre ++ frame e) fuel tail r1 ent1 _ Hs' Hidx1)
      as (idx2 & d2 & r2 & ent2 & H2 & Hidx2 & Hx2); [by rewrite <-E | cbn in Hf; lia |].
    exists idx2, d2, r2, ent2. split; [|split].
    + rewrite H1, E, H2. by rewrite (app_assoc pre).
    + cbn [index_for]. rewrite <-app_assoc in Hidx2. cbn [app] in Hidx2. by rewrite blen_app in Hidx2.
    + by apply (same_except_trans _ _ d1).
Qed.

(** What may follow the complete frames: zeros, or the length of a record
    that was not written, and zeros. *)
Definition torn_tail (es : list Entry.t) (tail : bytes) : Prop :=
  blen (frames es ++ tail) = SegmentSize /\
  ((exists n, tail = zeros n) \/
   (exists n k, 0 < n < 2 ^ 32 /\ n <= k /\ tail = le_bytes 4 n ++ zeros k)).

Lemma rebuild_tail es tail fuel r ent s :
  torn_tail es tail ->
  Segment.rebuild_loop (S fuel) (frames es ++ tail) (blen (frames es)) r ent s = (Ok tt, s).
Proof.
  intros [Hsz Ht]. cbn [Segment.rebuild_loop]. unfold RecordLengthSize.
  zcase; [done|]. destruct Ht as [(n & ->)|(n & k & Hn & Hk & ->)].
  - rewrite (zeros_split 4) by len.
    rewrite (slice_mid (frames es)) by len. rewrite bind_must.
    change (le_val (zeros 4)) with 0. rewrite Z.add_0_r.
    destruct (_ || _); [done|]. rewrite slice_in_bounds by len. rewrite bind_must, Z.sub_diag. done.
  - rewrite (slice_mid (frames es)) by len. rewrite bind_must, le_val_u32 by (unfold is_u32; lia).
    destruct (_ || _); [done|]. rewrite (zeros_split n) by lia. rewrite app_assoc.
    rewrite (slice_mid (frames es ++ _)) by len. rewrite bind_must.
    rewrite (proj2 (Z.eqb_neq _ _)) by len.
    assert (zeros n = 0 :: zeros (n - 1)) as -> by (apply (zeros_split 1 n); lia).
    unfold Record.Unmarshal. by rewrite unmarshal_zero.
Qed.

(** [rebuildIndex] finds exactly the complete frames, whatever the old index
    file holds. *)
Lemma rebuildIndex_ok d base es tail f old :
  MmapFile.mapped f = true -> MmapFile.filePath f = ReadWriteSegmentName base ->
  d !! ReadWriteSegmentName base = Some (frames es ++ tail) -> torn_tail es tail ->
  d !! ReadWriteIndexName base = Some old -> Forall storable es ->
  exists idx' d',
    Segment.rebuildIndex (f, quiet d) = (Ok idx', (f, quiet d')) /\
    idx_repr d' (ReadWriteIndexName base) (index_for 0 es) idx' SegmentRDWR /\
    same_except (eq (ReadWriteIndexName base)) d d'.
Proof.
  intros Hm Hp Hd Ht Hold Hs. set (iname := ReadWriteIndexName base) in *.
  assert (delete iname d !! iname = None) as Hn by apply lookup_delete_eq.
  destruct (newIndex_ok _ _ Hn) as (idx0 & HN & Hidx0). set (d1 := <[iname := []]> _) in HN, Hidx0.
  assert (d1 !! ReadWriteSegmentName base = Some (frames es ++ tail)) as Hd1.
  { unfold d1. rewrite lookup_insert_ne by apply rw_idx_log_ne.
    by rewrite lookup_delete_ne by apply rw_idx_log_ne. }
  destruct (rebuild_frames d1 iname idx0 es [] (S (length (frames es ++ tail))) tail Record.zero
              Entry.zero [] Hs Hidx0) as (idx' & d' & r' & ent' & HL & Hidx' & Hx).
  { apply Ht. }
  { rewrite length_app. pose proof (blen_frames_length es). pose proof (blen_nonneg tail). unfold blen in *. lia. }
  exists idx', d'. split; [|split; [done|]].
  - unfold Segment.rebuildIndex. rewrite (bind_ok (obj _) _ _ _ _ eq_refl). cbn [fst].
    rewrite Hp, index_name_readwrite. fold iname.
    erewrite bind_ok; [|unfold fatal_on_err, on_fs, zoom, Remove; by runs]. cbn beta.
    erewrite bind_ok; [|unfold on_fs, zoom; cbn [fst snd]; rewrite HN; reflexivity]. cbn beta.
    erewrite bind_ok; [|unfold MmapFile.mappedData; cbn [fst snd files]; rewrite Hm, Hp, Hd1; reflexivity].
    cbn [fst snd]. cbn [app] in HL. change (blen []) with 0 in HL.
    rewrite HL. replace (S (length (frames es ++ tail)) - length es)%nat
      with (S (length (frames es ++ tail) - length es)).
    + by rewrite rebuild_tail.
    + rewrite length_app. pose proof (blen_frames_length es). pose proof (blen_nonneg tail). unfold blen in *. lia.
  - intros n Hn'. rewrite Hx by done. unfold d1. rewrite lookup_insert_ne by done.
    by rewrite lookup_delete_ne by done.
Qed.

(** * Opening *)

(** What is assumed of entries in files that are opened. *)
Record log_ok (base : Z) (es : list Entry.t) : Prop := {
  lo_base : 0 < base < 2 ^ 64 /\ base + blen es <= 2 ^ 64;
  lo_contig : contig base es;
  lo_storable : Forall storable es }.

Lemma seg_data_log_ok d base es tail s : seg_data d base es tail s -> log_ok base es.
Proof. intros []. by split. Qed.

Lemma index_for_log_ok base es :
  log_ok base es -> blen (frames es) <= SegmentSize -> Forall index_entry_ok (index_for 0 es).
Proof. intros [_ _ Hs] Hle. apply index_for_ok; [done|lia|lia]. Qed.

Lemma openSegment_ro_ok d base es tail :
  log_ok base es -> es <> [] -> blen (frames es ++ tail) = SegmentSize ->
  seg_files d SegmentReadOnly base es tail ->
  exists s,
    Segment.openSegment (ReadonlySegmentName base (base + blen es - 1)) SegmentReadOnly false (quiet d)
      = (Ok s, quiet d) /\
    seg_repr d base es tail s /\ Segment.Status s = SegmentReadOnly /\
    MmapFile.writePosition (Segment.LogFile s) = 0.
Proof.
  intros Hok Hne Hsz (Hl & Hi & Ho). pose proof Hok as [[Hb1 Hb2] Hc Hs].
  assert (1 <= blen es) by (destruct es; [done|]; len).
  destruct (openIndex_ro d (idx_name SegmentReadOnly base es) (index_for 0 es) Hi)
    as (idx & HO & Hidx).
  { apply (index_for_log_ok base); [done|len]. }
  { intros E. apply (f_equal length) in E. rewrite length_index_for in E. by destruct es. }
  eexists. split; [|split; [split|split]].
  - unfold Segment.openSegment. rewrite index_name_readonly.
    erewrite bind_ok; [|apply (openMmapFile_ok _ _ _ Hl); lia]. cbn beta.
    rewrite decide_True by done.
    rewrite scan_readonly by (unfold is_u64; lia). rewrite bind_must.
    rewrite (bind_ok _ _ _ _ _ HO). reflexivity.
  - split; cbn; try done; [by rewrite <-blen_app | by right].
  - unfold seg_range. by rewrite decide_False.
  - done.
  - done.
Qed.

(** The part of opening the last segment after its index is there. *)
Lemma open_finish d base es tail f idx :
  log_ok base es -> es <> [] -> blen (frames es ++ tail) = SegmentSize ->
  d !! ReadWriteSegmentName base = Some (frames es ++ tail) ->
  f = MmapFile.mk (ReadWriteSegmentName base) true 0 0 SegmentSize ->
  idx_repr d (ReadWriteIndexName base) (index_for 0 es) idx SegmentRDWR ->
  only_files d SegmentRDWR base es ->
  exists e1 p s,
    Segment.run_on idx (Index.getLastRaftEntry SegmentRDWR) (quiet d) =
      (Ok (IndexEntry.mk (Entry.Index e1) p, idx), quiet d) /\
    (let! q := Segment.run_on f
       (let! m := MmapFile.mappedData in
        let! lenBuf := must (slice m p (p + RecordLengthSize)) in
        MmapFile.setPosition (p + le_val lenBuf + RecordLengthSize)) in
     ret (Segment.mk base (Entry.Index e1) q.2 idx SegmentRDWR)) (quiet d) = (Ok s, quiet d) /\
    seg_repr d base es tail s /\ Segment.Status s = SegmentRDWR.
Proof.
  intros Hok Hne Hsz Hf -> Hidx Ho. pose proof Hok as [[Hb1 Hb2] Hc Hs].
  destruct (contig_ends _ _ Hc Hne) as (_ & _ & es1 & e1 & _ & E1 & _ & Hi1).
  assert (storable e1) as He by (rewrite E1 in Hs; apply Forall_app in Hs as [_ Hs]; by inversion Hs).
  assert (frames es = frames es1 ++ le_bytes 4 (blen (record_bytes (record_of e1))) ++
            record_bytes (record_of e1)) as Ef.
  { by rewrite E1, frames_app, frames_one. }
  exists e1, (blen (frames es1)). eexists. split; [|split; [|split; [split|]]].
  - unfold Segment.run_on. erewrite getLastRaftEntry_ok; [reflexivity|].
    rewrite E1, index_for_app in Hidx. exact Hidx.
  - erewrite bind_ok; [reflexivity|]. unfold Segment.run_on, MmapFile.mappedData, RecordLengthSize. run.
    rewrite Hf. run. rewrite Ef, <-!app_assoc, slice_mid by len. run.
    rewrite le_val_u32 by (destruct He; unfold is_u32; len).
    unfold MmapFile.setPosition. rewrite (proj2 (Z.ltb_ge _ _)) by len. run. reflexivity.
  - split; cbn; try done; [by rewrite <-blen_app|]. left. rewrite Ef. len.
  - unfold seg_range. rewrite decide_False by done. cbn. by rewrite Hi1.
  - done.
Qed.

Lemma openSegment_rw_ok d base es tail :
  log_ok base es -> es <> [] -> blen (frames es ++ tail) = SegmentSize ->
  seg_files d SegmentRDWR base es tail ->
  exists s,
    Segment.openSegment (ReadWriteSegmentName base) SegmentRDWR false (quiet d) = (Ok s, quiet d) /\
    seg_repr d base es tail s /\ Segment.Status s = SegmentRDWR.
Proof.
  intros Hok Hne Hsz (Hl & Hi & Ho). pose proof Hok as [[Hb1 Hb2] Hc Hs].
  assert (1 <= blen es) by (destruct es; [done|]; len).
  destruct (openIndex_rw d (ReadWriteIndexName base) (index_for 0 es) Hi) as (idx & HO & Hidx).
  { apply (index_for_log_ok base); [done|len]. }
  cbn [log_name] in Hl. pose proof (openMmapFile_ok _ _ _ Hl ltac:(lia)) as HM. rewrite Hsz in HM.
  destruct (open_finish d base es tail _ idx Hok Hne Hsz Hl eq_refl Hidx Ho)
    as (e1 & p & s & HL & HE & Hrep & Hst).
  exists s. split; [|done]. unfold Segment.openSegment. rewrite index_name_readwrite.
  rewrite (bind_ok _ _ _ _ _ HM). rewrite decide_False by done.
  rewrite scan_readwrite by (unfold is_u64; lia). rewrite bind_must.
  erewrite bind_ok; [|by rewrite (bind_ok _ _ _ _ _ HO)]. cbn beta iota.
  rewrite (bind_ok _ _ _ _ _ HL). exact HE.
Qed.

Lemma openSegment_recover_ok d base es tail old :
  log_ok base es -> es <> [] -> torn_tail es tail ->
  d !! ReadWriteSegmentName base = Some (frames es ++ tail) ->
  d !! ReadWriteIndexName base = Some old -> only_files d SegmentRDWR base es ->
  exists s d',
    Segment.openSegment (ReadWriteSegmentName base) SegmentRDWR true (quiet d) = (Ok s, quiet d') /\
    seg_repr d' base es tail s /\ Segment.Status s = SegmentRDWR /\ same_except (owned base) d d'.
Proof.
  intros Hok Hne Ht Hl Hi Ho. pose proof Hok as [[Hb1 Hb2] Hc Hs]. pose proof (proj1 Ht) as Hsz.
  assert (1 <= blen es) by (destruct es; [done|]; len).
  pose proof (openMmapFile_ok _ _ _ Hl ltac:(lia)) as HM. rewrite Hsz in HM.
  set (f := MmapFile.mk _ _ _ _ _) in HM.
  destruct (rebuildIndex_ok d base es tail f old) as (idx & d' & HR & Hidx & Hx); [done..|].
  assert (d' !! ReadWriteSegmentName base = Some (frames es ++ tail)) as Hl'.
  { by rewrite Hx by apply rw_idx_log_ne. }
  assert (only_files d' SegmentRDWR base es) as Ho'.
  { apply (only_files_same d); [done|]. apply (same_except_mono (eq (ReadWriteIndexName base))); [|done].
    intros n <-. by right. }
  destruct (open_finish d' base es tail f idx Hok Hne Hsz Hl' eq_refl Hidx Ho')
    as (e1 & p & s & HL & HE & Hrep & Hst).
  exists s, d'. split; [|split; [done|split; [done|]]].
  - unfold Segment.openSegment. rewrite index_name_readwrite.
    rewrite (bind_ok _ _ _ _ _ HM). rewrite decide_False by done.
    rewrite scan_readwrite by (unfold is_u64; lia). rewrite bind_must.
    erewrite bind_ok; [|unfold Segment.run_on; by rewrite HR]. cbn beta iota.
    rewrite (bind_ok _ _ _ _ _ HL). exact HE.
  - apply (same_except_mono (eq (ReadWriteIndexName base))); [|done]. intros n <-. auto with go.
Qed.

(** A read-only segment that was opened from its files has no write position
    and can not be cut but at its first entry. *)
Lemma truncateSuffix_reopened d base es tail s i :
  seg_repr d base es tail s -> MmapFile.writePosition (Segment.LogFile s) = 0 ->
  base < i <= base + blen es - 1 ->
  Segment.truncateSuffix i (s, quiet d) = (Err ErrOutOfBound, (s, quiet d)).
Proof.
  intros Hrep Hw Hi. pose proof (seg_first _ _ _ _ _ i Hrep ltac:(lia)) as HF. destruct Hrep as [Hd _].
  pose proof (seg_position _ [] _ _ _ _ i Hd ltac:(lia)) as HP.
  unfold Segment.truncateSuffix. rewrite !(bind_ok (obj _) _ _ _ _ eq_refl). cbn [fst]. rewrite HF.
  rewrite (bind_ok _ _ _ _ _ HP). apply bind_err. unfold Segment.on_log, zoom. cbn [fst snd].
  rewrite truncateSuffix_past; [by destruct s|].
  rewrite Hw. pose proof (blen_frames_length (take (Z.to_nat (i - base)) es)) as Hl.
  rewrite blen_take in Hl by lia. lia.
Qed.

(** A segment in progress without entries cannot be opened, with its index
    rebuilt or not. *)
Lemma openSegment_empty d base b :
  0 < base < 2 ^ 64 -> d !! ReadWriteSegmentName base = Some (zeros SegmentSize) ->
  d !! ReadWriteIndexName base = Some [] ->
  (Segment.openSegment (ReadWriteSegmentName base) SegmentRDWR b (quiet d)).1 = Panic.
Proof.
  intros Hb Hl Hi. pose proof (openMmapFile_ok _ _ _ Hl ltac:(rewrite blen_zeros; lia)) as HM.
  unfold Segment.openSegment. rewrite index_name_readwrite.
  rewrite (bind_ok _ _ _ _ _ HM). rewrite decide_False by done.
  rewrite scan_readwrite by (unfold is_u64; lia). rewrite bind_must.
  set (f := MmapFile.mk _ _ _ _ _).
  assert (exists idx d', (if b then Segment.run_on f Segment.rebuildIndex
      else let! i := Index.openIndex (ReadWriteIndexName base) SegmentRDWR in ret (i, f)) (quiet d) =
      (Ok (idx, f), quiet d') /\ idx_repr d' (ReadWriteIndexName base) [] idx SegmentRDWR)
    as (idx & d' & HX & Hidx).
  { destruct b.
    - destruct (rebuildIndex_ok d base [] (zeros SegmentSize) f []) as (idx & d' & HR & Hidx & _); try done.
      + split; [change (blen (zeros SegmentSize) = SegmentSize); rewrite blen_zeros; lia|]. left. eauto.
      + exists idx, d'. split; [|done]. unfold Segment.run_on. by rewrite HR.
    - destruct (openIndex_rw d (ReadWriteIndexName base) []) as (idx & HO & Hidx); [done|constructor|].
      exists idx, d. split; [|done]. by rewrite (bind_ok _ _ _ _ _ HO). }
  rewrite (bind_ok _ _ _ _ _ HX). cbn beta iota.
  erewrite bind_panic; [reflexivity|]. unfold Segment.run_on.
  by rewrite (getLastRaftEntry_empty _ _ _ _ Hidx).
Qed.
End Repr.
#[global] Arguments sd_status {_ d base es tail s} _.
#[global] Arguments sd_base {_ d base es tail s} _.
#[global] Arguments sd_contig {_ d base es tail s} _.
#[global] Arguments sd_storable {_ d base es tail s} _.
#[global] Arguments sd_mapped {_ d base es tail s} _.
#[global] Arguments sd_path {_ d base es tail s} _.
#[global] Arguments sd_file {_ d base es tail s} _.
#[global] Arguments sd_fits {_ d base es tail s} _.
#[global] Arguments sd_max {_ d base es tail s} _.
#[global] Arguments sd_pos {_ d base es tail s} _.
#[global] Arguments sd_idx {_ d base es tail s} _.
#[global] Arguments sd_only {_ d base es tail s} _.
