(* ===== verification/Storage.v ===== *)
(** The raft log on disk, storage/disk_storage.go: a list of segments, the
    last of which is written. That the operations implement those of a log is
    in LogStore.v. *)
From S2P Require Import Prelude Wire Names Disk IndexFile Segments.
Local Open Scope Z_scope.
Local Open Scope go_scope.

(** [raftpb.HardState] *)
Module HardState.
Record t : Type := mk { Term : Z; Vote : Z; Commit : Z }.
#[global] Instance t_eq_dec : EqDecision t.
Proof. solve_decision. Defined.
Definition empty : t := mk 0 0 0.
End HardState.

(** storage.go: the part of the interface [MetaStorage] that the log storage
    and the raft node call, over a store of type [M]. *)
Class MetaStorage (M : Type) : Type := {
  meta_SaveHardState : HardState.t -> St M unit;
  meta_Get : bytes -> St M (option bytes);
  meta_Set : bytes -> bytes -> St M unit;
  meta_UpdatePugedGtidset : Z -> St M unit;
  meta_Close2 : St M unit }.

Definition noLimit : Z := MaxUint64.

(** [utils.StringToBytes] of the keys and values used here. *)
Definition NeedRecoverKey : bytes := [100; 115; 95; 110; 101; 101; 100; 95; 114; 101; 99; 111; 118; 101; 114].
Definition bytes_true : bytes := [116; 114; 117; 101].
Definition bytes_false : bytes := [102; 97; 108; 115; 101].

Module DiskStorage.

(** [purging] holds the segments that [StartPurgeLog] has taken out of the
    list and not removed yet. *)
Record t (M : Type) : Type := mk {
  Segments : list Segment.t;
  ReserveSegmentCount : Z;
  purgeStarted : bool;
  purging : list Segment.t;
  meta : M }.
Arguments mk {M}.
Arguments Segments {M}.
Arguments ReserveSegmentCount {M}.
Arguments purgeStarted {M}.
Arguments purging {M}.
Arguments meta {M}.

Section DiskStorage.
Context `{Settings} {M : Type} `{MetaStorage M}.

Definition set_Segments (l : list Segment.t) (s : t M) : t M :=
  mk l (ReserveSegmentCount s) (purgeStarted s) (purging s) (meta s).
Definition set_purging (l : list Segment.t) (s : t M) : t M :=
  mk (Segments s) (ReserveSegmentCount s) (purgeStarted s) l (meta s).
Definition set_purgeStarted (b : bool) (s : t M) : t M :=
  mk (Segments s) (ReserveSegmentCount s) b (purging s) (meta s).

(** A method of the embedded [MetaStorage]. *)
Definition on_meta {A} (m : St M A) : St (t M * FS) A :=
  zoom (fun s => meta s.1)
    (fun x s => (mk (Segments s.1) (ReserveSegmentCount s.1) (purgeStarted s.1) (purging s.1) x, s.2)) m.

(** A method of [s.Segments[i]]. *)
Definition on_segment {A} (i : nat) (m : St (Segment.t * FS) A) : St (t M * FS) A := fun s =>
  match Segments s.1 !! i with
  | None => (Panic, s)
  | Some seg => let '(r, (seg', fs)) := m (seg, s.2) in
                (r, (set_Segments (<[i := seg']> (Segments s.1)) s.1, fs))
  end.

(** A method of a segment that only this call refers to from here on, or one
    that does not change its segment. *)
Definition on_detached {A} (seg : Segment.t) (m : St (Segment.t * FS) A) : St (t M * FS) A := fun s =>
  let '(r, (_, fs)) := m (seg, s.2) in (r, (s.1, fs)).

Definition FirstIndex (s : t M) : Z :=
  match Segments s with [] => 1 | seg :: _ => Segment.getFirstIndex seg end.

Definition LastIndex (s : t M) : Z :=
  match rev (Segments s) with [] => 0 | seg :: _ => Segment.getLastIndex seg end.

Definition Snapshot : St (t M * FS) unit := throw ErrSnapshotTemporarilyUnavailable.

Definition checkRaftIndex (raftIndex : Z) : St (t M * FS) unit :=
  let! firstIndex := obj FirstIndex in
  let! lastIndex := obj LastIndex in
  if raftIndex <? firstIndex then throw ErrCompacted else
  if lastIndex <? raftIndex then throw ErrOutOfBound else
  ret tt.

Definition in_segment (i : Z) (seg : Segment.t) : bool :=
  (Segment.getFirstIndex seg <=? i) && (i <=? Segment.getLastIndex seg).

(** The loop of [getReadSegments] over the segments from the last one on, [i]
    the number of the first of [rsegs]. *)
Fixpoint find_segments (rsegs : list Segment.t) (i first last fi li : Z) : Z * Z :=
  match rsegs with
  | [] => (fi, li)
  | seg :: rsegs' =>
      let fi := if in_segment first seg then i else fi in
      let li := if in_segment last seg then i else li in
      if negb (fi =? -1) && negb (li =? -1) then (fi, li)
      else find_segments rsegs' (i - 1) first last fi li
  end.

Definition getReadSegments (first last : Z) : St (t M * FS) (list Segment.t) :=
  let! segs := obj Segments in
  let '(fi, li) := find_segments (rev segs) (blen segs - 1) first last (-1) (-1) in
  if fi =? -1 then throw ErrCompacted else
  if (li =? -1) || (li <? fi) then throw ErrOutOfBound else
  ret (take (Z.to_nat (li - fi + 1)) (drop (Z.to_nat fi) segs)).

(** The [remainingSize] that the loop body declares is not the one that it
    reads, so every segment is read with the whole [maxSize]. *)
Fixpoint read_segments (segments : list Segment.t) (first last maxSize : Z) (entries : list Entry.t)
    : St (t M * FS) (list Entry.t) :=
  match segments with
  | [] => ret entries
  | seg :: segments' =>
      let begin := if Segment.getFirstIndex seg <? first then first else Segment.getFirstIndex seg in
      let end_ := if Segment.getLastIndex seg <? last then Segment.getLastIndex seg else last in
      let! p := on_detached seg (Segment.readRaftEntries begin end_ maxSize) in
      let '(segmentEntries, remainingSize) := p in
      let entries := entries ++ segmentEntries in
      if remainingSize =? 0 then ret entries
      else read_segments segments' first last maxSize entries
  end.

Definition readSegments (segments : list Segment.t) (first last maxSize : Z)
    : St (t M * FS) (list Entry.t) :=
  (* the capacity of the result: [make] panics on a negative one *)
  if i64 (u64 (last - first + 1)) <? 0 then panic else
  read_segments segments first last maxSize [].

(** The first loop of [cutRaftEntries]: how many of [entries] follow, [size]
    being the bytes of those before. *)
Fixpoint cut_limit (entries : list Entry.t) (size maxSize : Z) : nat :=
  match entries with
  | [] => O
  | e :: entries' =>
      let size := size + blen (Entry.data e) in
      if maxSize <? size then O else S (cut_limit entries' size maxSize)
  end.

Fixpoint continuous (entries : list Entry.t) : bool :=
  match entries with
  | e :: ((e' :: _) as entries') => (u64 (Entry.Index e + 1) =? Entry.Index e') && continuous entries'
  | _ => true
  end.

Definition cutRaftEntries (entries : list Entry.t) (maxSize : Z) : St (t M * FS) (list Entry.t) :=
  match entries with
  | [] => ret entries
  | e :: entries' =>
      let limit := S (cut_limit entries' (blen (Entry.data e)) maxSize) in
      if negb (continuous entries) then panic else ret (take limit entries)
  end.

(** The raft entries in [lo, hi). *)
Definition Entries (lo hi maxSize : Z) : St (t M * FS) (list Entry.t) :=
  let last := u64 (hi - 1) in
  if last <? lo then throw ErrArgsIllegal else
  checkRaftIndex lo ;!
  checkRaftIndex last ;!
  let! segments := getReadSegments lo last in
  let! entries := readSegments segments lo last maxSize in
  cutRaftEntries entries maxSize.

Definition Term (i : Z) : St (t M * FS) Z :=
  if i =? 0 then ret 0 else
  checkRaftIndex i ;!
  let! entries := Entries i (u64 (i + 1)) noLimit in
  match entries with
  | [] => throw ErrUnavailable
  | e :: _ => ret (Entry.Term e)
  end.

Fixpoint remove_segments (segments : list Segment.t) : St (t M * FS) unit :=
  match segments with
  | [] => ret tt
  | seg :: segments' => on_detached seg Segment.remove ;! remove_segments segments'
  end.

Definition purgeSegments (segments : list Segment.t) : St (t M * FS) unit :=
  let! firstIndex := obj FirstIndex in
  on_meta (meta_UpdatePugedGtidset firstIndex) ;!
  remove_segments segments.

(** The search of [TruncateSuffix], from the last segment on. *)
Fixpoint find_segment (rsegs : list Segment.t) (i raftIndex : Z) : Z :=
  match rsegs with
  | [] => -1
  | seg :: rsegs' => if in_segment raftIndex seg then i else find_segment rsegs' (i - 1) raftIndex
  end.

Definition TruncateSuffix (raftIndex : Z) : St (t M * FS) unit :=
  let! segs := obj Segments in
  let segmentIndex := find_segment (rev segs) (blen segs - 1) raftIndex in
  if segmentIndex =? -1 then throw ErrOutOfBound else
  let k := Z.to_nat segmentIndex in
  let segments := drop (S k) segs in
  set_obj (set_Segments (take (S k) segs)) ;!
  (match segments with [] => ret tt | _ => purgeSegments segments end) ;!
  on_segment k (Segment.truncateSuffix raftIndex).

Fixpoint entriesToRecords (entries : list Entry.t) : res (list Record.t * Z) :=
  match entries with
  | [] => Ok ([], 0)
  | e :: entries' =>
      match Entry.Marshal e, entriesToRecords entries' with
      | Ok data, Ok (records, size) =>
          let r := Record.mk (ChecksumIEEE data) (Some data) None in
          Ok (r :: records, Record.Size r + RecordLengthSize + size)
      | _, _ => Panic
      end
  end.

(** [None] is the segment that [SaveRaftEntries] has to add to the list. *)
Definition rollingSegment (prevLast : option nat) (firstIndex : Z) : St (t M * FS) Segment.t :=
  (match prevLast with None => ret tt | Some i => on_segment i Segment.changeToReadonly end) ;!
  on_fs (Segment.newSegment (ReadWriteSegmentName firstIndex)).

(** The write segment: a new one, or the number of one in the list. *)
Definition getWriteSegment (firstIndex recordsSize : Z) : St (t M * FS) (Segment.t + nat) :=
  let! segs := obj Segments in
  match rev segs with
  | [] => let! seg := rollingSegment None firstIndex in ret (inl seg)
  | writeSegment :: _ =>
      let i := (length segs - 1)%nat in
      if Segment.needRolling writeSegment recordsSize
      then let! seg := rollingSegment (Some i) firstIndex in ret (inl seg)
      else ret (inr i)
  end.

Definition SaveRaftEntries (entries : list Entry.t) : St (t M * FS) unit :=
  match entries with
  | [] => ret tt
  | e :: _ =>
      let startIndex := Entry.Index e in
      let! p := lift (entriesToRecords entries) in
      let '(records, recordsSize) := p in
      if SegmentSize <? recordsSize then panic else
      let! w := getWriteSegment startIndex recordsSize in
      match w with
      | inr i => on_segment i (Segment.appendRecords records startIndex)
      | inl seg => fun s =>
          let '(r, (seg', fs)) := Segment.appendRecords records startIndex (seg, s.2) in
          match r with
          | Ok _ => (Ok tt, (set_Segments (Segments s.1 ++ [seg']) s.1, fs))
          | r => (r, (s.1, fs))
          end
      end
  end.

Definition getRecover : St (t M * FS) bool :=
  let! v := fatal_on_err (on_meta (meta_Get NeedRecoverKey)) in
  ret (match v with None => false | Some v => bool_decide (v = bytes_true) end).

Definition setRecover (needRecover : bool) : St (t M * FS) unit :=
  fatal_on_err (on_meta (meta_Set NeedRecoverKey (if needRecover then bytes_true else bytes_false))).

Definition initSegments : St (t M * FS) unit :=
  let! hasLog := (fun s => let '(b, fs) := ExistLog s.2 in (Ok b, (s.1, fs))) in
  if negb hasLog then set_obj (set_Segments []) else
  let! needRecover := getRecover in
  let! segs := on_fs (Segment.openSegments needRecover) in
  set_obj (set_Segments segs).

(** [NewDiskStorage] once the directory exists and the meta store is open:
    the purger is started as a goroutine afterwards. *)
Definition NewDiskStorage (reserveSizeInGB : Z) (m : M) : St FS (t M) := fun fs =>
  let s := mk [] (Z.quot (i64 (reserveSizeInGB * 1024 * 1024 * 1024)) SegmentSize) false [] m in
  let '(r, (s', fs')) := (initSegments ;! setRecover true) (s, fs) in
  (match r with Ok _ => Ok s' | Err e => Err e | Panic => Panic end, fs').

Fixpoint close_segments (n : nat) : St (t M * FS) unit :=
  match n with
  | O => ret tt
  | S n' => close_segments n' ;! on_segment n' Segment.close
  end.

(** [Close] when the purger is not running: [StopPurgeLog] waits for it. *)
Definition Close : St (t M * FS) unit :=
  set_obj (set_purgeStarted false) ;!
  let! n := obj (fun s => length (Segments s)) in
  close_segments n ;!
  setRecover false ;!
  (fun s => let '(_, s') := on_meta meta_Close2 s in (Ok tt, s')).

(** [StartPurgeLog]: what the timer case does under the lock (a valid
    configuration reserves at least four segments) ... *)
Definition purge_detach : St (t M * FS) unit :=
  set_obj (fun s =>
    if ReserveSegmentCount s <? blen (Segments s) then
      let deleteCount := Z.to_nat (blen (Segments s) - ReserveSegmentCount s) in
      set_purging (take deleteCount (Segments s)) (set_Segments (drop deleteCount (Segments s)) s)
    else s).
(** ... and after it, other calls having run in between. The timer is never
    reset, so neither runs a second time. *)
Definition purge_remove : St (t M * FS) unit :=
  let! deleteSegments := obj purging in
  match deleteSegments with
  | [] => ret tt
  | _ => fatal_on_err (purgeSegments deleteSegments) ;! set_obj (set_purging [])
  end.

(** [DiskEntryReader]: the index it reads at. *)
Definition NewEntryReaderAt (raftIndex : Z) : St (t M * FS) Z :=
  checkRaftIndex raftIndex ;! ret raftIndex.

Definition GetNext (indexReadAt : Z) : St (t M * FS) (Entry.t * Z) :=
  let! entries := Entries indexReadAt (u64 (indexReadAt + 1)) noLimit in
  let! e := must (head entries) in
  ret (e, u64 (indexReadAt + 1)).

End DiskStorage.
End DiskStorage.
