(* ===== verification/LogStore.v ===== *)
(** The disk storage implements a log.

    [sto_repr] relates a storage and its directory to the parts of a log: the
    segments in order, each with its entries. The operations of
    storage/disk_storage.go are shown to read, extend and cut the list of all
    entries, and to keep the relation. *)
From S2P Require Import Prelude Wire Names Disk IndexFile Segments Storage.
From stdpp Require Import sorting.
Local Open Scope Z_scope.
Local Open Scope go_scope.

(** * Parts of a log *)

Record part : Type := Part {
  p_base : Z; p_es : list Entry.t; p_tail : bytes; p_status : SegmentStatus }.

Definition entries_of (ps : list part) : list Entry.t := concat (p_es <$> ps).

(** The parts follow each other from [base] on. *)
Fixpoint linked (base : Z) (ps : list part) : Prop :=
  match ps with
  | [] => True
  | p :: ps' => p_base p = base /\ linked (base + blen (p_es p)) ps'
  end.

(** All parts but the last are read-only and hold entries. *)
Fixpoint closed_but_last (ps : list part) : Prop :=
  match ps with
  | [] => True
  | [p] => p_status p = SegmentRDWR
  | p :: ps' => p_status p = SegmentReadOnly /\ p_es p <> [] /\ closed_but_last ps'
  end.

Lemma entries_of_cons p ps : entries_of (p :: ps) = p_es p ++ entries_of ps.
Proof. done. Qed.
Lemma entries_of_app ps qs : entries_of (ps ++ qs) = entries_of ps ++ entries_of qs.
Proof. unfold entries_of. by rewrite fmap_app, concat_app. Qed.

Lemma linked_app base ps qs :
  linked base (ps ++ qs) <-> linked base ps /\ linked (base + blen (entries_of ps)) qs.
Proof.
  revert base. induction ps as [|p ps IH]; intros base; cbn [app linked].
  - rewrite Z.add_0_r. tauto.
  - rewrite IH, entries_of_cons, blen_app, Z.add_assoc. tauto.
Qed.

Lemma linked_base b ps j q :
  linked b ps -> ps !! j = Some q ->
  b <= p_base q /\ p_base q + blen (p_es q) <= b + blen (entries_of ps).
Proof.
  revert b j. induction ps as [|p ps IH]; intros b j Hl Hj; [by rewrite lookup_nil in Hj|].
  destruct Hl as [Hb Hl]. rewrite entries_of_cons. destruct j as [|j]; cbn in Hj.
  - injection Hj as ->. len.
  - pose proof (IH _ _ Hl Hj). len.
Qed.

Lemma closed_but_last_app qs p :
  closed_but_last (qs ++ [p]) <->
  Forall (fun q => p_status q = SegmentReadOnly /\ p_es q <> []) qs /\ p_status p = SegmentRDWR.
Proof.
  induction qs as [|q qs IH]; cbn [app closed_but_last].
  - split; [by repeat split | tauto].
  - rewrite Forall_cons. destruct (qs ++ [p]) as [|x xs] eqn:E; [by destruct qs|].
    rewrite IH. tauto.
Qed.

Lemma linked_lt base qs :
  linked base qs -> Forall (fun q => p_es q <> []) qs ->
  Forall (fun q => base <= p_base q < base + blen (entries_of qs)) qs.
Proof.
  intros Hl Hne. apply Forall_forall. intros q Hq.
  apply list_elem_of_lookup in Hq as [j Hj]. pose proof (linked_base _ _ _ _ Hl Hj).
  assert (p_es q <> []) as Hq by (by apply (Forall_lookup_1 _ _ _ _ Hne Hj)).
  destruct (p_es q); [done|]. rewrite blen_cons in *. len.
Qed.

(** The bases of the parts are in order. *)
Lemma linked_order base ps1 p ps2 :
  linked base (ps1 ++ p :: ps2) -> closed_but_last (ps1 ++ p :: ps2) -> p_es p <> [] ->
  base <= p_base p /\ Forall (fun q => p_base q < p_base p) ps1 /\
  Forall (fun q => p_base p < p_base q) ps2 /\
  Forall (fun q => p_status q = SegmentReadOnly /\ p_es q <> []) ps1.
Proof.
  intros Hl Hc Hne. pose proof Hl as [Hl1 [Hbp Hl2]]%linked_app.
  assert (Forall (fun q => p_status q = SegmentReadOnly /\ p_es q <> []) ps1) as Hro.
  { clear -Hc. induction ps1 as [|q ps1 IH]; [constructor|]. cbn in Hc.
    destruct (ps1 ++ p :: ps2) eqn:E; [by destruct ps1|]. destruct Hc as (? & ? & Hc). constructor; auto. }
  split; [rewrite Hbp; len|]. split; [|split; [|done]].
  - eapply Forall_impl; [apply (linked_lt base ps1 Hl1)|].
    + eapply Forall_impl; [exact Hro|]. by intros ? [].
    + cbn. intros q Hq. lia.
  - apply Forall_forall. intros q [j Hj]%list_elem_of_lookup.
    pose proof (linked_base _ _ _ _ Hl2 Hj). destruct (p_es p); [done|]. rewrite blen_cons in *. len.
Qed.

(** No segment is empty: so it is unless the log has been truncated at the
    first entry of its last segment. *)
Definition full (ps : list part) : Prop := Forall (fun p => p_es p <> []) ps.

Lemma full_entries ps : full ps -> ps <> [] -> entries_of ps <> [].
Proof.
  intros Hf Hne. destruct Hf as [|p ps Hp _]; [done|]. rewrite entries_of_cons. by destruct (p_es p).
Qed.

Lemma closed_full qs p :
  Forall (fun q => p_status q = SegmentReadOnly /\ p_es q <> []) qs -> p_es p <> [] -> full (qs ++ [p]).
Proof.
  intros Hq Hp. apply Forall_app. split; [|by repeat constructor].
  eapply Forall_impl; [exact Hq|]. by intros ? [].
Qed.

Section Repr.
Context `{Settings} {M : Type} `{MetaStorage M}.
Hypothesis size_ok : 0 < SegmentSize <= 2 ^ 32.

Definition part_repr (d : gmap string bytes) (p : part) (s : Segment.t) : Prop :=
  seg_repr d (p_base p) (p_es p) (p_tail p) s /\ Segment.Status s = p_status p.

(** Every file of a segment or with the name of one belongs to a part. *)
Definition tidy (d : gmap string bytes) (ps : list part) : Prop :=
  forall n, is_Some (d !! n) ->
    (exists b, is_u64 b /\ owned b n) \/ HasSuffix n LogSuffix = true ->
    exists p, p ∈ ps /\ owned (p_base p) n.

(** [ps] are the segments of the storage, [dead] those being purged. *)
Record sto_repr (d : gmap string bytes) (base : Z) (ps dead : list part)
  (s : DiskStorage.t M) : Prop := {
  sr_segs : Forall2 (part_repr d) ps (DiskStorage.Segments s);
  sr_linked : linked base ps;
  sr_closed : closed_but_last ps;
  sr_dead : Forall2 (part_repr d) dead (DiskStorage.purging s);
  sr_old : Forall (fun p => p_base p < base) dead;
  sr_sorted : StronglySorted Z.lt (p_base <$> dead);
  sr_tidy : tidy d (dead ++ ps) }.

Lemma part_repr_range d p s :
  part_repr d p s -> p_es p <> [] ->
  Segment.FirstIndex s = p_base p /\ Segment.LastIndex s = p_base p + blen (p_es p) - 1.
Proof. intros [[_ Hr] _] Hne. unfold seg_range in Hr. by rewrite decide_False in Hr. Qed.

Lemma part_repr_empty d p s :
  part_repr d p s -> p_es p = [] -> Segment.FirstIndex s = 0 /\ Segment.LastIndex s = 0.
Proof. intros [[_ Hr] _] E. unfold seg_range in Hr. rewrite decide_True in Hr by done. tauto. Qed.

Lemma part_repr_base d p s : part_repr d p s -> 0 < p_base p < 2 ^ 64.
Proof. intros [[Hd _] _]. apply (sd_base Hd). Qed.

Lemma parts_contig d base ps ss :
  Forall2 (part_repr d) ps ss -> linked base ps -> contig base (entries_of ps).
Proof.
  intros Hf. revert base. induction Hf as [|p s ps ss Hp Hf IH]; intros base Hl.
  - apply contig_nil.
  - destruct Hl as [<- Hl]. rewrite entries_of_cons. apply contig_app; [|by apply IH].
    apply (sd_contig (proj1 (proj1 Hp))).
Qed.

(** A change to the files of some segments does not matter to the others. *)
Definition owned_by (bs : list Z) (n : string) : Prop := Exists (fun b => owned b n) bs.

#[local] Instance owned_by_dec bs n : Decision (owned_by bs n).
Proof. unfold owned_by. apply _. Defined.

Lemma owned_by_one b n : owned b n -> owned_by [b] n.
Proof. by constructor. Qed.

Lemma parts_frame d d' bs ps ss :
  Forall2 (part_repr d) ps ss -> Forall is_u64 bs -> same_except (owned_by bs) d d' ->
  Forall (fun p => p_base p ∉ bs) ps -> Forall2 (part_repr d') ps ss.
Proof.
  intros Hf Hb Hs Hne. induction Hf as [|p s ps ss Hp Hf IH]; [constructor|].
  inversion Hne as [|? ? Hpb Hne']; subst. constructor; [|by apply IH].
  pose proof (part_repr_base _ _ _ Hp). destruct Hp as [Hp Hst]. split; [|done].
  apply (seg_repr_frame d); [|done].
  apply (same_except_mono (owned_by bs)); [|done]. intros n Hn Ho. apply Hpb.
  apply Exists_exists in Hn as (b & Hin & Hn).
  rewrite (owned_inj (p_base p) b n); [done | unfold is_u64; lia | | done | done].
  by apply (proj1 (Forall_forall _ _) Hb).
Qed.

Lemma part_frame d d' bs p x :
  part_repr d p x -> Forall is_u64 bs -> same_except (owned_by bs) d d' -> p_base p ∉ bs ->
  part_repr d' p x.
Proof.
  intros Hp Hb Hs Hn. enough (Forall2 (part_repr d') [p] [x]) as H2 by (by inversion H2).
  apply (parts_frame d _ bs); [|done|done|by constructor]. constructor; [done|constructor].
Qed.

Lemma tidy_update d d' bs old new :
  tidy d old -> same_except (owned_by bs) d d' ->
  Forall (fun b => b ∈ p_base <$> new) bs ->
  (forall p, p ∈ old -> p_base p ∈ bs \/ p_base p ∈ p_base <$> new) -> tidy d' new.
Proof.
  intros Ht Hs Hbs Hold n Hn Hk. destruct (decide (owned_by bs n)) as [Ho|Ho].
  - apply Exists_exists in Ho as (b & Hb & Ho).
    apply (proj1 (Forall_forall _ _) Hbs), list_elem_of_fmap in Hb as (p & -> & Hp). eauto.
  - rewrite Hs in Hn by done. destruct (Ht n Hn Hk) as (p & Hp & Hon).
    destruct (Hold p Hp) as [Hin|Hin].
    + destruct Ho. apply Exists_exists. eauto.
    + apply list_elem_of_fmap in Hin as (q & Eq & Hq). exists q. by rewrite <-Eq.
Qed.

(** * Reading *)

(** Whether the index [i] is one of part [p]. *)
Definition holds (i : Z) (p : part) : Prop := p_base p <= i < p_base p + blen (p_es p).

Lemma in_segment_holds d i p s :
  part_repr d p s -> 0 < i -> DiskStorage.in_segment i s = true <-> holds i p.
Proof.
  intros Hp Hi. unfold DiskStorage.in_segment, Segment.getFirstIndex, Segment.getLastIndex, holds.
  rewrite andb_true_iff, !Z.leb_le. destruct (decide (p_es p = [])) as [E|E].
  - destruct (part_repr_empty _ _ _ Hp E) as [-> ->]. rewrite E. len.
  - destruct (part_repr_range _ _ _ Hp E) as [-> ->]. lia.
Qed.

(** The part of an index of the log, and that it is the only one. *)
Lemma part_of_index base ps i :
  linked base ps -> base <= i < base + blen (entries_of ps) ->
  exists k, (forall j p, ps !! j = Some p -> holds i p <-> j = k) /\ (k < length ps)%nat.
Proof.
  revert base. induction ps as [|p ps IH]; intros base Hl Hi; [cbn in *; rewrite blen_nil in Hi; lia|].
  destruct Hl as [Hb Hl]. rewrite entries_of_cons, blen_app in Hi.
  destruct (decide (i < base + blen (p_es p))) as [Hlt|Hge].
  - exists 0%nat. split; [|cbn; lia]. intros [|j] q; cbn.
    + intros [= <-]. unfold holds. split; [done|lia].
    + intros Hq. split; [|done]. intros Hh.
      pose proof (linked_base _ _ _ _ Hl Hq). unfold holds in Hh. lia.
  - destruct (IH _ Hl) as (k & Hk & Hlen); [lia|].
    exists (S k). split; [|cbn; lia]. intros [|j] q; cbn.
    + intros [= <-]. unfold holds. split; [lia|done].
    + intros Hq. rewrite (Hk j q Hq). lia.
Qed.

Lemma find_segments_ok (ss : list Segment.t) first last k1 k2 n :
  (forall j s, ss !! j = Some s -> DiskStorage.in_segment first s = true <-> j = k1) ->
  (forall j s, ss !! j = Some s -> DiskStorage.in_segment last s = true <-> j = k2) ->
  (k1 <= k2)%nat -> (k2 < length ss)%nat -> (k1 < n <= length ss)%nat ->
  DiskStorage.find_segments (rev (take n ss)) (Z.of_nat n - 1) first last (-1)
    (if decide (k2 < n)%nat then -1 else Z.of_nat k2) = (Z.of_nat k1, Z.of_nat k2).
Proof.
  intros H1 H2 Hk Hlen. induction n as [|n IH]; intros Hn; [lia|].
  destruct (lookup_lt_is_Some_2 ss n) as [s Hs]; [lia|].
  rewrite (take_S_r _ _ _ Hs), rev_app_distr. cbn [rev app DiskStorage.find_segments].
  replace (Z.of_nat (S n) - 1) with (Z.of_nat n) by lia.
  assert (DiskStorage.in_segment first s = bool_decide (n = k1)) as ->
    by (apply eq_true_iff_eq; rewrite bool_decide_eq_true; auto).
  assert (DiskStorage.in_segment last s = bool_decide (n = k2)) as ->
    by (apply eq_true_iff_eq; rewrite bool_decide_eq_true; auto).
  destruct (decide (n = k1)) as [->|N1].
  - rewrite bool_decide_true by done. rewrite (proj2 (Z.eqb_neq (Z.of_nat k1) (-1))) by lia.
    destruct (decide (k1 = k2)) as [->|N2].
    + by rewrite bool_decide_true, (proj2 (Z.eqb_neq (Z.of_nat k2) (-1))) by (done || lia).
    + rewrite bool_decide_false by done. rewrite decide_False by lia.
      by rewrite (proj2 (Z.eqb_neq (Z.of_nat k2) (-1))) by lia.
  - rewrite bool_decide_false by done. change (negb (-1 =? -1)) with false. cbn [andb].
    rewrite <-IH by lia. f_equal. destruct (decide (n = k2)) as [->|N2].
    + rewrite bool_decide_true by done. by rewrite decide_False by lia.
    + rewrite bool_decide_false by done.
      destruct (decide (k2 < S n)%nat), (decide (k2 < n)%nat); try done; lia.
Qed.

(** The segments that [getReadSegments] returns: those from the part of
    [first] to the part of [last]. *)
Lemma getReadSegments_ok d fl base ps (s : DiskStorage.t M) first last :
  Forall2 (part_repr d) ps (DiskStorage.Segments s) -> linked base ps -> 0 < base ->
  base <= first <= last -> last < base + blen (entries_of ps) ->
  exists k n,
    DiskStorage.getReadSegments first last (s, mkFS d fl) =
      (Ok (take n (drop k (DiskStorage.Segments s))), (s, mkFS d fl)) /\
    (exists p, head (drop k ps) = Some p /\ holds first p) /\
    (exists p qs, take n (drop k ps) = qs ++ [p] /\ holds last p).
Proof.
  intros Hf Hl Hb Hi Hlast.
  destruct (part_of_index base ps first Hl) as (k1 & H1 & L1); [lia|].
  destruct (part_of_index base ps last Hl) as (k2 & H2 & L2); [lia|].
  destruct (lookup_lt_is_Some_2 _ _ L1) as [p1 Hp1]. destruct (lookup_lt_is_Some_2 _ _ L2) as [p2 Hp2].
  pose proof (proj2 (H1 _ _ Hp1) eq_refl) as Hh1. pose proof (proj2 (H2 _ _ Hp2) eq_refl) as Hh2.
  assert (k1 <= k2)%nat as Hk.
  { destruct (decide (k2 < k1)%nat) as [Hlt|]; [|lia]. exfalso.
    rewrite <-(take_drop k1 ps) in Hl. apply linked_app in Hl as [Hl1 Hl2].
    assert (take k1 ps !! k2 = Some p2) as Hp2' by (by rewrite lookup_take_lt).
    pose proof (linked_base _ _ _ _ Hl1 Hp2').
    assert (drop k1 ps !! 0%nat = Some p1) as Hp1' by (by rewrite lookup_drop, Nat.add_0_r).
    pose proof (linked_base _ _ _ _ Hl2 Hp1'). unfold holds in *. lia. }
  assert (length ps = length (DiskStorage.Segments s)) as Hlen by (by eapply Forall2_length).
  assert (forall k i, (forall j p, ps !! j = Some p -> holds i p <-> j = k) -> 0 < i ->
            forall j x, DiskStorage.Segments s !! j = Some x ->
            DiskStorage.in_segment i x = true <-> j = k) as Hseg.
  { intros k i Hj Hi0 j x Hx. destruct (Forall2_lookup_r _ _ _ _ _ Hf Hx) as (p & Hp & Hpr).
    rewrite (in_segment_holds _ _ _ _ Hpr Hi0). by apply Hj. }
  pose proof (find_segments_ok (DiskStorage.Segments s) first last k1 k2 (length (DiskStorage.Segments s))
    (Hseg k1 first H1 ltac:(lia)) (Hseg k2 last H2 ltac:(lia)) Hk ltac:(lia) ltac:(lia)) as Hfind.
  rewrite decide_True, firstn_all in Hfind by lia.
  exists k1, (k2 - k1 + 1)%nat. split; [|split].
  - unfold DiskStorage.getReadSegments. rewrite (bind_ok (obj _) _ _ _ _ eq_refl). cbn [fst].
    change (blen (DiskStorage.Segments s)) with (Z.of_nat (length (DiskStorage.Segments s))).
    rewrite Hfind. rewrite (proj2 (Z.eqb_neq (Z.of_nat k1) _)), (proj2 (Z.eqb_neq (Z.of_nat k2) _)) by lia.
    cbn [orb]. rewrite (proj2 (Z.ltb_ge _ _)) by lia.
    replace (Z.to_nat (Z.of_nat k2 - Z.of_nat k1 + 1)) with (k2 - k1 + 1)%nat by lia.
    by rewrite Nat2Z.id.
  - exists p1. split; [|done]. by rewrite head_lookup, lookup_drop, Nat.add_0_r.
  - exists p2, (take (k2 - k1) (drop k1 ps)). split; [|done].
    rewrite Nat.add_1_r. apply take_S_r. rewrite lookup_drop. by replace (k1 + (k2 - k1))%nat with k2 by lia.
Qed.

Definition size_of (es : list Entry.t) : Z := foldr (fun e n => Entry.Size e + n) 0 es.

Lemma size_of_app es es' : size_of (es ++ es') = size_of es + size_of es'.
Proof. induction es as [|e es IH]; cbn -[Entry.Size]; [done|]. unfold size_of in *. lia. Qed.
Lemma Size_nonneg e : 0 <= Entry.Size e.
Proof. apply blen_frame_Size. Qed.
Lemma size_of_nonneg es : 0 <= size_of es.
Proof.
  induction es as [|e es IH]; cbn -[Entry.Size]; [done|]. unfold size_of in *.
  pose proof (Size_nonneg e). lia.
Qed.

(** [r] is what a read of [w] limited to [maxSize] bytes may return. *)
Definition limited_read (maxSize : Z) (w r : list Entry.t) : Prop :=
  r `prefix_of` w /\ (w <> [] -> r <> []) /\ (size_of w < maxSize -> r = w).

Lemma take_until_spec maxSize w rs :
  (take_until maxSize rs w).1 `prefix_of` w /\
  (w <> [] -> (take_until maxSize rs w).1 <> []) /\
  ((take_until maxSize rs w).2 <= maxSize -> (take_until maxSize rs w).1 = w) /\
  (take_until maxSize rs w).2 = rs + size_of (take_until maxSize rs w).1 /\
  (rs + size_of w <= maxSize -> (take_until maxSize rs w).2 <= maxSize).
Proof.
  revert rs. induction w as [|e w IH]; intros rs; cbn [take_until].
  - cbn. rewrite Z.add_0_r. auto.
  - destruct (Z.ltb_spec maxSize (rs + Entry.Size e)).
    + cbn -[Entry.Size]. rewrite Z.add_0_r. repeat split; try done.
      * apply prefix_cons, prefix_nil.
      * lia.
      * pose proof (size_of_nonneg w). unfold size_of in *. lia.
    + destruct (IH (rs + Entry.Size e)) as (P1 & P2 & P3 & P4 & P5).
      destruct (take_until maxSize (rs + Entry.Size e) w) as [l r]. cbn -[Entry.Size] in *.
      repeat split; try done.
      * by apply prefix_cons.
      * intros Hr. by rewrite P3.
      * unfold size_of in *. lia.
      * intros Hr. apply P5. unfold size_of in *. lia.
Qed.

Lemma take_until_limited maxSize w : limited_read maxSize w (take_until maxSize 0 w).1.
Proof.
  destruct (take_until_spec maxSize w 0) as (P1 & P2 & P3 & P4 & P5).
  split; [done|]. split; [done|]. intros Hs. apply P3, P5. lia.
Qed.

Lemma window_app base first last es es' :
  base <= first < base + blen es -> base + blen es <= last ->
  window base first last (es ++ es') =
  window base first (base + blen es - 1) es ++ window (base + blen es) (base + blen es) last es'.
Proof.
  intros H1 H2. unfold window. rewrite drop_app_le by (unfold blen in *; lia).
  rewrite take_app. rewrite Z.sub_diag. cbn [Z.to_nat drop]. f_equal.
  - rewrite !take_ge; [done| |]; rewrite length_drop; unfold blen in *; lia.
  - f_equal. rewrite length_drop. unfold blen in *. lia.
Qed.

(** Reading one segment and stopping, or going on with the next one. *)
Lemma limited_stops maxSize w rest : w <> [] ->
  (if maxSize <? (take_until maxSize 0 w).2 then 0 else maxSize - (take_until maxSize 0 w).2) = 0 ->
  limited_read maxSize (w ++ rest) (take_until maxSize 0 w).1.
Proof.
  intros Hw E0. destruct (take_until_spec maxSize w 0) as (P1 & P2 & P3 & P4 & P5). split; [|split].
  - by apply prefix_app_r.
  - intros _. by apply P2.
  - rewrite size_of_app. intros Hsz. exfalso. pose proof (size_of_nonneg rest).
    assert ((take_until maxSize 0 w).2 <= maxSize) as Hle by (apply P5; lia). rewrite (P3 Hle) in P4. revert E0. zcase; lia.
Qed.

Lemma limited_goes_on maxSize w rest r : w <> [] -> limited_read maxSize rest r -> limited_read maxSize (w ++ rest) (w ++ r).
Proof.
  intros Hw (R1 & R2 & R3). split; [|split].
  - by apply prefix_app.
  - intros _ [E _]%app_eq_nil. done.
  - rewrite size_of_app. intros Hsz. rewrite R3; [done|]. pose proof (size_of_nonneg w). lia.
Qed.

Lemma read_segments_ok d fl (s0 : DiskStorage.t M) first last maxSize qs ss :
  Forall2 (part_repr d) qs ss ->
  forall base acc, linked base qs -> Forall (fun p => p_es p <> []) qs ->
  (exists qs' p, qs = qs' ++ [p] /\ holds last p) ->
  (exists p, head qs = Some p /\ first < base + blen (p_es p)) -> first <= last ->
  exists r,
    DiskStorage.read_segments ss first last maxSize acc (s0, mkFS d fl) =
      (Ok (acc ++ r), (s0, mkFS d fl)) /\
    limited_read maxSize (window base (Z.max first base) last (entries_of qs)) r.
Proof.
  induction 1 as [|p s qs ss Hp Hf IH]; intros base acc Hl Hne (qs' & q & Eq & Hq) (p' & Ep & Hfirst) Hfl.
  { by destruct qs'. }
  cbn in Ep. injection Ep as <-. destruct Hl as [Hb Hl]. inversion Hne as [|? ? Hpe Hne']; subst.
  destruct (part_repr_range _ _ _ Hp Hpe) as [HF HL].
  assert (1 <= blen (p_es p)) by (destruct (p_es p); [done|]; len).
  set (b := p_base p) in *. set (es := p_es p) in *.
  assert (b <= last) as Hbl.
  { destruct (list_elem_of_lookup_1 (p :: qs) q) as [j Hj]; [rewrite Eq; apply elem_of_app; right; constructor|].
    assert (linked b (p :: qs)) as Hl' by done.
    pose proof (linked_base _ _ _ _ Hl' Hj). unfold holds in Hq. lia. }
  assert ((if b <? first then first else b) = Z.max first b) as Hbeg by (zcase; lia).
  set (end_ := if b + blen es - 1 <? last then b + blen es - 1 else last).
  assert (end_ = Z.min last (b + blen es - 1)) as Hend by (unfold end_; zcase; lia).
  cbn [DiskStorage.read_segments]. unfold Segment.getFirstIndex, Segment.getLastIndex.
  rewrite HF, HL, Hbeg. fold end_.
  set (w := window b (Z.max first b) end_ es).
  pose proof (take_until_limited maxSize w) as Hlim.
  erewrite bind_ok; cycle 1.
  { unfold DiskStorage.on_detached. cbn [fst snd].
    rewrite (readRaftEntries_ok size_ok d fl b es (p_tail p) s) by (apply Hp || lia). reflexivity. }
  fold w. cbn beta iota. set (tu := take_until maxSize 0 w) in *.
  destruct qs as [|p2 qs].
  - (* the last segment *)
    assert (q = p) as -> by (destruct qs' as [|? []]; by injection Eq).
    assert (end_ = last) as El by (unfold holds in Hq; fold b es in Hq; lia).
    apply Forall2_nil_inv_l in Hf as ->. exists tu.1. split; [by destruct (_ =? 0)|].
    rewrite entries_of_cons. change (entries_of []) with (@nil Entry.t). rewrite app_nil_r.
    fold es. unfold w in Hlim. by rewrite El in Hlim.
  - assert (b + blen es <= last) as Hlast.
    { destruct (list_elem_of_lookup_1 (p2 :: qs) q) as [j Hj].
      { destruct qs' as [|x qs']; [by destruct qs|]. injection Eq as -> Eq.
        rewrite Eq. apply elem_of_app. right. constructor. }
      pose proof (linked_base _ _ _ _ Hl Hj). unfold holds in Hq. lia. }
    assert (end_ = b + blen es - 1) as El by lia.
    rewrite entries_of_cons. fold es. rewrite window_app by lia.
    fold end_. rewrite <-El. fold w.
    assert (w <> []) as Hw by (intros Ew%(f_equal blen); unfold w, window in Ew; revert Ew; len).
    destruct (Z.eqb_spec (if maxSize <? tu.2 then 0 else maxSize - tu.2) 0) as [E0|E0].
    + exists tu.1. split; [done|]. by apply limited_stops.
    + assert (tu.2 <= maxSize) as Hle by (revert E0; zcase; lia).
      destruct (take_until_spec maxSize w 0) as (_ & _ & P3 & _). fold tu in P3. rewrite (P3 Hle).
      destruct (IH (b + blen es) (acc ++ w) Hl Hne') as (r & Hr & R).
      { destruct qs' as [|x qs']; [by destruct qs|]. injection Eq as -> Eq. eauto. }
      { exists p2. split; [done|]. apply Forall_cons in Hne' as [Hp2 _]. destruct (p_es p2); [done|]. len. }
      { done. }
      exists (w ++ r). rewrite app_assoc. split; [done|]. rewrite Z.max_r in R by lia. by apply limited_goes_on.
Qed.

Definition data_size (es : list Entry.t) : Z := foldr (fun e n => blen (Entry.data e) + n) 0 es.

Lemma data_le_Size e : blen (Entry.data e) <= Entry.Size e.
Proof.
  rewrite Entry_Size_eq. unfold entry_bytes, opt_bytes, Entry.data.
  destruct (Entry.Data e); cbn [default]; unfold id; rewrite ?blen_app, ?blen_cons, ?blen_app;
    blen_pos; [lia|]. rewrite blen_nil. lia.
Qed.
Lemma data_size_le es : data_size es <= size_of es.
Proof.
  induction es as [|e es IH]; cbn -[Entry.Size Entry.data]; [done|].
  pose proof (data_le_Size e). unfold data_size, size_of in *. lia.
Qed.

Lemma contig_continuous f es :
  contig f es -> 0 <= f -> f + blen es <= 2 ^ 64 -> DiskStorage.continuous es = true.
Proof.
  revert f. induction es as [|e es IH]; intros f Hc Hf Hle; [done|].
  apply contig_cons in Hc as [He Hc]. destruct es as [|e' es]; [done|].
  pose proof (proj1 (contig_cons _ _ _) Hc) as [He' _].
  change (DiskStorage.continuous (e :: e' :: es)) with
    ((u64 (Entry.Index e + 1) =? Entry.Index e') && DiskStorage.continuous (e' :: es)).
  rewrite (IH (f + 1)); [|done|lia|revert Hle; len].
  rewrite He, He'. rewrite u64_small by (unfold is_u64; revert Hle; len).
  by rewrite Z.eqb_refl.
Qed.

Lemma cut_limit_spec es size maxSize :
  let n := DiskStorage.cut_limit es size maxSize in
  (n = 0%nat \/ size + data_size (take n es) <= maxSize) /\
  (size + data_size es <= maxSize -> take n es = es).
Proof.
  revert size. induction es as [|e es IH]; intros size; cbn -[Entry.data]; [auto|].
  destruct (Z.ltb_spec maxSize (size + blen (Entry.data e))) as [Hlt|Hge].
  - split; [by left|]. intros Hle. exfalso.
    assert (0 <= data_size es); [|unfold data_size in *; lia].
    clear. induction es; cbn -[Entry.data]; [done|]. unfold data_size in *. len.
  - destruct (IH (size + blen (Entry.data e))) as [H1 H2]. cbn -[Entry.data]. split.
    + right. destruct H1 as [E|H1]; [rewrite E, take_0; cbn -[Entry.data]; lia|].
      unfold data_size in *. lia.
    + intros Hle. rewrite H2; [done|]. unfold data_size in *. lia.
Qed.

(** What [Entries] may return of the entries [w] that are asked for: at least
    one, the first ones, no more bytes of data than [maxSize] unless it is a
    single entry, and all when [maxSize] allows. *)
Definition entries_result (maxSize : Z) (w r : list Entry.t) : Prop :=
  r `prefix_of` w /\ r <> [] /\ (data_size r <= maxSize \/ length r = 1%nat) /\
  (size_of w < maxSize -> r = w).

Lemma cutRaftEntries_ok (st : DiskStorage.t M * FS) maxSize w r f :
  limited_read maxSize w r -> w <> [] -> contig f w -> 0 <= f -> f + blen w <= 2 ^ 64 ->
  exists r', DiskStorage.cutRaftEntries r maxSize st = (Ok r', st) /\ entries_result maxSize w r'.
Proof.
  intros (R1 & R2 & R3) Hw Hc Hf Hle. specialize (R2 Hw). destruct r as [|e r]; [done|].
  pose proof R1 as [w' Ew].
  assert (contig f (e :: r)) as Hcr.
  { rewrite <-(take_app_length (e :: r) w'), <-Ew. by apply contig_take. }
  unfold DiskStorage.cutRaftEntries.
  rewrite (contig_continuous f); [|done|done|rewrite Ew, blen_app in Hle; revert Hle; len].
  cbn [negb]. eexists. split; [reflexivity|].
  destruct (cut_limit_spec r (blen (Entry.data e)) maxSize) as [H1 H2].
  set (n := DiskStorage.cut_limit r _ _) in *. cbn [take]. split; [|split; [done|split]].
  - transitivity (e :: r); [|done]. apply prefix_cons. exists (drop n r). by rewrite take_drop.
  - destruct H1 as [->|H1]; [by right|]. left. unfold data_size in *. cbn -[Entry.data]. lia.
  - intros Hs. rewrite H2; [by apply R3|]. pose proof (data_size_le w) as Hd.
    pose proof (R3 Hs) as Er. rewrite <-Er in Hd, Hs. unfold data_size, size_of in *. cbn -[Entry.data Entry.Size] in *. lia.
Qed.

(** ** The state of a storage that holds a log *)

Lemma sto_first d base ps dead (s : DiskStorage.t M) p qs :
  sto_repr d base ps dead s -> ps = p :: qs -> p_es p <> [] -> DiskStorage.FirstIndex s = base.
Proof.
  intros [Hf Hl _ _ _ _ _] -> Hne. unfold DiskStorage.FirstIndex, Segment.getFirstIndex.
  inversion Hf as [|? ? ? ? Hp]; subst. destruct Hl as [<- _].
  by apply (part_repr_range _ _ _ Hp Hne).
Qed.

Lemma sto_last d base ps dead (s : DiskStorage.t M) p qs :
  sto_repr d base ps dead s -> ps = qs ++ [p] -> p_es p <> [] ->
  DiskStorage.LastIndex s = base + blen (entries_of ps) - 1.
Proof.
  intros [Hf Hl _ _ _ _ _] -> Hne. unfold DiskStorage.LastIndex, Segment.getLastIndex.
  apply Forall2_app_inv_l in Hf as (ss & ss' & Hf1 & Hf2 & ->).
  inversion Hf2 as [|? x ? ? Hp Hnil]; subst. inversion Hnil; subst.
  rewrite rev_app_distr. cbn. apply linked_app in Hl as [_ [Hb _]].
  destruct (part_repr_range _ _ _ Hp Hne) as [_ ->].
  rewrite entries_of_app, entries_of_cons, Hb. change (entries_of []) with (@nil Entry.t).
  rewrite app_nil_r. len.
Qed.

Lemma sto_bounds d base ps dead (s : DiskStorage.t M) :
  sto_repr d base ps dead s -> ps <> [] -> 0 < base /\ base + blen (entries_of ps) <= 2 ^ 64.
Proof.
  intros [Hf Hl _ _ _ _ _] Hne. split.
  - destruct Hf as [|p x ps ss Hp]; [done|]. destruct Hl as [<- _].
    apply (part_repr_base _ _ _ Hp).
  - destruct (exists_last Hne) as (qs & p & ->).
    apply Forall2_app_inv_l in Hf as (ss & ss' & Hf1 & Hf2 & _).
    inversion Hf2 as [|? x ? ? Hp Hnil]; subst. apply linked_app in Hl as [_ [Hb _]].
    destruct Hp as [[Hd _] _]. pose proof (sd_base Hd) as [_ Hle].
    rewrite entries_of_app, entries_of_cons. change (entries_of []) with (@nil Entry.t).
    rewrite app_nil_r, blen_app. lia.
Qed.

(** [checkRaftIndex] accepts exactly the indexes of the log. *)
Lemma checkRaftIndex_ok d base ps dead (s : DiskStorage.t M) fl i :
  sto_repr d base ps dead s -> full ps -> ps <> [] ->
  DiskStorage.checkRaftIndex i (s, mkFS d fl) =
    (if i <? base then Err ErrCompacted
     else if base + blen (entries_of ps) - 1 <? i then Err ErrOutOfBound else Ok tt, (s, mkFS d fl)).
Proof.
  intros Hr Hfull Hne. unfold DiskStorage.checkRaftIndex.
  rewrite !(bind_ok (obj _) _ _ _ _ eq_refl). cbn [fst].
  destruct (exists_last Hne) as (qs & p & Ep).
  rewrite (sto_last _ _ _ _ _ p qs Hr Ep) by (rewrite Ep in Hfull; apply Forall_app in Hfull as [_ Hf]; by inversion Hf).
  destruct ps as [|p0 ps0] eqn:E; [done|].
  rewrite (sto_first _ _ _ _ _ p0 ps0 Hr eq_refl) by (by inversion Hfull).
  by repeat zcase.
Qed.

Lemma window_mid base first last es1 es es2 :
  base + blen es1 <= first <= last -> last < base + blen es1 + blen es ->
  window base first last (es1 ++ es ++ es2) = window (base + blen es1) first last es.
Proof.
  intros H1 H2. unfold window.
  rewrite drop_app_ge by (unfold blen in *; lia).
  replace (Z.to_nat (first - base) - length es1)%nat with (Z.to_nat (first - (base + blen es1)))
    by (unfold blen in *; lia).
  rewrite drop_app_le by (unfold blen in *; lia).
  apply take_app_le. rewrite length_drop. unfold blen in *. lia.
Qed.

Lemma Entries_ok d base ps dead (s : DiskStorage.t M) fl lo hi maxSize :
  sto_repr d base ps dead s -> full ps -> base <= lo < hi -> hi <= base + blen (entries_of ps) ->
  hi - lo < 2 ^ 63 ->
  exists r,
    DiskStorage.Entries lo hi maxSize (s, mkFS d fl) = (Ok r, (s, mkFS d fl)) /\
    entries_result maxSize (window base lo (hi - 1) (entries_of ps)) r.
Proof.
  intros Hr Hfull Hlo Hhi H63.
  assert (ps <> []) as Hne by (intros ->; change (entries_of []) with (@nil Entry.t) in Hhi; revert Hhi; len).
  pose proof (sto_bounds _ _ _ _ _ Hr Hne) as [Hb0 Hb1]. pose proof Hr as [Hf Hl _ _ _ _ _].
  destruct (getReadSegments_ok d fl base ps s lo (hi - 1) Hf Hl Hb0) as (k & n & HG & (p1 & Hp1 & Hh1) & p2 & qs' & Ep2 & Hh2);
    [lia|lia|].
  set (qs := take n (drop k ps)) in *.
  assert (Forall2 (part_repr d) qs (take n (drop k (DiskStorage.Segments s)))) as Hfq
    by (apply Forall2_take, Forall2_drop, Hf).
  assert (full qs) as Hfullq by (apply Forall_take, Forall_drop, Hfull).
  assert (ps = take k ps ++ qs ++ drop n (drop k ps)) as Eps.
  { unfold qs. by rewrite take_drop, take_drop. }
  set (b' := base + blen (entries_of (take k ps))).
  assert (linked b' qs) as Hlq.
  { rewrite Eps in Hl. apply linked_app in Hl as [_ Hl]. by apply linked_app in Hl as [Hl _]. }
  assert (head qs = Some p1) as Hhead.
  { unfold qs. destruct (drop k ps) as [|x xs]; [done|]. destruct n; [|done].
    unfold qs in Ep2. by destruct qs'. }
  assert (p_base p1 = b') as Hb' by (destruct qs; [done|]; injection Hhead as ->; apply Hlq).
  assert (hi - 1 < b' + blen (entries_of qs)) as Hlast.
  { destruct (list_elem_of_lookup_1 qs p2) as [j Hj]; [rewrite Ep2; apply elem_of_app; right; constructor|].
    pose proof (linked_base _ _ _ _ Hlq Hj). unfold holds in Hh2. lia. }
  unfold holds in Hh1. rewrite Hb' in Hh1.
  destruct (read_segments_ok d fl s lo (hi - 1) maxSize _ _ Hfq b' [] Hlq Hfullq) as (r & HR & Hlim);
    [eauto|exists p1; split; [done|lia]|lia|].
  rewrite Z.max_l in Hlim by lia.
  assert (window b' lo (hi - 1) (entries_of qs) = window base lo (hi - 1) (entries_of ps)) as Ew.
  { rewrite Eps, !entries_of_app. symmetry. apply window_mid; fold b'; lia. }
  rewrite Ew in Hlim. set (w := window base lo (hi - 1) (entries_of ps)) in *.
  destruct (window_split base lo (hi - 1) (entries_of ps)) as (_ & _ & Hwlen); [lia|lia|]. fold w in Hwlen.
  assert (w <> []) as Hw by (intros E; rewrite E in Hwlen; revert Hwlen; len).
  assert (contig lo w) as Hcw.
  { pose proof (parts_contig _ _ _ _ Hf Hl) as Hc. unfold w, window. apply contig_take.
    replace lo with (base + Z.of_nat (Z.to_nat (lo - base))) at 1 by lia. by apply contig_drop. }
  destruct (cutRaftEntries_ok (s, mkFS d fl) maxSize w r lo Hlim Hw Hcw) as (r' & HC & Hres); [lia|lia|].
  exists r'. split; [|done]. unfold DiskStorage.Entries. rewrite u64_small by (unfold is_u64; lia).
  rewrite (proj2 (Z.ltb_ge _ _)) by lia.
  erewrite bind_ok; cycle 1.
  { rewrite (checkRaftIndex_ok _ _ _ _ _ _ _ Hr Hfull Hne). by repeat ztest. }
  erewrite bind_ok; cycle 1.
  { rewrite (checkRaftIndex_ok _ _ _ _ _ _ _ Hr Hfull Hne). by repeat ztest. }
  rewrite (bind_ok _ _ _ _ _ HG).
  unfold DiskStorage.readSegments. rewrite (u64_small (hi - 1 - lo + 1)), i64_small by (unfold is_u64; lia).
  rewrite (proj2 (Z.ltb_ge _ _)) by lia.
  rewrite (bind_ok _ _ _ _ _ HR). cbn [app]. exact HC.
Qed.

(** * Writing *)

Lemma sto_split_last d base qs p dead (s : DiskStorage.t M) :
  sto_repr d base (qs ++ [p]) dead s ->
  exists ss x, DiskStorage.Segments s = ss ++ [x] /\ Forall2 (part_repr d) qs ss /\
    part_repr d p x /\ linked base qs /\ p_base p = base + blen (entries_of qs) /\
    Forall (fun q => p_status q = SegmentReadOnly /\ p_es q <> []) qs /\
    p_status p = SegmentRDWR /\ Forall (fun q => p_base q < p_base p) (dead ++ qs).
Proof.
  intros [Hf Hl Hc Hd Ho Hs Ht].
  apply Forall2_app_inv_l in Hf as (ss & ss' & Hf1 & Hf2 & E).
  inversion Hf2 as [|? x ? ? Hp Hnil]; subst. inversion Hnil; subst.
  apply closed_but_last_app in Hc as [Hro Hrw]. apply linked_app in Hl as [Hl [Hb _]].
  exists ss, x. repeat (split; [done|]). apply Forall_app. split.
  - eapply Forall_impl; [exact Ho|]. cbn. intros q Hq. rewrite Hb. len.
  - eapply Forall_impl; [apply (linked_lt base qs Hl)|].
    + eapply Forall_impl; [exact Hro|]. by intros ? [].
    + cbn. intros q Hq. rewrite Hb. lia.
Qed.

Lemma entriesToRecords_eq es :
  DiskStorage.entriesToRecords es = Ok (record_of <$> es, blen (frames es)).
Proof.
  induction es as [|e es IH]; [done|]. cbn [DiskStorage.entriesToRecords].
  rewrite Entry_Marshal_eq, IH. cbn [fmap list_fmap]. f_equal. f_equal.
  change (Record.mk (ChecksumIEEE (entry_bytes e)) (Some (entry_bytes e)) None) with (record_of e).
  rewrite Record_Size_eq, frames_cons, blen_app, blen_frame. unfold RecordLengthSize. lia.
Qed.

(** What is asked of the entries that are saved: those raft hands over after
    the log that is there. *)
Record appendable (next : Z) (es : list Entry.t) : Prop := {
  ap_contig : contig next es;
  ap_storable : Forall storable es;
  ap_range : 0 < next /\ next + blen es <= 2 ^ 64;
  ap_size : blen (frames es) <= SegmentSize }.

Definition clean (ps : list part) : Prop := Forall (fun p => exists n, p_tail p = zeros n) ps.

Lemma drop_zeros k n : exists m, drop k (zeros n) = zeros m.
Proof.
  exists (n - Z.of_nat k). unfold zeros. rewrite drop_replicate. f_equal. lia.
Qed.

Lemma appendable_ne next es : es <> [] -> appendable next es -> next < 2 ^ 64.
Proof. intros Hne [_ _ [_ Hr] _]. destruct es; [done|]. revert Hr. len. Qed.

(** A new segment and the first entries in it. *)
Lemma new_segment_append d next es :
  es <> [] -> appendable next es -> (forall n, owned next n -> d !! n = None) ->
  exists x d1 x' d',
    Segment.newSegment (ReadWriteSegmentName next) (quiet d) = (Ok x, quiet d1) /\
    Segment.appendRecords (record_of <$> es) next (x, quiet d1) = (Ok tt, (x', quiet d')) /\
    part_repr d' (Part next es (drop (length (frames es)) (zeros SegmentSize)) SegmentRDWR) x' /\
    same_except (owned next) d d'.
Proof.
  intros Hne Hap Hno. pose proof (appendable_ne _ _ Hne Hap). destruct Hap as [Hc Hs Hr Hsz].
  destruct (newSegment_ok size_ok d next) as (x & d1 & HN & Hx & Hsame & Hst); [lia|done|].
  destruct (appendRecords_ok size_ok d1 next [] _ x es Hx Hst Hne Hs) as (x' & d' & HA & Hx' & Hst' & Hsame').
  { by rewrite Z.add_0_r. }
  { rewrite Z.add_0_r. lia. }
  { rewrite blen_zeros. lia. }
  rewrite Z.add_0_r in HA. exists x, d1, x', d'. split; [done|]. split; [done|]. split; [by split|].
  by apply (same_except_trans _ _ d1).
Qed.

(** No file of a segment past the last one is left. *)
Lemma tidy_fresh d ps b :
  tidy d ps -> is_u64 b -> Forall (fun p => p_base p <> b /\ is_u64 (p_base p)) ps ->
  forall n, owned b n -> d !! n = None.
Proof.
  intros Ht Hb Hne n Hn. apply eq_None_not_Some. intros Hs.
  destruct (Ht n Hs) as (p & Hp & Ho); [left; eauto|].
  apply (proj1 (Forall_forall _ _) Hne) in Hp as [Hp Hu]. apply Hp. by apply (owned_inj _ _ n).
Qed.

Lemma parts_u64 d ps ss : Forall2 (part_repr d) ps ss -> Forall (fun p => is_u64 (p_base p)) ps.
Proof.
  induction 1 as [|p x ps ss Hp Hf IH]; constructor; [|done].
  pose proof (part_repr_base _ _ _ Hp). unfold is_u64. lia.
Qed.

(** What saving [es] does to the storage. *)
Definition saved (d : gmap string bytes) (base : Z) (ps dead : list part) (s : DiskStorage.t M)
    (es : list Entry.t) (d' : gmap string bytes) (s' : DiskStorage.t M) : Prop :=
  exists ps', sto_repr d' base ps' dead s' /\ entries_of ps' = entries_of ps ++ es /\ full ps' /\
    (clean ps -> clean ps') /\ DiskStorage.meta s' = DiskStorage.meta s.

Lemma appendable_first next e es : appendable next (e :: es) -> Entry.Index e = next.
Proof. intros [Hc _ _ _]. by apply contig_cons in Hc as [? _]. Qed.

Lemma save_first d base dead (s : DiskStorage.t M) es :
  sto_repr d base [] dead s -> es <> [] -> appendable base es ->
  exists s' d', DiskStorage.SaveRaftEntries es (s, quiet d) = (Ok tt, (s', quiet d')) /\
    saved d base [] dead s es d' s'.
Proof.
  intros [Hf Hl Hc Hd Ho Hso Ht] Hne Hap. apply Forall2_nil_inv_l in Hf.
  pose proof (appendable_ne _ _ Hne Hap) as Hlt.
  assert (0 < base) by apply Hap. assert (is_u64 base) as Hub by (unfold is_u64; lia).
  destruct (new_segment_append d base es Hne Hap) as (x & d1 & x' & d' & HN & HA & Hp & Hsame).
  { apply (tidy_fresh d (dead ++ [])); [done|done|]. rewrite app_nil_r.
    pose proof (parts_u64 _ _ _ Hd) as Hu. rewrite Forall_forall in Hu, Ho |- *.
    intros p Hp. split; [|auto]. apply Ho in Hp. lia. }
  destruct es as [|e es]; [done|]. pose proof (appendable_first _ _ _ Hap) as He.
  assert (same_except (owned_by [base]) d d') as Hsame'.
  { apply (same_except_mono (owned base)); [|done]. apply owned_by_one. }
  exists (DiskStorage.set_Segments [x'] s), d'. split.
  - cbn [DiskStorage.SaveRaftEntries]. rewrite entriesToRecords_eq, He.
    erewrite bind_ok; [|reflexivity]. cbn beta iota.
    rewrite (proj2 (Z.ltb_ge _ _)) by apply Hap.
    erewrite bind_ok; cycle 1.
    { unfold DiskStorage.getWriteSegment. rewrite (bind_ok (obj _) _ _ _ _ eq_refl). cbn [fst].
      rewrite Hf. cbn [rev]. erewrite bind_ok; [reflexivity|].
      unfold DiskStorage.rollingSegment. rewrite (bind_ok (ret _) _ _ _ _ eq_refl).
      unfold on_fs, zoom. cbn [fst snd]. rewrite HN. reflexivity. }
    cbn [fst snd]. rewrite HA. by rewrite Hf.
  - eexists [_]. split; [split|split; [|split; [|split]]].
    + constructor; [exact Hp|constructor].
    + done.
    + done.
    + apply (parts_frame d _ [base]); [done|by constructor|done|].
      eapply Forall_impl; [exact Ho|]. cbn. intros q Hq. rewrite list_elem_of_singleton. lia.
    + done.
    + done.
    + apply (tidy_update d _ [base] (dead ++ [])); [done|done| |].
      * repeat constructor. rewrite fmap_app. apply elem_of_app. right. constructor.
      * intros p Hp'. rewrite app_nil_r in Hp'. right. rewrite fmap_app. apply elem_of_app. left.
        by apply list_elem_of_fmap_2.
    + by rewrite entries_of_cons, app_nil_r.
    + by constructor.
    + intros _. constructor; [|constructor]. apply drop_zeros.
    + done.
Qed.

Lemma insert_last {A} (l : list A) x y : <[length l := y]> (l ++ [x]) = l ++ [y].
Proof. rewrite insert_app_r_alt by lia. by rewrite Nat.sub_diag. Qed.

Lemma on_segment_last {A} (m : St (Segment.t * FS) A) (s : DiskStorage.t M) fs ss x r x' fs' :
  DiskStorage.Segments s = ss ++ [x] -> m (x, fs) = (r, (x', fs')) ->
  DiskStorage.on_segment (length ss) m (s, fs) =
    (r, (DiskStorage.set_Segments (ss ++ [x']) s, fs')).
Proof.
  intros E Hm. unfold DiskStorage.on_segment. cbn [fst snd]. rewrite E, list_lookup_middle by done.
  by rewrite Hm, insert_last.
Qed.

(** Replacing the last part by parts of the same base and later ones. *)
Lemma sto_replace_last d d' base qs p dead (s s' : DiskStorage.t M) ss new news bs :
  sto_repr d base (qs ++ [p]) dead s -> Forall2 (part_repr d) qs ss ->
  Forall (fun q => p_base q < p_base p) (dead ++ qs) -> linked base qs ->
  same_except (owned_by bs) d d' -> bs = p_base <$> new ->
  Forall (fun b => is_u64 b /\ p_base p <= b) bs -> p_base p ∈ bs ->
  DiskStorage.Segments s' = ss ++ news -> DiskStorage.purging s' = DiskStorage.purging s ->
  Forall2 (part_repr d') new news -> linked (p_base p) new -> p_base p = base + blen (entries_of qs) ->
  closed_but_last (qs ++ new) ->
  sto_repr d' base (qs ++ new) dead s'.
Proof.
  intros [Hf Hl Hc Hd Ho Hso Ht] Hqs Hlt Hlq Hsame -> Hbs Hin Es Ep Hnew Hln Hb Hcl.
  assert (Forall (fun q => p_base q ∉ p_base <$> new) (dead ++ qs)) as Hnin.
  { eapply Forall_impl; [exact Hlt|]. cbn. intros q Hq Hin'.
    apply (proj1 (Forall_forall _ _) Hbs) in Hin' as [_ ?]. lia. }
  assert (Forall is_u64 (p_base <$> new)) as Hu by (eapply Forall_impl; [exact Hbs|]; tauto).
  apply Forall_app in Hnin as [Hn1 Hn2]. split.
  - rewrite Es. apply Forall2_app; [|done]. by apply (parts_frame d _ (p_base <$> new)).
  - apply linked_app. split; [done|]. by rewrite <-Hb.
  - done.
  - rewrite Ep. by apply (parts_frame d _ (p_base <$> new)).
  - done.
  - done.
  - apply (tidy_update d _ (p_base <$> new) (dead ++ qs ++ [p])); [done|done| |].
    + apply Forall_forall. intros b Hb'. rewrite !fmap_app. rewrite !elem_of_app. auto.
    + intros q Hq. rewrite !elem_of_app in Hq. rewrite !fmap_app, !elem_of_app.
      destruct Hq as [Hq|[Hq|Hq%list_elem_of_singleton]].
      * right. left. by apply list_elem_of_fmap_2.
      * right. right. left. by apply list_elem_of_fmap_2.
      * subst q. by left.
Qed.

Lemma save_room d base qs p dead (s : DiskStorage.t M) es :
  sto_repr d base (qs ++ [p]) dead s -> es <> [] ->
  appendable (base + blen (entries_of (qs ++ [p]))) es ->
  blen (frames (p_es p)) + blen (frames es) <= SegmentSize ->
  exists s' d', DiskStorage.SaveRaftEntries es (s, quiet d) = (Ok tt, (s', quiet d')) /\
    saved d base (qs ++ [p]) dead s es d' s'.
Proof.
  intros Hr Hne Hap Hroom.
  destruct (sto_split_last _ _ _ _ _ _ Hr) as (ss & x & Es & Hfq & Hp & Hlq & Hb & Hro & Hrw & Hlt).
  assert (base + blen (entries_of (qs ++ [p])) = p_base p + blen (p_es p)) as En.
  { rewrite entries_of_app, entries_of_cons, Hb. change (entries_of []) with (@nil Entry.t).
    rewrite app_nil_r. len. }
  rewrite En in Hap. pose proof (part_repr_base _ _ _ Hp) as Hpb. destruct Hp as [Hp Hst].
  pose proof (sd_fits (proj1 Hp)) as Hfit. pose proof (sd_max (proj1 Hp)) as Hmax.
  assert (MmapFile.writePosition (Segment.LogFile x) = blen (frames (p_es p))) as Hw.
  { destruct (sd_pos (proj1 Hp)) as [?|[E _]]; [done|]. by rewrite Hst, Hrw in E. }
  destruct (appendRecords_ok size_ok d (p_base p) (p_es p) (p_tail p) x es Hp)
    as (x' & d' & HA & Hx' & Hst' & Hsame);
    [by rewrite Hst | done | apply Hap | apply Hap | apply Hap | lia |].
  destruct es as [|e es]; [done|]. pose proof (appendable_first _ _ _ Hap) as He.
  exists (DiskStorage.set_Segments (ss ++ [x']) s), d'. split.
  - cbn [DiskStorage.SaveRaftEntries]. rewrite entriesToRecords_eq, He.
    erewrite bind_ok; [|reflexivity]. cbn beta iota.
    rewrite (proj2 (Z.ltb_ge _ _)) by apply Hap.
    erewrite bind_ok; cycle 1.
    { unfold DiskStorage.getWriteSegment. rewrite (bind_ok (obj _) _ _ _ _ eq_refl). cbn [fst].
      rewrite Es, rev_app_distr. cbn [rev app]. unfold Segment.needRolling.
      rewrite Hw, Hmax, (proj2 (Z.ltb_ge _ _)) by lia. reflexivity. }
    rewrite length_app. cbn [length]. rewrite Nat.add_sub.
    by apply (on_segment_last _ _ _ _ x).
  - set (p' := Part (p_base p) (p_es p ++ e :: es) (drop (length (frames (e :: es))) (p_tail p)) SegmentRDWR).
    exists (qs ++ [p']). split; [|split; [|split; [|split]]].
    + apply (sto_replace_last d d' base qs p dead s _ ss [p'] [x'] [p_base p]); try done.
      * apply (same_except_mono (owned (p_base p))); [|done]. apply owned_by_one.
      * repeat constructor; unfold is_u64; lia.
      * constructor.
      * constructor; [by split | constructor].
      * by apply closed_but_last_app.
    + rewrite !entries_of_app, !entries_of_cons. change (entries_of []) with (@nil Entry.t).
      cbn [p' p_es]. by rewrite !app_nil_r, <-app_assoc.
    + apply closed_full; [done|]. cbn. by destruct (p_es p).
    + intros Hcl. apply Forall_app in Hcl as [Hc1 Hc2]. apply Forall_app. split; [done|].
      inversion Hc2 as [|? ? [n En'] _]; subst. repeat constructor. cbn. rewrite En'. apply drop_zeros.
    + done.
Qed.

(** The names of the next segment are free. *)
Lemma next_fresh d d1 base qs p dead (s : DiskStorage.t M) next :
  sto_repr d base (qs ++ [p]) dead s -> p_base p < next -> is_u64 next -> same_except (owned (p_base p)) d d1 ->
  forall n, owned next n -> d1 !! n = None.
Proof.
  intros Hr Hnext Hnu Hsame n Hn. destruct (sto_split_last _ _ _ _ _ _ Hr) as (_ & x & _ & _ & Hp & _ & _ & _ & _ & Hlt).
  pose proof (part_repr_base _ _ _ Hp) as Hpb. rewrite Hsame.
  - apply (tidy_fresh d (dead ++ qs ++ [p]) next (sr_tidy _ _ _ _ _ Hr) Hnu); [|done].
    pose proof (parts_u64 _ _ _ (sr_dead _ _ _ _ _ Hr)) as Hu1.
    pose proof (parts_u64 _ _ _ (sr_segs _ _ _ _ _ Hr)) as [Hu2 Hu3]%Forall_app.
    rewrite app_assoc. apply Forall_app. split.
    + apply Forall_forall. intros q Hq. split; [apply (proj1 (Forall_forall _ _) Hlt) in Hq; lia|].
      apply elem_of_app in Hq as [Hq|Hq];
        [by apply (proj1 (Forall_forall _ _) Hu1) in Hq | by apply (proj1 (Forall_forall _ _) Hu2) in Hq].
    + constructor; [|constructor]. split; [lia|]. by inversion Hu3.
  - intros Hn'. assert (p_base p = next); [|lia]. apply (owned_inj _ _ n); [unfold is_u64; lia | done | done | done].
Qed.

(** The storage with its last segment made read-only and another one behind it. *)
Lemma rolled_saved d d1 d' base qs p dead (s : DiskStorage.t M) ss x x1 y es :
  let next := p_base p + blen (p_es p) in
  sto_repr d base (qs ++ [p]) dead s -> DiskStorage.Segments s = ss ++ [x] -> Forall2 (part_repr d) qs ss ->
  es <> [] -> p_es p <> [] -> is_u64 next -> same_except (owned (p_base p)) d d1 -> same_except (owned next) d1 d' ->
  part_repr d1 (Part (p_base p) (p_es p) (p_tail p) SegmentReadOnly) x1 ->
  part_repr d' (Part next es (drop (length (frames es)) (zeros SegmentSize)) SegmentRDWR) y ->
  saved d base (qs ++ [p]) dead s es d' (DiskStorage.set_Segments (ss ++ [x1; y]) s).
Proof.
  intros next Hr Es Hfq Hne Hpe Hnu Hsame1 Hsame2 Hx Hy.
  destruct (sto_split_last _ _ _ _ _ _ Hr) as (_ & _ & _ & _ & _ & Hlq & Hb & Hro & _ & Hlt).
  pose proof (part_repr_base _ _ _ Hx) as Hpb. cbn in Hpb.
  assert (p_base p < next) by (unfold next; destruct (p_es p); [done|]; len).
  set (p1 := Part (p_base p) (p_es p) (p_tail p) SegmentReadOnly) in *. set (p2 := Part next es _ _) in *.
  assert (same_except (owned_by [p_base p; next]) d d') as Hsame.
  { apply (same_except_trans _ _ d1).
    - apply (same_except_mono (owned (p_base p))); [|done]. intros n Hn. by constructor.
    - apply (same_except_mono (owned next)); [|done]. intros n Hn. by do 2 constructor. }
  assert (Forall (fun q => p_status q = SegmentReadOnly /\ p_es q <> []) (qs ++ [p1])) as Hcl1
    by (apply Forall_app; split; [done|by repeat constructor]).
  exists (qs ++ [p1; p2]). split; [|split; [|split; [|split]]].
  - apply (sto_replace_last d d' base qs p dead s _ ss [p1; p2] [x1; y] [p_base p; next]); try done.
    + apply Forall_cons. split; [unfold is_u64; lia|]. apply Forall_singleton. split; [done|lia].
    + constructor.
    + constructor; [|constructor; [exact Hy|constructor]]. destruct Hx as [Hx Hst]. split; [|done]. cbn.
      apply (seg_repr_frame d1); [|done]. apply (same_except_mono (owned next)); [|done]. intros n Hn Ho.
      assert (p_base p = next); [|lia]. apply (owned_inj _ _ n); [unfold is_u64; lia | done | done | done].
    + change [p1; p2] with ([p1] ++ [p2]). rewrite app_assoc. by apply closed_but_last_app.
  - rewrite !entries_of_app, !entries_of_cons. change (entries_of []) with (@nil Entry.t).
    cbn [p1 p2 p_es]. by rewrite !app_nil_r, <-app_assoc.
  - change [p1; p2] with ([p1] ++ [p2]). rewrite app_assoc. by apply closed_full.
  - intros Hcl. apply Forall_app in Hcl as [Hc1 Hc2]. apply Forall_app. split; [done|].
    inversion Hc2 as [|? ? Hn _]; subst. repeat constructor; [done|]. apply drop_zeros.
  - done.
Qed.

Lemma save_roll d base qs p dead (s : DiskStorage.t M) es :
  sto_repr d base (qs ++ [p]) dead s -> es <> [] ->
  appendable (base + blen (entries_of (qs ++ [p]))) es ->
  SegmentSize < blen (frames (p_es p)) + blen (frames es) ->
  exists s' d', DiskStorage.SaveRaftEntries es (s, quiet d) = (Ok tt, (s', quiet d')) /\
    saved d base (qs ++ [p]) dead s es d' s'.
Proof.
  intros Hr Hne Hap Hfull.
  destruct (sto_split_last _ _ _ _ _ _ Hr) as (ss & x & Es & Hfq & Hp & _ & Hb & _ & Hrw & _).
  rewrite entries_of_app, entries_of_cons, blen_app, Z.add_assoc, <-Hb in Hap. change (entries_of []) with (@nil Entry.t) in Hap.
  rewrite app_nil_r in Hap. set (next := p_base p + blen (p_es p)) in *.
  pose proof (part_repr_base _ _ _ Hp) as Hpb. destruct Hp as [Hp Hst].
  pose proof (sd_max (proj1 Hp)) as Hmax. pose proof (ap_size _ _ Hap) as Hsz.
  assert (MmapFile.writePosition (Segment.LogFile x) = blen (frames (p_es p))) as Hw.
  { destruct (sd_pos (proj1 Hp)) as [?|[E _]]; [done|]. by rewrite Hst, Hrw in E. }
  assert (p_es p <> []) as Hpe.
  { intros E. rewrite E in Hfull. change (blen (frames [])) with 0 in Hfull. lia. }
  assert (p_base p < next) by (unfold next; destruct (p_es p); [done|]; len).
  assert (is_u64 next) as Hnu by (pose proof (appendable_ne _ _ Hne Hap); unfold is_u64; lia).
  destruct (changeToReadonly_ok d (p_base p) (p_es p) (p_tail p) x Hp) as
    (x1 & d1 & HC & Hx1 & Hst1 & _ & Hsame1); [by rewrite Hst | done |].
  destruct (new_segment_append d1 next es Hne Hap) as (y & d2 & y' & d' & HN & HA & Hy & Hsame2); [by eapply next_fresh|].
  exists (DiskStorage.set_Segments (ss ++ [x1; y']) s), d'. split; [|by eapply rolled_saved].
  destruct es as [|e es]; [done|]. pose proof (appendable_first _ _ _ Hap) as He.
  cbn [DiskStorage.SaveRaftEntries]. rewrite entriesToRecords_eq, He.
  erewrite bind_ok; [|reflexivity]. cbn beta iota. rewrite (proj2 (Z.ltb_ge _ _)) by apply Hap.
  erewrite bind_ok; cycle 1.
  { unfold DiskStorage.getWriteSegment. rewrite (bind_ok (obj _) _ _ _ _ eq_refl). cbn [fst].
    rewrite Es, rev_app_distr. cbn [rev app]. unfold Segment.needRolling.
    rewrite Hw, Hmax, (proj2 (Z.ltb_lt _ _)) by lia. rewrite length_app. cbn [length]. rewrite Nat.add_sub.
    erewrite bind_ok; [reflexivity|]. unfold DiskStorage.rollingSegment.
    rewrite (bind_ok _ _ _ _ _ (on_segment_last _ _ _ _ x _ _ _ Es HC)).
    unfold on_fs, zoom. cbn [fst snd]. rewrite HN. reflexivity. }
  cbn [fst snd]. rewrite HA. do 2 f_equal. unfold DiskStorage.set_Segments. cbn. by rewrite <-app_assoc.
Qed.

Lemma SaveRaftEntries_ok d base ps dead (s : DiskStorage.t M) es :
  sto_repr d base ps dead s -> es <> [] -> appendable (base + blen (entries_of ps)) es ->
  exists s' d', DiskStorage.SaveRaftEntries es (s, quiet d) = (Ok tt, (s', quiet d')) /\
    saved d base ps dead s es d' s'.
Proof.
  intros Hr Hne Hap. destruct (decide (ps = [])) as [->|Hps].
  - apply save_first; [done|done|]. change (blen (entries_of [])) with 0 in Hap. by rewrite Z.add_0_r in Hap.
  - destruct (exists_last Hps) as (qs & p & ->).
    destruct (Z.le_gt_cases (blen (frames (p_es p)) + blen (frames es)) SegmentSize).
    + by apply save_room.
    + apply save_roll; [done..|lia].
Qed.

(** * Truncating and purging *)

Lemma remove_segments_ok d (s : DiskStorage.t M) ps ss :
  Forall2 (part_repr d) ps ss -> NoDup (p_base <$> ps) ->
  exists d', DiskStorage.remove_segments ss (s, quiet d) = (Ok tt, (s, quiet d')) /\
    same_except (owned_by (p_base <$> ps)) d d' /\
    (forall n, owned_by (p_base <$> ps) n -> d' !! n = None).
Proof.
  intros Hf. revert d ss Hf. induction ps as [|p ps IH]; intros d ss Hf Hnd.
  - apply Forall2_nil_inv_l in Hf as ->. exists d. split; [done|]. split; [done|].
    intros n Hn. by apply Exists_nil in Hn.
  - apply Forall2_cons_inv_l in Hf as (x & ss' & Hp & Hf & ->).
    cbn [fmap list_fmap] in *. apply NoDup_cons in Hnd as [Hni Hnd].
    pose proof (part_repr_base _ _ _ Hp) as Hpb. assert (is_u64 (p_base p)) by (unfold is_u64; lia).
    destruct (remove_segment_ok d (p_base p) (p_es p) (p_tail p) x (proj1 Hp))
      as (x' & d1 & HR & _ & Hnone & Hsame).
    assert (Forall2 (part_repr d1) ps ss') as Hf1.
    { apply (parts_frame d _ [p_base p]); [done|by constructor| |].
      - apply (same_except_mono (owned (p_base p))); [|done]. apply owned_by_one.
      - apply Forall_forall. intros q Hq. rewrite list_elem_of_singleton. intros E. apply Hni.
        rewrite <-E. by apply list_elem_of_fmap_2. }
    destruct (IH d1 ss' Hf1 Hnd) as (d' & HRs & Hsame' & Hnone'). exists d'. split; [|split].
    + cbn [DiskStorage.remove_segments]. erewrite bind_ok; [exact HRs|].
      unfold DiskStorage.on_detached. cbn [fst snd]. by rewrite HR.
    + apply (same_except_trans _ _ d1).
      * apply (same_except_mono (owned (p_base p))); [|done]. intros n Hn. by constructor.
      * apply (same_except_mono (owned_by (p_base <$> ps))); [|done]. intros n Hn. by constructor.
    + intros n Hn. destruct (decide (owned_by (p_base <$> ps) n)) as [Ho|Ho]; [by apply Hnone'|].
      rewrite Hsame' by done. apply Hnone. apply Exists_cons in Hn as [?|?]; [done|by destruct Ho].
Qed.

Lemma find_segment_ok (ss : list Segment.t) i k n :
  (forall j s, ss !! j = Some s -> DiskStorage.in_segment i s = true <-> j = k) ->
  (k < n <= length ss)%nat ->
  DiskStorage.find_segment (rev (take n ss)) (Z.of_nat n - 1) i = Z.of_nat k.
Proof.
  intros H1. induction n as [|n IH]; intros Hn; [lia|].
  destruct (lookup_lt_is_Some_2 ss n) as [x Hx]; [lia|].
  rewrite (take_S_r _ _ _ Hx), rev_app_distr. cbn [rev app DiskStorage.find_segment].
  replace (Z.of_nat (S n) - 1) with (Z.of_nat n) by lia.
  assert (DiskStorage.in_segment i x = bool_decide (n = k)) as ->
    by (apply eq_true_iff_eq; rewrite bool_decide_eq_true; auto).
  case_bool_decide; [by subst|]. apply IH. lia.
Qed.

(** The segment of [i] was written by this process: one that was opened
    read-only has forgotten how far it was written. *)
Definition writable (i : Z) (s : DiskStorage.t M) : Prop :=
  Forall (fun x => DiskStorage.in_segment i x = true ->
            Segment.Status x = SegmentRDWR \/ MmapFile.writePosition (Segment.LogFile x) <> 0)
    (DiskStorage.Segments s).

(** The purged set of GTIDs can be updated. *)
Definition purge_ok (base : Z) (s : DiskStorage.t M) : Prop :=
  (meta_UpdatePugedGtidset base (DiskStorage.meta s)).1 = Ok tt.

Lemma linked_NoDup base ps : linked base ps -> closed_but_last ps -> NoDup (p_base <$> ps).
Proof.
  revert base. induction ps as [|p ps IH]; intros base Hl Hc; [constructor|].
  destruct Hl as [Hb Hl]. cbn [fmap list_fmap]. constructor.
  - intros (q & Eq & Hq)%list_elem_of_fmap. apply list_elem_of_lookup in Hq as [j Hj].
    pose proof (linked_base _ _ _ _ Hl Hj). destruct ps as [|p' ps]; [done|].
    destruct Hc as (_ & Hne & _). destruct (p_es p); [done|]. rewrite blen_cons in *. len.
  - apply (IH _ Hl). destruct ps; [done|]. apply Hc.
Qed.

Lemma entries_of_take base ps1 p ps2 i :
  linked base (ps1 ++ p :: ps2) -> holds i p ->
  entries_of ps1 ++ take (Z.to_nat (i - p_base p)) (p_es p) =
  take (Z.to_nat (i - base)) (entries_of (ps1 ++ p :: ps2)).
Proof.
  intros Hl Hh. apply linked_app in Hl as [_ [Hb _]]. unfold holds in Hh.
  rewrite entries_of_app, entries_of_cons. pose proof (blen_nonneg (entries_of ps1)).
  rewrite take_app_ge by (unfold blen in *; lia). f_equal.
  rewrite take_app_le by (unfold blen in *; lia). f_equal. unfold blen in *. lia.
Qed.

Lemma tidy_remove d d' qs old new :
  tidy d old -> same_except (owned_by (p_base <$> qs)) d d' ->
  (forall n, owned_by (p_base <$> qs) n -> d' !! n = None) ->
  (forall p, p ∈ old -> p ∈ qs \/ p ∈ new) -> tidy d' new.
Proof.
  intros Ht Hs Hnone Hold n Hn Hk.
  assert (~ owned_by (p_base <$> qs) n) as Ho by (intros Ho; rewrite (Hnone n Ho) in Hn; by destruct Hn).
  rewrite Hs in Hn by done. destruct (Ht n Hn Hk) as (p & Hp & Hpn).
  destruct (Hold p Hp) as [Hq|Hq]; [|eauto]. destruct Ho. apply Exists_exists.
  exists (p_base p). split; [by apply list_elem_of_fmap_2 | done].
Qed.

Definition with_meta (m : M) (s : DiskStorage.t M) : DiskStorage.t M :=
  DiskStorage.mk (DiskStorage.Segments s) (DiskStorage.ReserveSegmentCount s)
    (DiskStorage.purgeStarted s) (DiskStorage.purging s) m.

Lemma purgeSegments_ok d (s : DiskStorage.t M) qs ss :
  Forall2 (part_repr d) qs ss -> NoDup (p_base <$> qs) -> purge_ok (DiskStorage.FirstIndex s) s ->
  exists m' d',
    DiskStorage.purgeSegments ss (s, quiet d) = (Ok tt, (with_meta m' s, quiet d')) /\
    same_except (owned_by (p_base <$> qs)) d d' /\
    (forall n, owned_by (p_base <$> qs) n -> d' !! n = None).
Proof.
  intros Hf Hnd Hm. unfold purge_ok in Hm.
  destruct (meta_UpdatePugedGtidset _ _) as [r m'] eqn:Em in Hm. cbn in Hm. subst r.
  destruct (remove_segments_ok d (with_meta m' s) qs ss Hf Hnd) as (d' & HR & Hs & Hn).
  exists m', d'. split; [|done]. unfold DiskStorage.purgeSegments.
  rewrite (bind_ok (obj _) _ _ _ _ eq_refl). cbn [fst].
  erewrite bind_ok; [exact HR|]. unfold DiskStorage.on_meta, zoom. cbn [fst snd]. by rewrite Em.
Qed.

(** The truncation of one segment, whichever its status. *)
Lemma truncate_segment_ok d p x i :
  part_repr d p x -> holds i p -> p_status p <> SegmentClosed ->
  (Segment.Status x = SegmentRDWR \/ MmapFile.writePosition (Segment.LogFile x) <> 0) ->
  exists x' d',
    Segment.truncateSuffix i (x, quiet d) = (Ok tt, (x', quiet d')) /\
    part_repr d' (Part (p_base p) (take (Z.to_nat (i - p_base p)) (p_es p))
                    (cut_tail (Z.to_nat (i - p_base p)) (p_es p) (p_tail p)) SegmentRDWR) x' /\
    same_except (owned (p_base p)) d d'.
Proof.
  intros [Hp Hst] Hh Hnc Hw. unfold holds in Hh.
  destruct (Segment.Status x) eqn:Ex.
  - destruct (truncateSuffix_ro_ok size_ok d (p_base p) (p_es p) (p_tail p) x i Hp Ex)
      as (x' & d' & HT & Hx' & Hst' & Hs); [|lia|].
    { destruct (sd_pos (proj1 Hp)) as [?|[_ ?]]; [done|]. by destruct Hw. }
    exists x', d'. split; [done|]. by split; [split|].
  - destruct (truncateSuffix_rw_ok size_ok d (p_base p) (p_es p) (p_tail p) x i Hp Ex)
      as (x' & d' & HT & Hx' & Hst' & Hs); [lia|].
    exists x', d'. split; [done|]. by split; [split|].
  - by rewrite <-Hst in Hnc.
Qed.

Lemma cut_tail_clean k es tail n : tail = zeros n -> 0 <= n -> exists m, cut_tail k es tail = zeros m.
Proof.
  intros -> Hn. exists (blen (frames es) - blen (frames (take k es)) + n).
  unfold cut_tail. apply zeros_app; [|done].
  assert (frames es = frames (take k es) ++ frames (drop k es)) as E by (by rewrite <-frames_app, take_drop).
  rewrite E at 1. len.
Qed.

(** The middle step of [TruncateSuffix]: there may be nothing to purge. *)
Lemma purge_rest_ok d (s : DiskStorage.t M) qs ss :
  Forall2 (part_repr d) qs ss -> NoDup (p_base <$> qs) -> purge_ok (DiskStorage.FirstIndex s) s ->
  exists m' d',
    (match ss with [] => ret tt | _ => DiskStorage.purgeSegments ss end) (s, quiet d) =
      (Ok tt, (with_meta m' s, quiet d')) /\
    same_except (owned_by (p_base <$> qs)) d d' /\
    (forall n, owned_by (p_base <$> qs) n -> d' !! n = None).
Proof.
  intros Hf Hnd Hm. destruct ss as [|x ss].
  - apply Forall2_nil_inv_r in Hf as ->. exists (DiskStorage.meta s), d. split; [by destruct s|].
    split; [done|]. intros n Hn. by apply Exists_nil in Hn.
  - by apply purgeSegments_ok.
Qed.

Lemma first_of_cut d base ps1 p ps2 ss1 x (s : DiskStorage.t M) :
  linked base (ps1 ++ p :: ps2) -> closed_but_last (ps1 ++ p :: ps2) ->
  Forall2 (part_repr d) ps1 ss1 -> part_repr d p x -> p_es p <> [] ->
  DiskStorage.FirstIndex (DiskStorage.set_Segments (ss1 ++ [x]) s) = base.
Proof.
  intros Hl Hc Hf Hp Hne. unfold DiskStorage.FirstIndex, Segment.getFirstIndex. cbn.
  destruct Hf as [|q y ps1 ss1 Hq Hf]; cbn.
  - destruct Hl as [<- _]. by apply (part_repr_range _ _ _ Hp Hne).
  - destruct Hl as [<- _]. apply (part_repr_range _ _ _ Hq).
    cbn in Hc. destruct (ps1 ++ p :: ps2) eqn:E; [by destruct ps1|]. apply Hc.
Qed.

(** The storage after the last parts [ps2] are gone and [p] has been cut. *)
Lemma sto_cut d d1 d2 base ps1 p ps2 dead (s s' : DiskStorage.t M) ss1 x' p' :
  sto_repr d base (ps1 ++ p :: ps2) dead s -> p_es p <> [] -> 0 < p_base p < 2 ^ 64 ->
  Forall2 (part_repr d) ps1 ss1 -> Forall is_u64 (p_base <$> ps2) ->
  same_except (owned_by (p_base <$> ps2)) d d1 ->
  (forall n, owned_by (p_base <$> ps2) n -> d1 !! n = None) ->
  same_except (owned (p_base p)) d1 d2 -> part_repr d2 p' x' ->
  p_base p' = p_base p -> p_status p' = SegmentRDWR ->
  DiskStorage.Segments s' = ss1 ++ [x'] -> DiskStorage.purging s' = DiskStorage.purging s ->
  sto_repr d2 base (ps1 ++ [p']) dead s'.
Proof.
  intros [Hf Hl Hc Hd Ho Hso Ht] Hpe Hpb Hf1 Hu2 Hs1 Hnone Hs2 Hp' Eb Est Es Ep.
  destruct (linked_order base ps1 p ps2 Hl Hc Hpe) as (Hbp & Hlt & Hgt & Hro).
  assert (is_u64 (p_base p)) as Hup by (unfold is_u64; lia).
  assert (same_except (owned_by [p_base p]) d1 d2) as Hs2'.
  { apply (same_except_mono (owned (p_base p))); [|done]. apply owned_by_one. }
  assert (forall qs ys, Forall2 (part_repr d) qs ys ->
            Forall (fun q => p_base q < p_base p) qs -> Forall2 (part_repr d2) qs ys) as Hframe.
  { intros qs ys Hq Hltq. apply (parts_frame d1 _ [p_base p]); [|by constructor|done|].
    - apply (parts_frame d _ (p_base <$> ps2)); [done|done|done|].
      eapply Forall_impl; [exact Hltq|]. cbn. intros q Hq' (q2 & E & Hq2)%list_elem_of_fmap.
      apply (proj1 (Forall_forall _ _) Hgt) in Hq2. lia.
    - eapply Forall_impl; [exact Hltq|]. cbn. intros q Hq'. rewrite list_elem_of_singleton. lia. }
  pose proof Hl as [Hl1 [Hbp' _]]%linked_app. split.
  - rewrite Es. apply Forall2_app; [auto|]. constructor; [done|constructor].
  - apply linked_app. split; [done|]. split; [by rewrite Eb|done].
  - by apply closed_but_last_app.
  - rewrite Ep. apply Hframe; [done|]. eapply Forall_impl; [exact Ho|]. cbn. lia.
  - done.
  - done.
  - apply (tidy_update d1 _ [p_base p] (dead ++ ps1 ++ [p])).
    + apply (tidy_remove d d1 ps2 (dead ++ ps1 ++ p :: ps2)); [done|done|done|].
      intros q. rewrite !elem_of_app, elem_of_cons, list_elem_of_singleton. tauto.
    + done.
    + repeat constructor. rewrite !fmap_app, !elem_of_app. right. right. cbn. rewrite Eb. constructor.
    + intros q. rewrite !fmap_app, !elem_of_app, list_elem_of_singleton. cbn. rewrite Eb.
      intros [Hq|[Hq| ->]].
      * right. left. by apply list_elem_of_fmap_2.
      * right. right. left. by apply list_elem_of_fmap_2.
      * left. constructor.
Qed.

(** The segment that holds [i], with what is before and after it. *)
Record found (d : gmap string bytes) (ps : list part) (s : DiskStorage.t M) (i : Z)
  (ps1 : list part) (p : part) (ps2 : list part) (ss1 : list Segment.t) (x : Segment.t)
  (ss2 : list Segment.t) : Prop := {
  fo_parts : ps = ps1 ++ p :: ps2;
  fo_segs : DiskStorage.Segments s = ss1 ++ x :: ss2;
  fo_before : Forall2 (part_repr d) ps1 ss1;
  fo_part : part_repr d p x;
  fo_after : Forall2 (part_repr d) ps2 ss2;
  fo_holds : holds i p;
  fo_in : DiskStorage.in_segment i x = true }.

Lemma find_part d base ps dead (s : DiskStorage.t M) i :
  sto_repr d base ps dead s -> base <= i < base + blen (entries_of ps) ->
  exists ps1 p ps2 ss1 x ss2, found d ps s i ps1 p ps2 ss1 x ss2 /\
    DiskStorage.find_segment (rev (DiskStorage.Segments s)) (blen (DiskStorage.Segments s) - 1) i
      = Z.of_nat (length ss1) /\
    forall j q, ps !! j = Some q -> holds i q -> j = length ps1.
Proof.
  intros Hr Hi. pose proof Hr as [Hf Hl _ _ _ _ _].
  pose proof (sto_bounds _ _ _ _ _ Hr ltac:(intros ->; change (blen (entries_of [])) with 0 in Hi; lia)) as [Hb0 _].
  destruct (part_of_index base ps i Hl Hi) as (k & Hk & Hlen).
  destruct (lookup_lt_is_Some_2 _ _ Hlen) as [p Hp]. pose proof (proj2 (Hk _ _ Hp) eq_refl) as Hh.
  destruct (Forall2_lookup_l _ _ _ _ _ Hf Hp) as (x & Hx & Hpx).
  pose proof (Forall2_length _ _ _ Hf) as Hls.
  exists (take k ps), p, (drop (S k) ps), (take k (DiskStorage.Segments s)), x,
    (drop (S k) (DiskStorage.Segments s)). rewrite !length_take. split; [split|split].
  - symmetry. by apply take_drop_middle.
  - symmetry. by apply take_drop_middle.
  - by apply Forall2_take.
  - done.
  - by apply Forall2_drop.
  - done.
  - by apply (in_segment_holds _ i _ _ Hpx ltac:(lia)).
  - replace (k `min` length (DiskStorage.Segments s))%nat with k by lia.
    rewrite <-(firstn_all (DiskStorage.Segments s)) at 1. apply find_segment_ok; [|lia].
    intros j y Hy. destruct (Forall2_lookup_r _ _ _ _ _ Hf Hy) as (q & Hq & Hqr).
    rewrite (in_segment_holds _ i _ _ Hqr ltac:(lia)). by apply Hk.
  - intros j q Hq Hhq. replace (k `min` length ps)%nat with k by lia. by apply (Hk j q).
Qed.

(** [TruncateSuffix] up to the truncation of the segment that holds [i]. *)
Lemma truncate_reaches d base ps dead (s : DiskStorage.t M) i ps1 p ps2 ss1 x ss2 :
  sto_repr d base ps dead s -> found d ps s i ps1 p ps2 ss1 x ss2 ->
  DiskStorage.find_segment (rev (DiskStorage.Segments s)) (blen (DiskStorage.Segments s) - 1) i
    = Z.of_nat (length ss1) -> purge_ok base s ->
  exists m' d1,
    DiskStorage.TruncateSuffix i (s, quiet d) =
      DiskStorage.on_segment (length ss1) (Segment.truncateSuffix i)
        (with_meta m' (DiskStorage.set_Segments (ss1 ++ [x]) s), quiet d1) /\
    same_except (owned_by (p_base <$> ps2)) d d1 /\
    (forall n, owned_by (p_base <$> ps2) n -> d1 !! n = None) /\ part_repr d1 p x.
Proof.
  intros [_ Hl Hc _ _ _ _] [Eps Ess Hf1 Hpx Hf2 Hh _] Hfind Hm.
  pose proof (linked_NoDup _ _ Hl Hc) as Hnd. rewrite Eps, fmap_app in Hnd. cbn [fmap list_fmap] in Hnd.
  apply NoDup_app in Hnd as (_ & _ & Hnd2). apply NoDup_cons in Hnd2 as [Hnp Hnd2].
  assert (p_es p <> []) as Hpe by (intros E; unfold holds in Hh; rewrite E, blen_nil in Hh; lia).
  set (s1 := DiskStorage.set_Segments (ss1 ++ [x]) s).
  assert (DiskStorage.FirstIndex s1 = base) as HF1.
  { rewrite Eps in Hl, Hc. by apply (first_of_cut d base ps1 p ps2). }
  destruct (purge_rest_ok d s1 ps2 ss2 Hf2 Hnd2) as (m' & d1 & HP & Hsame1 & Hnone1).
  { rewrite HF1. exact Hm. }
  exists m', d1. split; [|split; [done|split; [done|]]].
  - unfold DiskStorage.TruncateSuffix. rewrite (bind_ok (obj _) _ _ _ _ eq_refl). cbn [fst].
    rewrite Hfind, (proj2 (Z.eqb_neq (Z.of_nat _) (-1))), Nat2Z.id by lia.
    rewrite Ess. replace (take (S (length ss1)) (ss1 ++ x :: ss2)) with (ss1 ++ [x]).
    + replace (drop (S (length ss1)) (ss1 ++ x :: ss2)) with ss2.
      * rewrite (bind_ok (set_obj _) _ _ _ _ eq_refl). cbn [fst snd]. fold s1.
        by rewrite (bind_ok _ _ _ _ _ HP).
      * change (x :: ss2) with ([x] ++ ss2). by rewrite app_assoc, drop_app_length' by (rewrite length_app; cbn; lia).
    + change (x :: ss2) with ([x] ++ ss2). by rewrite app_assoc, take_app_length' by (rewrite length_app; cbn; lia).
  - apply (part_frame d _ (p_base <$> ps2)); try done. apply Forall_fmap.
    by apply (parts_u64 _ _ _ Hf2).
Qed.

(** What a truncation at [i] leaves of the parts. *)
Definition cut_part (i : Z) (p : part) : part :=
  Part (p_base p) (take (Z.to_nat (i - p_base p)) (p_es p))
    (cut_tail (Z.to_nat (i - p_base p)) (p_es p) (p_tail p)) SegmentRDWR.

Lemma TruncateSuffix_found d base ps dead (s : DiskStorage.t M) i ps1 p ps2 ss1 x ss2 :
  sto_repr d base ps dead s -> found d ps s i ps1 p ps2 ss1 x ss2 ->
  DiskStorage.find_segment (rev (DiskStorage.Segments s)) (blen (DiskStorage.Segments s) - 1) i
    = Z.of_nat (length ss1) -> writable i s -> purge_ok base s ->
  exists s' d',
    DiskStorage.TruncateSuffix i (s, quiet d) = (Ok tt, (s', quiet d')) /\
    sto_repr d' base (ps1 ++ [cut_part i p]) dead s'.
Proof.
  intros Hr Hfo Hfind Hw Hm. pose proof Hfo as [Eps Ess Hf1 Hpx Hf2 Hh Hin].
  destruct (truncate_reaches _ _ _ _ _ _ _ _ _ _ _ _ Hr Hfo Hfind Hm)
    as (m' & d1 & HT & Hsame & Hnone & Hpx1).
  assert (Segment.Status x = SegmentRDWR \/ MmapFile.writePosition (Segment.LogFile x) <> 0) as Hwx.
  { unfold writable in Hw. rewrite Ess in Hw. apply Forall_app in Hw as [_ Hw].
    apply Forall_cons in Hw as [Hw _]. by apply Hw. }
  assert (p_es p <> []) as Hpe by (intros E; unfold holds in Hh; rewrite E, blen_nil in Hh; lia).
  destruct (truncate_segment_ok d1 p x i Hpx1 Hh) as (x' & d2 & HT2 & Hx' & Hsame2); [|done|].
  { destruct Hpx as [[Hsd _] <-]. apply (sd_status Hsd). }
  fold (cut_part i p) in Hx'. rewrite HT.
  set (s2 := DiskStorage.set_Segments (ss1 ++ [x']) (with_meta m' (DiskStorage.set_Segments (ss1 ++ [x]) s))).
  exists s2, d2. split; [by apply (on_segment_last _ _ _ _ x)|].
  rewrite Eps in Hr. eapply (sto_cut d d1 d2 base ps1 p ps2 dead s s2 ss1 x'); try done.
  - by apply (part_repr_base _ _ _ Hpx).
  - apply Forall_fmap. by apply (parts_u64 _ _ _ Hf2).
Qed.

Lemma cut_clean i ps1 p ps2 : clean (ps1 ++ p :: ps2) -> clean (ps1 ++ [cut_part i p]).
Proof.
  intros Hcl. apply Forall_app in Hcl as [Hc1 Hc2]. apply Forall_app. split; [done|].
  apply Forall_cons in Hc2 as [[n En] _]. constructor; [|constructor].
  assert (zeros n = zeros (Z.max 0 n)) as Ez by (unfold zeros; f_equal; lia).
  apply (cut_tail_clean _ _ _ (Z.max 0 n)); [by rewrite En|lia].
Qed.

Lemma cut_entries base i ps1 p ps2 :
  linked base (ps1 ++ p :: ps2) -> holds i p ->
  entries_of (ps1 ++ [cut_part i p]) = take (Z.to_nat (i - base)) (entries_of (ps1 ++ p :: ps2)).
Proof.
  intros Hl Hh. rewrite entries_of_app, entries_of_cons. change (entries_of []) with (@nil Entry.t).
  rewrite app_nil_r. by apply entries_of_take.
Qed.

Lemma TruncateSuffix_ok d base ps dead (s : DiskStorage.t M) i :
  sto_repr d base ps dead s -> base <= i < base + blen (entries_of ps) ->
  writable i s -> purge_ok base s ->
  exists s' d' ps',
    DiskStorage.TruncateSuffix i (s, quiet d) = (Ok tt, (s', quiet d')) /\
    sto_repr d' base ps' dead s' /\
    entries_of ps' = take (Z.to_nat (i - base)) (entries_of ps) /\ ps' <> [] /\
    (clean ps -> clean ps').
Proof.
  intros Hr Hi Hw Hm.
  destruct (find_part _ _ _ _ _ _ Hr Hi) as (ps1 & p & ps2 & ss1 & x & ss2 & Hfo & Hfind & _).
  destruct (TruncateSuffix_found _ _ _ _ _ _ _ _ _ _ _ _ Hr Hfo Hfind Hw Hm) as (s' & d' & HT & Hr').
  destruct Hfo as [-> _ _ _ _ Hh _]. exists s', d', (ps1 ++ [cut_part i p]).
  split; [done|]. split; [done|]. split; [apply cut_entries; [apply Hr|done]|].
  split; [by destruct ps1|]. apply cut_clean.
Qed.
End Repr.
