(* ===== verification/Recovery.v ===== *)
(** Closing a storage and opening it again, after [Close] and after a crash:
    [openSegments] of storage/segment.go, [Close], [NewDiskStorage] and
    [initSegments] of storage/disk_storage.go. A crash of the process loses
    the memory, that is the segments and the buffers of the index files, and
    keeps the files. *)
From S2P Require Import Prelude Wire Names Disk IndexFile Segments Storage LogStore.
From stdpp Require Import sorting.
Local Open Scope Z_scope.
Local Open Scope go_scope.

Section Recovery.
Context `{Settings} {M : Type} `{MetaStorage M}.
Hypothesis size_ok : 0 < SegmentSize <= 2 ^ 32.

(** * The files of a log *)

Definition part_files (d : gmap string bytes) (p : part) : Prop :=
  seg_files d (p_status p) (p_base p) (p_es p) (p_tail p).

Definition part_ok (p : part) : Prop :=
  log_ok (p_base p) (p_es p) /\ blen (frames (p_es p) ++ p_tail p) = SegmentSize.

Lemma part_repr_ok d p x : part_repr d p x -> part_ok p.
Proof.
  intros [[Hd _] _]. split; [by eapply seg_data_log_ok|]. rewrite blen_app. apply (sd_fits Hd).
Qed.

Lemma part_files_frame d d' bs p :
  part_files d p -> is_u64 (p_base p) -> Forall is_u64 bs -> same_except (owned_by bs) d d' ->
  p_base p ∉ bs -> part_files d' p.
Proof.
  intros (Hl & Hi & Ho) Hp Hb Hs Hn.
  assert (forall n, owned (p_base p) n -> d' !! n = d !! n) as Hsame.
  { intros n Hn'. apply Hs. intros (b & Hin & Hob)%Exists_exists. apply Hn.
    rewrite (owned_inj (p_base p) b n); [done|done| |done|done].
    by apply (proj1 (Forall_forall _ _) Hb). }
  split; [|split].
  - rewrite Hsame by auto with go. done.
  - rewrite Hsame by auto with go. done.
  - intros n Hn' Hd. rewrite Hsame in Hd by done. by apply Ho.
Qed.

Lemma close_segments_ok d (s : DiskStorage.t M) ps n :
  Forall2 (part_repr d) ps (DiskStorage.Segments s) -> NoDup (p_base <$> ps) ->
  (n <= length ps)%nat ->
  exists s' d' closed,
    DiskStorage.close_segments n (s, quiet d) = (Ok tt, (s', quiet d')) /\
    DiskStorage.Segments s' = closed ++ drop n (DiskStorage.Segments s) /\ length closed = n /\
    DiskStorage.meta s' = DiskStorage.meta s /\
    same_except (owned_by (p_base <$> take n ps)) d d' /\ Forall (part_files d') (take n ps).
Proof.
  intros Hf Hnd. pose proof (parts_u64 _ _ _ Hf) as Hu. induction n as [|n IH]; intros Hn.
  - exists s, d, []. repeat split; try done.
  - destruct IH as (s1 & d1 & closed & HC & Es & Hlen & Em & Hs & Hfs); [lia|].
    destruct (lookup_lt_is_Some_2 ps n) as [p Hp]; [lia|].
    destruct (Forall2_lookup_l _ _ _ _ _ Hf Hp) as (x & Hx & Hpx).
    assert (is_u64 (p_base p)) as Hpu by (by apply (Forall_lookup_1 _ _ _ _ Hu Hp)).
    assert (Forall is_u64 (p_base <$> take n ps)) as Hun by (by apply Forall_fmap, Forall_take).
    assert (p_base p ∉ p_base <$> take n ps) as Hni.
    { rewrite fmap_take. intros (j & Hj & Hjn)%elem_of_take.
      assert ((p_base <$> ps) !! n = Some (p_base p)) as Hpn by (by rewrite list_lookup_fmap, Hp).
      pose proof (NoDup_lookup _ _ _ _ Hnd Hj Hpn). lia. }
    pose proof (part_frame d d1 _ p x Hpx Hun Hs Hni) as [Hp1 Hst1].
    destruct (close_segment_ok d1 (p_base p) (p_es p) (p_tail p) x Hp1) as (x' & d2 & HX & _ & Hpf & Hs2).
    rewrite (drop_S _ _ _ Hx) in Es.
    exists (DiskStorage.set_Segments (closed ++ [x'] ++ drop (S n) (DiskStorage.Segments s)) s1), d2,
      (closed ++ [x']). split; [|split; [|split; [|split; [|split]]]].
    + cbn [DiskStorage.close_segments]. rewrite (bind_ok _ _ _ _ _ HC).
      unfold DiskStorage.on_segment. cbn [fst snd]. rewrite Es, <-Hlen, list_lookup_middle by done.
      rewrite HX. do 4 f_equal. rewrite insert_app_r_alt by lia. by rewrite Nat.sub_diag.
    + cbn. by rewrite <-app_assoc.
    + rewrite length_app. cbn. lia.
    + done.
    + rewrite (take_S_r _ _ _ Hp), fmap_app. apply (same_except_trans _ _ d1).
      * apply (same_except_mono (owned_by (p_base <$> take n ps))); [|done].
        intros m Hm. apply Exists_app. by left.
      * apply (same_except_mono (owned (p_base p))); [|done]. intros m Hm. apply Exists_app. right.
        by constructor.
    + rewrite (take_S_r _ _ _ Hp). apply Forall_app. split.
      * apply Forall_forall. intros q Hq. apply (part_files_frame d1 _ [p_base p]).
        -- by apply (proj1 (Forall_forall _ _) Hfs).
        -- apply elem_of_take in Hq as (j & Hj & _). by apply (Forall_lookup_1 _ _ _ _ Hu Hj).
        -- by constructor.
        -- apply (same_except_mono (owned (p_base p))); [|done]. apply owned_by_one.
        -- rewrite list_elem_of_singleton. intros E. apply Hni. rewrite <-E. by apply list_elem_of_fmap_2.
      * constructor; [|constructor]. unfold part_files. by rewrite <-Hst1.
Qed.

(** * Opening *)

(** A directory that holds the parts [ps] of a log and nothing else that
    looks like a segment; what is known of the files of the last one is [Q]. *)
Record dir_repr (Q : part -> Prop) (d : gmap string bytes) (base : Z) (qs : list part) (p : part) : Prop := {
  dr_linked : linked base (qs ++ [p]);
  dr_closed : closed_but_last (qs ++ [p]);
  dr_ok : Forall part_ok (qs ++ [p]);
  dr_last : p_es p <> [];
  dr_files : Forall (part_files d) qs;
  dr_log : is_Some (d !! log_name SegmentRDWR (p_base p) (p_es p)) /\
           only_files d SegmentRDWR (p_base p) (p_es p);
  dr_Q : Q p;
  dr_tidy : tidy d (qs ++ [p]) }.

Definition part_log (p : part) : string := log_name (p_status p) (p_base p) (p_es p).

Lemma part_name_lt p q :
  is_u64 (p_base p) -> is_u64 (p_base q) -> p_base p < p_base q -> name_lt (part_log p) (part_log q).
Proof.
  intros Hp Hq Hlt. apply (segment_name_lt (p_base p) (p_base q)); try done;
    unfold part_log; destruct (p_status _); constructor.
Qed.

Lemma linked_sorted base ps :
  linked base ps -> Forall (fun p => p_es p <> []) ps -> Forall (fun p => is_u64 (p_base p)) ps ->
  StronglySorted name_lt (part_log <$> ps).
Proof.
  revert base. induction ps as [|p ps IH]; intros base Hl Hne Hu; [constructor|].
  destruct Hl as [Hb Hl]. apply Forall_cons in Hne as [Hpe Hne]. apply Forall_cons in Hu as [Hpu Hu].
  cbn [fmap list_fmap]. constructor; [by apply (IH _ Hl)|].
  apply Forall_fmap, Forall_forall. intros q Hq. cbn. apply part_name_lt; [done| |].
  - by apply (proj1 (Forall_forall _ _) Hu).
  - apply list_elem_of_lookup in Hq as [j Hj]. pose proof (linked_base _ _ _ _ Hl Hj).
    destruct (p_es p); [done|]. rewrite blen_cons in *. len.
Qed.

Lemma part_ok_u64 p : part_ok p -> is_u64 (p_base p).
Proof. intros [[[Hb _] _ _] _]. unfold is_u64. lia. Qed.

Lemma dir_facts Q d base qs p :
  dir_repr Q d base qs p ->
  Forall (fun q => p_status q = SegmentReadOnly /\ p_es q <> []) qs /\ p_status p = SegmentRDWR /\
  Forall (fun q => p_es q <> []) (qs ++ [p]) /\ Forall (fun q => is_u64 (p_base q)) (qs ++ [p]).
Proof.
  intros [Hl Hc Hok Hne Hf Hlog HQ Ht]. apply closed_but_last_app in Hc as [Hro Hrw].
  split; [done|]. split; [done|]. split; [by apply closed_full|].
  eapply Forall_impl; [exact Hok|]. apply part_ok_u64.
Qed.

(** [ReadDir] lists the log files in the order of the log. *)
Lemma listing d base ps :
  linked base ps -> Forall (fun q => p_es q <> []) ps -> Forall (fun q => is_u64 (p_base q)) ps ->
  Forall (fun q => is_Some (d !! part_log q) /\ only_files d (p_status q) (p_base q) (p_es q)) ps ->
  tidy d ps ->
  filter (fun n => HasSuffix n LogSuffix = true) (sorted_names d) = part_log <$> ps.
Proof.
  intros Hl Hne Hu Hf Ht. apply sorted_logs; [by apply (linked_sorted base)|]. intros n. split.
  - intros (q & -> & Hq)%list_elem_of_fmap. split; [|apply log_name_suffix].
    by apply (proj1 (Forall_forall _ _) Hf) in Hq as [? _].
  - intros [Hn Hsuf]. destruct (Ht n Hn (or_intror Hsuf)) as (q & Hq & Ho).
    apply list_elem_of_fmap. exists q. split; [|done].
    pose proof (proj1 (Forall_forall _ _) Hf q Hq) as [_ Hof].
    destruct (Hof n Ho Hn) as [E|E]; [done|]. by rewrite E, idx_name_suffix in Hsuf.
Qed.

Lemma part_files_log d q :
  part_files d q -> is_Some (d !! part_log q) /\ only_files d (p_status q) (p_base q) (p_es q).
Proof. intros (Hl & _ & Ho). unfold part_log. by rewrite Hl. Qed.

Lemma dir_listing Q d base qs p :
  dir_repr Q d base qs p ->
  filter (fun n => HasSuffix n LogSuffix = true) (sorted_names d) = part_log <$> (qs ++ [p]).
Proof.
  intros Hd. destruct (dir_facts _ _ _ _ _ Hd) as (Hro & Hrw & Hne & Hu).
  destruct Hd as [Hl Hc Hok Hlast Hf Hlog HQ Ht]. apply (listing d base); try done.
  apply Forall_app. split; [|constructor; [|constructor]].
  - eapply Forall_impl; [exact Hf|]. apply part_files_log.
  - unfold part_log. by rewrite Hrw.
Qed.

Lemma open_readonly_ok d qs :
  Forall (part_files d) qs -> Forall part_ok qs ->
  Forall (fun q => p_status q = SegmentReadOnly /\ p_es q <> []) qs ->
  exists ss, Segment.open_readonly (part_log <$> qs) (quiet d) = (Ok ss, quiet d) /\
    Forall2 (part_repr d) qs ss.
Proof.
  intros Hf Hok Hro. induction qs as [|q qs IH]; [by exists []; split|].
  apply Forall_cons in Hf as [Hq Hf]. apply Forall_cons in Hok as [[Hqo Hqs] Hok].
  apply Forall_cons in Hro as [[Hst Hqe] Hro].
  destruct (IH Hf Hok Hro) as (ss & HO & Hss). unfold part_files in Hq. rewrite Hst in Hq.
  destruct (openSegment_ro_ok size_ok d (p_base q) (p_es q) (p_tail q) Hqo Hqe Hqs Hq)
    as (x & HX & Hx & Hstx & _).
  exists (x :: ss). split.
  - cbn [fmap list_fmap Segment.open_readonly]. unfold part_log at 1. rewrite Hst. cbn [log_name].
    rewrite (bind_ok _ _ _ _ _ HX), (bind_ok _ _ _ _ _ HO). done.
  - constructor; [|done]. split; [done|]. by rewrite Hst.
Qed.

(** Opening the segments, given that the last one can be opened. *)
Lemma openSegments_ok Q d base qs p needRecover x d' :
  dir_repr Q d base qs p ->
  Segment.openSegment (ReadWriteSegmentName (p_base p)) SegmentRDWR needRecover (quiet d) =
    (Ok x, quiet d') ->
  part_repr d' p x -> same_except (owned (p_base p)) d d' ->
  exists ss, Segment.openSegments needRecover (quiet d) = (Ok ss, quiet d') /\
    Forall2 (part_repr d') (qs ++ [p]) ss.
Proof.
  intros Hd HX Hx Hs. pose proof (dir_listing _ _ _ _ _ Hd) as Hls.
  destruct (dir_facts _ _ _ _ _ Hd) as (Hro & Hrw & Hne & Hu).
  destruct Hd as [Hl Hc Hok Hlast Hf _ _ _]. apply Forall_app in Hok as [Hokq Hokp].
  destruct (open_readonly_ok d qs Hf Hokq Hro) as (ss & HO & Hss).
  exists (ss ++ [x]). split.
  - unfold Segment.openSegments. erewrite bind_ok; [|reflexivity]. cbn [files]. rewrite Hls.
    rewrite fmap_app, rev_app_distr. cbn [fmap list_fmap rev app].
    rewrite rev_involutive, (bind_ok _ _ _ _ _ HO). unfold part_log. rewrite Hrw. cbn [log_name].
    by rewrite (bind_ok _ _ _ _ _ HX).
  - apply Forall2_app; [|constructor; [done|constructor]].
    apply Forall_app in Hu as [Huq Hup]. apply Forall_cons in Hup as [Hup _].
    apply (parts_frame d _ [p_base p]); [done|by constructor| |].
    + apply (same_except_mono (owned (p_base p))); [|done]. apply owned_by_one.
    + destruct (linked_order base qs p [] Hl Hc Hlast) as (_ & Hlt & _).
      eapply Forall_impl; [exact Hlt|]. cbn. intros q Hq. rewrite list_elem_of_singleton. lia.
Qed.

Lemma listing_exist_log d ps p :
  filter (fun n => HasSuffix n LogSuffix = true) (sorted_names d) = part_log <$> ps -> p ∈ ps ->
  ExistLog (quiet d) = (true, quiet d).
Proof.
  intros Hls Hp. unfold ExistLog. cbn. f_equal. apply existsb_exists. exists (part_log p).
  assert (part_log p ∈ filter (fun n => HasSuffix n LogSuffix = true) (sorted_names d)) as Hin.
  { rewrite Hls. by apply list_elem_of_fmap_2. }
  apply list_elem_of_filter in Hin as [H1 H2]. split; [by apply list_elem_of_In|done].
Qed.

Lemma dir_exist_log Q d base qs p : dir_repr Q d base qs p -> ExistLog (quiet d) = (true, quiet d).
Proof.
  intros Hd. apply (listing_exist_log d (qs ++ [p]) p).
  - by eapply dir_listing.
  - apply elem_of_app. right. constructor.
Qed.

(** [initSegments] when there is a log. *)
Lemma initSegments_opens (s : DiskStorage.t M) d v m1 :
  ExistLog (quiet d) = (true, quiet d) -> meta_Get NeedRecoverKey (DiskStorage.meta s) = (Ok v, m1) ->
  DiskStorage.initSegments (s, quiet d) =
    (let! segs := on_fs (Segment.openSegments (bool_decide (v = Some bytes_true))) in
     set_obj (DiskStorage.set_Segments segs)) (with_meta m1 s, quiet d).
Proof.
  intros HE Hg. unfold DiskStorage.initSegments. erewrite bind_ok; cycle 1.
  { cbn [snd fst]. rewrite HE. reflexivity. }
  cbn [negb]. erewrite bind_ok; cycle 1.
  { unfold DiskStorage.getRecover. erewrite bind_ok; [reflexivity|].
    unfold fatal_on_err, DiskStorage.on_meta, zoom. cbn [fst snd]. rewrite Hg. reflexivity. }
  replace (match v with Some v => bool_decide (v = bytes_true) | None => false end)
    with (bool_decide (v = Some bytes_true)); [done|].
  destruct v as [v|]; [|done]. apply bool_decide_ext. split; [by intros [= ->]|by intros ->].
Qed.

(** [NewDiskStorage] on such a directory. *)
Lemma NewDiskStorage_ok Q d base qs p (m m1 m2 : M) v x d' reserve :
  dir_repr Q d base qs p ->
  meta_Get NeedRecoverKey m = (Ok v, m1) -> meta_Set NeedRecoverKey bytes_true m1 = (Ok tt, m2) ->
  Segment.openSegment (ReadWriteSegmentName (p_base p)) SegmentRDWR (bool_decide (v = Some bytes_true))
    (quiet d) = (Ok x, quiet d') ->
  part_repr d' p x -> same_except (owned (p_base p)) d d' ->
  exists s,
    DiskStorage.NewDiskStorage reserve m (quiet d) = (Ok s, quiet d') /\
    sto_repr d' base (qs ++ [p]) [] s /\ DiskStorage.meta s = m2.
Proof.
  intros Hd Hg Hset HX Hx Hs.
  destruct (openSegments_ok _ _ _ _ _ _ _ _ Hd HX Hx Hs) as (ss & HO & Hss).
  eexists. split; [|split; [split|]].
  - unfold DiskStorage.NewDiskStorage. set (s0 := DiskStorage.mk _ _ _ _ m).
    erewrite bind_ok; cycle 1.
    { rewrite (initSegments_opens s0 d v m1 (dir_exist_log _ _ _ _ _ Hd) Hg).
      erewrite bind_ok; [reflexivity|]. unfold on_fs, zoom. cbn [fst snd]. rewrite HO. reflexivity. }
    unfold DiskStorage.setRecover, fatal_on_err, DiskStorage.on_meta, zoom. cbn.
    rewrite Hset. reflexivity.
  - exact Hss.
  - apply Hd.
  - apply Hd.
  - constructor.
  - constructor.
  - constructor.
  - cbn [app]. apply (tidy_update d _ [p_base p] (qs ++ [p])); [apply Hd| | |].
    + apply (same_except_mono (owned (p_base p))); [|done]. apply owned_by_one.
    + repeat constructor. rewrite fmap_app. apply elem_of_app. right. constructor.
    + intros q Hq. right. by apply list_elem_of_fmap_2.
  - done.
Qed.

(** * Closing, crashing, opening again *)

Lemma Close_ok d base ps (s : DiskStorage.t M) m1 :
  sto_repr d base ps [] s ->
  meta_Set NeedRecoverKey bytes_false (DiskStorage.meta s) = (Ok tt, m1) ->
  exists s' d',
    DiskStorage.Close (s, quiet d) = (Ok tt, (s', quiet d')) /\
    DiskStorage.meta s' = (meta_Close2 m1).2 /\
    Forall (part_files d') ps /\ tidy d' ps.
Proof.
  intros [Hf Hl Hc Hd Ho Hso Ht] Hset. pose proof (linked_NoDup _ _ Hl Hc) as Hnd.
  set (s0 := DiskStorage.set_purgeStarted false s).
  destruct (close_segments_ok d s0 ps (length ps) Hf Hnd ltac:(lia))
    as (s1 & d' & closed & HC & _ & _ & Em & Hs & Hfs).
  rewrite firstn_all in Hs, Hfs. pose proof (Forall2_length _ _ _ Hf) as Hlen.
  destruct (meta_Close2 m1) as [rc m2] eqn:Ec.
  eexists _, d'. split; [|split; [|split; [done|]]].
  - unfold DiskStorage.Close. rewrite (bind_ok (set_obj _) _ _ _ _ eq_refl). cbn [fst snd]. fold s0.
    rewrite (bind_ok (obj _) _ _ _ _ eq_refl). cbn [fst snd s0 DiskStorage.set_purgeStarted DiskStorage.Segments].
    rewrite <-Hlen. fold s0. rewrite (bind_ok _ _ _ _ _ HC).
    erewrite bind_ok; cycle 1.
    { unfold DiskStorage.setRecover, fatal_on_err, DiskStorage.on_meta, zoom. cbn [fst snd].
      rewrite Em. cbn. rewrite Hset. reflexivity. }
    unfold DiskStorage.on_meta, zoom. cbn. rewrite Ec. reflexivity.
  - done.
  - apply (tidy_update d _ (p_base <$> ps) ps); [done|done| |].
    + by apply Forall_forall.
    + intros p Hp. left. by apply list_elem_of_fmap_2.
Qed.

Lemma closed_dir d base qs p :
  linked base (qs ++ [p]) -> closed_but_last (qs ++ [p]) -> Forall part_ok (qs ++ [p]) ->
  p_es p <> [] -> Forall (part_files d) (qs ++ [p]) -> tidy d (qs ++ [p]) ->
  dir_repr (part_files d) d base qs p.
Proof.
  intros Hl Hc Hok Hne Hf Ht. apply Forall_app in Hf as [Hfq Hfp].
  apply Forall_cons in Hfp as [Hfp _]. pose proof Hc as [_ Hrw]%closed_but_last_app.
  split; try done. unfold part_files in Hfp. rewrite Hrw in Hfp. destruct Hfp as (Hlog & _ & Ho).
  by rewrite Hlog.
Qed.

Lemma parts_ok d ps ss : Forall2 (part_repr d) ps ss -> Forall part_ok ps.
Proof. induction 1; constructor; [by eapply part_repr_ok | done]. Qed.

(** The directory of a running storage: what a crash leaves. The index file
    of the last segment may be behind. *)
Definition crashed (d : gmap string bytes) (p : part) : Prop :=
  d !! ReadWriteSegmentName (p_base p) = Some (frames (p_es p) ++ p_tail p) /\
  torn_tail (p_es p) (p_tail p) /\ is_Some (d !! ReadWriteIndexName (p_base p)).

Lemma running_files d p x :
  part_repr d p x -> p_status p = SegmentReadOnly -> part_files d p.
Proof.
  intros [[Hd _] Hst] Hro. unfold part_files. rewrite Hro. rewrite Hro in Hst.
  destruct Hd as [_ _ _ _ _ _ Hf _ _ _ Hidx Honly]. rewrite Hst in *.
  split; [done|]. split; [|done]. by inversion Hidx.
Qed.

Lemma running_crashed d p x n :
  part_repr d p x -> p_status p = SegmentRDWR -> p_tail p = zeros n ->
  crashed d p /\ only_files d SegmentRDWR (p_base p) (p_es p).
Proof.
  intros [[Hd _] Hst] Hrw Ht. rewrite Hrw in Hst.
  destruct Hd as [_ _ _ _ _ _ Hf Hfit _ _ Hidx Honly]. rewrite Hst in *. split; [|done].
  split; [done|]. split.
  - split; [by rewrite blen_app|]. left. eauto.
  - inversion Hidx as [rw Hrr|]; subst. destruct Hrr as [_ _ _ _ _ _ (c & Hc & _)]. by exists c.
Qed.

Lemma crashed_dir d base qs p (s : DiskStorage.t M) :
  sto_repr d base (qs ++ [p]) [] s -> p_es p <> [] -> clean (qs ++ [p]) ->
  dir_repr (crashed d) d base qs p.
Proof.
  intros Hr Hne Hcl. pose proof Hr as [Hf Hl Hc _ _ _ Ht].
  destruct (sto_split_last _ _ _ _ _ _ Hr) as (ss & x & Es & Hfq & Hp & _ & _ & Hro & Hrw & _).
  apply Forall_app in Hcl as [_ Hcp]. apply Forall_cons in Hcp as [[n Hn] _].
  destruct (running_crashed d p x n Hp Hrw Hn) as [Hcr Ho].
  split; try done; [by eapply parts_ok| |].
  - apply Forall_forall. intros q [j Hj]%list_elem_of_lookup.
    destruct (Forall2_lookup_l _ _ _ _ _ Hfq Hj) as (y & _ & Hy).
    apply (running_files d q y Hy). by apply (Forall_lookup_1 _ _ _ _ Hro Hj).
  - split; [|done]. cbn. destruct Hcr as [-> _]. done.
Qed.

(** Opening a directory that a crash left. *)
Lemma recover_ok d base qs p (m m1 m2 : M) reserve :
  dir_repr (crashed d) d base qs p ->
  meta_Get NeedRecoverKey m = (Ok (Some bytes_true), m1) ->
  meta_Set NeedRecoverKey bytes_true m1 = (Ok tt, m2) ->
  exists s d',
    DiskStorage.NewDiskStorage reserve m (quiet d) = (Ok s, quiet d') /\
    sto_repr d' base (qs ++ [p]) [] s /\ DiskStorage.meta s = m2 /\ same_except (owned (p_base p)) d d'.
Proof.
  intros Hd Hg Hset. pose proof Hd as [Hl Hc Hok Hne Hf [_ Ho] (Hlog & Ht & [old Hi]) Hti].
  apply Forall_app in Hok as [_ Hok]. apply Forall_cons in Hok as [[Hok _] _].
  pose proof Hc as [_ Hrw]%closed_but_last_app.
  destruct (openSegment_recover_ok size_ok d (p_base p) (p_es p) (p_tail p) old Hok Hne Ht Hlog Hi Ho)
    as (x & d' & HX & Hx & Hst & Hs).
  destruct (NewDiskStorage_ok (crashed d) d base qs p m m1 m2 (Some bytes_true) x d' reserve Hd Hg Hset)
    as (s & HN & Hr & Hm); [by rewrite bool_decide_true | | done |].
  - split; [done|]. by rewrite Hrw.
  - exists s, d'. repeat (split; [done|]). done.
Qed.

(** Opening a directory that [Close] left. *)
Lemma reopen_ok d base qs p (m m1 m2 : M) v reserve :
  dir_repr (part_files d) d base qs p -> v <> Some bytes_true ->
  meta_Get NeedRecoverKey m = (Ok v, m1) -> meta_Set NeedRecoverKey bytes_true m1 = (Ok tt, m2) ->
  exists s,
    DiskStorage.NewDiskStorage reserve m (quiet d) = (Ok s, quiet d) /\
    sto_repr d base (qs ++ [p]) [] s.
Proof.
  intros Hd Hv Hg Hset. pose proof Hd as [Hl Hc Hok Hne Hf _ Hp Hti].
  apply Forall_app in Hok as [_ Hok]. apply Forall_cons in Hok as [[Hok Hsz] _].
  pose proof Hc as [_ Hrw]%closed_but_last_app. unfold part_files in Hp. rewrite Hrw in Hp.
  destruct (openSegment_rw_ok size_ok d (p_base p) (p_es p) (p_tail p) Hok Hne Hsz Hp)
    as (x & HX & Hx & Hst).
  destruct (NewDiskStorage_ok (part_files d) d base qs p m m1 m2 v x d reserve Hd Hg Hset)
    as (s & HN & Hr & _); [by rewrite bool_decide_false | | | eauto].
  - split; [done|]. by rewrite Hrw.
  - apply same_except_refl.
Qed.

(** The last segment of a crashed directory with the length of one more
    record, and not the record, stored after its entries. *)
Lemma torn_dir d base qs p n t :
  dir_repr (crashed d) d base qs p -> p_tail p = zeros t -> 0 < n < 2 ^ 32 -> 4 + n <= t ->
  let tail := le_bytes 4 n ++ zeros (t - 4) in
  let d' := <[ReadWriteSegmentName (p_base p) := frames (p_es p) ++ tail]> d in
  dir_repr (crashed d') d' base qs (Part (p_base p) (p_es p) tail (p_status p)).
Proof.
  intros Hd Ht Hn Hfit tail d'. set (p' := Part _ _ _ _).
  destruct (dir_facts _ _ _ _ _ Hd) as (_ & Hrw & _ & Hu).
  destruct Hd as [Hl Hc Hok Hne Hf [_ Ho] (Hlog & [Hsz _] & Hi) Hti].
  assert (blen (frames (p_es p) ++ tail) = SegmentSize) as Hsz'.
  { rewrite Ht, blen_app, blen_zeros in Hsz. unfold tail. rewrite !blen_app, blen_le_bytes, blen_zeros. lia. }
  apply Forall_app in Hu as [Huq Hup]. apply Forall_cons in Hup as [Hup _].
  assert (same_except (owned_by [p_base p]) d d') as Hs.
  { apply (same_except_mono (owned (p_base p))); [apply owned_by_one|]. apply same_except_insert.
    auto with go. }
  split.
  - apply linked_app in Hl as [Hl1 Hl2]. by apply linked_app.
  - apply closed_but_last_app in Hc as [Hc1 Hc2]. by apply closed_but_last_app.
  - apply Forall_app in Hok as [Hq Hp]. apply Forall_app. split; [done|].
    apply Forall_cons in Hp as [[Hp _] _]. by constructor; [|constructor].
  - done.
  - apply Forall_forall. intros q Hq.
    apply (part_files_frame d d' [p_base p]); [| | by constructor | done |].
    + by apply (proj1 (Forall_forall _ _) Hf).
    + by apply (proj1 (Forall_forall _ _) Huq).
    + destruct (linked_order base qs p [] Hl Hc Hne) as (_ & Hlt & _).
      apply (proj1 (Forall_forall _ _) Hlt) in Hq. rewrite list_elem_of_singleton. lia.
  - cbn [p' p_base p_es]. split.
    + cbn [log_name]. unfold d'. by rewrite lookup_insert_eq.
    + eapply only_files_same; [exact Ho|]. apply same_except_insert. by left.
  - split; cbn [p' p_base p_es p_tail].
    + unfold d'. by rewrite lookup_insert_eq.
    + split; [|].
      * split; [done|]. right. exists n, (t - 4). repeat split; try done; lia.
      * unfold d'. by rewrite lookup_insert_ne by (intros E; by apply (rw_idx_log_ne (p_base p))).
  - apply (tidy_update d d' [p_base p] (qs ++ [p])); [done|done| |].
    + constructor; [|constructor]. rewrite fmap_app. apply elem_of_app. right. constructor.
    + intros q [Hq|Hq%list_elem_of_singleton]%elem_of_app; [|left; subst; constructor].
      right. rewrite fmap_app. apply elem_of_app. left. by apply list_elem_of_fmap_2.
Qed.

(** A directory whose last segment has been given its final name: the name is
    not that of a segment in progress, and the storage cannot be opened. *)
Lemma all_readonly_panics d base qs p (m m1 : M) v reserve :
  linked base (qs ++ [p]) -> Forall part_ok (qs ++ [p]) ->
  Forall (fun q => p_status q = SegmentReadOnly /\ p_es q <> []) (qs ++ [p]) ->
  Forall (part_files d) (qs ++ [p]) -> tidy d (qs ++ [p]) ->
  meta_Get NeedRecoverKey m = (Ok v, m1) ->
  DiskStorage.NewDiskStorage reserve m (quiet d) = (Panic, quiet d).
Proof.
  intros Hl Hok Hro Hf Ht Hg.
  assert (filter (fun n => HasSuffix n LogSuffix = true) (sorted_names d) = part_log <$> (qs ++ [p])) as Hls.
  { apply (listing d base); [done| | | |done].
    - eapply Forall_impl; [exact Hro|]. by intros q [_ ?].
    - eapply Forall_impl; [exact Hok|]. apply part_ok_u64.
    - eapply Forall_impl; [exact Hf|]. apply part_files_log. }
  apply Forall_app in Hok as [Hokq Hokp]. apply Forall_app in Hro as [Hroq Hrop].
  apply Forall_app in Hf as [Hfq Hfp]. apply Forall_cons in Hokp as [[[Hb _ _] Hsz] _].
  apply Forall_cons in Hrop as [[Hst Hpe] _]. apply Forall_cons in Hfp as [Hfp _].
  destruct (open_readonly_ok d qs Hfq Hokq Hroq) as (ss & HO & _).
  assert (forall b, Segment.openSegments b (quiet d) = (Panic, quiet d)) as HS.
  { intros b. unfold Segment.openSegments. erewrite bind_ok; [|reflexivity]. cbn [files]. rewrite Hls.
    rewrite fmap_app, rev_app_distr. cbn [fmap list_fmap rev app].
    rewrite rev_involutive, (bind_ok _ _ _ _ _ HO). apply bind_panic. unfold part_log. rewrite Hst.
    cbn [log_name]. unfold Segment.openSegment. unfold part_files in Hfp. rewrite Hst in Hfp.
    destruct Hfp as (Hfile & _). rewrite (bind_ok _ _ _ _ _ (openMmapFile_ok d _ _ Hfile ltac:(lia))).
    rewrite decide_False by done. by rewrite scan_readwrite_readonly by (unfold is_u64; lia). }
  assert (ExistLog (quiet d) = (true, quiet d)) as HE.
  { apply (listing_exist_log d _ p Hls). apply elem_of_app. right. constructor. }
  unfold DiskStorage.NewDiskStorage. set (s0 := DiskStorage.mk _ _ _ _ m).
  assert (exists s1, DiskStorage.initSegments (s0, quiet d) = (Panic, (s1, quiet d))) as [s1 HI].
  { eexists. rewrite (initSegments_opens s0 d v m1 HE Hg).
    apply bind_panic. unfold on_fs, zoom. cbn [fst snd]. rewrite HS. reflexivity. }
  by rewrite (bind_panic _ _ _ _ HI).
Qed.
End Recovery.
