(* ===== verification/RaftNode.v ===== *)
(** The raft node, raft/raft.go: [appendRaftEntries], [updateCommittedIndex],
    [processMessages], [MustGetAppliedIndex] and what [Run] does with a
    [Ready] of the raft library. The node is written against the interface of
    its storage; its theorems use the laws of the interface, which LogStore.v
    gives for the disk storage. *)
From S2P Require Import Prelude Wire Names Disk IndexFile Segments Storage LogStore.
Local Open Scope Z_scope.
Local Open Scope go_scope.

(** * The storage of a node *)

(** storage.go: the methods of [Storage] that the node calls. *)
Class RaftStorage (S : Type) : Type := {
  rs_LastIndex : St S Z;
  rs_TruncateSuffix : Z -> St S unit;
  rs_SaveRaftEntries : list Entry.t -> St S unit;
  rs_SaveHardState : HardState.t -> St S unit;
  rs_Get : bytes -> St S (option bytes) }.

(** What they promise. [rs_holds base es s]: the log of [s] is [es], the first
    entry at index [base]. [rs_holds_cut] is weaker, it is all that is known
    after a truncation. [rs_cuttable i s]: a truncation at [i] can succeed,
    [rs_accepts i es]: the entries [es] can be stored from index [i] on. *)
Class RaftStorageLaws (S : Type) `{RaftStorage S} : Type := {
  rs_holds : Z -> list Entry.t -> S -> Prop;
  rs_holds_cut : Z -> list Entry.t -> S -> Prop;
  rs_cuttable : Z -> S -> Prop;
  rs_accepts : Z -> list Entry.t -> Prop;
  law_cut base es s : rs_holds base es s -> rs_holds_cut base es s;
  law_last base es s :
    rs_holds base es s ->
    rs_LastIndex s = (Ok (match es with [] => 0 | _ => base + blen es - 1 end), s);
  law_truncate base es s i :
    rs_holds base es s -> base <= i < base + blen es -> rs_cuttable i s ->
    exists s', rs_TruncateSuffix i s = (Ok tt, s') /\
      rs_holds_cut base (take (Z.to_nat (i - base)) es) s';
  law_save base es s new :
    rs_holds_cut base es s -> new <> [] -> rs_accepts (base + blen es) new ->
    exists s', rs_SaveRaftEntries new s = (Ok tt, s') /\ rs_holds base (es ++ new) s';
  law_accepts i e new : rs_accepts i (e :: new) -> Entry.Index e = i /\ 0 < i;
  law_hard base es s h s' :
    rs_holds base es s -> rs_SaveHardState h s = (Ok tt, s') -> rs_holds base es s' }.

(** * Messages and the [Ready] of the raft library *)

(** The types of message that the node looks at, and any other. *)
Inductive MessageType : Type :=
  MsgAppResp | MsgSnap | MsgHeartbeat | MsgOther (n : Z).

(** [raftpb.Message]: the fields that the node does not look at are [Rest]. *)
Module Message.
Record t (P : Type) : Type := mk { Type_ : MessageType; To : Z; Rest : P }.
Arguments mk {P}.
Arguments Type_ {P}.
Arguments To {P}.
Arguments Rest {P}.
Definition set_To {P} (n : Z) (m : t P) : t P := mk (Type_ m) n (Rest m).
End Message.

Inductive StateType : Type := StateFollower | StateCandidate | StateLeader | StatePreCandidate.
#[export] Instance StateType_eq_dec : EqDecision StateType.
Proof. solve_decision. Defined.

Module Ready.
Record t (P R : Type) : Type := mk {
  SoftState : option (Z * StateType);
  HardState : HardState.t;
  ReadStates : list R;
  Entries : list Entry.t;
  CommittedEntries : list Entry.t;
  Messages : list (Message.t P) }.
Arguments SoftState {P R}.
Arguments HardState {P R}.
Arguments ReadStates {P R}.
Arguments Entries {P R}.
Arguments CommittedEntries {P R}.
Arguments Messages {P R}.
Arguments mk {P R}.
End Ready.

Module RaftNode.
Section RaftNode.
Context {S P R : Type} `{RaftStorage S}.

Definition maxInFlightMsgSnap : Z := 16.

(** What the node does to the world besides its storage, in order. A message
    sent carries the storage as it was when the message left. *)
Inductive event : Type :=
  | UpdateLead (lead : Z)
  | UpdateLeadership (leadChange : bool)
  | SendReadState (r : R)
  | UpdateCommittedIndex (ci : Z)
  | Send (ms : list (Message.t P)) (stored : S)
  | Apply (entries : list Entry.t) (stored : S)
  | WaitApplied
  | Advance.

(** The node: its storage, the leader that the server knows ([rh.GetLead]),
    the local [isLead] of [Run], the snapshot messages in [msgSnapC], and the
    events so far. *)
Record t : Type := mk {
  Storage : S;
  lead : Z;
  isLead : bool;
  msgSnapC : list (Message.t P);
  trace : list event }.

Definition set_Storage (s : S) (n : t) : t := mk s (lead n) (isLead n) (msgSnapC n) (trace n).
Definition set_lead (l : Z) (n : t) : t := mk (Storage n) l (isLead n) (msgSnapC n) (trace n).
Definition set_isLead (b : bool) (n : t) : t := mk (Storage n) (lead n) b (msgSnapC n) (trace n).
Definition set_msgSnapC (c : list (Message.t P)) (n : t) : t :=
  mk (Storage n) (lead n) (isLead n) c (trace n).
Definition emit (e : event) : St t unit :=
  modify (fun n => mk (Storage n) (lead n) (isLead n) (msgSnapC n) (trace n ++ [e])).

Definition appendRaftEntries (entries : list Entry.t) : St S unit :=
  match entries with
  | [] => ret tt
  | e :: _ =>
      let! lastIndex := rs_LastIndex in
      (if Entry.Index e <=? lastIndex then rs_TruncateSuffix (Entry.Index e) else ret tt) ;!
      rs_SaveRaftEntries entries
  end.

(** The index that [updateCommittedIndex] reports, if it reports one. *)
Definition updateCommittedIndex (entries : list Entry.t) : St t unit :=
  let ci := match rev entries with [] => 0 | e :: _ => Entry.Index e end in
  if ci =? 0 then ret tt else emit (UpdateCommittedIndex ci).

(** [processMessages] goes through the messages from the last one on: [rms]
    is what it has not seen, in that order. [snap] is [msgSnapC]. The
    heartbeats that [td.Observe] times are not changed. *)
Fixpoint process_loop (IsIDRemoved : Z -> bool) (rms : list (Message.t P)) (sentAppResp : bool)
    (snap : list (Message.t P)) : list (Message.t P) * list (Message.t P) :=
  match rms with
  | [] => ([], snap)
  | m :: rms' =>
      let m := if IsIDRemoved (Message.To m) then Message.set_To 0 m else m in
      let '(m, sentAppResp, snap) :=
        match Message.Type_ m with
        | MsgAppResp => (if sentAppResp then Message.set_To 0 m else m, true, snap)
        | MsgSnap =>
            (Message.set_To 0 m, sentAppResp,
             if blen snap <? maxInFlightMsgSnap then snap ++ [m] else snap)
        | _ => (m, sentAppResp, snap)
        end in
      let '(ms, snap) := process_loop IsIDRemoved rms' sentAppResp snap in
      (ms ++ [m], snap)
  end.

Definition processMessages (IsIDRemoved : Z -> bool) (ms : list (Message.t P)) : St t (list (Message.t P)) :=
  fun n => let '(ms', snap) := process_loop IsIDRemoved (rev ms) false (msgSnapC n) in
           (Ok ms', set_msgSnapC snap n).

(** A [select] on a channel: the value went through, the time ran out, or the
    node was stopped. *)
Inductive select : Type := Through | TimedOut | Stopped.

Definition on_storage {A} (m : St S A) : St t A := zoom Storage set_Storage m.

Definition send (ms : list (Message.t P)) : St t unit := fun n => emit (Send ms (Storage n)) n.

Definition send_apply (entries : list Entry.t) : St t unit :=
  fun n => emit (Apply entries (Storage n)) n.

(** The case of a [Ready] in the loop of [Run], in three parts: the soft
    state, ... *)
Definition ready_soft_state (rd : Ready.t P R) : St t unit :=
  match Ready.SoftState rd with
  | None => ret tt
  | Some (newLead, state) =>
      let! oldLead := gets lead in
      let leadChange := negb (newLead =? 0) && negb (oldLead =? newLead) in
      modify (set_lead newLead) ;! emit (UpdateLead newLead) ;!
      modify (set_isLead (bool_decide (state = StateLeader))) ;!
      emit (UpdateLeadership leadChange)
  end.

(** ... the last read state, [rc] being the outcome of sending it (the result
    tells whether the loop goes on), ... *)
Definition ready_read_states (rc : select) (rd : Ready.t P R) : St t bool :=
  match rev (Ready.ReadStates rd) with
  | [] => ret true
  | r :: _ => match rc with
              | Through => emit (SendReadState r) ;! ret true
              | TimedOut => ret true
              | Stopped => ret false
              end
  end.

(** ... and what happens once the [Ready] is stored, [ac] being the outcome of
    sending the entries to apply. *)
Definition ready_apply (IsIDRemoved : Z -> bool) (ac : select) (leader : bool) (rd : Ready.t P R)
    : St t bool :=
  match ac with
  | Through =>
      send_apply (Ready.CommittedEntries rd) ;!
      (if leader then ret tt else
       let! msgs := processMessages IsIDRemoved (Ready.Messages rd) in
       (if existsb (fun e => Entry.Type_ e =? Entry.EntryConfChange) (Ready.CommittedEntries rd)
        then emit WaitApplied else ret tt) ;!
       send msgs) ;!
      emit Advance ;!
      ret true
  | _ => ret false
  end.

Definition handle_ready (IsIDRemoved : Z -> bool) (rc ac : select) (rd : Ready.t P R) : St t bool :=
  ready_soft_state rd ;!
  let! goon := ready_read_states rc rd in
  if negb goon then ret false else
  updateCommittedIndex (Ready.CommittedEntries rd) ;!
  let! leader := gets isLead in
  (if leader then let! ms := processMessages IsIDRemoved (Ready.Messages rd) in send ms else ret tt) ;!
  (if bool_decide (Ready.HardState rd = HardState.empty) then ret tt
   else fatal_on_err (on_storage (rs_SaveHardState (Ready.HardState rd)))) ;!
  fatal_on_err (on_storage (appendRaftEntries (Ready.Entries rd))) ;!
  ready_apply IsIDRemoved ac leader rd.

(** [MustGetAppliedIndex]; [BigEndian.Uint64] panics on less than 8 bytes. *)
Definition AppliedIndexKey : bytes := [97; 112; 112; 108; 121; 95; 105; 110; 100; 101; 120].

Definition MustGetAppliedIndex : St S Z :=
  let! value := fatal_on_err (rs_Get AppliedIndexKey) in
  let value := default [] value in
  if blen value =? 0 then ret 0 else
  let! b := must (slice value 0 8) in
  ret (be_val b).

End RaftNode.
End RaftNode.

(** * The node over any storage that keeps the laws *)

Section Generic.
Context {S P R : Type} `{RaftStorageLaws S}.

Definition isAppResp (m : Message.t P) : bool :=
  match Message.Type_ m with MsgAppResp => true | _ => false end.
Definition isSnap (m : Message.t P) : bool :=
  match Message.Type_ m with MsgSnap => true | _ => false end.

(** What [processMessages] does to each message, given whether an [AppResp]
    follows it: those to removed members, all snapshots and all but the last
    [AppResp] are not sent. *)
Definition routed (IsIDRemoved : Z -> bool) (followed : bool) (m : Message.t P) : Message.t P :=
  if IsIDRemoved (Message.To m) || isSnap m || (isAppResp m && followed)
  then Message.set_To 0 m else m.

Fixpoint route (IsIDRemoved : Z -> bool) (followed : bool) (ms : list (Message.t P)) :=
  match ms with
  | [] => []
  | m :: ms' => routed IsIDRemoved (existsb isAppResp ms' || followed) m :: route IsIDRemoved followed ms'
  end.

(** A snapshot message as it is handed to the server. *)
Definition removed_to (IsIDRemoved : Z -> bool) (m : Message.t P) : Message.t P :=
  if IsIDRemoved (Message.To m) then Message.set_To 0 m else m.

Lemma route_snoc rm b ms m :
  route rm b (ms ++ [m]) = route rm (isAppResp m || b) ms ++ [routed rm b m].
Proof.
  induction ms as [|m' ms IH]; [done|]. cbn [app route].
  rewrite IH, existsb_app. cbn [existsb]. by rewrite orb_false_r, !orb_assoc.
Qed.

Lemma process_loop_route rm rms sent snap :
  (RaftNode.process_loop rm rms sent snap).1 = route rm sent (rev rms).
Proof.
  revert sent snap. induction rms as [|m rms IH]; intros sent snap; [done|].
  cbn [RaftNode.process_loop rev]. rewrite route_snoc.
  unfold routed, isAppResp, isSnap. destruct m as [ty to rest]. cbn [Message.To Message.Type_].
  assert (forall b, Message.Type_ (if b : bool then Message.set_To 0 (Message.mk ty to rest)
    else Message.mk ty to rest) = ty) as -> by (by intros []).
  destruct ty; cbn [orb];
  match goal with |- context [RaftNode.process_loop ?a ?b ?c ?d] =>
    specialize (IH c d); destruct (RaftNode.process_loop a b c d) as [ms' snap'] end;
  cbn [fst] in *; rewrite IH; f_equal; destruct (rm to), sent; done.
Qed.

Lemma process_loop_snap rm rms sent snap :
  blen snap <= RaftNode.maxInFlightMsgSnap ->
  (RaftNode.process_loop rm rms sent snap).2 =
    take (Z.to_nat RaftNode.maxInFlightMsgSnap) (snap ++ (removed_to rm <$> List.filter isSnap rms)).
Proof.
  unfold RaftNode.maxInFlightMsgSnap, blen.
  revert sent snap. induction rms as [|m rms IH]; intros sent snap Hl.
  - cbn. by rewrite app_nil_r, take_ge by lia.
  - cbn [RaftNode.process_loop List.filter]. unfold isSnap at 1, removed_to.
    destruct m as [ty to rest]. cbn [Message.To Message.Type_].
    assert (forall b, Message.Type_ (if b : bool then Message.set_To 0 (Message.mk ty to rest)
      else Message.mk ty to rest) = ty) as -> by (by intros []).
    destruct ty;
    match goal with |- context [RaftNode.process_loop ?a ?b ?c ?d] =>
      specialize (IH c d); destruct (RaftNode.process_loop a b c d) as [ms' snap'] end;
    cbn [snd] in *; try (by apply IH).
    unfold RaftNode.maxInFlightMsgSnap, blen in IH. destruct (Z.of_nat (length snap) <? 16) eqn:?; zbool.
    + rewrite IH; [|rewrite length_app; cbn; lia]. by rewrite <-app_assoc.
    + rewrite IH by done. by rewrite !take_app_le by lia.
Qed.

Lemma append_entries_ok base es s e new :
  rs_holds base es s -> base <= Entry.Index e <= base + blen es -> rs_accepts (Entry.Index e) (e :: new) ->
  rs_cuttable (Entry.Index e) s ->
  exists s', RaftNode.appendRaftEntries (e :: new) s = (Ok tt, s') /\
    rs_holds base (take (Z.to_nat (Entry.Index e - base)) es ++ e :: new) s'.
Proof.
  intros Hs Hi Ha Hc. pose proof (law_accepts _ _ _ Ha) as [_ Hpos].
  cbn [RaftNode.appendRaftEntries]. rewrite (bind_ok _ _ _ _ _ (law_last _ _ _ Hs)).
  assert (forall s1, rs_holds_cut base (take (Z.to_nat (Entry.Index e - base)) es) s1 ->
    exists s', rs_SaveRaftEntries (e :: new) s1 = (Ok tt, s') /\
      rs_holds base (take (Z.to_nat (Entry.Index e - base)) es ++ e :: new) s') as Hsave.
  { intros s1 Hs1. apply law_save; [done|done|].
    rewrite blen_take by lia. by replace (base + _) with (Entry.Index e) by lia. }
  zcase.
  - assert (Entry.Index e < base + blen es) as Hlt.
    { destruct es; [lia|]. rewrite blen_cons in *. lia. }
    destruct (law_truncate _ _ _ (Entry.Index e) Hs ltac:(lia) Hc) as (s1 & HT & Hs1).
    rewrite (bind_ok _ _ _ _ _ HT). by apply Hsave.
  - rewrite (bind_ok (ret tt) _ _ _ _ eq_refl). apply Hsave.
    rewrite take_ge; [by apply law_cut|]. unfold blen in *. destruct es; cbn [length] in *; lia.
Qed.

(** What a [Ready] appends to the log. *)
Definition appended (base : Z) (es new : list Entry.t) : list Entry.t :=
  match new with
  | [] => es
  | e :: _ => take (Z.to_nat (Entry.Index e - base)) es ++ new
  end.

(** The entries of a [Ready] can be stored in [s]. *)
Definition ready_fits (base : Z) (es new : list Entry.t) (s : S) : Prop :=
  match new with
  | [] => True
  | e :: _ => base <= Entry.Index e <= base + blen es /\ rs_accepts (Entry.Index e) new /\
              rs_cuttable (Entry.Index e) s
  end.

Lemma append_ready_ok base es s new :
  rs_holds base es s -> ready_fits base es new s ->
  exists s', RaftNode.appendRaftEntries new s = (Ok tt, s') /\ rs_holds base (appended base es new) s'.
Proof.
  intros Hs. destruct new as [|e new]; [by exists s|]. intros (Hi & Ha & Hc).
  by apply append_entries_ok.
Qed.

(** ** A [Ready] is stored before it is applied or answered *)

(** What may leave the node: entries to apply, and messages of a node that
    does not lead, leave when the storage satisfies [Q]. *)
Definition after_save (leader : bool) (Q : S -> Prop) (e : RaftNode.event (P := P) (R := R)) : Prop :=
  match e with
  | RaftNode.Send _ st => leader = true \/ Q st
  | RaftNode.Apply _ st => Q st
  | _ => True
  end.

Definition leads (rd : Ready.t P R) (n : RaftNode.t (S := S) (P := P) (R := R)) : bool :=
  match Ready.SoftState rd with
  | None => RaftNode.isLead n
  | Some (_, state) => bool_decide (state = StateLeader)
  end.

(** The storage after the hard state is saved. *)
Definition hard_saved (h : HardState.t) (s s1 : S) : Prop :=
  (h = HardState.empty /\ s1 = s) \/ (h <> HardState.empty /\ rs_SaveHardState h s = (Ok tt, s1)).

(** From [n] to [n'] the node emits events that satisfy [Q] and does not
    change its storage or its role. *)
Definition emits (Q : RaftNode.event -> Prop) (n n' : RaftNode.t (S := S) (P := P) (R := R)) : Prop :=
  RaftNode.Storage n' = RaftNode.Storage n /\ RaftNode.isLead n' = RaftNode.isLead n /\
  exists evs, RaftNode.trace n' = RaftNode.trace n ++ evs /\ Forall Q evs.

Lemma emits_refl Q n : emits Q n n.
Proof. split; [done|]. split; [done|]. exists []. by rewrite app_nil_r. Qed.

Lemma emits_trans Q n1 n2 n3 : emits Q n1 n2 -> emits Q n2 n3 -> emits Q n1 n3.
Proof.
  intros (E1 & L1 & v1 & T1 & F1) (E2 & L2 & v2 & T2 & F2).
  split; [congruence|]. split; [congruence|]. exists (v1 ++ v2).
  split; [by rewrite T2, T1, app_assoc|]. by apply Forall_app.
Qed.

Lemma emit_emits (Q : RaftNode.event -> Prop) e n :
  Q e -> exists n', RaftNode.emit e n = (Ok tt, n') /\ emits Q n n'.
Proof. intros He. eexists. split; [reflexivity|]. split; [done|]. split; [done|]. exists [e]. by split; [|constructor]. Qed.

Lemma committed_emits leader Q c n :
  exists n', RaftNode.updateCommittedIndex c n = (Ok tt, n') /\ emits (after_save leader Q) n n'.
Proof.
  unfold RaftNode.updateCommittedIndex. destruct (_ =? 0); [|by apply emit_emits].
  exists n. split; [done|apply emits_refl].
Qed.

Lemma send_emits leader (Q : S -> Prop) rm ms n :
  leader = true \/ Q (RaftNode.Storage n) ->
  exists n' ms', RaftNode.processMessages rm ms n = (Ok ms', n') /\
    exists n'', RaftNode.send ms' n' = (Ok tt, n'') /\ emits (after_save leader Q) n n''.
Proof.
  intros HQ. unfold RaftNode.processMessages.
  destruct (RaftNode.process_loop rm (rev ms) false (RaftNode.msgSnapC n)) as [ms' snap].
  eexists _, _. split; [reflexivity|]. eexists. split; [reflexivity|].
  split; [done|]. split; [done|]. eexists. split; [reflexivity|]. by constructor.
Qed.

Lemma soft_emits Q rd n :
  exists n1, RaftNode.ready_soft_state rd n = (Ok tt, n1) /\ RaftNode.isLead n1 = leads rd n /\
    RaftNode.Storage n1 = RaftNode.Storage n /\
    exists evs, RaftNode.trace n1 = RaftNode.trace n ++ evs /\ Forall (after_save (leads rd n) Q) evs.
Proof.
  unfold leads, RaftNode.ready_soft_state. destruct (Ready.SoftState rd) as [[newLead state]|].
  - eexists. split; [reflexivity|]. split; [done|]. split; [done|].
    eexists. split; [cbn; by rewrite <-app_assoc|]. by constructor; [|constructor].
  - exists n. repeat (split; [done|]). exists []. by rewrite app_nil_r.
Qed.

Lemma read_states_emits leader Q rc (rd : Ready.t P R) n :
  rc <> RaftNode.Stopped ->
  exists n', RaftNode.ready_read_states rc rd n = (Ok true, n') /\ emits (after_save leader Q) n n'.
Proof.
  intros Hrc. unfold RaftNode.ready_read_states. destruct (rev _) as [|r l']; [|destruct rc; [| |done]].
  - exists n. split; [done|apply emits_refl].
  - destruct (emit_emits (after_save leader Q) (RaftNode.SendReadState r) n I) as (n' & HE & Hn').
    exists n'. split; [by rewrite (bind_ok _ _ _ _ _ HE)|done].
  - exists n. split; [done|apply emits_refl].
Qed.

Lemma hard_emits h (n : RaftNode.t (S := S) (P := P) (R := R)) s1 :
  hard_saved h (RaftNode.Storage n) s1 ->
  (if bool_decide (h = HardState.empty) then ret tt
   else fatal_on_err (RaftNode.on_storage (rs_SaveHardState h))) n = (Ok tt, RaftNode.set_Storage s1 n).
Proof.
  intros [[-> ->]|[Hne HS]]; [by destruct n|]. rewrite bool_decide_false by done.
  unfold fatal_on_err, RaftNode.on_storage, zoom. by rewrite HS.
Qed.

Lemma answer_emits leader Q rm (rd : Ready.t P R) (n : RaftNode.t (S := S) (P := P) (R := R)) :
  Q (RaftNode.Storage n) ->
  exists n', RaftNode.ready_apply rm RaftNode.Through leader rd n = (Ok true, n') /\
    emits (after_save leader Q) n n'.
Proof.
  intros HQ. set (after := after_save leader Q).
  destruct (emit_emits after (RaftNode.Apply (Ready.CommittedEntries rd) (RaftNode.Storage n)) n HQ)
    as (n1 & HE & Hn1). unfold RaftNode.ready_apply.
  rewrite (bind_ok (RaftNode.send_apply _) _ _ _ _ HE).
  match goal with |- context [bind (if leader then _ else ?m) _] =>
    assert (exists n2, (if leader then ret tt else m) n1 = (Ok tt, n2) /\ emits after n1 n2)
      as (n2 & HA & Hn2) end.
  { destruct leader; [exists n1; split; [done|apply emits_refl]|].
    unfold RaftNode.processMessages, bind, RaftNode.send.
    destruct (RaftNode.process_loop _ _ _ _) as [ms snap].
    assert (Q (RaftNode.Storage n1)) as HQ1 by (by destruct Hn1 as (-> & _)).
    destruct (existsb _ _); (eexists; split; [reflexivity|]; split; [done|]; split; [done|]).
    - eexists. split; [cbn; by rewrite <-app_assoc|]. constructor; [done|]. by constructor; [right|].
    - eexists. split; [reflexivity|]. by constructor; [right|]. }
  rewrite (bind_ok _ _ _ _ _ HA).
  destruct (emit_emits after RaftNode.Advance n2 I) as (n3 & HE3 & Hn3).
  exists n3. split; [by rewrite (bind_ok _ _ _ _ _ HE3)|].
  eapply emits_trans; [exact Hn1|]. by eapply emits_trans.
Qed.

Lemma handle_ready_ok base es rm rc rd n s1 :
  let log := appended base es (Ready.Entries rd) in
  rs_holds base es (RaftNode.Storage n) -> rc <> RaftNode.Stopped ->
  hard_saved (Ready.HardState rd) (RaftNode.Storage n) s1 ->
  ready_fits base es (Ready.Entries rd) s1 ->
  exists n' evs,
    RaftNode.handle_ready rm rc RaftNode.Through rd n = (Ok true, n') /\
    rs_holds base log (RaftNode.Storage n') /\
    RaftNode.trace n' = RaftNode.trace n ++ evs /\
    Forall (after_save (leads rd n) (rs_holds base log)) evs.
Proof.
  intros log Hs Hrc Hh Hfit. set (after := after_save (leads rd n) (rs_holds base log)).
  destruct (soft_emits (rs_holds base log) rd n) as (n1 & H1 & Hlead & E1 & evs1 & T1 & F1).
  destruct (read_states_emits (leads rd n) (rs_holds base log) rc rd n1 Hrc)
    as (n2 & H2 & Hn2).
  destruct (committed_emits (leads rd n) (rs_holds base log) (Ready.CommittedEntries rd) n2) as (n3 & H3 & Hn3).
  assert (emits after n1 n3) as Hn13 by (by eapply emits_trans).
  assert (exists n4, (if leads rd n then let! ms := RaftNode.processMessages rm (Ready.Messages rd) in
      RaftNode.send ms else ret tt) n3 = (Ok tt, n4) /\ emits after n3 n4) as (n4 & H4 & Hn4).
  { subst after. destruct (leads rd n) eqn:El; [|exists n3; split; [done|apply emits_refl]].
    destruct (send_emits true (rs_holds base log) rm (Ready.Messages rd) n3 (or_introl eq_refl))
      as (n' & ms' & HP & n'' & HS & Hn).
    exists n''. split; [by rewrite (bind_ok _ _ _ _ _ HP)|done]. }
  pose proof (emits_trans _ _ _ _ Hn13 Hn4) as Hn14. destruct Hn14 as (E4 & L4 & evs4 & T4 & F4).
  rewrite <-E1, <-E4 in Hh.
  assert (rs_holds base es s1) as Hs1.
  { destruct Hh as [[_ ->]|[_ HS]]; [by rewrite E4, E1|].
    eapply law_hard; [|exact HS]. by rewrite E4, E1. }
  destruct (append_ready_ok _ _ _ _ Hs1 Hfit) as (s2 & HA & Hs2). fold log in Hs2.
  destruct (answer_emits (leads rd n) (rs_holds base log) rm rd (RaftNode.set_Storage s2 n4) Hs2)
    as (n5 & H5 & E5 & _ & evs5 & T5 & F5).
  exists n5, (evs1 ++ evs4 ++ evs5). split; [|split; [|split]].
  - unfold RaftNode.handle_ready. rewrite (bind_ok _ _ _ _ _ H1), (bind_ok _ _ _ _ _ H2). cbn [negb].
    rewrite (bind_ok _ _ _ _ _ H3). rewrite (bind_ok (gets _) _ _ _ _ eq_refl).
    destruct Hn13 as (_ & -> & _). rewrite Hlead.
    rewrite (bind_ok _ _ _ _ _ H4), (bind_ok _ _ _ _ _ (hard_emits _ _ _ Hh)).
    erewrite bind_ok; [exact H5|]. unfold fatal_on_err, RaftNode.on_storage, zoom. cbn.
    by rewrite HA.
  - by rewrite E5.
  - rewrite T5. cbn. by rewrite T4, T1, !app_assoc.
  - by rewrite !Forall_app.
Qed.

End Generic.

(** * The disk storage keeps the laws *)

Section Disk.
Context `{Settings} {M : Type} `{MetaStorage M}.
Hypothesis size_ok : 0 < SegmentSize <= 2 ^ 32.

#[export] Instance disk_raft_storage : RaftStorage (DiskStorage.t M * FS) := {
  rs_LastIndex := obj DiskStorage.LastIndex;
  rs_TruncateSuffix := DiskStorage.TruncateSuffix;
  rs_SaveRaftEntries := DiskStorage.SaveRaftEntries;
  rs_SaveHardState h := DiskStorage.on_meta (meta_SaveHardState h);
  rs_Get k := DiskStorage.on_meta (meta_Get k) }.

(** The storage holds the log [es] that starts at [base] and its directory
    the files of that log; no system call is going to fail. *)
Definition stores (base : Z) (es : list Entry.t) (s : DiskStorage.t M * FS) : Prop :=
  exists d ps dead, s.2 = quiet d /\ sto_repr d base ps dead s.1 /\ full ps /\ clean ps /\
    entries_of ps = es.

(** The same after a truncation: the last segment may be empty. *)
Definition stores_cut (base : Z) (es : list Entry.t) (s : DiskStorage.t M * FS) : Prop :=
  exists d ps dead, s.2 = quiet d /\ sto_repr d base ps dead s.1 /\ clean ps /\ entries_of ps = es.

Definition disk_cuttable (i : Z) (s : DiskStorage.t M * FS) : Prop :=
  writable i s.1 /\ purge_ok (DiskStorage.FirstIndex s.1) s.1.

Lemma stores_cases base es s :
  stores base es s ->
  exists d ps dead, s = (s.1, quiet d) /\ sto_repr d base ps dead s.1 /\ full ps /\ clean ps /\
    entries_of ps = es /\ (es = [] -> ps = []) /\ (es <> [] -> ps <> []).
Proof.
  destruct s as [s fs]. intros (d & ps & dead & Hq & Hr & Hf & Hc & He). cbn in Hq. subst fs.
  exists d, ps, dead. repeat (split; [done|]). split.
  - intros E. destruct ps as [|p ps]; [done|]. exfalso. subst es.
    by apply (full_entries (p :: ps)).
  - intros Hne ->. by subst es.
Qed.

Lemma stores_first base es s : stores base es s -> es <> [] -> DiskStorage.FirstIndex s.1 = base.
Proof.
  intros (d & ps & dead & Hs & Hr & Hf & _ & _ & _ & Hne)%stores_cases He.
  destruct ps as [|p ps]; [by destruct (Hne He)|].
  apply (sto_first _ _ _ _ _ p ps Hr eq_refl). by inversion Hf.
Qed.

Lemma stores_last base es s :
  stores base es s ->
  DiskStorage.LastIndex s.1 = match es with [] => 0 | _ => base + blen es - 1 end.
Proof.
  intros (d & ps & dead & Hs & Hr & Hf & _ & He & Hn & Hne)%stores_cases.
  destruct es as [|e es].
  - rewrite (Hn eq_refl) in Hr. destruct Hr as [Hsegs _ _ _ _ _ _].
    apply Forall2_nil_inv_l in Hsegs. unfold DiskStorage.LastIndex. by rewrite Hsegs.
  - destruct (exists_last (Hne ltac:(done))) as (qs & p & ->). rewrite <-He.
    apply (sto_last _ _ _ _ _ p qs Hr eq_refl). apply Forall_app in Hf as [_ Hf].
    by inversion Hf.
Qed.

Lemma stores_truncate base es s i :
  stores base es s -> base <= i < base + blen es -> disk_cuttable i s ->
  exists s', DiskStorage.TruncateSuffix i s = (Ok tt, s') /\
    stores_cut base (take (Z.to_nat (i - base)) es) s'.
Proof.
  intros Hst Hi [Hw Hp]. assert (es <> []) as Hes by (intros ->; rewrite blen_nil in Hi; lia).
  rewrite (stores_first _ _ _ Hst Hes) in Hp.
  apply stores_cases in Hst as (d & ps & dead & Hs & Hr & Hf & Hc & <- & _).
  destruct (TruncateSuffix_ok size_ok d base ps dead s.1 i Hr Hi Hw Hp)
    as (s' & d' & ps' & HT & Hr' & He & _ & Hc').
  exists (s', quiet d'). rewrite Hs. cbn [fst]. split; [done|]. exists d', ps', dead.
  split; [done|]. split; [done|]. split; [by apply Hc'|done].
Qed.

Lemma stores_save base es s new :
  stores_cut base es s -> new <> [] -> appendable (base + blen es) new ->
  exists s', DiskStorage.SaveRaftEntries new s = (Ok tt, s') /\ stores base (es ++ new) s'.
Proof.
  destruct s as [s fs]. intros (d & ps & dead & Hs & Hr & Hc & <-) Hne Ha. cbn in Hs, Hr. subst fs.
  destruct (SaveRaftEntries_ok size_ok d base ps dead s new Hr Hne Ha)
    as (s' & d' & HS & ps' & Hr' & He & Hf & Hc' & _).
  exists (s', quiet d'). split; [done|]. exists d', ps', dead.
  split; [done|]. split; [done|]. split; [done|]. split; [by apply Hc'|done].
Qed.

Lemma stores_meta base es (s : DiskStorage.t M * FS) m :
  stores base es s -> stores base es (with_meta m s.1, s.2).
Proof.
  intros (d & ps & dead & Hs & [] & H1). exists d, ps, dead. split; [done|].
  split; [by split|done].
Qed.

#[export] Instance disk_raft_storage_laws : RaftStorageLaws (DiskStorage.t M * FS).
Proof.
  refine {| rs_holds := stores; rs_holds_cut := stores_cut; rs_cuttable := disk_cuttable;
            rs_accepts := appendable |}.
  - intros base es s (d & ps & dead & Hs & Hr & _ & Hc & He). by exists d, ps, dead.
  - intros base es s Hs. by rewrite <-(stores_last _ _ _ Hs).
  - apply stores_truncate.
  - apply stores_save.
  - intros i e new Ha. split; [by apply appendable_first in Ha|]. by destruct Ha as [_ _ [? _] _].
  - intros base es s h s' Hs. cbn. unfold DiskStorage.on_meta, zoom.
    destruct (meta_SaveHardState h (DiskStorage.meta s.1)) as [r m]. intros [= -> <-].
    by apply stores_meta.
Defined.

End Disk.

(** [processMessages] keeps the order and the content of the messages and
    only clears receivers: those of messages to removed members, of snapshots
    and of all but the last [MsgAppResp]; the snapshots are handed to the
    server from the last one on, as many as the channel takes. *)
Theorem messages_routed {S P R : Type} (rm : Z -> bool) (ms : list (Message.t P))
  (n : RaftNode.t (S := S) (P := P) (R := R)) :
  blen (RaftNode.msgSnapC n) <= RaftNode.maxInFlightMsgSnap ->
  RaftNode.processMessages rm ms n =
    (Ok (route rm false ms),
     RaftNode.set_msgSnapC
       (take (Z.to_nat RaftNode.maxInFlightMsgSnap)
          (RaftNode.msgSnapC n ++ (removed_to rm <$> List.filter isSnap (rev ms)))) n).
Proof.
  intros Hl. unfold RaftNode.processMessages.
  pose proof (process_loop_route rm (rev ms) false (RaftNode.msgSnapC n)) as Hr.
  pose proof (process_loop_snap rm (rev ms) false (RaftNode.msgSnapC n) Hl) as Hs.
  destruct (RaftNode.process_loop _ _ _ _) as [ms' snap]. cbn in Hr, Hs.
  by rewrite Hr, Hs, rev_involutive.
Qed.

Lemma messages_routed_witness :
  let m ty to := Message.mk ty to tt in
  let n := RaftNode.mk (S := unit) (P := unit) (R := unit) tt 1 false [] [] in
  RaftNode.processMessages (Z.eqb 9) [m MsgAppResp 2; m MsgSnap 3; m MsgAppResp 2; m MsgHeartbeat 9] n =
    (Ok [m MsgAppResp 0; m MsgSnap 0; m MsgAppResp 2; m MsgHeartbeat 0],
     RaftNode.set_msgSnapC [m MsgSnap 3] n).
Proof. intros m n. rewrite messages_routed by (vm_compute; discriminate). reflexivity. Defined.
