(* ===== verification/Shutdown.v ===== *)
(** Stopping a node: [KingbusServer.Stop] and [Run], the loop of raft.go with its
    [Stop] and [onStop], and the loop that applies entries, as goroutines that meet at their
    channels. *)
From S2P Require Import Prelude.
From stdpp Require Import list relations.
Local Open Scope list_scope.

(** * The goroutines *)

(** The goroutine of [raft.Node.Run]: in the [select] of its loop, in that for a read
    state, before the [Ready] is stored, in the [select] that hands the entries over, waiting for
    [notifyc], and in [onStop] before the transport is stopped, before the storage is closed, before
    [close(r.done)], and at its end. [wait] tells whether it is going to wait for the entries to
    be applied, [writes] how often applying them writes to the store. *)
Inductive raft_at : Type :=
  | RSelect
  | RReadState (wait : bool) (writes : nat)
  | RSave (wait : bool) (writes : nat)
  | RHand (wait : bool) (writes : nat)
  | RNotify
  | RTransport
  | RClose
  | RDone
  | REnd.

(** The loop of [runRaft]: in its [select], in [applyAll] with some writes left,
    before the value on [Notifyc], at its end. *)
Inductive apply_at : Type := ASelect | AApply (writes : nat) | ANotify | AEnd.

(** A call of [KingbusServer.Stop]: before the test of [started], in the [select] of
    [raftNode.Stop], at [<-r.done], before [close(s.stopping)], before [started] is cleared, at
    its end. The servers that it stops first are not followed. *)
Inductive stop_at : Type := SStart | SSelect | SWait | SClose | SStore | SEnd.

(** The loop of [KingbusServer.Run]: in its [select], in the call of [Stop] after an
    error, the [i]th of all calls, at its end. *)
Inductive main_at : Type := MSelect | MStop (i : nat) | MEnd.

(** What ends the process: a write to the closed storage by one of the two loops,
    whose error is fatal, or closing a channel twice. *)
Inductive death : Type := RaftFatal | ApplyFatal | ClosePanic.

Record t : Type := mk {
  raft : raft_at; applier : apply_at; stops : list stop_at; main : main_at;
  started : bool; open : bool; notified : bool; done : bool; stopping : bool; dead : option death }.

Definition set_raft r x := mk r (applier x) (stops x) (main x) (started x) (open x) (notified x) (done x) (stopping x) (dead x).
Definition set_applier a x := mk (raft x) a (stops x) (main x) (started x) (open x) (notified x) (done x) (stopping x) (dead x).
Definition set_stops l x := mk (raft x) (applier x) l (main x) (started x) (open x) (notified x) (done x) (stopping x) (dead x).
Definition set_stop i c x := set_stops (<[i := c]> (stops x)) x.
Definition set_main m x := mk (raft x) (applier x) (stops x) m (started x) (open x) (notified x) (done x) (stopping x) (dead x).
Definition set_started b x := mk (raft x) (applier x) (stops x) (main x) b (open x) (notified x) (done x) (stopping x) (dead x).
Definition set_open b x := mk (raft x) (applier x) (stops x) (main x) (started x) b (notified x) (done x) (stopping x) (dead x).
Definition set_notified b x := mk (raft x) (applier x) (stops x) (main x) (started x) (open x) b (done x) (stopping x) (dead x).
Definition set_done b x := mk (raft x) (applier x) (stops x) (main x) (started x) (open x) (notified x) b (stopping x) (dead x).
Definition set_stopping b x := mk (raft x) (applier x) (stops x) (main x) (started x) (open x) (notified x) (done x) b (dead x).
Definition die d x := mk (raft x) (applier x) (stops x) (main x) (started x) (open x) (notified x) (done x) (stopping x) (Some d).

(** The points at which the loop of raft can be stopped. *)
Definition stoppable (r : raft_at) : bool :=
  match r with RSelect | RReadState _ _ | RHand _ _ => true | _ => false end.

(** * Steps *)

(** [Node.Run]. A hand-over is a value on the unbuffered [applyc]. *)
Inductive raft_step (x : t) : t -> Prop :=
  | raft_ready w n : raft x = RSelect -> raft_step x (set_raft (RSave w n) x)
  | raft_ready_read w n : raft x = RSelect -> raft_step x (set_raft (RReadState w n) x)
  | raft_read w n : raft x = RReadState w n -> raft_step x (set_raft (RSave w n) x)
  | raft_save w n : raft x = RSave w n -> open x = true -> raft_step x (set_raft (RHand w n) x)
  | raft_save_closed w n : raft x = RSave w n -> open x = false -> raft_step x (die RaftFatal x)
  | raft_hand w n : raft x = RHand w n -> applier x = ASelect ->
      raft_step x (set_raft (if w then RNotify else RSelect) (set_applier (AApply n) (set_notified false x)))
  | raft_notified : raft x = RNotify -> notified x = true -> raft_step x (set_raft RSelect x).

(** [onStop], which is deferred by [Run]. *)
Inductive on_stop_step (x : t) : t -> Prop :=
  | raft_transport : raft x = RTransport -> on_stop_step x (set_raft RClose x)
  | raft_close : raft x = RClose -> on_stop_step x (set_raft RDone (set_open false x))
  | raft_done : raft x = RDone -> on_stop_step x (set_raft REnd (set_done true x)).

(** [runRaft]. A node that the entries remove calls [Stop] in a goroutine of its
    own. *)
Inductive applier_step (x : t) : t -> Prop :=
  | applier_write n : applier x = AApply (S n) -> open x = true -> applier_step x (set_applier (AApply n) x)
  | applier_write_closed n : applier x = AApply (S n) -> open x = false -> applier_step x (die ApplyFatal x)
  | applier_applied : applier x = AApply 0 -> applier_step x (set_applier ANotify x)
  | applier_removed : applier x = AApply 0 -> applier_step x (set_applier ANotify (set_stops (stops x ++ [SStart]) x))
  | applier_notify : applier x = ANotify -> applier_step x (set_applier ASelect (set_notified true x))
  | applier_end : applier x = ASelect -> done x = true -> applier_step x (set_applier AEnd x).

(** [KingbusServer.Stop] and [raft.Node.Stop]. The value on [stopped] is taken by the
    loop of raft. *)
Inductive stop_step (i : nat) (x : t) : t -> Prop :=
  | stop_running : stops x !! i = Some SStart -> started x = true -> stop_step i x (set_stop i SSelect x)
  | stop_not_running : stops x !! i = Some SStart -> started x = false -> stop_step i x (set_stop i SEnd x)
  | stop_raft : stops x !! i = Some SSelect -> stoppable (raft x) = true ->
      stop_step i x (set_stop i SWait (set_raft RTransport x))
  | stop_ended : stops x !! i = Some SSelect -> done x = true -> stop_step i x (set_stop i SClose x)
  | stop_done : stops x !! i = Some SWait -> done x = true -> stop_step i x (set_stop i SClose x)
  | stop_close : stops x !! i = Some SClose -> stopping x = false ->
      stop_step i x (set_stop i SStore (set_stopping true x))
  | stop_close_again : stops x !! i = Some SClose -> stopping x = true -> stop_step i x (die ClosePanic x)
  | stop_store : stops x !! i = Some SStore -> stop_step i x (set_stop i SEnd (set_started false x)).

(** [KingbusServer.Run] after an error on [errorc] or when [stopping] is closed. *)
Inductive main_step (x : t) : t -> Prop :=
  | main_error : main x = MSelect ->
      main_step x (set_main (MStop (length (stops x))) (set_stops (stops x ++ [SStart]) x))
  | main_stopping : main x = MSelect -> stopping x = true -> main_step x (set_main MEnd x)
  | main_stopped i : main x = MStop i -> stops x !! i = Some SEnd -> main_step x (set_main MEnd x).

(** A signal makes another goroutine call [Stop]. *)
Inductive step (x : t) : t -> Prop :=
  | step_raft y : dead x = None -> raft_step x y -> step x y
  | step_on_stop y : dead x = None -> on_stop_step x y -> step x y
  | step_applier y : dead x = None -> applier_step x y -> step x y
  | step_stop i y : dead x = None -> stop_step i x y -> step x y
  | step_main y : dead x = None -> main_step x y -> step x y
  | step_signal : dead x = None -> step x (set_stops (stops x ++ [SStart]) x).

(** A node that runs. *)
Definition running : t := mk RSelect ASelect [] MSelect true true false false false None.
Definition reachable (x : t) : Prop := rtc step running x.

(** * Invariants *)

Definition live (r : raft_at) : bool := match r with RTransport | RClose | RDone | REnd => false | _ => true end.
Definition closed (r : raft_at) : bool := match r with RDone | REnd => true | _ => false end.
Definition ended (r : raft_at) : bool := match r with REnd => true | _ => false end.

Record inv (x : t) : Prop := {
  inv_open : open x = negb (closed (raft x));
  inv_done : done x = ended (raft x);
  inv_notify : raft x = RNotify -> notified x = true \/ applier x = ANotify \/ exists n, applier x = AApply n;
  inv_end : applier x = AEnd -> done x = true;
  inv_alive : dead x <> Some RaftFatal }.

(** How far the only call of [Stop] has come. *)
Definition phase (c : stop_at) (x : t) : Prop :=
  match c with
  | SStart | SSelect => started x = true /\ stopping x = false /\ live (raft x) = true
  | SWait => started x = true /\ stopping x = false /\ live (raft x) = false
  | SClose => started x = true /\ stopping x = false /\ raft x = REnd
  | SStore | SEnd => stopping x = true /\ raft x = REnd
  end.

(** As long as there is at most one. *)
Definition once (x : t) : Prop :=
  match stops x with
  | [] => phase SStart x /\ main x = MSelect /\ dead x <> Some ClosePanic
  | [c] => phase c x /\ dead x <> Some ClosePanic /\ (forall i, main x = MStop i -> i = 0)
  | _ => True
  end.

Ltac fields := cbn [raft applier stops main started open notified done stopping dead set_raft set_applier set_stops
  set_stop set_main set_started set_open set_notified set_done set_stopping die] in *.

Lemma shutdown_inv_step x y : step x y -> inv x -> inv y.
Proof.
  intros Hs [Ho Hd Hn He Ha].
  destruct Hs as [y D Hs|y D Hs|y D Hs|i y D Hs|y D Hs|D]; [destruct Hs..|]; destruct x as [r a l m st o nt d sp de]; fields; subst;
    try (by split; fields; first [done|congruence|eauto|naive_solver]).
  - by destruct w; split; fields; try done; eauto.
  - by destruct r.
  - by destruct r; split; fields; try done; intros E; specialize (He E).
Qed.

Lemma once_step x y : step x y -> inv x -> once x -> once y.
Proof.
  intros Hs [Ho Hd _ _ _] H1.
  destruct Hs as [y D Hs|y D Hs|y D Hs|i y D Hs|y D Hs|D]; [destruct Hs..|]; destruct x as [r a l m st o nt d sp de]; fields; subst;
    destruct l as [|c [|c' l]]; unfold once in *; fields; try done.
  all: try destruct i as [|[|i]]; try destruct w; try destruct c; unfold phase in *; fields; cbn in *; try done;
    try (destruct r; cbn in *); try done; try by (intuition congruence).
Qed.

Lemma shutdown_inv x : reachable x -> inv x /\ once x.
Proof.
  intros Hx. assert (inv running /\ once running) as H0 by (split; [by split|done]). revert H0.
  induction Hx as [|x y z Hxy _ IH]; [done|]. intros [Hi Ho]. apply IH. split; [by eapply shutdown_inv_step|by eapply once_step].
Qed.

(** Stopping is safe for the loop of raft: whatever the order of the goroutines,
    it does not write to the storage after it has closed it, the storage is closed and [done] is
    signalled only when it has left its loop, and a node that is stopped once does not close a
    channel twice. *)
Theorem shutdown_safe x : reachable x ->
  dead x <> Some RaftFatal /\ (open x = false -> live (raft x) = false) /\ (done x = true -> raft x = REnd) /\
  ((length (stops x) <= 1)%nat -> dead x <> Some ClosePanic).
Proof.
  intros [[Ho Hd _ _ Ha] H1]%shutdown_inv. split; [done|]. rewrite Ho, Hd. split; [by destruct (raft x)|].
  split; [by destruct (raft x)|]. unfold once in H1. destruct (stops x) as [|c [|c' l]]; cbn; [tauto..|lia].
Qed.

(** * Completion *)

(** Applying goes on without an error. *)
Definition can_apply (x : t) : Prop := open x = true \/ match applier x with AApply (S _) => False | _ => True end.

(** Everything has ended. *)
Definition stopped (x : t) : Prop :=
  raft x = REnd /\ applier x = AEnd /\ Forall (fun c => c = SEnd) (stops x) /\ main x = MEnd /\ open x = false /\ dead x = None.

Lemma drain r a l m st o nt d sp : can_apply (mk r a l m st o nt d sp None) ->
  exists a' nt', rtc step (mk r a l m st o nt d sp None) (mk r a' l m st o nt' d sp None) /\
    (a' = ASelect \/ a' = AEnd /\ a = AEnd) /\ (nt = true \/ a = ANotify \/ (exists n, a = AApply n) -> nt' = true).
Proof.
  assert (forall nt, rtc step (mk r ANotify l m st o nt d sp None) (mk r ASelect l m st o true d sp None)) as HN.
  { intros nt0. apply rtc_once, step_applier; [done|]. by apply (applier_notify (mk r ANotify l m st o nt0 d sp None)). }
  assert (forall n, can_apply (mk r (AApply n) l m st o nt d sp None) ->
    rtc step (mk r (AApply n) l m st o nt d sp None) (mk r ASelect l m st o true d sp None)) as HA.
  { induction n as [|n IH]; intros Hc.
    - eapply rtc_l; [|apply HN]. apply step_applier; [done|]. by apply applier_applied.
    - destruct Hc as [Hc|Hc]; [|done]. cbn in Hc. subst o. eapply rtc_l; [|by apply IH; left].
      apply step_applier; [done|]. by apply (applier_write (mk r (AApply (S n)) l m st true nt d sp None)). }
  intros Hc. destruct a as [|n| |].
  - exists ASelect, nt. split; [done|]. split; [by left|]. intros [?|[?|[? ?]]]; done.
  - exists ASelect, true. split; [by apply HA|]. split; [by left|done].
  - exists ASelect, true. split; [by apply HN|]. split; [by left|done].
  - exists AEnd, nt. split; [done|]. split; [by right|]. intros [?|[?|[? ?]]]; done.
Qed.

Lemma to_stoppable r l m st nt sp : live r = true -> (r = RNotify -> nt = true) ->
  exists r', stoppable r' = true /\ rtc step (mk r ASelect l m st true nt false sp None) (mk r' ASelect l m st true nt false sp None).
Proof.
  intros Hl Hn. destruct r as [|w n|w n|w n| | | | |]; try done; try by (eexists; split; [|reflexivity]).
  - exists (RHand w n). split; [done|]. apply rtc_once, step_raft; [done|]. by apply (raft_save (mk (RSave w n) ASelect l m st true nt false sp None)).
  - exists RSelect. split; [done|]. rewrite Hn by done. apply rtc_once, step_raft; [done|].
    by apply (raft_notified (mk RNotify ASelect l m st true true false sp None)).
Qed.

Lemma raft_ends r a l m st nt sp : live r = false ->
  rtc step (mk r a l m st (negb (closed r)) nt (ended r) sp None) (mk REnd a l m st false nt true sp None).
Proof.
  assert (rtc step (mk RDone a l m st false nt false sp None) (mk REnd a l m st false nt true sp None)) as H3.
  { apply rtc_once, step_on_stop; [done|]. by apply (raft_done (mk RDone a l m st false nt false sp None)). }
  assert (rtc step (mk RClose a l m st true nt false sp None) (mk REnd a l m st false nt true sp None)) as H2.
  { eapply rtc_l; [|exact H3]. apply step_on_stop; [done|]. by apply (raft_close (mk RClose a l m st true nt false sp None)). }
  intros Hl. destruct r; try done. eapply rtc_l; [|exact H2]. apply step_on_stop; [done|]. by apply raft_transport.
Qed.

Lemma stop_ends c a m st nt sp : phase c (mk REnd a [c] m st false nt true sp None) ->
  exists st', rtc step (mk REnd a [c] m st false nt true sp None) (mk REnd a [SEnd] m st' false nt true true None).
Proof.
  assert (forall st, rtc step (mk REnd a [SStore] m st false nt true true None) (mk REnd a [SEnd] m false false nt true true None)) as H3.
  { intros st0. apply rtc_once, (step_stop _ 0); [done|]. by apply (stop_store 0 (mk REnd a [SStore] m st0 false nt true true None)). }
  assert (rtc step (mk REnd a [SClose] m true false nt true false None) (mk REnd a [SEnd] m false false nt true true None)) as H2.
  { eapply rtc_l; [|apply (H3 true)]. apply (step_stop _ 0); [done|]. by apply (stop_close 0 (mk REnd a [SClose] m true false nt true false None)). }
  destruct c; unfold phase; fields; cbn; try by intros (_ & _ & ?).
  - intros (-> & -> & _). exists false. eapply rtc_l; [|exact H2]. apply (step_stop _ 0); [done|].
    by apply (stop_done 0 (mk REnd a [SWait] m true false nt true false None)).
  - intros (-> & -> & _). by exists false.
  - intros (-> & _). exists false. apply H3.
  - intros (-> & _). by exists st.
Qed.

Lemma rest_ends a m st nt : a = ASelect \/ a = AEnd -> (forall i, m = MStop i -> i = 0) ->
  exists y, rtc step (mk REnd a [SEnd] m st false nt true true None) y /\ stopped y.
Proof.
  intros Ha Hm. exists (mk REnd AEnd [SEnd] MEnd st false nt true true None). split; [|by repeat constructor].
  assert (forall a, rtc step (mk REnd a [SEnd] m st false nt true true None) (mk REnd a [SEnd] MEnd st false nt true true None)) as H1.
  { intros a0. destruct m as [|i|]; [| |done]; apply rtc_once, step_main; try done.
    - by apply (main_stopping (mk REnd a0 [SEnd] MSelect st false nt true true None)).
    - rewrite (Hm i eq_refl). by apply (main_stopped (mk REnd a0 [SEnd] (MStop 0) st false nt true true None) 0). }
  etrans; [apply H1|]. destruct Ha as [-> | ->]; [|done]. apply rtc_once, step_applier; [done|].
  by apply (applier_end (mk REnd ASelect [SEnd] MEnd st false nt true true None)).
Qed.

(** Once the loop of raft is told to stop, the rest follows. *)
Lemma ends_from r a c m st nt sp : live r = false -> phase c (mk r a [c] m st (negb (closed r)) nt (ended r) sp None) ->
  a = ASelect \/ a = AEnd -> (forall i, m = MStop i -> i = 0) ->
  exists y, rtc step (mk r a [c] m st (negb (closed r)) nt (ended r) sp None) y /\ stopped y.
Proof.
  intros Hl Hp Ha Hm. destruct (stop_ends c a m st nt sp) as [st' H2].
  { destruct c; unfold phase in *; fields; cbn in *; try done; intuition congruence. }
  destruct (rest_ends a m st' nt Ha Hm) as (y & H3 & Hy). exists y. split; [|done].
  etrans; [by apply raft_ends|]. by etrans.
Qed.

Lemma stop_takes r c m nt : stoppable r = true -> c = SStart \/ c = SSelect ->
  rtc step (mk r ASelect [c] m true true nt false false None) (mk RTransport ASelect [SWait] m true true nt false false None).
Proof.
  intros Hr Hc.
  assert (rtc step (mk r ASelect [SSelect] m true true nt false false None) (mk RTransport ASelect [SWait] m true true nt false false None)) as H1.
  { apply rtc_once, (step_stop _ 0); [done|]. by apply (stop_raft 0 (mk r ASelect [SSelect] m true true nt false false None)). }
  destruct Hc as [-> | ->]; [|exact H1]. eapply rtc_l; [|exact H1]. apply (step_stop _ 0); [done|].
  by apply (stop_running 0 (mk r ASelect [SStart] m true true nt false false None)).
Qed.

(** C26: A stop completes: from every state that a node gets to after one call of
    [Stop], unless the loop that applies entries is in the middle of a batch when the storage is
    already closed, the goroutines can go on until all of them have ended, with the storage
    closed and nothing fatal; none of them is ever stuck at a channel. *)
Theorem shutdown_completes x c : reachable x -> stops x = [c] -> dead x = None -> can_apply x ->
  exists y, rtc step x y /\ stopped y.
Proof.
  intros Hx Hc Hd Ha. apply shutdown_inv in Hx as [[Ho Hdo Hn He _] H1]. unfold once in H1. rewrite Hc in H1.
  destruct H1 as (Hp & _ & Hm). destruct x as [r a l m st o nt d sp de]. fields. subst.
  destruct (drain r a [c] m st (negb (closed r)) nt (ended r) sp Ha) as (a' & nt' & Hs & Ha' & Hnt).
  assert (a' = ASelect \/ a' = AEnd) as Ha2 by tauto.
  destruct (live r) eqn:Hl.
  - assert (c = SStart \/ c = SSelect) as Hc by (destruct c; unfold phase in Hp; fields; destruct r; naive_solver).
    assert (st = true /\ sp = false) as [-> ->] by (destruct Hc as [-> | ->]; unfold phase in Hp; fields; tauto).
    assert (closed r = false /\ ended r = false) as [Hcl Hen] by (by destruct r). rewrite Hcl, Hen in *. cbn [negb] in *.
    assert (a' = ASelect) as -> by (destruct Ha' as [?|[_ E]]; [done|by specialize (He E)]).
    destruct (to_stoppable r [c] m true nt' false Hl) as (r' & Hr' & Hs2).
    { intros E. apply Hnt. destruct (Hn E) as [?|[?|?]]; tauto. }
    destruct (ends_from RTransport ASelect SWait m true nt' false) as (y & Hy & Hst); [done|done|by left|done|].
    exists y. split; [|done]. etrans; [exact Hs|]. etrans; [exact Hs2|]. etrans; [by apply stop_takes|exact Hy].
  - destruct (ends_from r a' c m st nt' sp Hl) as (y & Hy & Hst); [|done|done|exists y; split; [by etrans|done]].
    by destruct c.
Qed.

(** * What can go wrong *)

Ltac take lem := eapply rtc_l;
  [first [eapply step_raft; [reflexivity|eapply lem; reflexivity]
         |eapply step_on_stop; [reflexivity|eapply lem; reflexivity]
         |eapply step_applier; [reflexivity|eapply lem; reflexivity]
         |eapply step_stop; [reflexivity|eapply lem; reflexivity]]|]; fields; cbn.
Ltac signal := eapply rtc_l; [apply step_signal; reflexivity|]; fields; cbn.

(** A second call of [Stop], for a signal or after the removal of the node, that passes
    the test of [started] before the first one clears it closes [stopping] again. *)
Lemma stop_twice_panics : exists x, reachable x /\ length (stops x) = 2 /\ dead x = Some ClosePanic.
Proof.
  eexists. split.
  - unfold reachable, running. signal. signal. take (stop_running 0). take (stop_running 1). take (stop_raft 0).
    take raft_transport. take raft_close. take raft_done. take (stop_done 0). take (stop_ended 1). take (stop_close 0).
    take (stop_close_again 1). reflexivity.
  - by split.
Qed.

(** One call of [Stop] waits for the loop of raft, but not for the entries that it
    has handed over: they can be applied when the storage is closed, which is fatal. *)
Lemma apply_after_close_fatal : exists x, reachable x /\ length (stops x) = 1 /\ dead x = Some ApplyFatal.
Proof.
  eexists. split.
  - unfold reachable, running. take (fun x => raft_ready x false 1). take raft_save. take raft_hand. signal.
    take (stop_running 0). take (stop_raft 0). take raft_transport. take raft_close. take applier_write_closed. reflexivity.
  - by split.
Qed.

(** * A stop in the middle of a batch *)

Definition stopping_node : t := mk RNotify (AApply 2) [SSelect] MSelect true true false false false None.

Lemma stopping_reachable : reachable stopping_node.
Proof.
  unfold reachable, running. take (fun x => raft_ready x true 2). take raft_save. take raft_hand. signal.
  take (stop_running 0). reflexivity.
Qed.

Lemma shutdown_safe_witness : dead stopping_node <> Some ClosePanic.
Proof. apply (shutdown_safe stopping_node stopping_reachable). cbn. lia. Defined.

Lemma shutdown_completes_witness : exists y, rtc step stopping_node y /\ stopped y.
Proof.
  apply (shutdown_completes stopping_node SSelect).
  - exact stopping_reachable.
  - reflexivity.
  - reflexivity.
  - left. reflexivity.
Defined.
