(* ===== verification/Purge.v ===== *)
(** The purger, [StartPurgeLog] of storage/disk_storage.go: it takes the oldest
    segments out of the list under the lock and removes their files after it,
    while other calls go on. *)
From S2P Require Import Prelude Wire Names Disk IndexFile Segments Storage LogStore.
From stdpp Require Import sorting.
Local Open Scope Z_scope.
Local Open Scope go_scope.

Lemma linked_bases base ps :
  linked base ps -> full ps -> StronglySorted Z.lt (p_base <$> ps).
Proof.
  revert base. induction ps as [|p ps IH]; intros base Hl Hf; [constructor|].
  destruct Hl as [<- Hl]. inversion Hf; subst. cbn [fmap list_fmap].
  constructor; [by eapply IH|]. apply Forall_fmap, Forall_forall. intros q Hq. cbn.
  pose proof (linked_lt _ _ Hl ltac:(done)) as Hlt.
  apply (proj1 (Forall_forall _ _) Hlt) in Hq. destruct (p_es p); [done|]. rewrite blen_cons in *. len.
Qed.

Lemma sorted_lt_NoDup l : StronglySorted Z.lt l -> NoDup l.
Proof.
  induction 1 as [|z l _ IH Hz]; constructor; [|done]. intros Hin.
  apply (proj1 (Forall_forall _ _) Hz) in Hin. lia.
Qed.

Lemma closed_drop k ps : closed_but_last ps -> closed_but_last (drop k ps).
Proof.
  revert k. induction ps as [|p ps IH]; intros k Hc; [by rewrite drop_nil|].
  destruct k as [|k]; [done|]. cbn [drop]. apply IH. destruct ps as [|q ps]; [done|].
  by destruct Hc as (_ & _ & Hc).
Qed.

Section Purge.
Context `{Settings} {M : Type} `{MetaStorage M}.

(** How many segments the purger takes. *)
Definition purge_count (s : DiskStorage.t M) : nat :=
  Z.to_nat (blen (DiskStorage.Segments s) - DiskStorage.ReserveSegmentCount s).

Lemma purge_detach_ok d base ps (s : DiskStorage.t M) fs :
  let k := purge_count s in
  sto_repr d base ps [] s -> full ps -> 0 < DiskStorage.ReserveSegmentCount s ->
  exists s', DiskStorage.purge_detach (s, fs) = (Ok tt, (s', fs)) /\
    sto_repr d (base + blen (entries_of (take k ps))) (drop k ps) (take k ps) s' /\
    DiskStorage.meta s' = DiskStorage.meta s /\
    DiskStorage.Segments s' = drop k (DiskStorage.Segments s).
Proof.
  intros k [Hf Hl Hc Hd Ho Hso Ht] Hfull Hr. unfold DiskStorage.purge_detach, set_obj, modify. cbn [fst snd].
  apply Forall2_nil_inv_l in Hd. pose proof (Forall2_length _ _ _ Hf) as Hlen.
  eexists. split; [reflexivity|]. rewrite <-(take_drop k ps) in Hl. apply linked_app in Hl as [Hl1 Hl2].
  assert (full (take k ps)) as Hft by (by apply Forall_take).
  zcase.
  - cbn. split; [|done]. fold (purge_count s). fold k. split; cbn.
    + by apply Forall2_drop.
    + done.
    + by apply closed_drop.
    + by apply Forall2_take.
    + eapply Forall_impl; [by apply linked_lt|]. cbn. intros p Hp. lia.
    + by eapply linked_bases.
    + by rewrite take_drop.
  - assert (k = 0%nat) as -> by (unfold k, purge_count; lia). cbn [take drop] in *.
    change (blen (entries_of [])) with 0 in *. rewrite Z.add_0_r in *.
    split; [|done]. split; try done. by rewrite Hd.
Qed.

Lemma purge_remove_ok d base ps dead (s : DiskStorage.t M) :
  sto_repr d base ps dead s -> full ps -> ps <> [] -> purge_ok base s ->
  exists s' d', DiskStorage.purge_remove (s, quiet d) = (Ok tt, (s', quiet d')) /\
    sto_repr d' base ps [] s' /\
    (forall n, owned_by (p_base <$> dead) n -> d' !! n = None).
Proof.
  intros Hr Hfull Hne Hm. pose proof Hr as [Hf Hl Hc Hd Ho Hso Ht].
  assert (DiskStorage.FirstIndex s = base) as HF.
  { destruct ps as [|p ps]; [done|]. apply (sto_first _ _ _ _ _ p ps Hr eq_refl). by inversion Hfull. }
  unfold DiskStorage.purge_remove. rewrite (bind_ok (obj _) _ _ _ _ eq_refl). cbn [fst].
  destruct (DiskStorage.purging s) as [|x xs] eqn:Ep.
  - exists s, d. split; [done|]. inversion Hd; subst. split; [done|]. intros n Hn. by inversion Hn.
  - rewrite <-Ep in *. clear x xs Ep.
    assert (NoDup (p_base <$> dead)) as Hnd.
    { by apply sorted_lt_NoDup. }
    destruct (purgeSegments_ok d s dead (DiskStorage.purging s) Hd Hnd) as (m' & d' & HP & Hs & Hn).
    { by rewrite HF. }
    eexists _, d'. split; [|split; [|done]].
    + unfold fatal_on_err. unfold bind. rewrite HP. reflexivity.
    + assert (Forall (fun p => p_base p ∉ p_base <$> dead) ps) as Hfr.
      { apply Forall_forall. intros p Hp (q & Eq & Hq)%list_elem_of_fmap.
        apply (proj1 (Forall_forall _ _) Ho) in Hq.
        apply list_elem_of_lookup in Hp as [j Hj]. pose proof (linked_base _ _ _ _ Hl Hj). lia. }
      split; cbn; try done; try constructor.
      * apply (parts_frame d _ (p_base <$> dead)); [done| |done|done].
        apply Forall_fmap. by eapply parts_u64.
      * apply (tidy_remove d d' dead (dead ++ ps)); [done|done|done|]. intros p. apply elem_of_app.
Qed.

End Purge.
