(* ===== verification/Samples.v ===== *)
(** A meta store in memory and small logs, on which the theorems about the
    storage and the node are evaluated. *)
From S2P Require Import Prelude Wire Names Disk IndexFile Segments Storage LogStore RaftNode.
Local Open Scope Z_scope.
Local Open Scope go_scope.

(** A [MetaStorage] that keeps its keys in a list and has no GTID set to
    update when segments are purged. *)
Definition MapMeta : Type := list (bytes * bytes).

Definition map_set (k v : bytes) (m : MapMeta) : MapMeta := (k, v) :: filter (fun p => p.1 <> k) m.
Definition map_get (k : bytes) (m : MapMeta) : option bytes :=
  snd <$> find (fun p => bool_decide (p.1 = k)) m.

Definition HardStateKey : bytes := [104; 97; 114; 100; 95; 115; 116; 97; 116; 101].

#[export] Instance map_meta_storage : MetaStorage MapMeta := {
  meta_SaveHardState h :=
    modify (map_set HardStateKey (be_bytes 8 (HardState.Term h) ++ be_bytes 8 (HardState.Vote h) ++
                                  be_bytes 8 (HardState.Commit h)));
  meta_Get k := gets (map_get k);
  meta_Set k v := modify (map_set k v);
  meta_UpdatePugedGtidset _ := ret tt;
  meta_Close2 := ret tt }.

(** Segments of 48 bytes: each of the entries below takes 21 or 22. *)
#[export] Instance small_segments : Settings := {| SegmentSize := 48 |}.

Lemma small_ok : 0 < SegmentSize <= 2 ^ 32.
Proof. done. Qed.

Definition entry (term index : Z) (data : bytes) : Entry.t :=
  Entry.mk term index 0 (Some data) None.

Definition e1 : Entry.t := entry 1 1 [11].
Definition e2 : Entry.t := entry 1 2 [22; 22].
Definition e3 : Entry.t := entry 2 3 [33].
Definition e3' : Entry.t := entry 3 3 [34].
Definition e4' : Entry.t := entry 3 4 [44].

Definition empty_storage : DiskStorage.t MapMeta * FS :=
  (DiskStorage.mk [] 1 false [] ([(NeedRecoverKey, bytes_true)]), quiet ∅).

(** The storage after the entries are saved one call each. *)
Definition saved_log (es : list Entry.t) (s : DiskStorage.t MapMeta * FS) : DiskStorage.t MapMeta * FS :=
  fold_left (fun s e => (DiskStorage.SaveRaftEntries [e] s).2) es s.

Definition s3 : DiskStorage.t MapMeta * FS := saved_log [e1; e2; e3] empty_storage.

Lemma empty_stores base : stores base [] empty_storage.
Proof.
  exists ∅, [], []. split; [done|]. split; [|by repeat constructor].
  split; try constructor. intros n [? Hn]. by rewrite lookup_empty in Hn.
Qed.

Lemma save_stores base es (s : DiskStorage.t MapMeta * FS) e :
  stores base es s -> appendable (base + blen es) [e] ->
  stores base (es ++ [e]) (DiskStorage.SaveRaftEntries [e] s).2.
Proof.
  intros (d & ps & dead & Hs & Hr & _ & Hc & He) Ha.
  destruct (stores_save small_ok base es s [e]) as (s' & HS & Hs'); [|done|done|by rewrite HS].
  by exists d, ps, dead.
Qed.

(** Entries with the given terms and data, from index [next] on. *)
Fixpoint entries_from (next : Z) (l : list (Z * bytes)) : list Entry.t :=
  match l with
  | [] => []
  | (term, data) :: l' => entry term next data :: entries_from (next + 1) l'
  end.

Lemma entries_from_contig next l : contig next (entries_from next l).
Proof.
  revert next. induction l as [|[t d] l IH]; intros next; [apply contig_nil|].
  apply contig_cons. split; [done|apply IH].
Qed.

Lemma entries_from_storable next l :
  0 < next -> next + blen l <= 2 ^ 64 -> Forall (fun p => is_u64 p.1 /\ bytes_ok p.2 /\ blen p.2 < 2 ^ 31) l ->
  blen (frames (entries_from next l)) <= 48 -> Forall storable (entries_from next l).
Proof.
  revert next. induction l as [|[t d] l IH]; intros next Hn Hle Hf Hs; [constructor|].
  inversion Hf as [|? ? (Ht & Hd & Hl) Hf']; subst. cbn [entries_from] in *. rewrite blen_cons in Hle.
  rewrite frames_cons, blen_app, blen_frame in Hs. cbn in Ht, Hd, Hl.
  constructor; [|apply IH; try done; len]. split; [|len].
  split; cbn; try done; unfold is_u64 in *; [len|]. split; [done|lia].
Qed.

Lemma appendable_from next l :
  forallb (fun p => bool_decide (is_u64 p.1) && bool_decide (bytes_ok p.2) && (blen p.2 <? 2 ^ 31)) l &&
  (0 <? next) && (next + blen l <=? 2 ^ 64) && (blen (frames (entries_from next l)) <=? 48) = true ->
  appendable next (entries_from next l).
Proof.
  intros Hb. zbool. match goal with H : forallb _ _ = true |- _ => rename H into Hall end.
  assert (Forall (fun p => is_u64 p.1 /\ bytes_ok p.2 /\ blen p.2 < 2 ^ 31) l) as Hf.
  { apply Forall_forall. intros p Hp.
    pose proof (proj1 (forallb_forall _ _) Hall p Hp) as Hc. cbn beta in Hc. zbool.
    split; [|split; [|done]]; by eapply bool_decide_eq_true_1. }
  assert (blen (entries_from next l) = blen l) as E.
  { clear. revert next. induction l as [|[t d] l IH]; intros next; [done|].
    cbn [entries_from]. by rewrite !blen_cons, IH. }
  split; [apply entries_from_contig | by apply entries_from_storable | rewrite E; lia | done].
Qed.

Lemma s3_stores : stores 1 [e1; e2; e3] s3.
Proof.
  apply (save_stores 1 [e1; e2] (saved_log [e1; e2] empty_storage) e3).
  - apply (save_stores 1 [e1] (saved_log [e1] empty_storage) e2).
    + apply (save_stores 1 [] empty_storage e1); [apply empty_stores|].
      apply (appendable_from 1 [(1, [11])]). vm_compute. reflexivity.
    + apply (appendable_from 2 [(1, [22; 22])]). vm_compute. reflexivity.
  - apply (appendable_from 3 [(2, [33])]). vm_compute. reflexivity.
Qed.

Lemma s3_purging : DiskStorage.purging s3.1 = [].
Proof. vm_compute. reflexivity. Qed.

Lemma s3_meta : DiskStorage.meta s3.1 = [(NeedRecoverKey, bytes_true)].
Proof. vm_compute. reflexivity. Qed.

(** The storage that is opened on the files of [s3] after a crash. *)
Definition s3_reopened : DiskStorage.t MapMeta * FS :=
  match DiskStorage.NewDiskStorage 4 (DiskStorage.meta s3.1) s3.2 with
  | (Ok s, fs) => (s, fs)
  | (_, fs) => (s3.1, fs)
  end.
