(* ===== verification/StorageTheorems.v ===== *)
(** What the disk storage guarantees to the raft node and to the readers of
    the log, over the operations of storage/disk_storage.go: reading, saving,
    truncating, purging, closing, and opening again after [Close] or after a
    crash; and the states in which it fails. *)
From S2P Require Import Prelude Wire Names Disk IndexFile Segments Storage LogStore Recovery.
From S2P Require Import RaftNode Purge Samples.
From stdpp Require Import list.
Local Open Scope Z_scope.
Local Open Scope go_scope.

Section Theorems.
Context `{Settings} {M : Type} `{MetaStorage M}.
Implicit Types s : DiskStorage.t M * FS.

(** * Reading *)

(** [s] can be read as the log [es] from index [base] on. *)
Definition keeps (base : Z) (es : list Entry.t) s : Prop :=
  exists ps dead, sto_repr (files s.2) base ps dead s.1 /\ full ps /\ entries_of ps = es.

Lemma stores_keeps base es s : stores base es s -> keeps base es s.
Proof. intros (d & ps & dead & Hs & Hr & Hf & _ & He). exists ps, dead. by rewrite Hs. Qed.

Lemma keeps_bounds base es s : keeps base es s -> es <> [] -> 0 < base /\ base + blen es <= 2 ^ 64.
Proof.
  intros (ps & dead & Hr & _ & <-) Hne. apply (sto_bounds _ _ _ _ _ Hr). by intros ->.
Qed.

Lemma keeps_check base es s i :
  keeps base es s -> es <> [] ->
  DiskStorage.checkRaftIndex i s =
    (if i <? base then Err ErrCompacted
     else if base + blen es - 1 <? i then Err ErrOutOfBound else Ok tt, s).
Proof.
  destruct s as [s [d fl]]. intros (ps & dead & Hr & Hf & <-) Hne.
  by rewrite (checkRaftIndex_ok d base ps dead s fl i Hr Hf) by (by intros ->).
Qed.

(** [Entries] outside of the log returns the error of the reason: an empty
    range, an index before the first one, an index after the last one. *)
Theorem entries_outside_log base es s lo hi maxSize :
  keeps base es s -> es <> [] -> 0 < hi < 2 ^ 64 -> 0 <= lo < 2 ^ 64 ->
  (hi <= lo -> DiskStorage.Entries lo hi maxSize s = (Err ErrArgsIllegal, s)) /\
  (lo < hi -> lo < base -> DiskStorage.Entries lo hi maxSize s = (Err ErrCompacted, s)) /\
  (base <= lo < hi -> base + blen es < hi ->
     DiskStorage.Entries lo hi maxSize s = (Err ErrOutOfBound, s)).
Proof.
  intros Hk Hne Hhi Hlo. unfold DiskStorage.Entries. rewrite u64_small by (unfold is_u64; lia).
  split; [|split]; intros Hlt.
  - zdecide. done.
  - intros Hc. zdecide. apply bind_err. rewrite (keeps_check base es) by done. zdecide. done.
  - intros Hc. zdecide.
    destruct (Z.lt_ge_cases (base + blen es - 1) lo) as [Hl|Hl].
    + apply bind_err. rewrite (keeps_check base es) by done. zdecide. done.
    + rewrite (bind_ok _ _ s tt s); [|rewrite (keeps_check base es) by done; by zdecide].
      apply bind_err. rewrite (keeps_check base es) by done. zdecide. done.
Qed.

(** the term of the entry before the first one is not available, although
    the interface asks for the terms from [FirstIndex()-1] on. *)
Theorem term_before_first base es s :
  keeps base es s -> es <> [] -> 1 < base ->
  DiskStorage.FirstIndex s.1 = base /\ DiskStorage.Term (base - 1) s = (Err ErrCompacted, s).
Proof.
  intros Hk Hne Hb. split.
  - destruct Hk as ([|p ps] & dead & Hr & Hf & <-); [done|].
    apply (sto_first _ _ _ _ _ p ps Hr eq_refl). by inversion Hf.
  - unfold DiskStorage.Term. zdecide. apply bind_err. rewrite (keeps_check base es) by done.
    zdecide. done.
Qed.

Hypothesis size_ok : 0 < SegmentSize <= 2 ^ 32.

Lemma keeps_entries base es s lo hi maxSize :
  keeps base es s -> base <= lo < hi -> hi <= base + blen es -> hi - lo < 2 ^ 63 ->
  exists r, DiskStorage.Entries lo hi maxSize s = (Ok r, s) /\
    entries_result maxSize (window base lo (hi - 1) es) r.
Proof.
  destruct s as [s [d fl]]. intros (ps & dead & Hr & Hf & <-).
  by apply (Entries_ok size_ok d base ps dead s fl).
Qed.

Lemma window_one base es i e :
  base <= i -> es !! Z.to_nat (i - base) = Some e -> window base i i es = [e].
Proof.
  intros Hi He. unfold window. rewrite (drop_S _ _ _ He).
  by replace (Z.to_nat (i - i + 1)) with 1%nat by lia.
Qed.

Lemma keeps_at base es s i e :
  keeps base es s -> base <= i -> es !! Z.to_nat (i - base) = Some e ->
  Entry.Index e = i /\ i < base + blen es /\ 0 < base /\ base + blen es <= 2 ^ 64.
Proof.
  intros Hk Hi He. pose proof (lookup_lt_Some _ _ _ He) as Hlt.
  assert (es <> []) as Hne by (by intros ->).
  pose proof (keeps_bounds _ _ _ Hk Hne). destruct Hk as (ps & dead & Hr & _ & <-).
  split; [|unfold blen in *; lia].
  destruct Hr as [Hf Hl _ _ _ _ _]. rewrite (parts_contig _ _ _ _ Hf Hl _ _ He). lia.
Qed.

(** One entry, without a limit. *)
Lemma keeps_entry base es s i e :
  keeps base es s -> base <= i < MaxUint64 -> es !! Z.to_nat (i - base) = Some e ->
  DiskStorage.Entries i (u64 (i + 1)) noLimit s = (Ok [e], s).
Proof.
  intros Hk Hi He. unfold MaxUint64 in Hi.
  destruct (keeps_at base es s i e Hk ltac:(lia) He) as (_ & Hlt & Hb & Hmax).
  rewrite u64_small by (unfold is_u64; lia).
  destruct (keeps_entries base es s i (i + 1) noLimit Hk) as (r & -> & Hp & Hne & _); [lia|lia|lia|].
  rewrite Z.add_simpl_r, (window_one base es i e) in Hp by (lia || done).
  destruct r as [|e' r]; [done|]. apply prefix_cons_inv_1 in Hp as Ee.
  apply prefix_cons_inv_2 in Hp. apply prefix_nil_inv in Hp. by subst.
Qed.

Lemma keeps_next base es s i e :
  keeps base es s -> base <= i < MaxUint64 -> es !! Z.to_nat (i - base) = Some e ->
  DiskStorage.GetNext i s = (Ok (e, i + 1), s).
Proof.
  intros Hk Hi He. unfold DiskStorage.GetNext.
  rewrite (bind_ok _ _ _ _ _ (keeps_entry _ _ _ _ _ Hk Hi He)). cbn [head].
  rewrite bind_must. unfold MaxUint64 in Hi.
  destruct (keeps_at base es s i e Hk ltac:(lia) He) as (_ & Hlt & Hb & Hmax).
  by rewrite u64_small by (unfold is_u64; lia).
Qed.

(** C15: [Entries(lo, hi, maxSize)] on a storage that holds the log [es] from
    index [base] on returns entries of that log: those at [lo], [lo]+1, ...,
    at least one, at most [maxSize] bytes of data unless it is one, all of
    [lo, hi) if their encodings take less than [maxSize]; the storage and the
    files do not change. *)
Theorem entries_read_log base es s lo hi maxSize :
  keeps base es s -> base <= lo < hi -> hi <= base + blen es -> hi - lo < 2 ^ 63 ->
  exists r, DiskStorage.Entries lo hi maxSize s = (Ok r, s) /\
    entries_result maxSize (window base lo (hi - 1) es) r.
Proof. apply keeps_entries. Qed.

(** [Term(i)] is the term of the entry at index [i]. *)
Theorem term_of_entry base es s i e :
  keeps base es s -> base <= i < MaxUint64 -> es !! Z.to_nat (i - base) = Some e ->
  DiskStorage.Term i s = (Ok (Entry.Term e), s).
Proof.
  intros Hk Hi He. destruct (keeps_at base es s i e Hk ltac:(lia) He) as (_ & Hlt & Hb & Hmax).
  assert (es <> []) as Hne by (by intros ->).
  unfold DiskStorage.Term. zdecide.
  rewrite (bind_ok _ _ s tt s); [|rewrite (keeps_check base es) by done; by zdecide].
  by rewrite (bind_ok _ _ _ _ _ (keeps_entry _ _ _ _ _ Hk Hi He)).
Qed.

(** A reader that is asked for the next entry [n] times. *)
Fixpoint read_next (n : nat) (i : Z) : St (DiskStorage.t M * FS) (list Entry.t) :=
  match n with
  | O => ret []
  | Datatypes.S n' =>
      let! p := DiskStorage.GetNext i in
      let! es := read_next n' p.2 in
      ret (p.1 :: es)
  end.

(** a reader made by [NewEntryReaderAt(i)] returns the entries of the log
    from index [i] on in order, one for each call of [GetNext], and the call
    after the last entry returns [ErrOutOfBound]. *)
Theorem reader_streams_log base es s i :
  keeps base es s -> base <= i < base + blen es -> base + blen es < MaxUint64 ->
  DiskStorage.NewEntryReaderAt i s = (Ok i, s) /\
  (forall n, i + Z.of_nat n <= base + blen es ->
     read_next n i s = (Ok (take n (drop (Z.to_nat (i - base)) es)), s)) /\
  DiskStorage.GetNext (base + blen es) s = (Err ErrOutOfBound, s).
Proof.
  intros Hk Hi Hmax. unfold MaxUint64 in Hmax.
  assert (es <> []) as Hne by (intros ->; rewrite blen_nil in Hi; lia).
  pose proof (keeps_bounds _ _ _ Hk Hne) as [Hb _]. split; [|split].
  - unfold DiskStorage.NewEntryReaderAt.
    rewrite (bind_ok _ _ s tt s); [done|]. rewrite (keeps_check base es) by done. by zdecide.
  - intros n. assert (base <= i) as Hbi by lia. clear Hi. revert i Hbi.
    induction n as [|n IH]; intros i Hi Hn; [by rewrite take_0|].
    destruct (lookup_lt_is_Some_2 es (Z.to_nat (i - base))) as [e He]; [unfold blen in *; lia|].
    cbn [read_next]. rewrite (bind_ok _ _ _ _ _ (keeps_next base es s i e Hk ltac:(unfold MaxUint64; lia) He)).
    cbn [fst snd]. rewrite (bind_ok _ _ _ _ _ (IH (i + 1) ltac:(lia) ltac:(lia))).
    rewrite (drop_S _ _ _ He). by replace (Z.to_nat (i + 1 - base)) with (S (Z.to_nat (i - base))) by lia.
  - unfold DiskStorage.GetNext, DiskStorage.Entries. apply bind_err.
    rewrite !u64_small by (try rewrite u64_small; unfold is_u64; lia). zdecide.
    apply bind_err. rewrite (keeps_check base es) by done. zdecide. done.
Qed.


(** * Writing *)

(** C16: saving entries that follow the log, are consecutive and fit into a
    segment extends the log by them. *)
Theorem save_extends_log base es s new :
  stores base es s -> new <> [] -> appendable (base + blen es) new ->
  exists s', DiskStorage.SaveRaftEntries new s = (Ok tt, s') /\ stores base (es ++ new) s'.
Proof.
  intros (d & ps & dead & Hs & Hr & _ & Hc & He) Hne Ha. apply (stores_save size_ok); try done.
  by exists d, ps, dead.
Qed.

(** truncating at an index of the log leaves the entries before it, in
    the list of segments and in the files, whether the index is in the last
    segment or in an earlier one; saving entries from that index on then
    gives the log that raft asked for. *)
Theorem truncate_cuts_log base es s i :
  stores base es s -> base <= i < base + blen es -> disk_cuttable i s ->
  exists s', DiskStorage.TruncateSuffix i s = (Ok tt, s') /\
    stores_cut base (take (Z.to_nat (i - base)) es) s'.
Proof. apply (stores_truncate size_ok). Qed.


(** The entries of a [Ready] continue the log or replace its end. *)
Definition ready_extends (base : Z) (es new : list Entry.t) s : Prop :=
  match new with
  | [] => True
  | e :: _ => base <= Entry.Index e <= base + blen es /\ appendable (Entry.Index e) new /\
              disk_cuttable (Entry.Index e) s
  end.

(** C17: when the node handles a [Ready], the new entries are in the storage
    before the committed entries are handed to the state machine, and, unless
    the node leads, before any message leaves it. *)
Theorem ready_saved_before_sent {P R} base es rm rc (rd : Ready.t P R) n s1 :
  let log := appended base es (Ready.Entries rd) in
  stores base es (RaftNode.Storage n) -> rc <> RaftNode.Stopped ->
  hard_saved (Ready.HardState rd) (RaftNode.Storage n) s1 ->
  ready_extends base es (Ready.Entries rd) s1 ->
  exists n' evs,
    RaftNode.handle_ready rm rc RaftNode.Through rd n = (Ok true, n') /\
    stores base log (RaftNode.Storage n') /\
    RaftNode.trace n' = RaftNode.trace n ++ evs /\
    Forall (after_save (leads rd n) (stores base log)) evs.
Proof. apply (handle_ready_ok (H0 := disk_raft_storage_laws size_ok)). Qed.

(** a batch of entries that does not fit into an empty segment ends the
    process before anything is written. *)
Theorem oversized_batch_panics s e new :
  SegmentSize < blen (frames (e :: new)) ->
  DiskStorage.SaveRaftEntries (e :: new) s = (Panic, s).
Proof.
  intros Hl. unfold DiskStorage.SaveRaftEntries. rewrite entriesToRecords_eq.
  rewrite (bind_ok (lift (Ok _)) _ _ _ _ eq_refl). zdecide. done.
Qed.


(** * Opening again *)

(** A storage with entries and no purge going on, by its parts. *)
Lemma stores_parts base es s :
  stores base es s -> es <> [] -> DiskStorage.purging s.1 = [] ->
  exists d qs p, s.2 = quiet d /\ sto_repr d base (qs ++ [p]) [] s.1 /\ full (qs ++ [p]) /\
    clean (qs ++ [p]) /\ p_es p <> [] /\ entries_of (qs ++ [p]) = es.
Proof.
  intros (d & ps & dead & Hs & Hr & Hf & Hc & He & _ & Hne)%stores_cases Hes Hp.
  destruct (exists_last (Hne Hes)) as (qs & p & ->).
  assert (dead = []) as ->.
  { destruct Hr as [_ _ _ Hd _ _ _]. rewrite Hp in Hd. by apply Forall2_nil_inv_r in Hd. }
  exists d, qs, p. rewrite Hs. repeat (split; [done|]). split; [|done].
  apply Forall_app in Hf as [_ Hf]. by inversion Hf.
Qed.

Lemma stores_of_parts d base ps dead (s : DiskStorage.t M) :
  sto_repr d base ps dead s -> full ps -> clean ps -> stores base (entries_of ps) (s, quiet d).
Proof. intros. by exists d, ps, dead. Qed.

(** What opening after a crash leaves of the metadata and of a file that is
    not one of the log. *)
Lemma crash_opens base es s (m m1 m2 : M) reserve :
  stores base es s -> es <> [] -> DiskStorage.purging s.1 = [] ->
  meta_Get NeedRecoverKey m = (Ok (Some bytes_true), m1) ->
  meta_Set NeedRecoverKey bytes_true m1 = (Ok tt, m2) ->
  exists (s' : DiskStorage.t M) fs',
    DiskStorage.NewDiskStorage reserve m s.2 = (Ok s', fs') /\ stores base es (s', fs') /\
    DiskStorage.meta s' = m2 /\ DiskStorage.purging s' = [] /\
    forall n, scan_020d n = None -> files fs' !! n = files s.2 !! n.
Proof.
  intros Hs Hne Hp Hg Hset.
  destruct (stores_parts _ _ _ Hs Hne Hp) as (d & qs & p & -> & Hr & Hf & Hc & Hpe & <-).
  pose proof (crashed_dir _ _ _ _ _ Hr Hpe Hc) as Hd.
  destruct (recover_ok size_ok d base qs p m m1 m2 reserve Hd Hg Hset) as (s' & d' & HN & Hr' & Hm & Hsame).
  exists s', (quiet d'). split; [done|]. split; [by eapply stores_of_parts|]. split; [done|].
  split; [by eapply Forall2_nil_inv_l, sr_dead|]. intros n Hn. apply Hsame. intros [r ->].
  pose proof (dr_ok _ _ _ _ _ Hd) as Hok. apply Forall_app in Hok as [_ Hok]. apply Forall_inv in Hok.
  rewrite scan_020d_fmt in Hn; [done|]. unfold is_u64. pose proof (lo_base _ _ (proj1 Hok)). lia.
Qed.

Lemma crash_stores base es s (m m1 m2 : M) reserve :
  stores base es s -> es <> [] -> DiskStorage.purging s.1 = [] ->
  meta_Get NeedRecoverKey m = (Ok (Some bytes_true), m1) ->
  meta_Set NeedRecoverKey bytes_true m1 = (Ok tt, m2) ->
  exists (s' : DiskStorage.t M) fs',
    DiskStorage.NewDiskStorage reserve m s.2 = (Ok s', fs') /\ stores base es (s', fs').
Proof.
  intros Hs Hne Hp Hg Hset. destruct (crash_opens base es s m m1 m2 reserve Hs Hne Hp Hg Hset) as (s' & fs' & HN & Hs' & _).
  eauto.
Qed.

(** C1: the process stops at any point between two calls of the storage: the
    segments in memory and the buffer of the index file are lost, the files
    stay. Opening the directory again gives a storage that holds the same
    log, with the index of the last segment rebuilt from its log file. *)
Theorem crash_keeps_log base es s (m m1 m2 : M) reserve :
  stores base es s -> es <> [] -> DiskStorage.purging s.1 = [] ->
  meta_Get NeedRecoverKey m = (Ok (Some bytes_true), m1) ->
  meta_Set NeedRecoverKey bytes_true m1 = (Ok tt, m2) ->
  exists (s' : DiskStorage.t M) fs',
    DiskStorage.NewDiskStorage reserve m s.2 = (Ok s', fs') /\ stores base es (s', fs').
Proof. apply crash_stores. Qed.

(** The directory in which the append of one more record to the last segment
    has stored the length of the record and nothing else. *)
Definition torn_append (n : Z) (s : DiskStorage.t M) (d : gmap string bytes) : gmap string bytes :=
  match rev (DiskStorage.Segments s) with
  | [] => d
  | seg :: _ =>
      let f := Segment.LogFile seg in
      match d !! MmapFile.filePath f with
      | None => d
      | Some c => <[MmapFile.filePath f := splice c (MmapFile.writePosition f) (le_bytes 4 n)]> d
      end
  end.

Lemma torn_append_eq d base qs p (s : DiskStorage.t M) n t :
  sto_repr d base (qs ++ [p]) [] s -> p_tail p = zeros t -> 0 < n < 2 ^ 32 ->
  (forall seg, head (rev (DiskStorage.Segments s)) = Some seg -> Segment.needRolling seg (4 + n) = false) ->
  4 + n <= t /\
  torn_append n s d =
    <[ReadWriteSegmentName (p_base p) := frames (p_es p) ++ le_bytes 4 n ++ zeros (t - 4)]> d.
Proof.
  intros Hr Ht Hn Hroll.
  destruct (sto_split_last _ _ _ _ _ _ Hr) as (ss & x & Es & _ & [[Hd _] Hst] & _ & _ & _ & Hrw & _).
  unfold torn_append. rewrite Es, rev_app_distr in *. cbn [rev app] in *.
  specialize (Hroll x eq_refl). rewrite Hrw in Hst.
  destruct Hd as [_ _ _ _ _ Hpath Hfile Hfit Hmax Hpos _ _]. rewrite Hst in *.
  cbn [log_name] in *. destruct Hpos as [Hpos|[? _]]; [|done].
  unfold Segment.needRolling in Hroll. zbool. rewrite Hmax, Hpos in Hroll.
  rewrite Ht, blen_zeros in Hfit. assert (4 + n <= t) by lia. split; [done|].
  rewrite Hpath, Hfile, Hpos, Ht. rewrite (zeros_split 4 t) by lia. by rewrite splice_mid by len.
Qed.

(** C20: the process stops in the middle of an append, after the length of
    the record is in the file and before the record is: opening the directory
    again gives the log without that record. *)
Theorem torn_append_dropped base es s n (m m1 m2 : M) reserve :
  stores base es s -> es <> [] -> DiskStorage.purging s.1 = [] ->
  0 < n < 2 ^ 32 ->
  (forall seg, head (rev (DiskStorage.Segments s.1)) = Some seg ->
     Segment.needRolling seg (4 + n) = false) ->
  meta_Get NeedRecoverKey m = (Ok (Some bytes_true), m1) ->
  meta_Set NeedRecoverKey bytes_true m1 = (Ok tt, m2) ->
  exists (s' : DiskStorage.t M) fs',
    DiskStorage.NewDiskStorage reserve m (quiet (torn_append n s.1 (files s.2))) = (Ok s', fs') /\
    keeps base es (s', fs').
Proof.
  intros Hs Hne Hp Hn Hroll Hg Hset.
  destruct (stores_parts _ _ _ Hs Hne Hp) as (d & qs & p & -> & Hr & Hf & Hc & Hpe & <-).
  pose proof Hc as [_ Hcp]%Forall_app. inversion Hcp as [|? ? [t Ht]]; subst.
  destruct (torn_append_eq d base qs p s.1 n t Hr Ht Hn Hroll) as [Hfit E]. cbn [files]. rewrite E.
  destruct (recover_ok size_ok _ base qs _ m m1 m2 reserve
    (torn_dir d base qs p n t (crashed_dir _ _ _ _ _ Hr Hpe Hc) Ht Hn Hfit) Hg Hset)
    as (s' & d' & HN & Hr' & _).
  exists s', (quiet d'). split; [done|]. eexists _, []. split; [exact Hr'|].
  apply Forall_app in Hf as [Hfq _]. split.
  - apply Forall_app. split; [done|]. by constructor; [|constructor].
  - by rewrite !entries_of_app, !entries_of_cons.
Qed.

(** [Close] and then [NewDiskStorage] on the same directory give a
    storage that holds the same log, without rebuilding any index. *)
Theorem close_reopen_keeps_log base es s (m1 m m2 m3 : M) reserve :
  stores base es s -> es <> [] -> DiskStorage.purging s.1 = [] ->
  meta_Set NeedRecoverKey bytes_false (DiskStorage.meta s.1) = (Ok tt, m1) ->
  meta_Get NeedRecoverKey m = (Ok (Some bytes_false), m2) ->
  meta_Set NeedRecoverKey bytes_true m2 = (Ok tt, m3) ->
  exists s1 (s2 : DiskStorage.t M),
    DiskStorage.Close s = (Ok tt, s1) /\
    DiskStorage.NewDiskStorage reserve m s1.2 = (Ok s2, s1.2) /\
    stores base es (s2, s1.2).
Proof.
  intros Hs Hne Hp Hclose Hg Hset.
  destruct (stores_parts _ _ _ Hs Hne Hp) as (d & qs & p & Hq & Hr & Hf & Hc & Hpe & <-).
  destruct (Close_ok d base (qs ++ [p]) s.1 m1 Hr Hclose) as (s1 & d1 & HC & _ & Hfs & Hti).
  destruct s as [s fs]. cbn in Hq, Hr, HC. subst fs.
  assert (dir_repr (part_files d1) d1 base qs p) as Hd.
  { destruct Hr as [Hsegs Hl Hcl _ _ _ _]. apply closed_dir; try done. by eapply parts_ok. }
  destruct (reopen_ok size_ok d1 base qs p m m2 m3 (Some bytes_false) reserve Hd ltac:(done) Hg Hset) as (s2 & HN & Hr2).
  exists (s1, quiet d1), s2. split; [done|]. split; [done|]. by eapply stores_of_parts.
Qed.

(** * Purging *)

(** a purge with a save between its two halves: the log loses whole
    segments at its start and at most [ReserveSegmentCount] of them stay, the
    entries saved meanwhile are kept, and what is left can be read, truncated
    and extended like before. *)
Theorem purge_keeps_suffix base es s new :
  stores base es s -> es <> [] -> DiskStorage.purging s.1 = [] ->
  0 < DiskStorage.ReserveSegmentCount s.1 ->
  (forall i, purge_ok i s.1) -> new <> [] -> appendable (base + blen es) new ->
  exists base' s1 s2 s3,
    DiskStorage.purge_detach s = (Ok tt, s1) /\
    DiskStorage.SaveRaftEntries new s1 = (Ok tt, s2) /\
    DiskStorage.purge_remove s2 = (Ok tt, s3) /\
    base <= base' < base + blen es /\
    blen (DiskStorage.Segments s1.1) <= DiskStorage.ReserveSegmentCount s.1 /\
    DiskStorage.purging s3.1 = [] /\
    stores base' (drop (Z.to_nat (base' - base)) es ++ new) s3.
Proof.
  intros Hs Hne Hp Hres Hok Hnew Ha. destruct s as [s fs].
  destruct (stores_parts _ _ _ Hs Hne Hp) as (d & qs & p & Hq & Hr & Hf & Hc & Hpe & <-). cbn in *. subst fs.
  set (ps := qs ++ [p]) in *. set (k := purge_count s).
  destruct (purge_detach_ok d base ps s (quiet d) Hr Hf Hres) as (s1 & HD & Hr1 & Em & Es1). fold k in Hr1, Es1.
  assert (entries_of (take k ps) ++ entries_of (drop k ps) = entries_of ps) as Eps
    by (by rewrite <-entries_of_app, take_drop).
  set (base' := base + blen (entries_of (take k ps))) in *.
  assert (base' + blen (entries_of (drop k ps)) = base + blen (entries_of ps)) as Eb.
  { rewrite <-Eps, blen_app. unfold base'. lia. }
  assert (drop k ps <> []) as Hnd.
  { intros E. apply (f_equal length) in E. rewrite length_drop in E. cbn in E.
    destruct Hr as [Hsegs _ _ _ _ _ _]. apply Forall2_length in Hsegs.
    unfold k, purge_count, blen in E. subst ps. rewrite length_app in *. cbn in *. lia. }
  destruct (SaveRaftEntries_ok size_ok d base' _ _ s1 new Hr1 Hnew) as (s2 & d2 & HS & ps' & Hr2 & He & Hf2 & Hc2 & Em2).
  { by rewrite Eb. }
  destruct (purge_remove_ok d2 base' ps' _ s2 Hr2 Hf2) as (s3 & d3 & HR & Hr3 & _).
  { intros ->. symmetry in He. by apply app_eq_nil in He as [_ ->]. }
  { unfold purge_ok. rewrite Em2, Em. apply Hok. }
  exists base', (s1, quiet d), (s2, quiet d2), (s3, quiet d3). repeat (split; [done|]).
  split; [|split; [|split]].
  - pose proof (full_entries (drop k ps) (Forall_drop _ _ _ Hf) Hnd) as Hfe.
    destruct (entries_of (drop k ps)); [done|]. rewrite blen_cons in Eb. unfold base' in *. len.
  - cbn. rewrite Es1. unfold blen. rewrite length_drop. unfold k, purge_count, blen. lia.
  - destruct Hr3 as [_ _ _ Hd _ _ _]. by apply Forall2_nil_inv_l in Hd.
  - exists d3, ps', []. split; [done|]. split; [done|]. split; [done|]. split.
    + apply Hc2. by apply Forall_drop.
    + rewrite He. f_equal. rewrite <-Eps. unfold base'.
      replace (Z.to_nat _) with (length (entries_of (take k ps))) by (unfold blen; lia).
      by rewrite drop_app_length.
Qed.

(** * States in which the storage fails *)

(** A last segment without entries hides the others. *)
Lemma empty_last_hides d base qs p dead (s : DiskStorage.t M) :
  sto_repr d base (qs ++ [p]) dead s -> p_es p = [] -> qs <> [] ->
  DiskStorage.FirstIndex s = base /\ DiskStorage.LastIndex s = 0 /\ 0 < base.
Proof.
  intros Hr Hp Hq. destruct (sto_split_last _ _ _ _ _ _ Hr) as (ss & x & Es & Hf & Hx & _ & _ & Hro & _).
  split; [|split].
  - destruct qs as [|q qs]; [done|]. apply (sto_first _ _ _ _ _ q (qs ++ [p]) Hr eq_refl).
    by apply Forall_cons in Hro as [[_ ?] _].
  - unfold DiskStorage.LastIndex, Segment.getLastIndex. rewrite Es, rev_app_distr. cbn.
    by eapply part_repr_empty.
  - apply (sto_bounds _ _ _ _ _ Hr). by destruct qs.
Qed.

(** The part of the segment [seg], which holds [i]. *)
Lemma locate base es s i seg :
  stores base es s -> seg ∈ DiskStorage.Segments s.1 ->
  Segment.FirstIndex seg <= i <= Segment.LastIndex seg ->
  exists d ps dead ps1 p ps2 ss1 ss2,
    s = (s.1, quiet d) /\ sto_repr d base ps dead s.1 /\ clean ps /\ entries_of ps = es /\
    found d ps s.1 i ps1 p ps2 ss1 seg ss2 /\
    DiskStorage.find_segment (rev (DiskStorage.Segments s.1)) (blen (DiskStorage.Segments s.1) - 1) i
      = Z.of_nat (length ss1) /\
    p_es p <> [] /\ p_base p = Segment.FirstIndex seg /\
    p_base p + blen (p_es p) - 1 = Segment.LastIndex seg /\ DiskStorage.FirstIndex s.1 = base.
Proof.
  intros Hst Hseg Hi. pose proof Hst as (d & ps & dead & Hs & Hr & Hf & Hc & He & _)%stores_cases.
  pose proof Hr as [Hsegs Hl Hcl _ _ _ _]. apply list_elem_of_lookup in Hseg as [j Hj].
  destruct (Forall2_lookup_r _ _ _ _ _ Hsegs Hj) as (q & Hq & Hqr).
  pose proof (proj1 (Forall_lookup _ _) Hf j q Hq) as Hqe. cbn in Hqe.
  destruct (part_repr_range _ _ _ Hqr Hqe) as [Hqi Hql]. rewrite Hqi, Hql in *.
  pose proof (linked_base _ _ _ _ Hl Hq) as Hrange.
  assert (holds i q) as Hhq by (unfold holds; lia).
  assert (base <= i < base + blen (entries_of ps)) as Hin by lia.
  destruct (find_part size_ok _ _ _ _ _ _ Hr Hin) as (ps1 & p & ps2 & ss1 & x & ss2 & Hfo & Hfind & Huniq).
  pose proof Hfo as [Eps Ess Hf1 _ _ _ _]. pose proof (Huniq _ _ Hq Hhq) as ->.
  rewrite Eps, list_lookup_middle in Hq by done. injection Hq as <-.
  rewrite Ess, (Forall2_length _ _ _ Hf1), list_lookup_middle in Hj by done. injection Hj as <-.
  exists d, ps, dead, ps1, p, ps2, ss1, ss2. repeat (split; [done|]).
  apply (stores_first base es s Hst). intros ->. rewrite He, blen_nil in Hin. lia.
Qed.

(** truncating at the first index of a segment that is not the first one
    leaves an empty segment at the end, and the storage then reports 0 as its
    last index and refuses to read the entries before it, which are still
    there. *)
Theorem truncate_at_segment_start_hides_log base es s i seg :
  stores base es s -> base < i -> disk_cuttable i s ->
  seg ∈ DiskStorage.Segments s.1 -> Segment.FirstIndex seg = i -> i <= Segment.LastIndex seg ->
  exists s', DiskStorage.TruncateSuffix i s = (Ok tt, s') /\
    stores_cut base (take (Z.to_nat (i - base)) es) s' /\
    DiskStorage.FirstIndex s'.1 = base /\ DiskStorage.LastIndex s'.1 = 0 /\
    forall lo hi maxSize, base <= lo < hi -> hi < 2 ^ 64 ->
      DiskStorage.Entries lo hi maxSize s' = (Err ErrOutOfBound, s').
Proof.
  intros Hst Hb [Hw Hm] Hseg Hi Hil.
  destruct (locate base es s i seg Hst Hseg ltac:(lia))
    as (d & ps & dead & ps1 & p & ps2 & ss1 & ss2 & Hs & Hr & Hc & He & Hfo & Hfind & _ & Hpb & _ & HF0).
  rewrite HF0 in Hm. rewrite Hs. cbn [fst]. rewrite Hi in Hpb.
  destruct (TruncateSuffix_found size_ok _ _ _ _ _ _ _ _ _ _ _ _ Hr Hfo Hfind Hw Hm) as (s' & d' & HT & Hr').
  pose proof Hfo as [Eps _ _ _ _ Hh _]. pose proof (sr_linked _ _ _ _ _ Hr) as Hl.
  assert (ps1 <> []) as Hne1.
  { intros ->. rewrite Eps in Hl. destruct Hl as [Hl _]. lia. }
  destruct (empty_last_hides _ _ _ _ _ _ Hr' ltac:(by cbn; rewrite Hpb, Z.sub_diag, take_0) Hne1)
    as (HF & HL & Hb0).
  exists (s', quiet d'). split; [done|]. split; [|split; [done|split; [done|]]].
  - exists d', (ps1 ++ [cut_part i p]), dead. split; [done|]. split; [done|]. rewrite Eps in Hc, Hl.
    split; [by eapply cut_clean|]. rewrite <-He, Eps. by apply cut_entries.
  - intros lo hi maxSize Hlo Hhi. unfold DiskStorage.Entries. rewrite u64_small by (unfold is_u64; lia).
    zdecide. apply bind_err. unfold DiskStorage.checkRaftIndex.
    rewrite !(bind_ok (obj _) _ _ _ _ eq_refl). cbn [fst]. rewrite HF, HL. zdecide. done.
Qed.


(** a process that stops after a new segment has been created and before
    a first entry is in it (the segment that [SaveRaftEntries] starts the log
    or rolls to) leaves a directory that can not be opened again: reading the
    last entry of the empty index is a run-time panic. *)
Theorem new_segment_crash_panics base d :
  0 < base < 2 ^ 64 -> (forall n, owned base n -> d !! n = None) ->
  exists seg d',
    Segment.newSegment (ReadWriteSegmentName base) (quiet d) = (Ok seg, quiet d') /\
    forall needRecover,
      (Segment.openSegment (ReadWriteSegmentName base) SegmentRDWR needRecover (quiet d')).1 = Panic.
Proof.
  intros Hb Hn. destruct (newSegment_ok size_ok d base Hb Hn) as (seg & d' & HN & [Hsd _] & _ & Hst).
  exists seg, d'. split; [done|]. intros b. destruct Hsd as [_ _ _ _ _ _ Hf _ _ _ Hidx _].
  rewrite Hst in *. apply (openSegment_empty size_ok); [done|done|].
  inversion Hidx as [rw [_ _ _ _ _ _ (c & Hc & _ & E)]|]; subst.
  apply app_eq_nil in E as [-> _]. exact Hc.
Qed.

(** The files of a storage whose last segment has been made read-only. *)
Lemma rolled_dir_panics d base qs p (ss : list Segment.t) x (m m1 : M) v reserve :
  linked base (qs ++ [p]) -> Forall2 (part_repr d) qs ss -> part_repr d p x ->
  Forall (fun q => p_status q = SegmentReadOnly /\ p_es q <> []) (qs ++ [p]) -> tidy d (qs ++ [p]) ->
  meta_Get NeedRecoverKey m = (Ok v, m1) ->
  DiskStorage.NewDiskStorage reserve m (quiet d) = (Panic, quiet d).
Proof.
  intros Hl Hf Hx Hro Ht Hg. eapply (all_readonly_panics size_ok); try done.
  - apply (parts_ok d _ (ss ++ [x])). apply Forall2_app; [done|]. by constructor.
  - apply Forall_app in Hro as [Hroq Hrop]. apply Forall_app. split.
    + apply Forall_forall. intros q [j Hj]%list_elem_of_lookup.
      destruct (Forall2_lookup_l _ _ _ _ _ Hf Hj) as (y & _ & Hy).
      apply (running_files d q y Hy). by apply (Forall_lookup_1 _ _ _ _ Hroq Hj).
    + constructor; [|constructor]. apply (running_files d p x Hx). by apply Forall_cons in Hrop as [[? _] _].
Qed.

(** a process that stops in [rollingSegment], after the full segment has
    been made read-only and before the next one is created, leaves a
    directory that can not be opened again, since the last log file is taken
    for the segment in progress and does not have the name of one. *)
Theorem rolling_crash_panics base es s (m m1 : M) v :
  stores base es s -> es <> [] -> DiskStorage.purging s.1 = [] ->
  meta_Get NeedRecoverKey m = (Ok v, m1) ->
  exists s',
    DiskStorage.on_segment (length (DiskStorage.Segments s.1) - 1) Segment.changeToReadonly s =
      (Ok tt, s') /\
    forall reserve, DiskStorage.NewDiskStorage reserve m s'.2 = (Panic, s'.2).
Proof.
  intros Hs Hne Hp Hg. destruct s as [s fs].
  destruct (stores_parts _ _ _ Hs Hne Hp) as (d & qs & p & Hq & Hr & Hf & Hc & Hpe & <-). cbn in *. subst fs.
  destruct (sto_split_last _ _ _ _ _ _ Hr) as (ss & x & Es & Hfq & [Hx Hst] & _ & _ & Hro & Hrw & _).
  rewrite Hrw in Hst. destruct (changeToReadonly_ok d _ _ _ x Hx Hst Hpe) as (x' & d' & HC & Hx' & Hst' & _ & Hsame).
  set (p' := Part (p_base p) (p_es p) (p_tail p) SegmentReadOnly).
  pose proof Hr as [_ Hl Hcl _ _ _ Ht]. apply linked_app in Hl as [Hl1 Hl2].
  assert (same_except (owned_by [p_base p]) d d') as Hsame'.
  { apply (same_except_mono (owned (p_base p))); [apply owned_by_one|done]. }
  eexists. split.
  - unfold DiskStorage.on_segment. cbn [fst snd]. rewrite Es, length_app. cbn [length].
    rewrite Nat.add_sub, list_lookup_middle by done. rewrite HC. reflexivity.
  - intros reserve. cbn [snd]. apply (rolled_dir_panics d' base qs p' ss x' m m1 v reserve).
    + by apply linked_app.
    + apply (parts_frame d _ [p_base p]); [done| |done|].
      * constructor; [|constructor]. unfold is_u64. destruct Hx as [Hsd _]. pose proof (sd_base Hsd). lia.
      * destruct (linked_order base qs p [] (sr_linked _ _ _ _ _ Hr) Hcl Hpe) as (_ & Hlt & _).
        eapply Forall_impl; [exact Hlt|]. cbn. intros q Hq'. rewrite list_elem_of_singleton. lia.
    + by split.
    + apply Forall_app. split; [done|]. by constructor.
    + apply (tidy_update d d' [p_base p] (qs ++ [p])); [done|done| |].
      * constructor; [|constructor]. rewrite fmap_app. apply elem_of_app. right. constructor.
      * intros q Hq'. right. rewrite fmap_app. apply elem_of_app in Hq' as [Hq'|Hq'%list_elem_of_singleton].
        -- apply elem_of_app. left. by apply list_elem_of_fmap_2.
        -- subst. apply elem_of_app. right. constructor.
    + done.
Qed.

(** after a restart the segments before the last one have no write
    position. A truncation inside one of them removes the segments after it
    and then fails with [ErrOutOfBound], which ends the node, and the
    directory that is left can not be opened again. *)
Theorem truncate_reopened_segment_fails base es s i seg (m m1 : M) v :
  stores base es s -> DiskStorage.purging s.1 = [] ->
  purge_ok (DiskStorage.FirstIndex s.1) s.1 ->
  seg ∈ DiskStorage.Segments s.1 -> Segment.Status seg = SegmentReadOnly ->
  MmapFile.writePosition (Segment.LogFile seg) = 0 ->
  Segment.FirstIndex seg < i <= Segment.LastIndex seg ->
  meta_Get NeedRecoverKey m = (Ok v, m1) ->
  exists s',
    DiskStorage.TruncateSuffix i s = (Err ErrOutOfBound, s') /\
    DiskStorage.LastIndex s'.1 = Segment.LastIndex seg /\
    forall reserve, DiskStorage.NewDiskStorage reserve m s'.2 = (Panic, s'.2).
Proof.
  intros Hst Hp Hm Hseg Hro Hw Hi Hg.
  destruct (locate base es s i seg Hst Hseg ltac:(lia))
    as (d & ps & dead & ps1 & p & ps2 & ss1 & ss2 & Hs & Hr & Hc & He & Hfo & Hfind & Hpe & Hpb & Hpl & HF0).
  rewrite HF0 in Hm. rewrite Hs. cbn [fst]. pose proof Hr as [_ Hl Hcl Hd _ _ Ht].
  rewrite Hp in Hd. apply Forall2_nil_inv_r in Hd as ->. cbn [app] in Ht.
  destruct (truncate_reaches _ _ _ _ _ _ _ _ _ _ _ _ Hr Hfo Hfind Hm) as (m' & d1 & HT & Hsame & Hnone & Hpx1).
  destruct Hfo as [Eps Ess Hf1 Hpx Hf2 Hh _].
  destruct Hpx1 as [Hpx1 Hstx]. rewrite Hro in Hstx.
  pose proof (truncateSuffix_reopened size_ok d1 _ _ _ seg i Hpx1 Hw ltac:(lia)) as HX.
  eexists. split; [|split].
  - rewrite HT. by apply (on_segment_last _ _ _ _ seg).
  - unfold DiskStorage.LastIndex, Segment.getLastIndex. cbn. by rewrite rev_app_distr.
  - intros reserve. cbn [snd]. rewrite Eps in Hl, Hcl, Ht.
    destruct (linked_order base ps1 p ps2 Hl Hcl Hpe) as (_ & Hlt & Hgt & Hro1).
    apply (rolled_dir_panics d1 base ps1 p ss1 seg m m1 v reserve); [| |split; [done|by rewrite Hro]| | |done].
    + apply linked_app in Hl as [Hl1 [Hl2 _]]. by apply linked_app.
    + apply (parts_frame d _ (p_base <$> ps2)); [done| |done|].
      * apply Forall_fmap. by apply (parts_u64 _ _ _ Hf2).
      * eapply Forall_impl; [exact Hlt|]. cbn. intros q' Hq' (q2 & E & Hq2)%list_elem_of_fmap.
        apply (proj1 (Forall_forall _ _) Hgt) in Hq2. lia.
    + apply Forall_app. split; [done|]. by constructor.
    + apply (tidy_remove d d1 ps2 (ps1 ++ p :: ps2)); [done|done|done|].
      intros q'. rewrite !elem_of_app, elem_of_cons, list_elem_of_singleton. tauto.
Qed.

End Theorems.

(** * The theorems on small logs *)

Abbreviation log3 := [e1; e2; e3].

Lemma entries_read_log_witness :
  exists r, DiskStorage.Entries 1 4 noLimit s3 = (Ok r, s3) /\
    entries_result noLimit (window 1 1 3 log3) r.
Proof.
  apply (entries_read_log small_ok 1 log3 s3 1 4 noLimit); [|lia|done|lia].
  apply stores_keeps, s3_stores.
Defined.

Lemma entries_outside_log_witness :
  DiskStorage.Entries 2 2 noLimit s3 = (Err ErrArgsIllegal, s3) /\
  DiskStorage.Entries 0 2 noLimit s3 = (Err ErrCompacted, s3) /\
  DiskStorage.Entries 2 5 noLimit s3 = (Err ErrOutOfBound, s3).
Proof.
  pose proof (stores_keeps _ _ _ s3_stores) as Hk.
  split; [|split].
  - apply (entries_outside_log 1 log3 s3 2 2 noLimit); done || lia.
  - apply (entries_outside_log 1 log3 s3 0 2 noLimit); done || lia.
  - apply (entries_outside_log 1 log3 s3 2 5 noLimit); done || lia.
Defined.

Lemma term_of_entry_witness : DiskStorage.Term 3 s3 = (Ok 2, s3).
Proof.
  apply (term_of_entry small_ok 1 log3 s3 3 e3); [|unfold MaxUint64; lia|done].
  apply stores_keeps, s3_stores.
Defined.

Lemma reader_streams_log_witness :
  read_next 2 2 s3 = (Ok [e2; e3], s3) /\ DiskStorage.GetNext 4 s3 = (Err ErrOutOfBound, s3).
Proof.
  destruct (reader_streams_log small_ok 1 log3 s3 2) as (_ & Hn & He);
    [apply stores_keeps, s3_stores | len | unfold MaxUint64; len |].
  split; [apply (Hn 2%nat); len | exact He].
Defined.

Lemma save_extends_log_witness :
  exists s', DiskStorage.SaveRaftEntries [e4'] s3 = (Ok tt, s') /\ stores 1 (log3 ++ [e4']) s'.
Proof.
  apply (save_extends_log small_ok 1 log3 s3 [e4']); [apply s3_stores|done|].
  apply (appendable_from 4 [(3, [44])]). vm_compute. reflexivity.
Defined.

Lemma s3_cuttable i : disk_cuttable i s3.
Proof.
  split; [|done]. unfold writable. vm_compute DiskStorage.Segments.
  repeat (constructor; [intros _; (left; reflexivity) || (right; discriminate)|]). constructor.
Qed.

Lemma truncate_cuts_log_witness :
  exists s', DiskStorage.TruncateSuffix 2 s3 = (Ok tt, s') /\ stores_cut 1 [e1] s'.
Proof.
  apply (truncate_cuts_log small_ok 1 log3 s3 2); [apply s3_stores | len | apply s3_cuttable].
Defined.


Lemma oversized_batch_panics_witness :
  DiskStorage.SaveRaftEntries [e1; e2; e3] empty_storage = (Panic, empty_storage).
Proof. apply (oversized_batch_panics empty_storage e1 [e2; e3]). vm_compute. reflexivity. Defined.

Definition meta_recover : MapMeta := [(NeedRecoverKey, bytes_true)].
Definition meta_closed : MapMeta := [(NeedRecoverKey, bytes_false)].

Lemma crash_keeps_log_witness :
  exists s' fs', DiskStorage.NewDiskStorage 4 meta_recover s3.2 = (Ok s', fs') /\ stores 1 log3 (s', fs').
Proof.
  apply (crash_keeps_log small_ok 1 log3 s3 meta_recover meta_recover meta_recover 4);
    [apply s3_stores | done | apply s3_purging | done | done].
Defined.

Lemma torn_append_dropped_witness :
  exists s' fs',
    DiskStorage.NewDiskStorage 4 meta_recover (quiet (torn_append 20 s3.1 (files s3.2))) = (Ok s', fs') /\
    keeps 1 log3 (s', fs').
Proof.
  apply (torn_append_dropped small_ok 1 log3 s3 20 meta_recover meta_recover meta_recover 4);
    [apply s3_stores | done | apply s3_purging | lia | | done | done].
  vm_compute. by intros seg [= <-].
Defined.

Lemma close_reopen_keeps_log_witness :
  exists s1 s2,
    DiskStorage.Close s3 = (Ok tt, s1) /\
    DiskStorage.NewDiskStorage 4 meta_closed s1.2 = (Ok s2, s1.2) /\ stores 1 log3 (s2, s1.2).
Proof.
  apply (close_reopen_keeps_log small_ok 1 log3 s3 meta_closed meta_closed meta_closed meta_recover 4);
    [apply s3_stores | done | apply s3_purging | rewrite s3_meta; done | done | done].
Defined.

Lemma purge_keeps_suffix_witness :
  exists base' s1 s2 s3',
    DiskStorage.purge_detach s3 = (Ok tt, s1) /\
    DiskStorage.SaveRaftEntries [e4'] s1 = (Ok tt, s2) /\
    DiskStorage.purge_remove s2 = (Ok tt, s3') /\
    1 <= base' < 4 /\ blen (DiskStorage.Segments s1.1) <= 1 /\ DiskStorage.purging s3'.1 = [] /\
    stores base' (drop (Z.to_nat (base' - 1)) log3 ++ [e4']) s3'.
Proof.
  apply (purge_keeps_suffix small_ok 1 log3 s3 [e4']);
    [apply s3_stores | done | apply s3_purging | by vm_compute | done | done |].
  apply (appendable_from 4 [(3, [44])]). vm_compute. reflexivity.
Defined.

Lemma new_segment_crash_panics_witness :
  exists seg d',
    Segment.newSegment (ReadWriteSegmentName 1) (quiet ∅) = (Ok seg, quiet d') /\
    forall needRecover,
      (Segment.openSegment (ReadWriteSegmentName 1) SegmentRDWR needRecover (quiet d')).1 = Panic.
Proof. apply (new_segment_crash_panics small_ok 1 ∅); [lia|done]. Defined.

Lemma rolling_crash_panics_witness :
  exists s',
    DiskStorage.on_segment 1 Segment.changeToReadonly s3 = (Ok tt, s') /\
    forall reserve, DiskStorage.NewDiskStorage reserve meta_recover s'.2 = (Panic, s'.2).
Proof.
  apply (rolling_crash_panics small_ok 1 log3 s3 meta_recover meta_recover (Some bytes_true));
    [apply s3_stores | done | apply s3_purging | done].
Defined.

Definition s5 : DiskStorage.t MapMeta * FS := saved_log [entry 1 5 [55]] empty_storage.

Lemma term_before_first_witness :
  DiskStorage.FirstIndex s5.1 = 5 /\ DiskStorage.Term 4 s5 = (Err ErrCompacted, s5).
Proof.
  apply (term_before_first 5 [entry 1 5 [55]] s5); [|done|lia].
  apply stores_keeps, (save_stores 5 [] empty_storage); [apply empty_stores|].
  apply (appendable_from 5 [(1, [55])]). vm_compute. reflexivity.
Defined.

(** A follower that is told to replace entry 3 and votes. *)
Definition ready3 : Ready.t unit unit :=
  Ready.mk (Some (2, StateFollower)) (HardState.mk 3 2 2) [] [e3'; e4'] [e2]
    [Message.mk MsgAppResp 2 tt].
Definition node3 : RaftNode.t (S := DiskStorage.t MapMeta * FS) (P := unit) (R := unit) :=
  RaftNode.mk s3 0 true [] [].

Lemma cuttable_meta i (s : DiskStorage.t MapMeta * FS) m :
  disk_cuttable i s -> disk_cuttable i (with_meta m s.1, s.2).
Proof. intros [Hw _]. by split. Qed.

Lemma ready_saved_before_sent_witness :
  let log := [e1; e2; e3'; e4'] in
  exists n' evs,
    RaftNode.handle_ready (fun _ => false) RaftNode.Through RaftNode.Through ready3 node3 = (Ok true, n') /\
    stores 1 log (RaftNode.Storage n') /\ RaftNode.trace n' = [] ++ evs /\
    Forall (after_save false (stores 1 log)) evs.
Proof.
  intros log.
  set (s1 := (with_meta (meta_SaveHardState (HardState.mk 3 2 2) (DiskStorage.meta s3.1)).2 s3.1, s3.2)).
  apply (ready_saved_before_sent small_ok 1 log3 (fun _ => false) RaftNode.Through ready3 node3 s1).
  - apply s3_stores.
  - done.
  - right. split; [done|]. reflexivity.
  - split; [cbn; len|]. split; [|apply cuttable_meta, s3_cuttable].
    apply (appendable_from 3 [(3, [34]); (3, [44])]). vm_compute. reflexivity.
Defined.

Lemma truncate_at_segment_start_hides_log_witness :
  exists s', DiskStorage.TruncateSuffix 3 s3 = (Ok tt, s') /\ stores_cut 1 [e1; e2] s' /\
    DiskStorage.FirstIndex s'.1 = 1 /\ DiskStorage.LastIndex s'.1 = 0 /\
    forall lo hi maxSize, 1 <= lo < hi -> hi < 2 ^ 64 ->
      DiskStorage.Entries lo hi maxSize s' = (Err ErrOutOfBound, s').
Proof.
  assert (exists seg, DiskStorage.Segments s3.1 !! 1%nat = Some seg /\ Segment.FirstIndex seg = 3 /\
    Segment.LastIndex seg = 3) as (seg & Hs & HF & HL).
  { eexists. vm_compute. split; [reflexivity|]. by split. }
  apply (truncate_at_segment_start_hides_log small_ok 1 log3 s3 3 seg);
    [apply s3_stores | lia | apply s3_cuttable | by eapply list_elem_of_lookup_2 | done | lia].
Defined.

Lemma s3_reopened_stores : stores 1 log3 s3_reopened.
Proof.
  destruct (crash_stores small_ok 1 log3 s3 (DiskStorage.meta s3.1) (DiskStorage.meta s3.1)
    (DiskStorage.meta s3.1) 4 s3_stores) as (s' & fs' & HN & Hs); [done|apply s3_purging|done|done|].
  unfold s3_reopened. by rewrite HN.
Qed.

Lemma truncate_reopened_segment_fails_witness :
  exists s', DiskStorage.TruncateSuffix 2 s3_reopened = (Err ErrOutOfBound, s') /\
    DiskStorage.LastIndex s'.1 = 2 /\
    forall reserve, DiskStorage.NewDiskStorage reserve meta_recover s'.2 = (Panic, s'.2).
Proof.
  assert (exists seg, DiskStorage.Segments s3_reopened.1 !! 0%nat = Some seg /\
    Segment.Status seg = SegmentReadOnly /\ MmapFile.writePosition (Segment.LogFile seg) = 0 /\
    Segment.FirstIndex seg = 1 /\ Segment.LastIndex seg = 2) as (seg & Hs & Hst & Hw & HF & HL).
  { eexists. vm_compute. split; [reflexivity|]. by repeat split. }
  destruct (truncate_reopened_segment_fails small_ok 1 log3 s3_reopened 2 seg meta_recover
    meta_recover (Some bytes_true) s3_reopened_stores) as (s' & HT & HL' & HN);
    [vm_compute; reflexivity | reflexivity | by eapply list_elem_of_lookup_2 | exact Hst | exact Hw | lia
    | reflexivity |].
  exists s'. rewrite HL in HL'. split; [exact HT|]. split; [exact HL'|exact HN].
Defined.
