(* ===== verification/PurgeLoop.v ===== *)
(** The purger of the log as a goroutine: [StartPurgeLog] with its timer and
    [StopPurgeLog] of storage/disk_storage.go, interleaved with the entries that the raft node
    saves. *)
From S2P Require Import Prelude.
From S2P Require Import Wire.
From S2P Require Import Disk.
From S2P Require Import Segments.
From S2P Require Import Storage.
From S2P Require Import LogStore.
From S2P Require Import RaftNode.
From S2P Require Import Purge.
From S2P Require Import Samples.
From S2P Require Import StorageTheorems.
From S2P Require Import Timers.
From stdpp Require Import list relations.
Local Open Scope list_scope.
Local Open Scope Z_scope.
Local Open Scope go_scope.

(** The goroutine of [StartPurgeLog]: not yet running, in the [select], between the
    two halves of a purge, at its end. *)
Inductive purger_at : Type := PStart | PSelect | PRemove | PEnd.

(** A call of [StopPurgeLog] by [Close]: not yet made, at [<-s.purgeQuitC], returned. *)
Inductive stopper_at : Type := SIdle | SWait | SReturned.

Section purger.
Context `{Settings} {M : Type} `{MetaStorage M}.
Hypothesis size_ok : 0 < SegmentSize <= 2 ^ 32.

(** [saved] are all entries since the index [base] of the log at the beginning;
    [failed] is set when a call does not return [Ok]. *)
Record purge : Type := Prg {
  storage : DiskStorage.t M * FS; purger : purger_at; stopper : stopper_at; timer : Timer.t;
  cancelled : bool; purgeQuitC : bool; saved : list Entry.t; failed : bool }.

Definition is_ok {A} (r : res A) : bool := match r with Ok _ => true | _ => false end.

(** [StartPurgeLog]. *)
Inductive purger_step : purge -> purge -> Prop :=
  | purger_starts s fs k t c q l f : DiskStorage.purgeStarted s = false ->
      purger_step (Prg (s, fs) PStart k t c q l f)
        (Prg (DiskStorage.set_purgeStarted true s, fs) PSelect k Timer.NewTimer false false l f)
  | purger_runs_already s fs k t c q l f : DiskStorage.purgeStarted s = true ->
      purger_step (Prg (s, fs) PStart k t c q l f) (Prg (s, fs) PEnd k t c q l f)
  | purger_quits s k t q l f :
      purger_step (Prg s PSelect k t true q l f) (Prg s PEnd k (Timer.Stop t).2 true true l f)
  | purger_detaches s k t t' c q l f r s' :
      Timer.receive t = Some t' -> DiskStorage.purge_detach s = (r, s') ->
      purger_step (Prg s PSelect k t c q l f) (Prg s' PRemove k t' c q l (f || negb (is_ok r)))
  | purger_removes s k t c q l f r s' : DiskStorage.purge_remove s = (r, s') ->
      purger_step (Prg s PRemove k t c q l f) (Prg s' PSelect k t c q l (f || negb (is_ok r))).

(** [StopPurgeLog]. *)
Inductive stopper_step : purge -> purge -> Prop :=
  | stopper_cancels s fs p t c q l f : DiskStorage.purgeStarted s = true ->
      stopper_step (Prg (s, fs) p SIdle t c q l f) (Prg (s, fs) p SWait t true q l f)
  | stopper_nothing s fs p t c q l f : DiskStorage.purgeStarted s = false ->
      stopper_step (Prg (s, fs) p SIdle t c q l f) (Prg (s, fs) p SReturned t c q l f)
  | stopper_returns s fs p t c l f :
      stopper_step (Prg (s, fs) p SWait t c true l f) (Prg (DiskStorage.set_purgeStarted false s, fs) p SReturned t c true l f).

(** The goroutines, the time and the raft node, which is the one to close the storage. *)
Inductive step (base : Z) : purge -> purge -> Prop :=
  | step_purger x y : failed x = false -> purger_step x y -> step base x y
  | step_stopper x y : failed x = false -> stopper_step x y -> step base x y
  | step_timer s p k t t' c q l : Timer.fire t = Some t' -> step base (Prg s p k t c q l false) (Prg s p k t' c q l false)
  | step_save s p t c q l new r s' :
      new <> [] -> appendable (base + blen l) new -> DiskStorage.SaveRaftEntries new s = (r, s') ->
      step base (Prg s p SIdle t c q l false) (Prg s' p SIdle t c q (l ++ new) (negb (is_ok r))).

(** A storage that was opened. *)
Inductive opened (base : Z) : purge -> Prop :=
  | opened_at es s t : stores base es s -> DiskStorage.purging s.1 = [] -> DiskStorage.purgeStarted s.1 = false ->
      0 < DiskStorage.ReserveSegmentCount s.1 -> (forall i, purge_ok i s.1) ->
      opened base (Prg s PStart SIdle t false false es false).

Definition reachable (base : Z) (x : purge) : Prop := exists x0, opened base x0 /\ rtc (step base) x0 x.

(** * What saving leaves alone *)

Definition settings (s : DiskStorage.t M) : Z * bool := (DiskStorage.ReserveSegmentCount s, DiskStorage.purgeStarted s).

Lemma on_segment_settings {A} i (m : St (Segment.t * FS) A) s : settings (DiskStorage.on_segment i m s).2.1 = settings s.1.
Proof. unfold DiskStorage.on_segment. destruct (_ !! i); [|done]. by destruct (m _) as [? [? ?]]. Qed.

Lemma bind_settings {A B} (m : St (DiskStorage.t M * FS) A) (f : A -> St (DiskStorage.t M * FS) B) :
  (forall s, settings (m s).2.1 = settings s.1) -> (forall a s, settings (f a s).2.1 = settings s.1) ->
  forall s, settings (bind m f s).2.1 = settings s.1.
Proof.
  intros Hm Hf s. unfold bind. specialize (Hm s). destruct (m s) as [[a| |] s1]; cbn in *; [|done|done]. by rewrite Hf.
Qed.

Lemma on_fs_settings {A} (m : St FS A) (s : DiskStorage.t M * FS) : settings (on_fs m s).2.1 = settings s.1.
Proof. unfold on_fs, zoom. by destruct (m _). Qed.

Lemma SaveRaftEntries_settings new s : settings (DiskStorage.SaveRaftEntries new s).2.1 = settings s.1.
Proof.
  destruct new as [|e new]; [done|]. cbn [DiskStorage.SaveRaftEntries]. revert s. apply bind_settings.
  { intros s. unfold lift. by destruct (DiskStorage.entriesToRecords _). }
  intros [records size] s. destruct (_ <? _); [done|]. revert s. apply bind_settings.
  - intros s. unfold DiskStorage.getWriteSegment. revert s. apply bind_settings; [done|]. intros segs.
    assert (forall o (s : DiskStorage.t M * FS), settings ((let! seg := DiskStorage.rollingSegment o (Entry.Index e) in ret (inl (B := nat) seg)) s).2.1 = settings s.1) as Hr.
    { intros o. apply bind_settings; [|done]. unfold DiskStorage.rollingSegment. apply bind_settings; [|intros _; apply on_fs_settings].
      destruct o; [|done]. apply on_segment_settings. }
    destruct (rev segs) as [|w ws]; [apply Hr|]. intros s. by destruct (Segment.needRolling _ _); [apply Hr|].
  - intros [seg|i] s; [|apply on_segment_settings].
    destruct (Segment.appendRecords _ _ _) as [[?| |] [? ?]]; done.
Qed.

(** * What holds in every state *)

(** The segments [ps] hold what is left of the log from [b] on, [dead] are those
    between the two halves of a purge. *)
Record purge_inv (base : Z) (x : purge) (b : Z) (ps dead : list part) (d : gmap string bytes) : Prop := {
  pi_ok : failed x = false;
  pi_disk : (storage x).2 = quiet d;
  pi_repr : sto_repr d b ps dead (storage x).1;
  pi_full : full ps;
  pi_clean : clean ps;
  pi_base : base <= b <= base + blen (saved x);
  pi_entries : entries_of ps = drop (Z.to_nat (b - base)) (saved x);
  pi_dead : purger x <> PRemove -> dead = [];
  pi_some : saved x <> [] -> ps <> [];
  pi_none : ps = [] -> dead = [];
  pi_reserve : purger x = PStart \/ ~ Timer.spent (timer x) -> 0 < DiskStorage.ReserveSegmentCount (storage x).1;
  pi_timer : Timer.fresh (timer x) \/ purger x = PStart;
  pi_removes : purger x = PRemove -> Timer.spent (timer x);
  pi_purge : purger x = PStart \/ purger x = PRemove \/ ~ Timer.spent (timer x) -> forall i, purge_ok i (storage x).1;
  pi_started : purger x = PStart -> DiskStorage.purgeStarted (storage x).1 = false }.

Ltac fields := cbn [storage purger stopper timer cancelled purgeQuitC saved failed fst snd] in *.

(** The purge is over, or was never begun. *)
Definition past (x : purge) : Prop := purger x <> PStart /\ Timer.spent (timer x).

Definition goes_on (base : Z) (x y : purge) (b : Z) : Prop :=
  exists b' ps dead d, purge_inv base y b' ps dead d /\ b <= b' /\ (past x -> past y /\ b' = b).

Lemma save_goes_on base s p t c q l new r s' b ps dead d :
  let x := Prg s p SIdle t c q l false in
  purge_inv base x b ps dead d -> new <> [] -> appendable (base + blen l) new -> DiskStorage.SaveRaftEntries new s = (r, s') ->
  goes_on base x (Prg s' p SIdle t c q (l ++ new) (negb (is_ok r))) b.
Proof.
  intros x [_ Hq Hr Hf Hc Hb He Hd Hne Hno Hres Ht Hrm Hpu Hst] Hnew Ha HS. subst x. fields. destruct s as [s fs]. fields. subst fs.
  assert (b + blen (entries_of ps) = base + blen l) as Eb.
  { rewrite He. unfold blen in *. rewrite length_drop. lia. }
  destruct (SaveRaftEntries_ok size_ok d b ps dead s new Hr Hnew) as (s2 & d2 & HS' & ps' & Hr2 & He2 & Hf2 & Hc2 & Em).
  { by rewrite Eb. }
  pose proof (SaveRaftEntries_settings new (s, quiet d)) as Hset. rewrite HS' in HS, Hset. injection HS as <- <-.
  cbn in Hset. unfold settings in Hset. injection Hset as Er Es.
  exists b, ps', dead, d2. split; [|done]. split; cbn; try done.
  - by apply Hc2.
  - len.
  - rewrite He2, He, drop_app_le; [done|]. unfold blen in *. lia.
  - intros _ ->. symmetry in He2. by apply app_eq_nil in He2 as [_ ->].
  - intros ->. symmetry in He2. by apply app_eq_nil in He2 as [_ ->].
  - rewrite Er. exact Hres.
  - intros Hor i. unfold purge_ok. rewrite Em. by apply Hpu.
  - intros E. rewrite Es. by apply Hst.
Qed.

Lemma detach_goes_on base s k t t' c q l r s' b ps dead d :
  let x := Prg s PSelect k t c q l false in
  purge_inv base x b ps dead d -> Timer.receive t = Some t' -> DiskStorage.purge_detach s = (r, s') ->
  goes_on base x (Prg s' PRemove k t' c q l (false || negb (is_ok r))) b.
Proof.
  intros x [_ Hq Hr Hf Hc Hb He Hd Hne Hno Hres Ht Hrm Hpu Hst] Hrc HD. subst x. fields. destruct s as [s fs]. fields. subst fs.
  assert (Timer.fresh t) as Hfr by (by destruct Ht). assert (~ Timer.spent t) as Hns.
  { intros Hs%Timer.spent_stays. destruct Hs as [_ Hs]. congruence. }
  rewrite (Hd ltac:(done)) in Hr.
  destruct (purge_detach_ok d b ps s (quiet d) Hr Hf (Hres (or_intror Hns))) as (s1 & HD' & Hr1 & Em & Es1). rewrite HD' in HD. injection HD as <- <-.
  set (n := purge_count s) in *.
  assert (drop n ps = [] -> ps = [] /\ n = 0%nat) as Hn0.
  { intros E%(f_equal length). rewrite length_drop in E. cbn in E. pose proof (Hres (or_intror Hns)).
    destruct Hr as [Hsegs _ _ _ _ _ _]. apply Forall2_length in Hsegs. unfold n, purge_count, blen in *.
    destruct ps; cbn in *; [split; [done|]|]; lia. }
  assert (entries_of (take n ps) ++ entries_of (drop n ps) = entries_of ps) as Eps by (by rewrite <-entries_of_app, take_drop).
  assert (blen (entries_of (take n ps)) <= blen (entries_of ps)) as Hle by (rewrite <-Eps, blen_app; len).
  assert (b + blen (entries_of ps) = base + blen l) as Eb.
  { rewrite He. unfold blen in *. rewrite length_drop. lia. }
  eexists _, _, _, d. split; [|split; [|by intros [_ Hs]]]; [split; cbn; try exact Hr1; try done|len].
  - by apply Forall_drop.
  - by apply Forall_drop.
  - len.
  - replace (Z.to_nat (b + blen (entries_of (take n ps)) - base)) with (Z.to_nat (b - base) + length (entries_of (take n ps)))%nat
      by (unfold blen in *; lia).
    rewrite <-drop_drop, <-He, <-Eps. by rewrite drop_app_length.
  - intros Hl E. specialize (Hne Hl). by apply Hn0 in E as [-> _].
  - intros E. by apply Hn0 in E as [-> ->].
  - intros [?|Hn]; [done|]. destruct Hn. by eapply Timer.receive_spends.
  - left. by destruct (Timer.receive_spends _ _ Hfr Hrc) as [E _]; unfold Timer.fresh; rewrite E.
  - intros _. by eapply Timer.receive_spends.
  - intros _ i. unfold purge_ok. rewrite Em. apply Hpu. auto.
Qed.

Lemma remove_goes_on base s k t c q l r s' b ps dead d :
  let x := Prg s PRemove k t c q l false in
  purge_inv base x b ps dead d -> DiskStorage.purge_remove s = (r, s') ->
  goes_on base x (Prg s' PSelect k t c q l (false || negb (is_ok r))) b.
Proof.
  intros x [_ Hq Hr Hf Hc Hb He Hd Hne Hno Hres Ht Hrm Hpu Hst] HR. subst x. fields. destruct s as [s fs]. fields. subst fs.
  assert (exists s1 d1, DiskStorage.purge_remove (s, quiet d) = (Ok tt, (s1, quiet d1)) /\ sto_repr d1 b ps [] s1) as (s1 & d1 & HR' & Hr1).
  { destruct (decide (ps = [])) as [Hps|Hps].
    - rewrite (Hno Hps) in Hr. exists s, d. split; [|done]. pose proof (sr_dead _ _ _ _ _ Hr) as Hpg%Forall2_nil_inv_l.
      unfold DiskStorage.purge_remove. rewrite (bind_ok (obj _) _ _ _ _ eq_refl). cbn [fst]. by rewrite Hpg.
    - destruct (purge_remove_ok d b ps dead s Hr Hf Hps) as (s1 & d1 & HR' & Hr1 & _); [by apply Hpu; auto|by eauto]. }
  rewrite HR' in HR. injection HR as <- <-. specialize (Hrm eq_refl).
  exists b, ps, [], d1. split; [|done]. split; cbn; try done.
  - intros [?|?]; done.
  - left. by destruct Hrm as [E _]; unfold Timer.fresh; rewrite E.
  - intros [?|[?|?]]; done.
Qed.

Lemma starts_goes_on base s fs k t c q l b ps dead d :
  let x := Prg (s, fs) PStart k t c q l false in
  purge_inv base x b ps dead d -> goes_on base x (Prg (DiskStorage.set_purgeStarted true s, fs) PSelect k Timer.NewTimer false false l false) b.
Proof.
  intros x [_ Hq Hr Hf Hc Hb He Hd Hne Hno Hres Ht Hrm Hpu Hst]. subst x. fields.
  exists b, ps, dead, d. split; [|split; [done|by intros [? _]]]. split; cbn; try done.
  - by destruct Hr.
  - intros _. by apply Hd.
  - intros _. by apply Hres; left.
  - left. by intros _.
  - intros _ i. apply (Hpu (or_introl eq_refl)).
Qed.

Lemma fire_goes_on base s p k t t' c q l b ps dead d :
  let x := Prg s p k t c q l false in
  Timer.fire t = Some t' -> purge_inv base x b ps dead d -> goes_on base x (Prg s p k t' c q l false) b.
Proof.
  intros x Hfi [_ Hq Hr Hf Hc Hb He Hd Hne Hno Hres Ht Hrm Hpu Hst]. subst x. fields.
  assert (~ Timer.spent t) as Hns. { intros [Hs _]%Timer.spent_stays. congruence. }
  exists b, ps, dead, d. split; [|split; [done|by intros [_ ?]]]. split; fields; try done.
  - intros _. by apply Hres; right.
  - left. by eapply Timer.fire_fresh.
  - intros E. by destruct (Hns (Hrm E)).
  - intros _. apply Hpu. auto.
Qed.

Lemma quit_goes_on base s k t q l b ps dead d :
  let x := Prg s PSelect k t true q l false in
  purge_inv base x b ps dead d -> goes_on base x (Prg s PEnd k (Timer.Stop t).2 true true l false) b.
Proof.
  intros x [_ Hq Hr Hf Hc Hb He Hd Hne Hno Hres Ht Hrm Hpu Hst]. subst x. fields.
  assert (Timer.spent t -> Timer.spent (Timer.Stop t).2) as Hsp by (by intros [? ?]).
  exists b, ps, dead, d. split; [|split; [done|by intros [_ ?]; split; [split; [done|by apply Hsp]|]]]. split; fields; try done.
  - intros _. by apply Hd.
  - intros [?|Hn]; [done|]. apply Hres. right. intros ?. by apply Hn, Hsp.
  - by left.
  - intros [?|[?|Hn]]; [done..|]. apply Hpu. right; right. intros ?. by apply Hn, Hsp.
Qed.

Lemma stopper_goes_on base x y b ps dead d : stopper_step x y -> purge_inv base x b ps dead d -> goes_on base x y b.
Proof.
  intros Hs [Hok Hq Hr Hf Hc Hb He Hd Hne Hno Hres Ht Hrm Hpu Hst].
  destruct Hs; fields; exists b, ps, dead, d; (split; [|done]); (split; fields; try done). by destruct Hr.
Qed.

Lemma step_goes_on base x y b ps dead d : step base x y -> purge_inv base x b ps dead d -> goes_on base x y b.
Proof.
  intros Hs Hi. destruct Hs as [x y Hf Hs|x y Hf Hs|s p k t t' c q l Hfi|s p t c q l new r s' Hn Ha HS].
  - destruct Hs as [s fs k t c q l f|s fs k t c q l f Hst|s k t q l f|s k t t' c q l f r s' Hrc HD|s k t c q l f r s' HR]; cbn in Hf; subst f.
    + by eapply starts_goes_on.
    + pose proof (pi_started _ _ _ _ _ _ Hi eq_refl) as E. cbn in E. congruence.
    + by eapply quit_goes_on.
    + by eapply detach_goes_on.
    + by eapply remove_goes_on.
  - by eapply stopper_goes_on.
  - by eapply fire_goes_on.
  - by eapply save_goes_on.
Qed.

Lemma steps_go_on base x y b ps dead d : rtc (step base) x y -> purge_inv base x b ps dead d -> goes_on base x y b.
Proof.
  intros Hs. revert b ps dead d. induction Hs as [x|x y z Hxy _ IH]; intros b ps dead d Hi; [by exists b, ps, dead, d|].
  destruct (step_goes_on _ _ _ _ _ _ _ Hxy Hi) as (b1 & ps1 & dead1 & d1 & H1 & Hle & Hp).
  destruct (IH _ _ _ _ H1) as (b2 & ps2 & dead2 & d2 & H2 & Hle2 & Hp2).
  exists b2, ps2, dead2, d2. split; [done|]. split; [lia|]. intros Hx. destruct (Hp Hx) as [Hy ->]. by apply Hp2.
Qed.

Lemma opened_inv base x : opened base x -> exists ps d, purge_inv base x base ps [] d.
Proof.
  intros [es s t Hs Hp Hst Hres Hok].
  destruct (stores_cases _ _ _ Hs) as (d & ps & dead & Hq & Hr & Hf & Hc & He & Hn & Hne). exists ps, d.
  assert (dead = []) as ->. { pose proof (sr_dead _ _ _ _ _ Hr) as Hd. rewrite Hp in Hd. by apply Forall2_nil_inv_r in Hd. }
  split; fields; try done.
  - by rewrite Hq.
  - pose proof (blen_nonneg es). lia.
  - by rewrite Z.sub_diag.
  - by right.
Qed.

Lemma reachable_goes_on base x : reachable base x -> exists b ps dead d, purge_inv base x b ps dead d.
Proof.
  intros (x0 & Ho & Hs). destruct (opened_inv _ _ Ho) as (ps & d & Hi).
  destruct (steps_go_on _ _ _ _ _ _ _ Hs Hi) as (b & ps' & dead & d' & Hx & _). by exists b, ps', dead, d'.
Qed.

Lemma inv_stores base x b ps dead d : purge_inv base x b ps dead d ->
  stores b (drop (Z.to_nat (b - base)) (saved x)) (storage x) /\ (saved x <> [] -> b < base + blen (saved x)).
Proof.
  intros [_ Hq Hr Hf Hc Hb He _ Hne _ _ _ _ _ _]. split; [by exists d, ps, dead|].
  intros Hl. pose proof (full_entries _ Hf (Hne Hl)) as Hfe. rewrite He in Hfe.
  destruct (Z.eq_dec b (base + blen (saved x))) as [E|]; [|lia]. destruct Hfe. apply drop_ge. unfold blen in E. lia.
Qed.

(** * The theorems *)


Lemma inv_first base x b ps dead d : purge_inv base x b ps dead d -> saved x <> [] -> DiskStorage.FirstIndex (storage x).1 = b.
Proof.
  intros Hi Hne. destruct (inv_stores _ _ _ _ _ _ Hi) as [Hs Hl]. eapply stores_first; [exact Hs|].
  specialize (Hl Hne). pose proof (pi_base _ _ _ _ _ _ Hi). intros E%(f_equal length). rewrite length_drop in E. cbn in E.
  unfold blen in *. lia.
Qed.

Lemma saved_grows base x y : rtc (step base) x y -> saved x <> [] -> saved y <> [].
Proof.
  induction 1 as [|x y z Hs _ IH]; [done|]. intros Hx. apply IH. destruct Hs as [? ? _ []|? ? _ []| |]; cbn in *; try done.
  by destruct l.
Qed.

(** The log is purged once: the timer of the purger is not set again, so that
    after its only round the first index stays the same, however many segments are added. *)
Theorem log_purged_once base x y : reachable base x -> purger x = PSelect -> Timer.spent (timer x) -> saved x <> [] ->
  rtc (step base) x y -> DiskStorage.FirstIndex (storage y).1 = DiskStorage.FirstIndex (storage x).1.
Proof.
  intros (b & ps & dead & d & Hi)%reachable_goes_on Hp Ht Hne Hs.
  assert (past x) as Hpast by (split; [by rewrite Hp|done]).
  destruct (steps_go_on _ _ _ _ _ _ _ Hs Hi) as (b' & ps' & dead' & d' & Hi' & _ & Hb). destruct (Hb Hpast) as [_ ->].
  rewrite (inv_first _ _ _ _ _ _ Hi Hne). apply (inv_first _ _ _ _ _ _ Hi'). by eapply saved_grows.
Qed.

(** * Stopping *)

Record stop_inv (x : purge) : Prop := {
  si_end : purger x = PEnd -> purgeQuitC x = true;
  si_wait : stopper x = SWait -> purger x <> PStart /\ cancelled x = true;
  si_start : purger x = PStart -> DiskStorage.purgeStarted (storage x).1 = false }.

Lemma stop_inv_step base x y : step base x y -> stop_inv x -> stop_inv y.
Proof.
  intros Hs [He Hw Hst]. destruct Hs as [x y Hf Hs|x y Hf Hs|s p k t t' c q l Hfi|s p t c q l new r s' Hn Ha HS].
  - destruct Hs; fields; split; fields; try done.
    + intros E. by destruct (Hw E).
    + rewrite Hst in H1 by done. done.
    + intros E. by destruct (Hw E).
    + intros E. by destruct (Hw E).
    + intros E. by destruct (Hw E).
  - destruct Hs; fields; split; fields; try done. intros _. split; [|done]. intros E. rewrite Hst in H1 by done. done.
  - split; fields; done.
  - split; fields; try done. intros E. specialize (Hst E). pose proof (SaveRaftEntries_settings new s) as Hset. rewrite HS in Hset.
    cbn in Hset. unfold settings in Hset. injection Hset as _ Hset. by rewrite Hset.
Qed.

Lemma reachable_stop_inv base x : reachable base x -> stop_inv x.
Proof.
  intros (x0 & Ho & Hs). assert (stop_inv x0) as Hi by (by destruct Ho; split). clear Ho. revert Hi.
  induction Hs as [|x y z Hxy _ IH]; [done|]. intros Hi. apply IH. by eapply stop_inv_step.
Qed.

Lemma ended_returns base s fs t c l : exists y,
  rtc (step base) (Prg (s, fs) PEnd SWait t c true l false) y /\ stopper y = SReturned /\ purger y = PEnd /\
  DiskStorage.purgeStarted (storage y).1 = false.
Proof. eexists. split; [apply rtc_once, step_stopper; [done|apply stopper_returns]|done]. Qed.

Lemma select_returns base s t q l : exists y,
  rtc (step base) (Prg s PSelect SWait t true q l false) y /\ stopper y = SReturned /\ purger y = PEnd /\
  DiskStorage.purgeStarted (storage y).1 = false.
Proof.
  destruct s as [s fs]. destruct (ended_returns base s fs (Timer.Stop t).2 true l) as (y & Hs & Hy). exists y. split; [|done].
  eapply rtc_l; [|exact Hs]. apply step_purger; [done|apply purger_quits].
Qed.

(** A storage can be closed while its log is purged: whenever [StopPurgeLog]
    waits for the purger, the purger finishes its round and ends, and the call returns. *)
Theorem purger_stops base x : reachable base x -> stopper x = SWait ->
  exists y, rtc (step base) x y /\ stopper y = SReturned /\ purger y = PEnd /\ DiskStorage.purgeStarted (storage y).1 = false.
Proof.
  intros Hx Hw. pose proof (reachable_stop_inv _ _ Hx) as [He Hsw _]. destruct (Hsw Hw) as [Hp Hc].
  destruct (reachable_goes_on _ _ Hx) as (b & ps & dead & d & Hi). pose proof (pi_ok _ _ _ _ _ _ Hi) as Hok.
  destruct x as [s p k t c q l f]. fields. subst k c f. destruct p; [done| | |].
  - apply select_returns.
  - destruct (DiskStorage.purge_remove s) as [r s'] eqn:HR.
    destruct (remove_goes_on _ _ _ _ _ _ _ _ _ _ _ _ _ Hi HR) as (b' & ps' & dead' & d' & Hi' & _).
    pose proof (pi_ok _ _ _ _ _ _ Hi') as Hok. cbn in Hok. destruct (select_returns base s' t q l) as (y & Hs & Hy).
    exists y. split; [|done]. eapply rtc_l; [|exact Hs]. apply step_purger; [done|]. rewrite <-Hok at 2.
    by apply (purger_removes s SWait t true q l false r s').
  - rewrite He by done. destruct s as [s fs]. apply ended_returns.
Qed.

(** The purger is started as a goroutine: a call of [Close] that comes before it
    returns at once, and the purger then runs on a closed storage. *)
Lemma purger_after_close base s t es : opened base (Prg s PStart SIdle t false false es false) ->
  exists x, reachable base x /\ stopper x = SReturned /\ purger x = PSelect.
Proof.
  intros Ho. inversion Ho as [? ? ? Hs Hp Hst Hres Hok]; subst. destruct s as [s fs]. cbn in Hst. eexists. split.
  - eexists. split; [exact Ho|]. eapply rtc_l; [apply step_stopper; [done|by apply stopper_nothing]|].
    apply rtc_once, step_purger; [done|by apply purger_starts].
  - done.
Qed.
End purger.

(** * A purge of the sample log *)

Definition sample_opened : purge (M := MapMeta) := Prg s3 PStart SIdle (Timer.mk false false) false false log3 false.

Lemma sample_is_opened : opened 1 sample_opened.
Proof. apply opened_at; [apply s3_stores|apply s3_purging|vm_compute; reflexivity|vm_compute; reflexivity|done]. Qed.

(** The state after the only round: the timer has fired and the old segments are
    gone. *)
Definition sample_detached : DiskStorage.t MapMeta * FS :=
  (DiskStorage.purge_detach (DiskStorage.set_purgeStarted true s3.1, s3.2)).2.
Definition sample_purged : purge (M := MapMeta) :=
  Prg (DiskStorage.purge_remove sample_detached).2 PSelect SIdle (Timer.mk false false) false false log3 false.

Lemma sample_steps : rtc (step 1) sample_opened sample_purged.
Proof.
  unfold sample_opened. rewrite (surjective_pairing s3).
  eapply rtc_l; [apply step_purger; [done|apply purger_starts; vm_compute; reflexivity]|].
  eapply rtc_l; [by apply step_timer|].
  eapply rtc_l; [apply step_purger; [done|eapply purger_detaches; [done|apply surjective_pairing]]|].
  eapply rtc_l; [apply step_purger; [done|eapply purger_removes; apply surjective_pairing]|].
  assert (is_ok (DiskStorage.purge_detach (DiskStorage.set_purgeStarted true s3.1, s3.2)).1 = true) as -> by (vm_compute; reflexivity).
  fold sample_detached.
  assert (is_ok (DiskStorage.purge_remove sample_detached).1 = true) as -> by (vm_compute; reflexivity).
  reflexivity.
Qed.

Lemma sample_reachable : reachable 1 sample_purged.
Proof. exists sample_opened. split; [apply sample_is_opened|apply sample_steps]. Qed.


(** Another entry is saved: the first index is 3 before and after it. *)
Definition sample_saved : purge (M := MapMeta) :=
  Prg (DiskStorage.SaveRaftEntries [e4'] (storage sample_purged)).2 PSelect SIdle (Timer.mk false false) false false (log3 ++ [e4'])
    (negb (is_ok (DiskStorage.SaveRaftEntries [e4'] (storage sample_purged)).1)).

Lemma log_purged_once_witness :
  DiskStorage.FirstIndex (storage sample_saved).1 = DiskStorage.FirstIndex (storage sample_purged).1 /\
  DiskStorage.FirstIndex (storage sample_purged).1 = 3.
Proof.
  split; [|vm_compute; reflexivity].
  apply (log_purged_once small_ok 1 sample_purged sample_saved).
  - exact sample_reachable.
  - reflexivity.
  - split; reflexivity.
  - discriminate.
  - apply rtc_once. unfold sample_saved. apply step_save; [discriminate| |apply surjective_pairing].
    apply (appendable_from 4 [(3, [44])]). vm_compute. reflexivity.
Defined.

(** The storage is closed between the two halves of the purge. *)
Definition sample_stopping : purge (M := MapMeta) :=
  Prg sample_detached PRemove SWait (Timer.mk false false) true false log3 false.

Lemma sample_stopping_reachable : reachable 1 sample_stopping.
Proof.
  exists sample_opened. split; [apply sample_is_opened|]. unfold sample_opened. rewrite (surjective_pairing s3).
  eapply rtc_l; [apply step_purger; [done|apply purger_starts; vm_compute; reflexivity]|].
  eapply rtc_l; [by apply step_timer|].
  eapply rtc_l; [apply step_purger; [done|eapply purger_detaches; [done|apply surjective_pairing]]|].
  assert (is_ok (DiskStorage.purge_detach (DiskStorage.set_purgeStarted true s3.1, s3.2)).1 = true) as -> by (vm_compute; reflexivity).
  fold sample_detached. rewrite (surjective_pairing sample_detached).
  eapply rtc_l; [apply step_stopper; [done|apply stopper_cancels; vm_compute; reflexivity]|].
  rewrite <-(surjective_pairing sample_detached). reflexivity.
Qed.

Lemma purger_stops_witness :
  exists y, rtc (step 1) sample_stopping y /\ stopper y = SReturned /\ purger y = PEnd /\ DiskStorage.purgeStarted (storage y).1 = false.
Proof. apply (purger_stops small_ok 1 sample_stopping sample_stopping_reachable). reflexivity. Defined.
