(* ===== verification/MemoryStorage.v ===== *)
(** The storage that keeps the log in memory: storage/memory_storage.go, over the
    storage that the raft library brings along. It keeps the laws that the raft node needs of
    a storage, and answers as the disk storage does. *)
From S2P Require Import Prelude.
From S2P Require Import Wire.
From S2P Require Import Disk.
From S2P Require Import Segments.
From S2P Require Import Storage.
From S2P Require Import LogStore.
From S2P Require Import RaftNode.
From S2P Require Import Samples.
From S2P Require Import StorageTheorems.
From stdpp Require Import list.
Local Open Scope list_scope.
Local Open Scope Z_scope.
Local Open Scope go_scope.

(** * The storage of the raft library *)

(** [ents[0]] is a dummy; the entry behind it is the first of the log. The hard
    state and the snapshot of the library are not used. *)
Module MemDB.
Record t : Type := mk { ents : list Entry.t }.

Definition dummy : Entry.t := Entry.mk 0 0 0 None None.
Definition NewMemoryStorage : t := mk [dummy].

Definition offset : St t Z := fun s => match ents s with e :: _ => (Ok (Entry.Index e), s) | [] => (Panic, s) end.
Definition lastIndex : St t Z :=
  let! o := offset in let! l := gets ents in ret (u64 (o + blen l - 1)).
Definition firstIndex : St t Z := let! o := offset in ret (u64 (o + 1)).

(** The loop of [limitSize]: how many of [es] follow, [size] being that of the
    entries before. *)
Fixpoint limit (es : list Entry.t) (size maxSize : Z) : nat :=
  match es with
  | [] => O
  | e :: es' => let size := size + Entry.Size e in if maxSize <? size then O else S (limit es' size maxSize)
  end.
Definition limitSize (es : list Entry.t) (maxSize : Z) : list Entry.t :=
  match es with [] => es | e :: es' => take (S (limit es' (Entry.Size e) maxSize)) es end.

Definition Entries (lo hi maxSize : Z) : St t (list Entry.t) :=
  let! o := offset in
  if lo <=? o then throw ErrCompacted else
  let! last := lastIndex in
  if u64 (last + 1) <? hi then panic else
  let! l := gets ents in
  if blen l =? 1 then throw ErrUnavailable else
  let! w := must (slice l (u64 (lo - o)) (u64 (hi - o))) in
  ret (limitSize w maxSize).

Definition Term (i : Z) : St t Z :=
  let! o := offset in
  if i <? o then throw ErrCompacted else
  let! l := gets ents in
  if blen l <=? i64 (u64 (i - o)) then throw ErrUnavailable else
  let! e := must (l !! Z.to_nat (u64 (i - o))) in
  ret (Entry.Term e).

Definition Append (entries : list Entry.t) : St t unit :=
  match entries with
  | [] => ret tt
  | e :: _ =>
      let! first := firstIndex in
      let last := u64 (Entry.Index e + blen entries - 1) in
      if last <? first then ret tt else
      let entries := if Entry.Index e <? first then drop (Z.to_nat (first - Entry.Index e)) entries else entries in
      let! e := must (head entries) in
      let! o := offset in
      let! l := gets ents in
      let offset := u64 (Entry.Index e - o) in
      if offset <? blen l then modify (fun _ => mk (take (Z.to_nat offset) l ++ entries))
      else if blen l =? offset then modify (fun _ => mk (l ++ entries))
      else panic
  end.
End MemDB.

(** * The storage of kingbus *)

Module MemoryStorage.
Record t (M : Type) : Type := mk { MetaStorage_ : M; memDB : MemDB.t }.
Arguments mk {M}.
Arguments MetaStorage_ {M}.
Arguments memDB {M}.

Section MemoryStorage.
Context {M : Type} `{MetaStorage M}.

Definition on_db {A} (m : St MemDB.t A) : St (t M) A := zoom memDB (fun d s => mk (MetaStorage_ s) d) m.
Definition on_meta {A} (m : St M A) : St (t M) A := zoom MetaStorage_ (fun x s => mk x (memDB s)) m.

(** [dir] is the path, [mkdir] the outcome of making the directory when it does
    not exist, [meta] that of [NewMetaStore]. *)
Definition NewMemoryStorage (dir : bytes) (mkdir : option error) (meta : res M) : res (t M) :=
  if blen dir =? 0 then Err ErrArgsIllegal else
  match mkdir with
  | Some e => Err e
  | None => match meta with Ok m => Ok (mk m MemDB.NewMemoryStorage) | Err e => Err e | Panic => Panic end
  end.

Definition Entries (lo hi maxSize : Z) : St (t M) (list Entry.t) := on_db (MemDB.Entries lo hi maxSize).
Definition Term (i : Z) : St (t M) Z := on_db (MemDB.Term i).
Definition LastIndex : St (t M) Z := on_db MemDB.lastIndex.
Definition FirstIndex : St (t M) Z := on_db MemDB.firstIndex.

Definition SaveRaftEntries (entries : list Entry.t) : St (t M) unit :=
  if blen entries =? 0 then ret tt else on_db (MemDB.Append entries).

(** Not implemented: it succeeds and does nothing. *)
Definition TruncateSuffix (i : Z) : St (t M) unit := ret tt.

Definition Close : St (t M) unit := on_meta meta_Close2.

#[global] Instance memory_raft_storage : RaftStorage (t M) := {
  rs_LastIndex := LastIndex;
  rs_TruncateSuffix := TruncateSuffix;
  rs_SaveRaftEntries := SaveRaftEntries;
  rs_SaveHardState h := on_meta (meta_SaveHardState h);
  rs_Get k := on_meta (meta_Get k) }.
End MemoryStorage.
End MemoryStorage.

(** * The laws of the raft node *)

Section laws.
Context {M : Type} `{MetaStorage M}.

(** The log of the storage is [es], from index 1 on. *)
Definition mem_log (es : list Entry.t) (s : MemoryStorage.t M) : Prop :=
  exists d, MemDB.ents (MemoryStorage.memDB s) = d :: es /\ Entry.Index d = 0 /\ Entry.Term d = 0 /\ 1 + blen es < 2 ^ 63.

Definition mem_accepts (i : Z) (es : list Entry.t) : Prop := contig i es /\ 0 < i /\ i + blen es < 2 ^ 63.

Lemma on_db_ok {A} (m : St MemDB.t A) (s : MemoryStorage.t M) r d :
  m (MemoryStorage.memDB s) = (r, d) -> MemoryStorage.on_db m s = (r, MemoryStorage.mk (MemoryStorage.MetaStorage_ s) d).
Proof. intros E. unfold MemoryStorage.on_db, zoom. by rewrite E. Qed.

Lemma on_db_read {A} (m : St MemDB.t A) (s : MemoryStorage.t M) r :
  m (MemoryStorage.memDB s) = (r, MemoryStorage.memDB s) -> MemoryStorage.on_db m s = (r, s).
Proof. intros E. rewrite (on_db_ok _ _ _ _ E). by destruct s. Qed.

Lemma mem_offset es s : mem_log es s -> MemDB.offset (MemoryStorage.memDB s) = (Ok 0, MemoryStorage.memDB s).
Proof. intros (d & E & Hd & _ & _). unfold MemDB.offset. by rewrite E, Hd. Qed.

Lemma mem_last es s : mem_log es s -> MemDB.lastIndex (MemoryStorage.memDB s) = (Ok (blen es), MemoryStorage.memDB s).
Proof.
  intros Hs. unfold MemDB.lastIndex. rewrite (bind_ok _ _ _ _ _ (mem_offset es s Hs)), bind_gets.
  destruct Hs as (d & E & _ & _ & Hb). rewrite E, blen_cons. pose proof (blen_nonneg es).
  unfold ret. do 2 f_equal. unfold u64. rewrite Z.mod_small; lia.
Qed.

Lemma mem_first es s : mem_log es s -> MemDB.firstIndex (MemoryStorage.memDB s) = (Ok 1, MemoryStorage.memDB s).
Proof. intros Hs. unfold MemDB.firstIndex. by rewrite (bind_ok _ _ _ _ _ (mem_offset es s Hs)). Qed.

(** [Append] replaces what follows. *)
Lemma mem_append es suf s e new : mem_log (es ++ suf) s -> mem_accepts (1 + blen es) (e :: new) ->
  exists s', MemoryStorage.SaveRaftEntries (e :: new) s = (Ok tt, s') /\ mem_log (es ++ e :: new) s'.
Proof.
  intros Hs (Hc & _ & Hm). pose proof (Hc 0%nat e eq_refl) as He. rewrite Z.add_0_r in He.
  pose proof (blen_nonneg es). pose proof (blen_nonneg new). pose proof (blen_nonneg suf).
  rewrite blen_cons in Hm. destruct Hs as (d & E & Hd & Ht & Hb). rewrite blen_app in Hb.
  assert (mem_log (es ++ suf) s) as Hs by (exists d; rewrite blen_app; done).
  assert (u64 (1 + blen es - 0) = 1 + blen es) as Hoff by (unfold u64; rewrite Z.mod_small; lia).
  eexists (MemoryStorage.mk _ (MemDB.mk (d :: es ++ e :: new))). split.
  - unfold MemoryStorage.SaveRaftEntries. rewrite blen_cons, (proj2 (Z.eqb_neq _ _)) by lia.
    apply on_db_ok. unfold MemDB.Append. rewrite (bind_ok _ _ _ _ _ (mem_first _ _ Hs)), He, blen_cons.
    assert (u64 (1 + blen es + (1 + blen new) - 1) = 1 + blen es + blen new) as -> by (unfold u64; rewrite Z.mod_small; lia).
    rewrite (proj2 (Z.ltb_ge _ 1)), (proj2 (Z.ltb_ge _ 1)) by lia. cbn [head]. rewrite bind_must.
    rewrite (bind_ok _ _ _ _ _ (mem_offset _ _ Hs)), bind_gets, E, He, Hoff, blen_cons, blen_app.
    assert (forall l : list Entry.t, d :: es ++ l = (d :: es) ++ l) as Hassoc by done.
    assert (Z.to_nat (1 + blen es) = length (d :: es)) as Hn by (unfold blen; cbn; lia).
    destruct (Z.ltb_spec (1 + blen es) (1 + (blen es + blen suf))) as [Hlt|Hge]; [|rewrite (proj2 (Z.eqb_eq _ _)) by lia].
    + unfold modify. rewrite Hassoc, take_app_length' by (by rewrite Hn). reflexivity.
    + assert (suf = []) as -> by (destruct suf; [done|rewrite blen_cons in Hge; pose proof (blen_nonneg suf); lia]).
      unfold modify. by rewrite app_nil_r.
  - exists d. cbn. split; [done|]. split; [done|]. split; [done|]. rewrite blen_app, blen_cons. lia.
Qed.

#[export] Instance memory_raft_storage_laws : RaftStorageLaws (MemoryStorage.t M).
Proof.
  refine {| rs_holds base es s := base = 1 /\ mem_log es s;
            rs_holds_cut base es s := base = 1 /\ exists suf, mem_log (es ++ suf) s;
            rs_cuttable _ _ := True; rs_accepts := mem_accepts |}.
  - intros base es s [-> Hs]. split; [done|]. exists []. by rewrite app_nil_r.
  - intros base es s [-> Hs]. cbn. unfold MemoryStorage.LastIndex. rewrite (on_db_ok _ _ _ _ (mem_last _ _ Hs)).
    destruct s. do 2 f_equal. destruct es; [done|]. lia.
  - intros base es s i [-> Hs] _ _. exists s. split; [done|]. split; [done|].
    exists (drop (Z.to_nat (i - 1)) es). by rewrite take_drop.
  - intros base es s [|e new] [-> [suf Hs]] Hne Ha; [done|].
    destruct (mem_append es suf s e new Hs Ha) as (s' & E & Hs'). exists s'. by split.
  - intros i e new (Hc & Hi & _). split; [|done]. pose proof (Hc 0%nat e eq_refl). lia.
  - intros base es s h s' [-> Hs]. cbn. unfold MemoryStorage.on_meta, zoom.
    destruct (meta_SaveHardState h _) as [r m]. intros [= -> <-]. by split.
Defined.
End laws.

(** * Against the disk storage *)

Lemma limitSize_all w maxSize : size_of w < maxSize -> MemDB.limitSize w maxSize = w.
Proof.
  destruct w as [|e w]; [done|]. intros Hs. cbn [MemDB.limitSize].
  assert (forall n, n + size_of w < maxSize -> MemDB.limit w n maxSize = length w) as Hl.
  { clear Hs. induction w as [|e' w IH]; intros n Hn; cbn -[Entry.Size] in *; [done|]. pose proof (Size_nonneg e').
    pose proof (size_of_nonneg w). unfold size_of in *. rewrite (proj2 (Z.ltb_ge _ _)) by lia. f_equal. apply IH. lia. }
  rewrite Hl by (cbn -[Entry.Size] in Hs; unfold size_of in *; lia). by rewrite take_ge.
Qed.

Section agree.
Context `{Settings} {M : Type} `{MetaStorage M}.
Hypothesis size_ok : 0 < SegmentSize <= 2 ^ 32.

Lemma mem_Term es (s : MemoryStorage.t M) i e :
  mem_log es s -> 1 <= i -> es !! Z.to_nat (i - 1) = Some e -> MemoryStorage.Term i s = (Ok (Entry.Term e), s).
Proof.
  intros Hs Hi He. apply on_db_read. unfold MemDB.Term. rewrite (bind_ok _ _ _ _ _ (mem_offset es s Hs)).
  destruct Hs as (d & E & _ & _ & Hb). pose proof (lookup_lt_Some _ _ _ He) as Hlt.
  rewrite (proj2 (Z.ltb_ge i 0)), bind_gets, E, Z.sub_0_r, blen_cons by lia.
  assert (u64 i = i) as -> by (unfold u64, blen in *; rewrite Z.mod_small; lia).
  rewrite i64_small by (unfold blen in *; lia). rewrite (proj2 (Z.leb_gt _ _)) by (unfold blen in *; lia).
  replace (Z.to_nat i) with (S (Z.to_nat (i - 1))) by lia.
  change ((d :: es) !! S (Z.to_nat (i - 1))) with (es !! Z.to_nat (i - 1)). by rewrite He, bind_must.
Qed.

Lemma mem_Term_0 es (s : MemoryStorage.t M) : mem_log es s -> MemoryStorage.Term 0 s = (Ok 0, s).
Proof.
  intros Hs. apply on_db_read. unfold MemDB.Term. rewrite (bind_ok _ _ _ _ _ (mem_offset es s Hs)).
  destruct Hs as (d & E & _ & Ht & Hb). change (0 <? 0) with false. cbv iota.
  rewrite bind_gets, E, blen_cons. pose proof (blen_nonneg es). change (i64 (u64 (0 - 0))) with 0. rewrite (proj2 (Z.leb_gt _ _)) by lia.
  change (Z.to_nat (u64 (0 - 0))) with 0%nat. cbn [lookup list_lookup]. rewrite bind_must. unfold ret. by rewrite Ht.
Qed.

Lemma mem_Entries es (s : MemoryStorage.t M) lo hi maxSize :
  mem_log es s -> 1 <= lo < hi -> hi <= 1 + blen es -> size_of (window 1 lo (hi - 1) es) < maxSize ->
  MemoryStorage.Entries lo hi maxSize s = (Ok (window 1 lo (hi - 1) es), s).
Proof.
  intros Hs Hlo Hhi Hsz. apply on_db_read. unfold MemDB.Entries. rewrite (bind_ok _ _ _ _ _ (mem_offset es s Hs)).
  rewrite (proj2 (Z.leb_gt lo 0)), (bind_ok _ _ _ _ _ (mem_last es s Hs)) by lia.
  destruct Hs as (d & E & _ & _ & Hb).
  assert (u64 (blen es + 1) = blen es + 1) as -> by (unfold u64; rewrite Z.mod_small; lia).
  rewrite (proj2 (Z.ltb_ge _ hi)), bind_gets, E, blen_cons, (proj2 (Z.eqb_neq _ _)) by lia.
  assert (u64 (lo - 0) = lo /\ u64 (hi - 0) = hi) as [-> ->] by (unfold u64; rewrite !Z.mod_small; lia).
  unfold slice. rewrite blen_cons, !(proj2 (Z.leb_le _ _)) by lia. cbn [andb]. rewrite bind_must.
  replace (Z.to_nat lo) with (S (Z.to_nat (lo - 1))) by lia. cbn [drop].
  replace (Z.to_nat (hi - lo)) with (Z.to_nat (hi - 1 - lo + 1)) by lia. fold (window 1 lo (hi - 1) es).
  unfold ret. by rewrite limitSize_all.
Qed.

End agree.

(** * On the sample log *)

Definition sample_memory : MemoryStorage.t MapMeta := MemoryStorage.mk (DiskStorage.meta s3.1) (MemDB.mk (MemDB.dummy :: log3)).

