(* ===== verification/Events.v ===== *)
(** Binlog events as the vendored replication package defines them: the event
    types of replication/const.go, and of replication/event.go the header and
    the bodies that kingbus decodes itself. *)
From S2P Require Import Prelude.
From Stdlib Require Import Ascii.
Local Open Scope Z_scope.

(** * Text *)

(** The bytes of a string. *)
Fixpoint StringToBytes (s : string) : bytes :=
  match s with
  | EmptyString => []
  | String c s' => Z.of_N (N_of_ascii c) :: StringToBytes s'
  end.

Fixpoint BytesToString (l : bytes) : string :=
  match l with
  | [] => EmptyString
  | b :: l' => String (ascii_of_N (Z.to_N b)) (BytesToString l')
  end.

Fixpoint HasPrefix (s prefix : bytes) : bool :=
  match prefix, s with
  | [], _ => true
  | c :: prefix', d :: s' => (c =? d) && HasPrefix s' prefix'
  | _ :: _, [] => false
  end.

(** [strings.ToUpper], as far as a comparison with ASCII text can tell: the
    letters a to z, and the two runes outside of ASCII with an upper case in
    it, U+0131 (the bytes 196, 177) and U+017F (the bytes 197, 191). Every other
    rune is left alone here and stays outside of ASCII in Go. *)
Fixpoint ToUpper (l : bytes) : bytes :=
  match l with
  | [] => []
  | c :: l' =>
      let one := (if (97 <=? c) && (c <=? 122) then c - 32 else c) :: ToUpper l' in
      match l' with
      | d :: l'' =>
          if (c =? 196) && (d =? 177) then 73 :: ToUpper l''
          else if (c =? 197) && (d =? 191) then 83 :: ToUpper l''
          else one
      | [] => one
      end
  end.

(** * Event types *)

Definition UNKNOWN_EVENT : Z := 0.
Definition START_EVENT_V3 : Z := 1.
Definition QUERY_EVENT : Z := 2.
Definition STOP_EVENT : Z := 3.
Definition ROTATE_EVENT : Z := 4.
Definition INTVAR_EVENT : Z := 5.
Definition LOAD_EVENT : Z := 6.
Definition SLAVE_EVENT : Z := 7.
Definition CREATE_FILE_EVENT : Z := 8.
Definition APPEND_BLOCK_EVENT : Z := 9.
Definition EXEC_LOAD_EVENT : Z := 10.
Definition DELETE_FILE_EVENT : Z := 11.
Definition NEW_LOAD_EVENT : Z := 12.
Definition RAND_EVENT : Z := 13.
Definition USER_VAR_EVENT : Z := 14.
Definition FORMAT_DESCRIPTION_EVENT : Z := 15.
Definition XID_EVENT : Z := 16.
Definition BEGIN_LOAD_QUERY_EVENT : Z := 17.
Definition EXECUTE_LOAD_QUERY_EVENT : Z := 18.
Definition TABLE_MAP_EVENT : Z := 19.
Definition WRITE_ROWS_EVENTv0 : Z := 20.
Definition UPDATE_ROWS_EVENTv0 : Z := 21.
Definition DELETE_ROWS_EVENTv0 : Z := 22.
Definition WRITE_ROWS_EVENTv1 : Z := 23.
Definition UPDATE_ROWS_EVENTv1 : Z := 24.
Definition DELETE_ROWS_EVENTv1 : Z := 25.
Definition INCIDENT_EVENT : Z := 26.
Definition HEARTBEAT_EVENT : Z := 27.
Definition IGNORABLE_EVENT : Z := 28.
Definition ROWS_QUERY_EVENT : Z := 29.
Definition WRITE_ROWS_EVENTv2 : Z := 30.
Definition UPDATE_ROWS_EVENTv2 : Z := 31.
Definition DELETE_ROWS_EVENTv2 : Z := 32.
Definition GTID_EVENT : Z := 33.
Definition ANONYMOUS_GTID_EVENT : Z := 34.
Definition PREVIOUS_GTIDS_EVENT : Z := 35.
Definition TRANSACTION_CONTEXT_EVENT : Z := 36.
Definition VIEW_CHANGE_EVENT : Z := 37.
Definition XA_PREPARE_LOG_EVENT : Z := 38.

Definition LOG_EVENT_IGNORABLE_F : Z := 128.

(** * Headers *)

(** [replication.EventHeader] *)
Module EventHeader.
Record t : Type := mk {
  Timestamp : Z; EventType : Z; ServerID : Z; EventSize : Z; LogPos : Z; Flags : Z }.
#[global] Instance eq_dec : EqDecision t.
Proof. solve_decision. Defined.
Definition zero : t := mk 0 0 0 0 0 0.

Definition EventHeaderSize : Z := 19.
Definition BinlogChecksumLength : Z := 4.

Definition Decode (data : bytes) : res t :=
  if blen data <? EventHeaderSize then Err ErrProto else
  match slice data 0 4, index data 4, slice data 5 9, slice data 9 13, slice data 13 17, slice data 17 19 with
  | Some ts, Some ty, Some id, Some sz, Some lp, Some fl =>
      let h := mk (le_val ts) ty (le_val id) (le_val sz) (le_val lp) (le_val fl) in
      if EventSize h <? EventHeaderSize then Err ErrProto else Ok h
  | _, _, _, _, _, _ => Panic
  end.
End EventHeader.

(** * Bodies *)

(** Each of these returns nil or panics on data that is too short. *)
Module QueryEvent.
Record t : Type := mk {
  SlaveProxyID : Z; ExecutionTime : Z; ErrorCode : Z; StatusVars : bytes; Schema : bytes; Query : bytes }.

Definition Decode (data : bytes) : option t :=
  slice data 0 4 ≫= fun spid =>
  slice data 4 8 ≫= fun et =>
  index data 8 ≫= fun schemaLength =>
  slice data 9 11 ≫= fun ec =>
  slice data 11 13 ≫= fun svl =>
  let statusVarsLength := le_val svl in
  let pos := 13 in
  slice data pos (pos + statusVarsLength) ≫= fun sv =>
  let pos := pos + statusVarsLength in
  slice data pos (pos + schemaLength) ≫= fun schema =>
  let pos := pos + schemaLength + 1 in
  slice data pos (blen data) ≫= fun query =>
  Some (mk (le_val spid) (le_val et) (le_val ec) sv schema query).
End QueryEvent.

Definition SidLength : Z := 16.
Definition LogicalTimestampTypeCode : Z := 2.
Definition PartLogicalTimestampLength : Z := 8.

Module GTIDEvent.
Record t : Type := mk {
  CommitFlag : Z; SID : bytes; GNO : Z; LastCommitted : Z; SequenceNumber : Z }.

Definition Decode (data : bytes) : option t :=
  index data 0 ≫= fun flag =>
  slice data 1 (1 + SidLength) ≫= fun sid =>
  let pos := 1 + SidLength in
  slice data pos (pos + 8) ≫= fun gno =>
  let pos := pos + 8 in
  let e := mk flag sid (i64 (le_val gno)) 0 0 in
  if blen data <? 42 then Some e else
  index data pos ≫= fun code =>
  if negb (code =? LogicalTimestampTypeCode) then Some e else
  let pos := pos + 1 in
  slice data pos (pos + 8) ≫= fun lc =>
  let pos := pos + PartLogicalTimestampLength in
  slice data pos (pos + 8) ≫= fun sn =>
  Some (mk flag sid (i64 (le_val gno)) (i64 (le_val lc)) (i64 (le_val sn))).
End GTIDEvent.

Module RotateEvent.
Record t : Type := mk { Position : Z; NextLogName : bytes }.

Definition Decode (data : bytes) : option t :=
  slice data 0 8 ≫= fun pos =>
  slice data 8 (blen data) ≫= fun name =>
  Some (mk (le_val pos) name).
End RotateEvent.
