(* ===== verification/Packets.v ===== *)
(** The MySQL protocol as far as kingbus speaks it on its own: packets
    (mysql/base_conn.go), the division of large binlog events by the syncer
    ([divideBinlogEvent] and [proposeBinlogEvent] of server/binlog_syncer.go),
    and the sending of events to a slave ([handleBinlogDumpGtid] and the event
    builders of mysql/command.go). *)
From S2P Require Import Prelude.
From S2P Require Import Wire.
From S2P Require Import Events.
Local Open Scope Z_scope.
Local Open Scope go_scope.

Definition MaxPayloadLen : Z := 2 ^ 24 - 1.
Definition OKHeaderByte : Z := 1.

#[global] Arguments MaxPayloadLen : simpl never.

(** * Connections *)

Module BaseConn.

(** [input] is what the peer has sent and is not read yet, [output] what has
    been sent to it. [faults] tells which of the next writes fail, as the
    system calls of Disk.v. *)
Record t : Type := mk { Sequence : Z; input : bytes; output : bytes; faults : list (option Z) }.

Definition set_Sequence (n : Z) (c : t) : t := mk n (input c) (output c) (faults c).
Definition set_input (l : bytes) (c : t) : t := mk (Sequence c) l (output c) (faults c).

(** [Write] of the connection, or [Flush] of its writer after buffered
    writes: all of the data or an error. What happens on a connection after a
    failed write is not of interest, since its user closes it. *)
Definition Write (data : bytes) : St t unit := fun c =>
  match faults c with
  | Some errno :: l => (Err (ErrOS errno), mk (Sequence c) (input c) (output c) l)
  | None :: l => (Ok tt, mk (Sequence c) (input c) (output c ++ data) l)
  | [] => (Ok tt, mk (Sequence c) (input c) (output c ++ data) [])
  end.

(** [io.ReadFull] and [io.CopyN] of [n] bytes, with the error of a stream
    that ends before the first byte and of one that ends later. *)
Definition read_n (eof short : error) (n : Z) : St t bytes := fun c =>
  if blen (input c) <? n
  then (Err (if blen (input c) =? 0 then eof else short), set_input [] c)
  else (Ok (take (Z.to_nat n) (input c)), set_input (drop (Z.to_nat n) (input c)) c).

Definition ReadFull : Z -> St t bytes := read_n ErrEOF ErrUnexpectedEOF.
Definition CopyN : Z -> St t bytes := read_n ErrEOF ErrEOF.

Definition incSequence : St t unit := modify (fun c => set_Sequence (u8 (Sequence c + 1)) c).

(** Each packet takes at least five bytes of the input. *)
Fixpoint ReadPacketTo (fuel : nat) (w : bytes) : St t bytes :=
  match fuel with
  | O => panic
  | S fuel' =>
      let! header := ReadFull 4 in
      let! h0 := must (index header 0) in
      let! h1 := must (index header 1) in
      let! h2 := must (index header 2) in
      let! sequence := must (index header 3) in
      let length := Z.lor (Z.lor h0 (Z.shiftl h1 8)) (Z.shiftl h2 16) in
      if length <? 1 then throw ErrInvalidPayload else
      let! s := gets Sequence in
      if negb (sequence =? s) then throw ErrInvalidSequence else
      incSequence ;!
      let! p := CopyN length in
      if length <? MaxPayloadLen then ret (w ++ p) else ReadPacketTo fuel' (w ++ p)
  end.

Definition ReadPacket : St t bytes :=
  let! fuel := gets (fun c => S (length (input c))) in
  ReadPacketTo fuel [].

(** The three length bytes of a header. *)
Definition len_bytes (n : Z) : bytes := [u8 n; u8 (Z.shiftr n 8); u8 (Z.shiftr n 16)].

(** The loop of [WritePacket]: [data] starts with the room for a header, its
    payload is [length] bytes long. Each round takes [MaxPayloadLen] of it. *)
Fixpoint write_loop (fuel : nat) (data : bytes) (length : Z) : St t unit :=
  match fuel with
  | O => panic
  | S fuel' =>
      let! s := gets Sequence in
      if MaxPayloadLen <=? length then
        let data := splice data 0 ([255; 255; 255] ++ [s]) in
        Write (take (Z.to_nat (4 + MaxPayloadLen)) data) ;!
        incSequence ;!
        write_loop fuel' (drop (Z.to_nat MaxPayloadLen) data) (length - MaxPayloadLen)
      else
        Write (splice data 0 (len_bytes length ++ [s])) ;!
        incSequence
  end.

(** Writing to [data[3]] panics when there is no room for a header. *)
Definition WritePacket (data : bytes) : St t unit :=
  if blen data <? 4 then panic else write_loop (S (length data)) data (blen data - 4).

Definition WriteEvent (data : bytes) (first : bool) : St t unit :=
  let packetLen := if first then blen data + OKHeaderByte else blen data in
  if MaxPayloadLen <? packetLen then throw ErrLargePacket else
  let! s := gets Sequence in
  Write (len_bytes packetLen ++ [s] ++ (if first then [0] else []) ++ data) ;!
  incSequence.

Definition ResetSequence : St t unit := modify (set_Sequence 0).

End BaseConn.

(** * Events *)

Definition encodeEventHeader (h : EventHeader.t) : bytes :=
  le_bytes 4 (EventHeader.Timestamp h) ++ [u8 (EventHeader.EventType h)] ++
  le_bytes 4 (EventHeader.ServerID h) ++ le_bytes 4 (EventHeader.EventSize h) ++
  le_bytes 4 (EventHeader.LogPos h) ++ le_bytes 2 (EventHeader.Flags h).

Definition with_checksum (buf : bytes) : bytes := buf ++ le_bytes 4 (ChecksumIEEE buf).

Definition buildHeartbeatEvent (fileName : bytes) (serverID logPos : Z) : bytes :=
  let h := EventHeader.mk 0 HEARTBEAT_EVENT serverID
    (u32 (EventHeader.EventHeaderSize + blen fileName + EventHeader.BinlogChecksumLength)) logPos 32 in
  with_checksum (encodeEventHeader h ++ fileName).

Definition buildFakeRotateEvent (serverID : Z) (fileName : bytes) (needCrc32 : bool) : bytes :=
  let h := EventHeader.mk 0 ROTATE_EVENT serverID
    (u32 (EventHeader.EventHeaderSize + 8 + blen fileName + EventHeader.BinlogChecksumLength)) 0 32 in
  let buf := encodeEventHeader h ++ le_bytes 8 4 ++ fileName in
  if needCrc32 then with_checksum buf else buf.

(** [sendFormatDescriptionEvent]: the next position is cleared and the
    checksum computed again. *)
Definition sendFormatDescriptionEvent (data : bytes) : St BaseConn.t unit :=
  let LogPosOffset := 13 in
  let! _ := must (slice data LogPosOffset (LogPosOffset + 4)) in
  let data := splice data LogPosOffset (le_bytes 4 0) in
  let! data := must (slice data 0 (blen data - 4)) in
  BaseConn.WriteEvent (with_checksum data) true.

(** * The syncer *)

(** [replication.BinlogEvent] as the syncer gets it. *)
Record SrcEvent : Type := mkSrcEvent { Header : EventHeader.t; RawData : bytes }.

(** The loop of [divideBinlogEvent], [n] rounds from round [i] on. *)
Fixpoint divide_loop (src : SrcEvent) (flavor dividedCount : Z) (n : nat) (i pos : Z)
    : res (list BinlogEvent.t) :=
  match n with
  | O => Ok []
  | S n' =>
      let maxEventDataSize := if i =? 0 then MaxPayloadLen - 1 else MaxPayloadLen in
      let data :=
        if pos + maxEventDataSize <? blen (RawData src)
        then slice (RawData src) pos (pos + maxEventDataSize)
        else slice (RawData src) pos (blen (RawData src)) in
      match data, divide_loop src flavor dividedCount n' (i + 1) (pos + maxEventDataSize) with
      | Some data, Ok events =>
          Ok (BinlogEvent.mk (EventHeader.EventType (Header src)) flavor dividedCount i (Some data) None
              :: events)
      | None, _ => Panic
      | _, r => r
      end
  end.

(** Both branches of the test of the flavor give MySQL. *)
Definition divideBinlogEvent (srcEvent : SrcEvent) : res (list BinlogEvent.t) :=
  let srcEventLength := blen (RawData srcEvent) in
  let dividedCount := u32 ((srcEventLength + OKHeaderByte) / MaxPayloadLen) in
  let dividedCount :=
    if negb (srcEventLength mod MaxPayloadLen =? 0) then u32 (dividedCount + 1) else dividedCount in
  divide_loop srcEvent BinlogEvent.FlavorType_MySQL dividedCount (Z.to_nat dividedCount) 0 0.

(** [proposeBinlogEvent]: the events that go into [binlogEventC] while the
    syncer is not stopped. *)
Definition proposeBinlogEvent (isMySQL : bool) (event : SrcEvent) : res (list BinlogEvent.t) :=
  if u32 (EventHeader.EventSize (Header event) + OKHeaderByte) <? MaxPayloadLen then
    Ok [BinlogEvent.mk (EventHeader.EventType (Header event))
          (if isMySQL then BinlogEvent.FlavorType_MySQL else BinlogEvent.FlavorType_Maria)
          0 0 (Some (RawData event)) None]
  else divideBinlogEvent event.

(** * Sending events to a slave *)

(** The case of an event in the loop of [handleBinlogDumpGtid]. *)
Definition send_event (event : BinlogEvent.t) : St BaseConn.t unit :=
  let data := default [] (BinlogEvent.Data event) in
  if (BinlogEvent.DividedCount event =? 0) ||
     ((0 <? BinlogEvent.DividedCount event) && (BinlogEvent.DividedSeqNum event =? 0))
  then BaseConn.WriteEvent data true
  else
    BaseConn.WriteEvent data false ;!
    (if (BinlogEvent.DividedSeqNum event =? u32 (BinlogEvent.DividedCount event - 1)) &&
        (blen data =? MaxPayloadLen)
     then BaseConn.WriteEvent [] false else ret tt).

Fixpoint send_events (events : list BinlogEvent.t) : St BaseConn.t unit :=
  match events with
  | [] => ret tt
  | e :: events' => send_event e ;! send_events events'
  end.

(** * What a client reads *)

(** A message of the protocol: packets with consecutive sequence numbers up to
    the first one shorter than [MaxPayloadLen]. The result is the payload, the
    next sequence number and the rest of the stream, or [None] when the stream
    does not hold a whole message. *)
Fixpoint client_read (fuel : nat) (s : Z) (stream : bytes) : option (bytes * Z * bytes) :=
  match fuel with
  | O => None
  | S fuel' =>
      match slice stream 0 3, index stream 3 with
      | Some l, Some s' =>
          if negb (s' =? s) then None else
          let n := le_val l in
          match slice stream 4 (4 + n) with
          | None => None
          | Some p =>
              let rest := drop (Z.to_nat (4 + n)) stream in
              if n <? MaxPayloadLen then Some (p, u8 (s + 1), rest)
              else match client_read fuel' (u8 (s + 1)) rest with
                   | None => None
                   | Some (q, s2, rest2) => Some (p ++ q, s2, rest2)
                   end
          end
      | _, _ => None
      end
  end.

Definition packet (s : Z) (p : bytes) : bytes := BaseConn.len_bytes (blen p) ++ [s] ++ p.

Lemma max_payload : MaxPayloadLen = 16777215.
Proof. reflexivity. Qed.

Ltac mp := rewrite ?max_payload in *.

Lemma len_bytes_le n : BaseConn.len_bytes n = le_bytes 3 n.
Proof.
  unfold BaseConn.len_bytes, u8. cbn [le_bytes]. rewrite !Z.shiftr_div_pow2 by lia.
  by rewrite Z.div_div by lia.
Qed.

Lemma len_bytes_val n : 0 <= n <= MaxPayloadLen -> le_val (BaseConn.len_bytes n) = n.
Proof. intros Hn. rewrite len_bytes_le. apply le_val_bytes_small. mp. lia. Qed.

Lemma blen_packet s p : blen (packet s p) = 4 + blen p.
Proof. unfold packet. rewrite len_bytes_le. len. Qed.

(** Reading the first packet of a stream. *)
Lemma client_read_packet f s p rest :
  blen p <= MaxPayloadLen ->
  client_read (S f) s (packet s p ++ rest) =
    if blen p <? MaxPayloadLen then Some (p, u8 (s + 1), rest)
    else match client_read f (u8 (s + 1)) rest with
         | None => None
         | Some (q, s2, rest2) => Some (p ++ q, s2, rest2)
         end.
Proof.
  intros Hp. pose proof (blen_nonneg p). unfold packet. rewrite <-!app_assoc. cbn [client_read].
  set (h := BaseConn.len_bytes (blen p)).
  assert (blen h = 3) as Hh by (unfold h; rewrite len_bytes_le; len).
  rewrite (slice_prefix h) by lia.
  replace (index (h ++ [s] ++ p ++ rest) 3) with (Some s) by (symmetry; by apply index_mid).
  rewrite Z.eqb_refl. cbn [negb]. assert (le_val h = blen p) as -> by (by apply len_bytes_val).
  rewrite (app_assoc h [s] (p ++ rest)).
  rewrite (slice_mid (h ++ [s]) p rest) by len.
  replace (drop (Z.to_nat (4 + blen p)) ((h ++ [s]) ++ p ++ rest)) with rest; [done|].
  rewrite app_assoc. symmetry. apply drop_app_length'. unfold blen in *. rewrite !length_app. cbn. lia.
Qed.

Lemma WriteEvent_ok c (data : bytes) (first : bool) :
  BaseConn.faults c = [] ->
  blen (if first then 0 :: data else data) <= MaxPayloadLen ->
  BaseConn.WriteEvent data first c =
    (Ok tt, BaseConn.mk (u8 (BaseConn.Sequence c + 1)) (BaseConn.input c)
              (BaseConn.output c ++ packet (BaseConn.Sequence c) (if first then 0 :: data else data)) []).
Proof.
  intros Hf Hl. unfold BaseConn.WriteEvent, OKHeaderByte.
  replace (if first then blen data + 1 else blen data) with (blen (if first then 0 :: data else data))
    by (destruct first; rewrite ?blen_cons; lia).
  rewrite (proj2 (Z.ltb_ge _ _)) by done. unfold bind, gets, BaseConn.Write. rewrite Hf.
  unfold packet. by destruct first.
Qed.

(** ** Divided events *)

(** What is left to send at round [i] of the division. *)
Definition left (i pos : Z) (raw : bytes) : bytes :=
  if i =? 0 then 0 :: raw else drop (Z.to_nat pos) raw.

Definition round_size (i : Z) : Z := if i =? 0 then MaxPayloadLen - 1 else MaxPayloadLen.

Lemma left_next i pos raw :
  0 <= i -> 0 <= pos -> (i = 0 -> pos = 0) ->
  left (i + 1) (pos + round_size i) raw = drop (Z.to_nat MaxPayloadLen) (left i pos raw).
Proof.
  intros Hi Hp H0. unfold left, round_size. rewrite (proj2 (Z.eqb_neq (i + 1) 0)) by lia.
  destruct (Z.eqb_spec i 0) as [->|Hn].
  - rewrite H0 by done. replace (Z.to_nat MaxPayloadLen) with (S (Z.to_nat (0 + (MaxPayloadLen - 1))))
      by (mp; lia). done.
  - rewrite drop_drop. f_equal. mp. lia.
Qed.

(** One round: the data of the event is the next part of what is left. *)
Lemma divide_round src fl cnt n i pos evs :
  0 <= i -> 0 <= pos <= blen (RawData src) ->
  divide_loop src fl cnt n (i + 1) (pos + round_size i) = Ok evs ->
  divide_loop src fl cnt (S n) i pos =
    Ok (BinlogEvent.mk (EventHeader.EventType (Header src)) fl cnt i
          (Some (take (Z.to_nat (round_size i)) (drop (Z.to_nat pos) (RawData src)))) None :: evs).
Proof.
  intros Hi Hp He. cbn [divide_loop]. fold (round_size i). rewrite He.
  assert (0 <= round_size i) by (unfold round_size; mp; zdecide).
  zcase.
  - rewrite slice_in_bounds by lia. by rewrite Z.add_simpl_l.
  - rewrite slice_in_bounds by lia. rewrite !take_ge; [done| |].
    + rewrite length_drop. unfold blen in *. lia.
    + rewrite length_drop. unfold blen in *. lia.
Qed.

(** The payload of the packet that [send_event] writes for the event. *)
Lemma round_payload i pos raw :
  0 <= i -> 0 <= pos -> (i = 0 -> pos = 0) ->
  (let d := take (Z.to_nat (round_size i)) (drop (Z.to_nat pos) raw) in
   if i =? 0 then 0 :: d else d) = take (Z.to_nat MaxPayloadLen) (left i pos raw).
Proof.
  intros Hi Hp H0. unfold left, round_size. destruct (Z.eqb_spec i 0) as [->|Hn]; [|done].
  rewrite H0 by done. cbn [Z.to_nat drop].
  by replace (Z.to_nat MaxPayloadLen) with (S (Z.to_nat (MaxPayloadLen - 1))) by (mp; lia).
Qed.

Lemma blen_left i pos raw :
  0 <= pos <= blen raw -> (i = 0 -> pos = 0) ->
  blen (left i pos raw) = (if i =? 0 then 1 else 0) + blen raw - pos.
Proof.
  intros Hp H0. unfold left. destruct (Z.eqb_spec i 0) as [->|Hn]; [rewrite H0 by done; len|len].
Qed.

(** Sending the event of round [i] of [cnt]. *)
Lemma send_round ty fl cnt i pos raw c :
  let w := left i pos raw in
  let d := take (Z.to_nat (round_size i)) (drop (Z.to_nat pos) raw) in
  0 < cnt < 2 ^ 32 -> 0 <= i -> 0 <= pos -> (i = 0 -> pos = 0) -> BaseConn.faults c = [] ->
  (i <> 0 -> i = cnt - 1 -> blen w < MaxPayloadLen) ->
  send_event (BinlogEvent.mk ty fl cnt i (Some d) None) c =
    (Ok tt, BaseConn.mk (u8 (BaseConn.Sequence c + 1)) (BaseConn.input c)
       (BaseConn.output c ++ packet (BaseConn.Sequence c) (take (Z.to_nat MaxPayloadLen) w)) []).
Proof.
  intros w d Hc Hi Hp H0 Hf Hlast.
  assert ((if i =? 0 then 0 :: d else d) = take (Z.to_nat MaxPayloadLen) w) as Hpay by (by apply round_payload).
  assert (blen (take (Z.to_nat MaxPayloadLen) w) <= MaxPayloadLen) as Hmax by (rewrite blen_take by (mp; lia); lia).
  rewrite <-Hpay in Hmax |- *.
  unfold send_event. cbn [BinlogEvent.Data BinlogEvent.DividedCount BinlogEvent.DividedSeqNum].
  change (default [] (Some d)) with d.
  rewrite (proj2 (Z.eqb_neq cnt 0)), (proj2 (Z.ltb_lt 0 cnt)) by lia. cbn [orb andb].
  destruct (Z.eqb_spec i 0) as [E|Hn].
  - by apply (WriteEvent_ok c d true).
  - rewrite (bind_ok _ _ _ _ _ (WriteEvent_ok c d false Hf Hmax)).
    assert ((i =? u32 (cnt - 1)) && (blen d =? MaxPayloadLen) = false) as ->; [|done].
    rewrite u32_small by (unfold is_u32; lia).
    destruct (Z.eqb_spec i (cnt - 1)) as [E|]; [|done]. apply Z.eqb_neq.
    specialize (Hlast Hn E). rewrite Hpay, blen_take by (mp; lia). lia.
Qed.

Lemma rounds_delivered src fl cnt n :
  let raw := RawData src in
  forall i pos c, 0 < cnt < 2 ^ 32 -> 0 <= i -> i + Z.of_nat n = cnt -> (i = 0 -> pos = 0) ->
  0 <= pos <= blen raw -> BaseConn.faults c = [] ->
  (Z.of_nat n - 1) * MaxPayloadLen <= blen (left i pos raw) < Z.of_nat n * MaxPayloadLen ->
  exists evs stream s',
    divide_loop src fl cnt n i pos = Ok evs /\ length evs = n /\
    send_events evs c =
      (Ok tt, BaseConn.mk s' (BaseConn.input c) (BaseConn.output c ++ stream) []) /\
    forall rest f, (n <= f)%nat ->
      client_read f (BaseConn.Sequence c) (stream ++ rest) = Some (left i pos raw, s', rest).
Proof.
  intros raw. induction n as [|n IH]; intros i pos c Hc Hi Hn H0 Hp Hf Hw.
  { pose proof (blen_nonneg (left i pos raw)). mp. lia. }
  pose proof (blen_left i pos raw Hp H0) as Hbl.
  pose proof (send_round (EventHeader.EventType (Header src)) fl cnt i pos raw c Hc Hi ltac:(lia) H0 Hf) as HS.
  cbv zeta in HS. set (w := left i pos raw) in *.
  destruct n as [|n].
  - rewrite (take_ge w) in HS by (unfold blen in *; mp; lia).
    eexists [_], (packet (BaseConn.Sequence c) w), _. split; [by apply divide_round|]. split; [done|]. split.
    + cbn [send_events]. rewrite (bind_ok _ _ _ _ _ (HS ltac:(intros; mp; lia))). reflexivity.
    + intros rest [|f] Hfuel; [lia|]. rewrite client_read_packet by (mp; lia).
      by rewrite (proj2 (Z.ltb_lt _ _)) by (mp; lia).
  - set (p := take (Z.to_nat MaxPayloadLen) w) in *. specialize (HS ltac:(intros; mp; lia)).
    assert (blen p = MaxPayloadLen) as Hpl by (unfold p; rewrite blen_take by (mp; lia); mp; lia).
    assert (left (i + 1) (pos + round_size i) raw = drop (Z.to_nat MaxPayloadLen) w) as Hnext
      by (apply left_next; lia || done).
    set (c1 := BaseConn.mk _ _ _ _) in HS.
    assert (pos + round_size i <= blen raw) as Hpos.
    { unfold round_size. destruct (Z.eqb_spec i 0); mp; lia. }
    assert (0 <= round_size i) as Hrs by (unfold round_size; mp; zdecide).
    destruct (IH (i + 1) (pos + round_size i) c1) as (evs & stream & s' & HD & Hlen & HSS & HR);
      [done|lia|lia|lia|lia|done| |].
    { rewrite Hnext, blen_drop by (mp; lia). mp. lia. }
    eexists _, (packet (BaseConn.Sequence c) p ++ stream), s'.
    split; [apply divide_round; [lia|exact Hp|exact HD]|]. split; [cbn; lia|]. split.
    + cbn [send_events]. rewrite (bind_ok _ _ _ _ _ HS), HSS. unfold c1. cbn [BaseConn.output BaseConn.input].
      by rewrite app_assoc.
    + intros rest [|f] Hfuel; [lia|]. rewrite <-app_assoc, client_read_packet by lia.
      rewrite (proj2 (Z.ltb_ge _ _)) by lia.
      change (u8 (BaseConn.Sequence c + 1)) with (BaseConn.Sequence c1). rewrite HR by lia.
      unfold p. by rewrite Hnext, take_drop.
Qed.

(** The last round when it is full and not the first one: an empty packet
    follows. *)
Lemma send_last_full ty fl cnt i pos raw c :
  let w := left i pos raw in
  let d := take (Z.to_nat (round_size i)) (drop (Z.to_nat pos) raw) in
  cnt < 2 ^ 32 -> 0 < i -> i = cnt - 1 -> 0 <= pos -> BaseConn.faults c = [] ->
  MaxPayloadLen <= blen w ->
  let s := BaseConn.Sequence c in
  send_event (BinlogEvent.mk ty fl cnt i (Some d) None) c =
    (Ok tt, BaseConn.mk (u8 (u8 (s + 1) + 1)) (BaseConn.input c)
       (BaseConn.output c ++ packet s (take (Z.to_nat MaxPayloadLen) w) ++ packet (u8 (s + 1)) []) []).
Proof.
  intros w d Hc Hi Hl Hp Hf Hw s.
  pose proof (round_payload i pos raw ltac:(lia) Hp ltac:(lia)) as Hpay. cbv zeta in Hpay. fold d w in Hpay.
  rewrite (proj2 (Z.eqb_neq i 0)) in Hpay by lia. rewrite <-Hpay.
  assert (blen d = MaxPayloadLen) as Hd by (rewrite Hpay, blen_take by (mp; lia); lia).
  unfold send_event. cbn [BinlogEvent.Data BinlogEvent.DividedCount BinlogEvent.DividedSeqNum].
  change (default [] (Some d)) with d.
  rewrite (proj2 (Z.eqb_neq cnt 0)), (proj2 (Z.ltb_lt 0 cnt)), (proj2 (Z.eqb_neq i 0)) by lia. cbn [orb andb].
  rewrite (bind_ok _ _ _ _ _ (WriteEvent_ok c d false Hf (Z.eq_le_incl _ _ Hd))).
  rewrite u32_small, (proj2 (Z.eqb_eq _ _) Hl), Hd, Z.eqb_refl by (unfold is_u32; lia). cbn [andb].
  rewrite (WriteEvent_ok _ [] false) by (done || mp; done). cbn [BaseConn.output BaseConn.input BaseConn.Sequence].
  by rewrite <-app_assoc.
Qed.

Lemma rounds_full src fl cnt n :
  let raw := RawData src in
  forall i pos c, 1 < cnt < 2 ^ 32 -> 0 <= i -> i + Z.of_nat n = cnt -> (0 < n)%nat -> (i = 0 -> pos = 0) ->
  0 <= pos <= blen raw -> BaseConn.faults c = [] ->
  Z.of_nat n * MaxPayloadLen <= blen (left i pos raw) ->
  exists evs stream s',
    divide_loop src fl cnt n i pos = Ok evs /\ length evs = n /\
    send_events evs c =
      (Ok tt, BaseConn.mk s' (BaseConn.input c) (BaseConn.output c ++ stream) []) /\
    forall rest f, (n < f)%nat ->
      client_read f (BaseConn.Sequence c) (stream ++ rest) =
        Some (take (Z.to_nat (Z.of_nat n * MaxPayloadLen)) (left i pos raw), s', rest).
Proof.
  intros raw. induction n as [|n IH]; intros i pos c Hc Hi Hn Hn0 H0 Hp Hf Hw; [lia|].
  pose proof (blen_left i pos raw Hp H0) as Hbl. set (w := left i pos raw) in *.
  set (p := take (Z.to_nat MaxPayloadLen) w) in *.
  assert (blen p = MaxPayloadLen) as Hpl by (unfold p; rewrite blen_take by (mp; lia); mp; lia).
  destruct n as [|n].
  - eexists [_], (packet (BaseConn.Sequence c) p ++ packet (u8 (BaseConn.Sequence c + 1)) []), _.
    split; [by apply divide_round|]. split; [done|]. split.
    + cbn [send_events].
      rewrite (bind_ok _ _ _ _ _ (send_last_full _ fl cnt i pos raw c ltac:(lia) ltac:(lia) ltac:(lia)
        ltac:(lia) Hf ltac:(fold w; mp; lia))). reflexivity.
    + intros rest [|[|f]] Hfuel; [lia|lia|]. rewrite <-app_assoc, client_read_packet by lia.
      rewrite (proj2 (Z.ltb_ge _ _)), client_read_packet by (mp; done || lia).
      rewrite (proj2 (Z.ltb_lt _ _)) by (mp; done). rewrite app_nil_r. do 3 f_equal.
  - pose proof (send_round (EventHeader.EventType (Header src)) fl cnt i pos raw c ltac:(lia) Hi ltac:(lia)
      H0 Hf ltac:(intros; lia)) as HS. fold w p in HS.
    assert (left (i + 1) (pos + round_size i) raw = drop (Z.to_nat MaxPayloadLen) w) as Hnext
      by (apply left_next; lia || done).
    set (c1 := BaseConn.mk _ _ _ _) in HS.
    assert (pos + round_size i <= blen raw) as Hpos.
    { unfold round_size. destruct (Z.eqb_spec i 0); mp; lia. }
    assert (0 <= round_size i) as Hrs by (unfold round_size; mp; zdecide).
    destruct (IH (i + 1) (pos + round_size i) c1) as (evs & stream & s' & HD & Hlen & HSS & HR);
      [done|lia|lia|lia|lia|lia|done| |].
    { rewrite Hnext, blen_drop by (mp; lia). mp. lia. }
    eexists _, (packet (BaseConn.Sequence c) p ++ stream), s'.
    split; [apply divide_round; [lia|exact Hp|exact HD]|]. split; [cbn; lia|]. split.
    + cbn [send_events]. rewrite (bind_ok _ _ _ _ _ HS), HSS. unfold c1. cbn [BaseConn.output BaseConn.input].
      by rewrite app_assoc.
    + intros rest [|f] Hfuel; [lia|]. rewrite <-app_assoc, client_read_packet by lia.
      rewrite (proj2 (Z.ltb_ge _ _)) by lia.
      change (u8 (BaseConn.Sequence c + 1)) with (BaseConn.Sequence c1). rewrite HR by lia. rewrite Hnext.
      do 3 f_equal. unfold p. rewrite <-(take_drop (Z.to_nat MaxPayloadLen) w) at 3.
      rewrite take_app_ge by (unfold blen in Hpl; fold p; mp; lia). f_equal. f_equal.
      unfold blen in Hpl. fold p. mp. lia.
Qed.

(** ** Packets of any length *)

(** The packets of a payload. *)
Fixpoint packets (fuel : nat) (s : Z) (p : bytes) : bytes :=
  match fuel with
  | O => []
  | S fuel' =>
      if MaxPayloadLen <=? blen p
      then packet s (take (Z.to_nat MaxPayloadLen) p) ++
           packets fuel' (u8 (s + 1)) (drop (Z.to_nat MaxPayloadLen) p)
      else packet s p
  end.

Lemma drop_eq {A} (l : list A) n m : n = m -> drop n l = drop m l.
Proof. by intros ->. Qed.

Lemma splice_header data h :
  blen h = 4 -> 4 <= blen data -> splice data 0 h = h ++ drop 4 data.
Proof. intros Hh Hd. unfold splice. rewrite Hh. done. Qed.

(** The sequence number after a message with [n] bytes. *)
Definition seq_after (s n : Z) : Z := u8 (s + (n / MaxPayloadLen + 1)).

Lemma seq_after_short s n : 0 <= n < MaxPayloadLen -> seq_after s n = u8 (s + 1).
Proof. intros Hn. unfold seq_after. by rewrite Z.div_small by lia. Qed.

Lemma u8_add_l a b : u8 (u8 a + b) = u8 (a + b).
Proof. apply Zplus_mod_idemp_l. Qed.

Lemma seq_after_full s n : MaxPayloadLen <= n -> seq_after (u8 (s + 1)) (n - MaxPayloadLen) = seq_after s n.
Proof.
  intros Hn. unfold seq_after. rewrite u8_add_l. f_equal.
  replace n with (n - MaxPayloadLen + 1 * MaxPayloadLen) at 2 by lia. rewrite Z.div_add by (mp; lia). lia.
Qed.

Lemma write_loop_ok fuel : forall data c,
  BaseConn.faults c = [] -> 4 <= blen data -> blen data - 4 < Z.of_nat fuel * MaxPayloadLen ->
  BaseConn.write_loop fuel data (blen data - 4) c =
    (Ok tt, BaseConn.mk (seq_after (BaseConn.Sequence c) (blen data - 4)) (BaseConn.input c)
              (BaseConn.output c ++ packets fuel (BaseConn.Sequence c) (drop 4 data)) []).
Proof.
  induction fuel as [|fuel IH]; intros data c Hf H4 Hl; [mp; lia|].
  assert (blen (drop 4 data) = blen data - 4) as Hd by (unfold blen in *; rewrite length_drop; lia).
  cbn [BaseConn.write_loop packets]. rewrite (bind_ok (gets _) _ _ _ _ eq_refl). rewrite Hd. zcase.
  - set (s := BaseConn.Sequence c). rewrite splice_header by done.
    set (h := [255; 255; 255] ++ [s]).
    assert (take (Z.to_nat (4 + MaxPayloadLen)) (h ++ drop 4 data) =
            packet s (take (Z.to_nat MaxPayloadLen) (drop 4 data))) as Ep.
    { rewrite take_app_ge by (change (length h) with 4%nat; mp; lia). change (length h) with 4%nat.
      replace (Z.to_nat (4 + MaxPayloadLen) - 4)%nat with (Z.to_nat MaxPayloadLen) by (mp; lia).
      unfold packet. rewrite blen_take, Hd by (mp; lia). by replace (Z.min _ _) with MaxPayloadLen by lia. }
    rewrite Ep. rewrite (bind_ok (BaseConn.Write _) _ _ tt (BaseConn.mk s (BaseConn.input c)
      (BaseConn.output c ++ packet s (take (Z.to_nat MaxPayloadLen) (drop 4 data))) []));
      [|unfold BaseConn.Write; by rewrite Hf].
    rewrite (bind_ok BaseConn.incSequence _ _ _ _ eq_refl). unfold BaseConn.set_Sequence.
    cbn [BaseConn.Sequence BaseConn.input BaseConn.output BaseConn.faults].
    set (data' := drop (Z.to_nat MaxPayloadLen) (h ++ drop 4 data)). set (c1 := BaseConn.mk _ _ _ _).
    assert (blen data' - 4 = blen data - 4 - MaxPayloadLen) as El.
    { unfold data'. rewrite blen_drop, blen_app, Hd by (mp; lia). change (blen h) with 4. mp. lia. }
    rewrite <-El, (IH data' c1 eq_refl ltac:(mp; lia) ltac:(mp; lia)).
    unfold c1. cbn [BaseConn.Sequence BaseConn.input BaseConn.output].
    rewrite El, seq_after_full by lia. fold s. rewrite <-app_assoc. do 5 f_equal.
    unfold data'. rewrite drop_drop, drop_app_ge by (change (length h) with 4%nat; mp; lia).
    change (length h) with 4%nat. rewrite !drop_drop. apply drop_eq. mp. lia.
  - rewrite seq_after_short by lia. unfold bind, BaseConn.Write. rewrite Hf.
    unfold BaseConn.incSequence, modify, BaseConn.set_Sequence.
    cbn [BaseConn.Sequence BaseConn.input BaseConn.output BaseConn.faults].
    rewrite splice_header by (rewrite ?blen_app, ?len_bytes_le; done). unfold packet. rewrite Hd.
    by rewrite <-app_assoc.
Qed.

Lemma packets_client fuel : forall s p rest f,
  blen p < Z.of_nat fuel * MaxPayloadLen -> (fuel <= f)%nat ->
  client_read f s (packets fuel s p ++ rest) = Some (p, seq_after s (blen p), rest).
Proof.
  induction fuel as [|fuel IH]; intros s p rest f Hl Hf; [pose proof (blen_nonneg p); mp; lia|].
  destruct f as [|f]; [lia|]. cbn [packets]. zcase.
  - rewrite <-app_assoc, client_read_packet by (rewrite blen_take by (mp; lia); lia).
    rewrite blen_take by (mp; lia). replace (Z.min _ _) with MaxPayloadLen by lia. rewrite Z.ltb_irrefl.
    rewrite IH; [|rewrite blen_drop by (mp; lia); mp; lia|lia].
    rewrite take_drop, blen_drop by (mp; lia). replace (Z.max _ _) with (blen p - MaxPayloadLen) by lia.
    by rewrite seq_after_full by lia.
  - rewrite seq_after_short, client_read_packet by (pose proof (blen_nonneg p); lia). by rewrite (proj2 (Z.ltb_lt _ _)) by lia.
Qed.

Lemma len_bytes_lor n :
  0 <= n <= MaxPayloadLen ->
  Z.lor (Z.lor (u8 n) (Z.shiftl (u8 (Z.shiftr n 8)) 8)) (Z.shiftl (u8 (Z.shiftr n 16)) 16) = n.
Proof.
  intros Hn. pose proof (u8_range n) as H0. pose proof (u8_range (Z.shiftr n 8)) as H1. unfold is_u8 in *.
  rewrite (lor_shiftl_add (u8 n)) by lia. change (2 ^ 8) with 256 in *. rewrite lor_shiftl_add by lia.
  rewrite <-(len_bytes_val n) at 4 by done. unfold BaseConn.len_bytes, le_val. lia.
Qed.

Lemma read_n_app e1 e2 c a b :
  BaseConn.input c = a ++ b -> BaseConn.read_n e1 e2 (blen a) c = (Ok a, BaseConn.set_input b c).
Proof.
  intros Hi. unfold BaseConn.read_n. rewrite Hi. rewrite (proj2 (Z.ltb_ge _ _)) by len.
  by rewrite to_nat_blen, take_app_length, drop_app_length.
Qed.

Lemma ReadPacketTo_packet f w c p rest :
  BaseConn.input c = packet (BaseConn.Sequence c) p ++ rest -> 0 < blen p <= MaxPayloadLen ->
  let c1 := BaseConn.mk (u8 (BaseConn.Sequence c + 1)) rest (BaseConn.output c) (BaseConn.faults c) in
  BaseConn.ReadPacketTo (S f) w c =
    if blen p <? MaxPayloadLen then (Ok (w ++ p), c1) else BaseConn.ReadPacketTo f (w ++ p) c1.
Proof.
  intros Hi Hp c1. cbn [BaseConn.ReadPacketTo]. unfold BaseConn.ReadFull, BaseConn.CopyN.
  set (s := BaseConn.Sequence c) in *. set (n := blen p) in *.
  assert (BaseConn.input c = (BaseConn.len_bytes n ++ [s]) ++ p ++ rest) as Hi'
    by (rewrite Hi; unfold packet; by rewrite <-!app_assoc).
  rewrite (bind_ok _ _ _ _ _ (read_n_app _ _ c (BaseConn.len_bytes n ++ [s]) (p ++ rest) Hi')).
  set (h := BaseConn.len_bytes n ++ [s]).
  change (index h 0) with (Some (u8 n)). change (index h 1) with (Some (u8 (Z.shiftr n 8))).
  change (index h 2) with (Some (u8 (Z.shiftr n 16))). change (index h 3) with (Some s).
  rewrite !bind_must. rewrite len_bytes_lor by lia.
  rewrite (proj2 (Z.ltb_ge _ _)) by lia. rewrite (bind_ok (gets _) _ _ _ _ eq_refl).
  cbn [BaseConn.Sequence BaseConn.set_input]. fold s. rewrite Z.eqb_refl. cbn [negb].
  rewrite (bind_ok BaseConn.incSequence _ _ _ _ eq_refl). unfold n.
  set (c2 := BaseConn.set_Sequence _ _).
  rewrite (bind_ok _ _ _ _ _ (read_n_app _ _ c2 p rest eq_refl)). by zcase.
Qed.

Lemma ReadPacketTo_empty f w c rest :
  BaseConn.input c = packet (BaseConn.Sequence c) [] ++ rest ->
  BaseConn.ReadPacketTo (S f) w c = (Err ErrInvalidPayload, BaseConn.set_input rest c).
Proof.
  intros Hi. cbn [BaseConn.ReadPacketTo]. unfold BaseConn.ReadFull, BaseConn.CopyN.
  rewrite (bind_ok _ _ _ _ _ (read_n_app _ _ c (packet (BaseConn.Sequence c) []) rest Hi)). reflexivity.
Qed.

Lemma packets_read fuel : forall p c w rest f,
  BaseConn.input c = packets fuel (BaseConn.Sequence c) p ++ rest ->
  0 < blen p < Z.of_nat fuel * MaxPayloadLen -> (fuel <= f)%nat ->
  BaseConn.ReadPacketTo f w c =
    if blen p mod MaxPayloadLen =? 0
    then (Err ErrInvalidPayload,
          BaseConn.mk (u8 (BaseConn.Sequence c + blen p / MaxPayloadLen)) rest (BaseConn.output c) (BaseConn.faults c))
    else (Ok (w ++ p),
          BaseConn.mk (seq_after (BaseConn.Sequence c) (blen p)) rest (BaseConn.output c) (BaseConn.faults c)).
Proof.
  induction fuel as [|fuel IH]; intros p c w rest f Hi Hl Hf; [mp; lia|].
  destruct f as [|f]; [lia|]. cbn [packets] in Hi.
  destruct (Z.leb_spec MaxPayloadLen (blen p)) as [Hm|Hm].
  - rewrite <-app_assoc in Hi.
    assert (blen (take (Z.to_nat MaxPayloadLen) p) = MaxPayloadLen) as Hq by (rewrite blen_take by (mp; lia); lia).
    assert (blen (drop (Z.to_nat MaxPayloadLen) p) = blen p - MaxPayloadLen) as Hd
      by (rewrite blen_drop by (mp; lia); lia).
    rewrite (ReadPacketTo_packet f w c _ _ Hi) by (mp; lia). rewrite Hq, Z.ltb_irrefl.
    set (c1 := BaseConn.mk _ _ _ _).
    assert (blen p mod MaxPayloadLen = (blen p - MaxPayloadLen) mod MaxPayloadLen) as Em.
    { replace (blen p) with (blen p - MaxPayloadLen + 1 * MaxPayloadLen) at 1 by lia. by rewrite Z.mod_add by (mp; lia). }
    destruct (Z.eq_dec (blen p) MaxPayloadLen) as [El|Hne].
    + destruct fuel as [|fuel]; [mp; lia|]. destruct f as [|f]; [lia|].
      assert (BaseConn.input c1 = packet (BaseConn.Sequence c1) [] ++ rest) as Hi1.
      { unfold c1. cbn [BaseConn.input BaseConn.Sequence].
        rewrite (blen_0_nil (drop (Z.to_nat MaxPayloadLen) p)) by lia. reflexivity. }
      rewrite (ReadPacketTo_empty f _ c1 rest Hi1).
      by rewrite El, Z.mod_same, Z.eqb_refl, Z.div_same by (mp; lia).
    + rewrite (IH (drop (Z.to_nat MaxPayloadLen) p) c1 (w ++ take (Z.to_nat MaxPayloadLen) p) rest f)
        by (done || lia || rewrite Hd; mp; lia).
      rewrite Hd, <-Em, <-app_assoc, take_drop. unfold c1.
      cbn [BaseConn.Sequence BaseConn.output BaseConn.faults]. rewrite seq_after_full by lia.
      replace (blen p / MaxPayloadLen) with ((blen p - MaxPayloadLen) / MaxPayloadLen + 1).
      2:{ rewrite <-Z.div_add by (mp; lia). f_equal. lia. }
      by rewrite u8_add_l, <-Z.add_assoc, (Z.add_comm 1).
  - rewrite (ReadPacketTo_packet f w c _ _ Hi) by lia. rewrite (proj2 (Z.ltb_lt _ _)) by lia.
    by rewrite Z.mod_small, (proj2 (Z.eqb_neq _ _)), seq_after_short by lia.
Qed.

Lemma blen_packets fuel : forall s p,
  blen p < Z.of_nat fuel * MaxPayloadLen -> 4 + blen p <= blen (packets fuel s p).
Proof.
  induction fuel as [|fuel IH]; intros s p Hl; [pose proof (blen_nonneg p); mp; lia|].
  cbn [packets]. zcase; [|rewrite blen_packet; lia].
  rewrite blen_app, blen_packet.
  pose proof (IH (u8 (s + 1)) (drop (Z.to_nat MaxPayloadLen) p)) as H.
  rewrite blen_drop in H by (mp; lia). rewrite blen_take by (mp; lia).
  specialize (H ltac:(mp; lia)). mp. lia.
Qed.

Lemma WritePacket_ok c room p :
  BaseConn.faults c = [] -> blen room = 4 ->
  BaseConn.WritePacket (room ++ p) c =
    (Ok tt, BaseConn.mk (seq_after (BaseConn.Sequence c) (blen p)) (BaseConn.input c)
              (BaseConn.output c ++ packets (S (length (room ++ p))) (BaseConn.Sequence c) p) []).
Proof.
  intros Hf Hr. pose proof (blen_nonneg p). unfold BaseConn.WritePacket.
  assert (blen (room ++ p) = 4 + blen p) as Hl by (rewrite blen_app; lia).
  rewrite (proj2 (Z.ltb_ge _ _)) by lia.
  rewrite write_loop_ok by (done || lia || unfold blen in *; mp; lia).
  rewrite Hl, Z.add_simpl_l. by rewrite (drop_app_length' room p 4) by (unfold blen in Hr; lia).
Qed.

(** ** Division and delivery *)

Lemma divide_delivered src c cnt :
  let L := blen (RawData src) in
  BaseConn.faults c = [] -> L < 2 ^ 32 - 1 -> 0 < cnt -> (cnt - 1) * MaxPayloadLen <= L + 1 < cnt * MaxPayloadLen ->
  exists evs stream s',
    divide_loop src BinlogEvent.FlavorType_MySQL cnt (Z.to_nat cnt) 0 0 = Ok evs /\ length evs = Z.to_nat cnt /\
    send_events evs c = (Ok tt, BaseConn.mk s' (BaseConn.input c) (BaseConn.output c ++ stream) []) /\
    forall rest f, (length evs <= f)%nat ->
      client_read f (BaseConn.Sequence c) (stream ++ rest) = Some (0 :: RawData src, s', rest).
Proof.
  intros L Hf HL Hc Hw. pose proof (blen_nonneg (RawData src)) as H0.
  destruct (rounds_delivered src BinlogEvent.FlavorType_MySQL cnt (Z.to_nat cnt) 0 0 c)
    as (evs & stream & s' & HD & Hn & HS & HR); [mp; lia|lia|lia|lia|lia|done| |].
  { unfold left. cbn [Z.eqb]. rewrite blen_cons, Z2Nat.id by lia. lia. }
  exists evs, stream, s'. rewrite Hn. done.
Qed.

(** The number of parts of an event that is not a multiple of [MaxPayloadLen] long. *)
Lemma divided_count L :
  0 <= L < 2 ^ 32 - 1 -> L mod MaxPayloadLen <> 0 ->
  let cnt := u32 (u32 ((L + 1) / MaxPayloadLen) + 1) in
  0 < cnt /\ (cnt - 1) * MaxPayloadLen <= L + 1 < cnt * MaxPayloadLen.
Proof.
  intros HL Hm cnt. pose proof (Z.div_mod (L + 1) MaxPayloadLen ltac:(mp; lia)) as E.
  pose proof (Z.mod_pos_bound (L + 1) MaxPayloadLen ltac:(mp; lia)) as B.
  assert (0 <= (L + 1) / MaxPayloadLen <= 2 ^ 9) as Hq by (mp; lia).
  assert (cnt = (L + 1) / MaxPayloadLen + 1) as ->.
  { unfold cnt. rewrite !u32_small; [done| |]; unfold is_u32; try rewrite u32_small by (unfold is_u32; lia); lia. }
  lia.
Qed.

(** An event of the ordinary size is one packet. *)
Lemma single_delivered isMySQL src c :
  BaseConn.faults c = [] -> blen (RawData src) + 1 < MaxPayloadLen ->
  let ev := BinlogEvent.mk (EventHeader.EventType (Header src))
    (if isMySQL : bool then BinlogEvent.FlavorType_MySQL else BinlogEvent.FlavorType_Maria)
    0 0 (Some (RawData src)) None in
  exists stream s',
    send_events [ev] c = (Ok tt, BaseConn.mk s' (BaseConn.input c) (BaseConn.output c ++ stream) []) /\
    forall rest f, (1 <= f)%nat ->
      client_read f (BaseConn.Sequence c) (stream ++ rest) = Some (0 :: RawData src, s', rest).
Proof.
  intros Hf HL ev. exists (packet (BaseConn.Sequence c) (0 :: RawData src)), (u8 (BaseConn.Sequence c + 1)). split.
  - cbn [send_events]. erewrite bind_ok; [reflexivity|].
    apply (WriteEvent_ok c (RawData src) true Hf). rewrite blen_cons. lia.
  - intros rest [|f] Hfuel; [lia|]. rewrite client_read_packet by (rewrite blen_cons; lia).
    rewrite (proj2 (Z.ltb_lt _ _)); [done|]. rewrite blen_cons. lia.
Qed.

Lemma propose_small isMySQL src :
  EventHeader.EventSize (Header src) = blen (RawData src) -> blen (RawData src) + 1 < MaxPayloadLen ->
  proposeBinlogEvent isMySQL src =
    Ok [BinlogEvent.mk (EventHeader.EventType (Header src))
          (if isMySQL then BinlogEvent.FlavorType_MySQL else BinlogEvent.FlavorType_Maria)
          0 0 (Some (RawData src)) None].
Proof.
  intros Hs HL. pose proof (blen_nonneg (RawData src)). unfold proposeBinlogEvent, OKHeaderByte. rewrite Hs.
  rewrite u32_small by (unfold is_u32; mp; lia). by rewrite (proj2 (Z.ltb_lt _ _)) by lia.
Qed.

Lemma propose_large isMySQL src :
  EventHeader.EventSize (Header src) = blen (RawData src) ->
  MaxPayloadLen <= blen (RawData src) + 1 < 2 ^ 32 ->
  proposeBinlogEvent isMySQL src = divideBinlogEvent src.
Proof.
  intros Hs HL. unfold proposeBinlogEvent, OKHeaderByte. rewrite Hs.
  rewrite u32_small by (unfold is_u32; mp; lia). by rewrite (proj2 (Z.ltb_ge _ _)) by lia.
Qed.

(** C34: An event from the master whose length is not a multiple of
    [MaxPayloadLen] reaches the slave: the syncer proposes it as one event or
    as parts, and when these are sent in order a client that joins packets the
    way the protocol says reads the OK byte and the whole event, and stands at
    the right place and sequence number for the next message. *)
Theorem event_delivered isMySQL src c :
  let raw := RawData src in
  BaseConn.faults c = [] -> EventHeader.EventSize (Header src) = blen raw -> blen raw < 2 ^ 32 - 1 ->
  blen raw = 0 \/ blen raw mod MaxPayloadLen <> 0 ->
  exists evs stream s',
    proposeBinlogEvent isMySQL src = Ok evs /\
    send_events evs c = (Ok tt, BaseConn.mk s' (BaseConn.input c) (BaseConn.output c ++ stream) []) /\
    forall rest f, (length evs <= f)%nat ->
      client_read f (BaseConn.Sequence c) (stream ++ rest) = Some (0 :: raw, s', rest).
Proof.
  intros raw Hf Hs HL Hm. pose proof (blen_nonneg raw).
  destruct (Z.lt_ge_cases (blen raw + 1) MaxPayloadLen) as [Hlt|Hge].
  - destruct (single_delivered isMySQL src c Hf Hlt) as (stream & s' & HS & HR).
    eexists _, stream, s'. split; [by apply propose_small|]. split; [exact HS|exact HR].
  - destruct Hm as [Hm|Hm]; [mp; lia|].
    destruct (divided_count (blen raw) ltac:(lia) Hm) as (Hc & Hw).
    destruct (divide_delivered src c _ Hf HL Hc Hw) as (evs & stream & s' & HD & Hn & HS & HR).
    exists evs, stream, s'. rewrite (propose_large isMySQL src Hs) by (unfold raw in *; lia).
    unfold divideBinlogEvent, OKHeaderByte. fold raw. by rewrite (proj2 (Z.eqb_neq _ _) Hm).
Qed.

(** Events of [n] bytes, all of them zero, with the size in the header. *)
Definition zero_event (n : Z) : SrcEvent := mkSrcEvent (EventHeader.mk 0 30 1 n 0 0) (zeros n).
Definition fresh_conn : BaseConn.t := BaseConn.mk 0 [] [] [].

(** An event of three parts. *)
Lemma event_delivered_witness :
  exists evs stream s',
    proposeBinlogEvent true (zero_event (2 * MaxPayloadLen + 7)) = Ok evs /\
    send_events evs fresh_conn = (Ok tt, BaseConn.mk s' [] ([] ++ stream) []) /\
    forall rest f, (length evs <= f)%nat ->
      client_read f 0 (stream ++ rest) = Some (0 :: zeros (2 * MaxPayloadLen + 7), s', rest).
Proof.
  apply (event_delivered true (zero_event (2 * MaxPayloadLen + 7)) fresh_conn).
  - reflexivity.
  - cbn [zero_event Header RawData EventHeader.EventSize]. rewrite blen_zeros. mp. lia.
  - cbn [zero_event RawData]. rewrite blen_zeros. mp. lia.
  - right. cbn [zero_event RawData]. rewrite blen_zeros. mp. vm_compute. discriminate.
Defined.

(** The parts of an event that is [k] times [MaxPayloadLen] long. *)
Lemma divide_multiple src k :
  blen (RawData src) = k * MaxPayloadLen -> 0 < k < 256 ->
  divideBinlogEvent src = divide_loop src BinlogEvent.FlavorType_MySQL k (Z.to_nat k) 0 0.
Proof.
  intros HL Hk. unfold divideBinlogEvent, OKHeaderByte. rewrite HL, Z.mod_mul by (mp; lia). cbn [Z.eqb negb].
  replace ((k * MaxPayloadLen + 1) / MaxPayloadLen) with k.
  - by rewrite u32_small by (unfold is_u32; lia).
  - rewrite Z.add_comm, Z.div_add by (mp; lia). rewrite Z.div_small by (mp; lia). lia.
Qed.

Lemma take_0_cons {A} (x : A) (l : list A) n : 0 < n -> take (Z.to_nat n) (x :: l) = x :: take (Z.to_nat (n - 1)) l.
Proof. intros Hn. by replace (Z.to_nat n) with (S (Z.to_nat (n - 1))) by lia. Qed.

(** An event whose length is a multiple of [MaxPayloadLen] from twice on
    reaches the slave without its last byte: the number of parts is one too
    few for the OK byte in front of the first one. *)
Theorem event_last_byte_lost isMySQL src c k :
  let raw := RawData src in
  BaseConn.faults c = [] -> EventHeader.EventSize (Header src) = blen raw ->
  blen raw = k * MaxPayloadLen -> 2 <= k < 256 ->
  exists evs stream s',
    proposeBinlogEvent isMySQL src = Ok evs /\
    send_events evs c = (Ok tt, BaseConn.mk s' (BaseConn.input c) (BaseConn.output c ++ stream) []) /\
    forall rest f, (length evs < f)%nat ->
      client_read f (BaseConn.Sequence c) (stream ++ rest) =
        Some (0 :: take (Z.to_nat (blen raw - 1)) raw, s', rest).
Proof.
  intros raw Hf Hs HL Hk.
  destruct (rounds_full src BinlogEvent.FlavorType_MySQL k (Z.to_nat k) 0 0 c)
    as (evs & stream & s' & HD & Hn & HS & HR); [lia|lia|lia|lia|lia|fold raw; mp; lia|done| |].
  { unfold left. cbn [Z.eqb]. rewrite blen_cons, Z2Nat.id by lia. fold raw. lia. }
  exists evs, stream, s'. rewrite (propose_large isMySQL src Hs) by (fold raw; mp; lia).
  rewrite (divide_multiple src k HL) by lia. split; [done|]. split; [done|].
  intros rest f Hfuel. rewrite HR by lia. unfold left. cbn [Z.eqb]. fold raw.
  rewrite HL, Z2Nat.id, take_0_cons by (mp; lia). done.
Qed.

Lemma event_last_byte_lost_witness :
  exists evs stream s',
    proposeBinlogEvent true (zero_event (2 * MaxPayloadLen)) = Ok evs /\
    send_events evs fresh_conn = (Ok tt, BaseConn.mk s' [] ([] ++ stream) []) /\
    forall rest f, (length evs < f)%nat ->
      client_read f 0 (stream ++ rest) =
        Some (0 :: take (Z.to_nat (blen (zeros (2 * MaxPayloadLen)) - 1)) (zeros (2 * MaxPayloadLen)), s', rest).
Proof.
  apply (event_last_byte_lost true (zero_event (2 * MaxPayloadLen)) fresh_conn 2).
  - reflexivity.
  - cbn [zero_event Header RawData EventHeader.EventSize]. rewrite blen_zeros. mp. lia.
  - cbn [zero_event RawData]. rewrite blen_zeros. mp. lia.
  - lia.
Defined.

(** An event of exactly [MaxPayloadLen] bytes is sent as one full packet
    with no packet after it, so a client takes the next message for its end:
    what it reads is the event without its last byte, followed by the payload
    of that next message. *)
Theorem event_glued_to_next isMySQL src c :
  let raw := RawData src in
  BaseConn.faults c = [] -> EventHeader.EventSize (Header src) = blen raw -> blen raw = MaxPayloadLen ->
  exists evs stream s',
    proposeBinlogEvent isMySQL src = Ok evs /\
    send_events evs c = (Ok tt, BaseConn.mk s' (BaseConn.input c) (BaseConn.output c ++ stream) []) /\
    (forall f, client_read f (BaseConn.Sequence c) stream = None) /\
    forall next rest f, blen next < MaxPayloadLen -> (2 <= f)%nat ->
      client_read f (BaseConn.Sequence c) (stream ++ packet s' next ++ rest) =
        Some ((0 :: take (Z.to_nat (MaxPayloadLen - 1)) raw) ++ next, u8 (s' + 1), rest).
Proof.
  intros raw Hf Hs HL. set (s := BaseConn.Sequence c). set (p := take (Z.to_nat MaxPayloadLen) (0 :: raw)).
  assert (blen p = MaxPayloadLen) as Hp.
  { unfold p. rewrite blen_take, blen_cons, HL by (mp; lia). lia. }
  assert (HD := divide_round src BinlogEvent.FlavorType_MySQL 1 0 0 0 [] ltac:(lia) ltac:(fold raw; mp; lia) eq_refl).
  pose proof (send_round (EventHeader.EventType (Header src)) BinlogEvent.FlavorType_MySQL 1 0 0 raw c
    ltac:(lia) ltac:(lia) ltac:(lia) ltac:(lia) Hf ltac:(lia)) as HS.
  unfold left in HS. cbn [Z.eqb] in HS. fold s p in HS.
  eexists _, (packet s p), (u8 (s + 1)). rewrite (propose_large isMySQL src Hs) by (fold raw; mp; lia).
  rewrite (divide_multiple src 1) by (fold raw; mp; lia).
  split; [exact HD|]. split; [|split].
  - cbn [send_events]. rewrite (bind_ok _ _ _ _ _ HS). reflexivity.
  - intros [|f]; [done|]. rewrite <-(app_nil_r (packet s p)), client_read_packet by lia.
    rewrite Hp, Z.ltb_irrefl. destruct f; [done|]. reflexivity.
  - intros next rest [|[|f]] Hn Hfuel; [lia|lia|]. rewrite client_read_packet by lia. rewrite Hp, Z.ltb_irrefl.
    rewrite client_read_packet by lia. rewrite (proj2 (Z.ltb_lt _ _) Hn). unfold p.
    by rewrite take_0_cons by (mp; lia).
Qed.

Lemma event_glued_to_next_witness :
  exists evs stream s',
    proposeBinlogEvent true (zero_event MaxPayloadLen) = Ok evs /\
    send_events evs fresh_conn = (Ok tt, BaseConn.mk s' [] ([] ++ stream) []) /\
    (forall f, client_read f 0 stream = None) /\
    forall next rest f, blen next < MaxPayloadLen -> (2 <= f)%nat ->
      client_read f 0 (stream ++ packet s' next ++ rest) =
        Some ((0 :: take (Z.to_nat (MaxPayloadLen - 1)) (zeros MaxPayloadLen)) ++ next, u8 (s' + 1), rest).
Proof.
  apply (event_glued_to_next true (zero_event MaxPayloadLen) fresh_conn).
  - reflexivity.
  - cbn [zero_event Header RawData EventHeader.EventSize]. rewrite blen_zeros. mp. lia.
  - cbn [zero_event RawData]. rewrite blen_zeros. mp. lia.
Defined.

(** ** Packets written and read by kingbus *)

(** [WritePacket] sends a payload of any length, after the four bytes that
    the caller leaves for the header, as a message that a client of the
    protocol reads back as that payload; the sequence numbers agree. *)
Theorem write_packet_client_reads c room p :
  BaseConn.faults c = [] -> blen room = 4 ->
  exists stream s',
    BaseConn.WritePacket (room ++ p) c =
      (Ok tt, BaseConn.mk s' (BaseConn.input c) (BaseConn.output c ++ stream) []) /\
    forall rest, client_read (length (room ++ p ++ [0])) (BaseConn.Sequence c) (stream ++ rest) = Some (p, s', rest).
Proof.
  intros Hf Hr. eexists _, _. split; [by apply WritePacket_ok|]. intros rest.
  apply packets_client; rewrite !length_app; cbn [length]; [|lia]. unfold blen in *. mp. lia.
Qed.

Lemma write_packet_client_reads_witness :
  exists stream s',
    BaseConn.WritePacket (zeros 4 ++ zeros (3 * MaxPayloadLen)) fresh_conn =
      (Ok tt, BaseConn.mk s' [] ([] ++ stream) []) /\
    forall rest, client_read (length (zeros 4 ++ zeros (3 * MaxPayloadLen) ++ [0])) 0 (stream ++ rest) =
      Some (zeros (3 * MaxPayloadLen), s', rest).
Proof. apply (write_packet_client_reads fresh_conn (zeros 4) (zeros (3 * MaxPayloadLen))); reflexivity. Defined.

(** What [WritePacket] sends is read by [ReadPacket] on the other side
    unless its length is a multiple of [MaxPayloadLen]; then the reader
    refuses the empty packet that ends the message. *)
Theorem read_packet_roundtrip c room p :
  BaseConn.faults c = [] -> blen room = 4 ->
  exists stream s',
    BaseConn.WritePacket (room ++ p) c =
      (Ok tt, BaseConn.mk s' (BaseConn.input c) (BaseConn.output c ++ stream) []) /\
    forall d rest, BaseConn.Sequence d = BaseConn.Sequence c -> BaseConn.input d = stream ++ rest ->
      if blen p mod MaxPayloadLen =? 0
      then exists d', BaseConn.ReadPacket d = (Err ErrInvalidPayload, d')
      else BaseConn.ReadPacket d = (Ok p, BaseConn.mk s' rest (BaseConn.output d) (BaseConn.faults d)).
Proof.
  intros Hf Hr. eexists _, _. split; [by apply WritePacket_ok|]. intros d rest Hs Hi.
  set (fuel := S (length (room ++ p))) in *.
  assert (blen p < Z.of_nat fuel * MaxPayloadLen) as Hfl by (unfold fuel, blen in *; rewrite length_app; mp; lia).
  pose proof (blen_packets fuel (BaseConn.Sequence c) p Hfl) as Hpl.
  assert (fuel <= S (length (BaseConn.input d)))%nat as Hfuel.
  { assert (fuel = S (4 + length p)) by (unfold fuel, blen in *; rewrite length_app; lia).
    rewrite Hi, length_app. unfold blen in *. lia. }
  unfold BaseConn.ReadPacket. rewrite (bind_ok (gets _) _ _ _ _ eq_refl). rewrite <-Hs in *.
  destruct p as [|x p'].
  - cbn [length] in Hfl. rewrite (ReadPacketTo_empty _ [] d rest Hi). cbn. by eexists.
  - set (p := x :: p') in *. assert (0 < blen p) as H0 by (unfold p; rewrite blen_cons; pose proof (blen_nonneg p'); lia).
    rewrite (packets_read fuel p d [] rest _ Hi ltac:(lia) Hfuel).
    destruct (blen p mod MaxPayloadLen =? 0); [by eexists|done].
Qed.

Lemma read_packet_roundtrip_witness :
  exists stream s',
    BaseConn.WritePacket (zeros 4 ++ [3; 1; 4]) fresh_conn = (Ok tt, BaseConn.mk s' [] ([] ++ stream) []) /\
    forall d rest, BaseConn.Sequence d = 0 -> BaseConn.input d = stream ++ rest ->
      if blen [3; 1; 4] mod MaxPayloadLen =? 0
      then exists d', BaseConn.ReadPacket d = (Err ErrInvalidPayload, d')
      else BaseConn.ReadPacket d = (Ok [3; 1; 4], BaseConn.mk s' rest (BaseConn.output d) (BaseConn.faults d)).
Proof. apply (read_packet_roundtrip fresh_conn (zeros 4) [3; 1; 4]); reflexivity. Defined.

(** ** Event headers and the events kingbus makes itself *)

Definition header_ok (h : EventHeader.t) : Prop :=
  is_u32 (EventHeader.Timestamp h) /\ is_u8 (EventHeader.EventType h) /\ is_u32 (EventHeader.ServerID h) /\
  is_u32 (EventHeader.EventSize h) /\ is_u32 (EventHeader.LogPos h) /\ 0 <= EventHeader.Flags h < 2 ^ 16.

Lemma blen_encodeEventHeader h : blen (encodeEventHeader h) = 19.
Proof. unfold encodeEventHeader. len. Qed.

Lemma Decode_encode h rest :
  header_ok h -> EventHeader.Decode (encodeEventHeader h ++ rest) =
    if EventHeader.EventSize h <? 19 then Err ErrProto else Ok h.
Proof.
  intros (H1 & H2 & H3 & H4 & H5 & H6). destruct h as [ts ty id sz lp fl]. cbn [EventHeader.EventSize] in *.
  unfold EventHeader.Decode, EventHeader.EventHeaderSize.
  rewrite (proj2 (Z.ltb_ge _ _)) by (rewrite blen_app, blen_encodeEventHeader; pose proof (blen_nonneg rest); lia).
  unfold encodeEventHeader. cbn [EventHeader.Timestamp EventHeader.EventType EventHeader.ServerID
    EventHeader.EventSize EventHeader.LogPos EventHeader.Flags] in *.
  set (a := le_bytes 4 ts). set (b := le_bytes 4 id). set (c := le_bytes 4 sz). set (d := le_bytes 4 lp).
  set (e := le_bytes 2 fl). rewrite <-!app_assoc.
  rewrite (slice_prefix a) by (unfold a; len).
  assert (index (a ++ [u8 ty] ++ b ++ c ++ d ++ e ++ rest) 4 = Some (u8 ty)) as ->
    by (apply index_mid; unfold a; len).
  rewrite (app_assoc a [u8 ty]), (slice_mid (a ++ [u8 ty]) b) by (unfold a, b; len).
  rewrite (app_assoc (a ++ [u8 ty]) b), (slice_mid _ c) by (unfold a, b, c; len).
  rewrite (app_assoc ((a ++ [u8 ty]) ++ b) c), (slice_mid _ d) by (unfold a, b, c, d; len).
  rewrite (app_assoc (((a ++ [u8 ty]) ++ b) ++ c) d), (slice_mid _ e) by (unfold a, b, c, d, e; len).
  unfold a, b, c, d, e. rewrite !le_val_u32, (le_val_bytes_small 2), u8_small by done. done.
Qed.

(** A slave that decodes the header of an event gets the header that was
    encoded, or an error when the size in it is smaller than a header. *)
Theorem event_header_roundtrip h rest :
  header_ok h ->
  EventHeader.Decode (encodeEventHeader h ++ rest) =
    if EventHeader.EventSize h <? EventHeader.EventHeaderSize then Err ErrProto else Ok h.
Proof. apply Decode_encode. Qed.

Definition sample_header : EventHeader.t := EventHeader.mk 1500000000 30 7 (2 ^ 31) 4 32.

Lemma event_header_roundtrip_witness :
  EventHeader.Decode (encodeEventHeader sample_header ++ [1; 2]) = Ok sample_header.
Proof. rewrite event_header_roundtrip; [reflexivity|]. unfold header_ok, is_u32, is_u8. cbn. lia. Defined.

Lemma Decode_event h body :
  header_ok h -> 19 <= EventHeader.EventSize h -> EventHeader.Decode (encodeEventHeader h ++ body) = Ok h.
Proof. intros Hh Hs. rewrite Decode_encode by done. by rewrite (proj2 (Z.ltb_ge _ _)) by lia. Qed.

Lemma blen_with_checksum b : blen (with_checksum b) = blen b + 4.
Proof. unfold with_checksum. len. Qed.

(** The events that kingbus makes itself carry their own length and a
    checksum of what is before it, except for a rotate event without a
    checksum, whose header says four bytes more than it has. *)
Theorem made_events_sized fileName serverID logPos (needCrc32 : bool) :
  is_u32 serverID -> is_u32 logPos -> blen fileName < 2 ^ 31 ->
  let hb := buildHeartbeatEvent fileName serverID logPos in
  let ro := buildFakeRotateEvent serverID fileName needCrc32 in
  (exists h body, EventHeader.Decode hb = Ok h /\ EventHeader.EventSize h = blen hb /\
     EventHeader.LogPos h = logPos /\ hb = with_checksum body) /\
  (exists h, EventHeader.Decode ro = Ok h /\
     EventHeader.EventSize h = blen ro + (if needCrc32 then 0 else 4) /\
     if needCrc32 then exists body, ro = with_checksum body else True).
Proof.
  intros Hid Hlp Hn hb ro. pose proof (blen_nonneg fileName).
  unfold hb, ro, buildHeartbeatEvent, buildFakeRotateEvent, EventHeader.EventHeaderSize, EventHeader.BinlogChecksumLength.
  rewrite !u32_small by (unfold is_u32; lia). split.
  - set (h := EventHeader.mk _ _ _ _ _ _). exists h, (encodeEventHeader h ++ fileName).
    unfold with_checksum at 1. rewrite <-app_assoc.
    rewrite Decode_event by (unfold h, header_ok, HEARTBEAT_EVENT, ROTATE_EVENT, is_u32, is_u8 in *; cbn; lia).
    split; [done|]. rewrite blen_with_checksum, blen_app, blen_encodeEventHeader.
    split; [unfold h; cbn [EventHeader.EventSize]; lia|]. done.
  - set (h := EventHeader.mk _ _ _ _ _ _). exists h.
    assert (header_ok h) as Hh by (unfold h, header_ok, HEARTBEAT_EVENT, ROTATE_EVENT, is_u32, is_u8 in *; cbn; lia).
    assert (19 <= EventHeader.EventSize h) as Hs by (unfold h; cbn; lia).
    destruct needCrc32.
    + unfold with_checksum at 1. rewrite <-app_assoc, Decode_event by done. split; [done|].
      rewrite blen_with_checksum, !blen_app, blen_encodeEventHeader, blen_le_bytes.
      split; [unfold h; cbn [EventHeader.EventSize]; lia|by eexists].
    + rewrite Decode_event by done. split; [done|].
      rewrite !blen_app, blen_encodeEventHeader, blen_le_bytes.
      split; [unfold h; cbn [EventHeader.EventSize]; lia|done].
Qed.

Lemma made_events_sized_witness :
  let ro := buildFakeRotateEvent 1 [109; 121] false in
  exists h, EventHeader.Decode ro = Ok h /\ EventHeader.EventSize h = blen ro + 4.
Proof.
  destruct (made_events_sized [109; 121] 1 4 false) as (_ & h & H1 & H2 & _);
    [unfold is_u32; lia|unfold is_u32; lia|reflexivity|]. exists h. split; [exact H1|exact H2].
Defined.

(** The format description event is sent behind the OK byte with its next
    position set to zero, its own checksum replaced by that of the changed
    event, and nothing else of it changed. *)
Theorem fde_sent c head pos body crc :
  BaseConn.faults c = [] -> blen head = 13 -> blen pos = 4 -> blen crc = 4 ->
  blen (head ++ pos ++ body ++ crc) < MaxPayloadLen ->
  sendFormatDescriptionEvent (head ++ pos ++ body ++ crc) c =
    (Ok tt, BaseConn.mk (u8 (BaseConn.Sequence c + 1)) (BaseConn.input c)
       (BaseConn.output c ++
        packet (BaseConn.Sequence c) (0 :: with_checksum (head ++ zeros 4 ++ body))) []).
Proof.
  intros Hf Hh Hp Hc Hl. unfold sendFormatDescriptionEvent. pose proof (blen_nonneg body).
  rewrite (slice_mid head pos (body ++ crc)) by lia. rewrite bind_must.
  rewrite (splice_mid head pos) by (rewrite ?blen_le_bytes; lia).
  change (le_bytes 4 0) with (zeros 4). rewrite !blen_app in Hl.
  replace (head ++ zeros 4 ++ body ++ crc) with ((head ++ zeros 4 ++ body) ++ crc) by (by rewrite <-!app_assoc).
  rewrite slice_prefix by (rewrite !blen_app, blen_zeros; lia). rewrite bind_must.
  apply (WriteEvent_ok c _ true Hf). rewrite blen_cons, blen_with_checksum, !blen_app, blen_zeros. lia.
Qed.

Lemma fde_sent_witness :
  sendFormatDescriptionEvent (zeros 13 ++ [1; 2; 3; 4] ++ [7; 8] ++ zeros 4) fresh_conn =
    (Ok tt, BaseConn.mk (u8 1) [] ([] ++ packet 0 (0 :: with_checksum (zeros 13 ++ zeros 4 ++ [7; 8]))) []).
Proof. apply (fde_sent fresh_conn (zeros 13) [1; 2; 3; 4] [7; 8] (zeros 4)); reflexivity. Defined.
