(* ===== verification/TrxParser.v ===== *)
(** The transaction boundary parser (mysql/trx_boundary_parser.go): the kind of
    an event in the stream, the state machine that follows the stream, and the
    streams that it accepts. *)
From S2P Require Import Prelude.
From S2P Require Import Events.
From stdpp Require Import list.
Local Open Scope Z_scope.
Local Open Scope go_scope.

Inductive EventBoundaryType : Type :=
  | EventBoundaryTypeError
  | EventBoundaryTypeGtid
  | EventBoundaryTypeBeginTrx
  | EventBoundaryTypeEndTrx
  | EventBoundaryTypeEndXaTrx
  | EventBoundaryTypePreStatement
  | EventBoundaryTypeStatement
  | EventBoundaryTypeIncident
  | EventBoundaryTypeIgnore.

#[export] Instance EventBoundaryType_eq_dec : EqDecision EventBoundaryType.
Proof. solve_decision. Defined.

Inductive eventParserState : Type :=
  | EventParserNone
  | EventParserGtid
  | EventParserDDL
  | EventParserDML
  | EventParserError.

#[export] Instance eventParserState_eq_dec : EqDecision eventParserState.
Proof. solve_decision. Defined.

Module TransactionBoundaryParser.

Record t : Type := mk { currentState : eventParserState }.

Definition IsInsideTransaction (p : t) : bool :=
  negb (bool_decide (currentState p = EventParserError)) &&
  negb (bool_decide (currentState p = EventParserNone)).

Definition IsNotInsideTransaction (p : t) : bool := bool_decide (currentState p = EventParserNone).

Definition IsError (p : t) : bool := bool_decide (currentState p = EventParserError).

Definition Reset : St t unit := modify (fun _ => mk EventParserNone).

(** The case of a query event: its text in upper case. *)
Definition query_boundary (query : bytes) : EventBoundaryType :=
  if bool_decide (query = StringToBytes "BEGIN") || bool_decide (query = StringToBytes "XA START")
  then EventBoundaryTypeBeginTrx
  else if HasPrefix query (StringToBytes "ROLLBACK") || HasPrefix query (StringToBytes "ROLLBACK TO ")
  then EventBoundaryTypeEndTrx
  else if HasPrefix query (StringToBytes "XA ROLLBACK") then EventBoundaryTypeEndXaTrx
  else EventBoundaryTypeStatement.

Definition GetEventBoundaryType (h : EventHeader.t) (eventBody : bytes) : res EventBoundaryType :=
  let among l := bool_decide (EventHeader.EventType h ∈ (l : list Z)) in
  if among [GTID_EVENT; ANONYMOUS_GTID_EVENT] then Ok EventBoundaryTypeGtid
  else if among [QUERY_EVENT] then
    match QueryEvent.Decode eventBody with
    | None => Panic
    | Some e => Ok (query_boundary (ToUpper (QueryEvent.Query e)))
    end
  else if among [XID_EVENT] then Ok EventBoundaryTypeEndTrx
  else if among [XA_PREPARE_LOG_EVENT] then Ok EventBoundaryTypeEndTrx
  else if among [INTVAR_EVENT; RAND_EVENT; USER_VAR_EVENT] then Ok EventBoundaryTypePreStatement
  else if among [EXECUTE_LOAD_QUERY_EVENT; TABLE_MAP_EVENT; APPEND_BLOCK_EVENT; BEGIN_LOAD_QUERY_EVENT;
              ROWS_QUERY_EVENT; WRITE_ROWS_EVENTv2; UPDATE_ROWS_EVENTv2; DELETE_ROWS_EVENTv2;
              WRITE_ROWS_EVENTv1; UPDATE_ROWS_EVENTv1; DELETE_ROWS_EVENTv1; WRITE_ROWS_EVENTv0;
              UPDATE_ROWS_EVENTv0; DELETE_ROWS_EVENTv0; VIEW_CHANGE_EVENT]
  then Ok EventBoundaryTypeStatement
  else if among [INCIDENT_EVENT] then Ok EventBoundaryTypeIncident
  else if among [ROTATE_EVENT; FORMAT_DESCRIPTION_EVENT; HEARTBEAT_EVENT; PREVIOUS_GTIDS_EVENT;
              START_EVENT_V3; STOP_EVENT; LOAD_EVENT; SLAVE_EVENT; CREATE_FILE_EVENT;
              DELETE_FILE_EVENT; NEW_LOAD_EVENT; EXEC_LOAD_EVENT; TRANSACTION_CONTEXT_EVENT]
  then Ok EventBoundaryTypeIgnore
  else if EventHeader.Flags h =? LOG_EVENT_IGNORABLE_F then Ok EventBoundaryTypeIgnore
  else Ok EventBoundaryTypeError.

(** The new state and whether the call returns [ErrUpdateState]. *)
Definition next_state (currentState : eventParserState) (eventBoundaryType : EventBoundaryType)
    : eventParserState * bool :=
  match eventBoundaryType with
  | EventBoundaryTypeGtid =>
      match currentState with
      | EventParserGtid | EventParserDDL | EventParserDML => (EventParserGtid, true)
      | EventParserError => (EventParserGtid, true)
      | EventParserNone => (EventParserGtid, false)
      end
  | EventBoundaryTypeBeginTrx =>
      match currentState with
      | EventParserDDL | EventParserDML => (EventParserDML, true)
      | EventParserError => (EventParserDML, true)
      | EventParserNone | EventParserGtid => (EventParserDML, false)
      end
  | EventBoundaryTypeEndTrx =>
      match currentState with
      | EventParserNone | EventParserGtid | EventParserDDL => (EventParserNone, true)
      | EventParserError => (EventParserNone, true)
      | EventParserDML => (EventParserNone, false)
      end
  | EventBoundaryTypeEndXaTrx =>
      match currentState with
      | EventParserNone | EventParserDDL => (EventParserNone, true)
      | EventParserError => (EventParserNone, true)
      | EventParserDML | EventParserGtid => (EventParserNone, false)
      end
  | EventBoundaryTypeStatement =>
      match currentState with
      | EventParserNone => (EventParserNone, false)
      | EventParserGtid | EventParserDDL => (EventParserNone, false)
      | EventParserDML => (currentState, false)
      | EventParserError => (EventParserNone, true)
      end
  | EventBoundaryTypePreStatement =>
      match currentState with
      | EventParserNone | EventParserGtid => (EventParserDDL, false)
      | EventParserDDL | EventParserDML => (currentState, false)
      | EventParserError => (EventParserNone, true)
      end
  | EventBoundaryTypeIncident => (EventParserNone, false)
  | EventBoundaryTypeIgnore => (currentState, false)
  | EventBoundaryTypeError => (EventParserError, true)
  end.

Definition UpdateState (eventBoundaryType : EventBoundaryType) : St t unit := fun p =>
  let '(newParserState, err) := next_state (currentState p) eventBoundaryType in
  (if err then Err ErrUpdateState else Ok tt, mk newParserState).

End TransactionBoundaryParser.

(** * Accepted streams *)

(** The parser fed with a stream, up to the first error. *)
Fixpoint feed (l : list EventBoundaryType) : St TransactionBoundaryParser.t unit :=
  match l with
  | [] => ret tt
  | b :: l' => TransactionBoundaryParser.UpdateState b ;! feed l'
  end.

Definition at_state (s : eventParserState) : TransactionBoundaryParser.t := TransactionBoundaryParser.mk s.

(** The grammar of the comment on [eventParserState], for streams without the
    events that are ignored. *)
Section Grammar.
Local Abbreviation Gtid := EventBoundaryTypeGtid.
Local Abbreviation BeginTrx := EventBoundaryTypeBeginTrx.
Local Abbreviation EndTrx := EventBoundaryTypeEndTrx.
Local Abbreviation EndXaTrx := EventBoundaryTypeEndXaTrx.
Local Abbreviation PreStatement := EventBoundaryTypePreStatement.
Local Abbreviation Statement := EventBoundaryTypeStatement.
Local Abbreviation Incident := EventBoundaryTypeIncident.

Definition opt_gtid (g : list EventBoundaryType) : Prop := g = [] \/ g = [Gtid].
Definition in_dml (b : EventBoundaryType) : Prop := b = Statement \/ b = PreStatement.

(** What has been read of a group when the parser is in a state. *)
Inductive partial : eventParserState -> list EventBoundaryType -> Prop :=
  | partial_none : partial EventParserNone []
  | partial_gtid : partial EventParserGtid [Gtid]
  | partial_ddl g ps : opt_gtid g -> ps <> [] -> Forall (eq PreStatement) ps -> partial EventParserDDL (g ++ ps)
  | partial_dml g ss : opt_gtid g -> Forall in_dml ss -> partial EventParserDML (g ++ BeginTrx :: ss).

(** A DDL group, a DML group, the rollback of a prepared XA transaction, or any
    group that is cut short by an incident. *)
Inductive group : list EventBoundaryType -> Prop :=
  | group_ddl g ps : opt_gtid g -> Forall (eq PreStatement) ps -> group (g ++ ps ++ [Statement])
  | group_dml g ss e : opt_gtid g -> Forall in_dml ss -> e = EndTrx \/ e = EndXaTrx ->
      group (g ++ BeginTrx :: ss ++ [e])
  | group_xa_rollback : group [Gtid; EndXaTrx]
  | group_incident s p : partial s p -> group (p ++ [Incident]).

Definition relevant (l : list EventBoundaryType) : list EventBoundaryType :=
  filter (fun b => b <> EventBoundaryTypeIgnore) l.

End Grammar.

#[local] Hint Constructors partial group : core.

Lemma UpdateState_eq s b :
  TransactionBoundaryParser.UpdateState b (at_state s) =
    let '(s', err) := TransactionBoundaryParser.next_state s b in
    (if err then Err ErrUpdateState else Ok tt, at_state s').
Proof. reflexivity. Qed.

Lemma feed_app l1 l2 s s' :
  feed l1 (at_state s) = (Ok tt, at_state s') -> feed (l1 ++ l2) (at_state s) = feed l2 (at_state s').
Proof.
  revert s. induction l1 as [|b l1 IH]; intros s; cbn [feed app].
  - by injection 1 as ->.
  - unfold bind. rewrite UpdateState_eq. destruct (TransactionBoundaryParser.next_state s b) as [s1 []]; [done|].
    apply IH.
Qed.

(** Ignored events change nothing. *)
Lemma feed_relevant l s : feed l (at_state s) = feed (relevant l) (at_state s).
Proof.
  revert s. induction l as [|b l IH]; intros s; [done|]. unfold relevant. rewrite filter_cons.
  case_decide as Hb.
  - cbn [feed]. unfold bind. rewrite UpdateState_eq.
    destruct (TransactionBoundaryParser.next_state s b) as [s1 []]; [done|]. apply IH.
  - subst b. apply IH.
Qed.

(** One event of a group extends what has been read of it, or ends it. *)
Lemma step_sound s p b s' :
  partial s p -> b <> EventBoundaryTypeIgnore -> TransactionBoundaryParser.next_state s b = (s', false) ->
  partial s' (p ++ [b]) \/ s' = EventParserNone /\ group (p ++ [b]).
Proof.
  intros Hp Hb Hn. destruct b; try discriminate Hn; try (by destruct Hb).
  7:{ injection Hn as <-. right. split; [done|]. by econstructor. }
  all: destruct Hp as [| |g ps Hg Hne Hps|g ss Hg Hss]; try done; injection Hn as <-.
  - left. apply partial_gtid.
  - left. apply (partial_dml [] []); [by left|done].
  - left. apply (partial_dml [EventBoundaryTypeGtid] []); [by right|done].
  - right. split; [done|]. rewrite <-app_assoc. apply group_dml; auto.
  - right. split; [done|]. apply group_xa_rollback.
  - right. split; [done|]. rewrite <-app_assoc. apply group_dml; auto.
  - left. apply (partial_ddl [] [EventBoundaryTypePreStatement]); [by left|done|by constructor].
  - left. apply (partial_ddl [EventBoundaryTypeGtid] [EventBoundaryTypePreStatement]);
      [by right|done|by constructor].
  - left. rewrite <-app_assoc. apply partial_ddl; [done|by destruct ps|]. apply Forall_app. by repeat constructor.
  - left. rewrite <-app_assoc. apply partial_dml; [done|]. apply Forall_app.
    split; [done|]. constructor; [by right|done].
  - right. split; [done|]. apply (group_ddl [] []); [by left|done].
  - right. split; [done|]. apply (group_ddl [EventBoundaryTypeGtid] []); [by right|done].
  - right. split; [done|]. rewrite <-app_assoc. by apply group_ddl.
  - left. rewrite <-app_assoc. apply partial_dml; [done|]. apply Forall_app.
    split; [done|]. constructor; [by left|done].
Qed.

Lemma feed_sound l : forall s p s', partial s p ->
  Forall (fun b => b <> EventBoundaryTypeIgnore) l -> feed l (at_state s) = (Ok tt, at_state s') ->
  exists gs p', p ++ l = concat gs ++ p' /\ Forall group gs /\ partial s' p'.
Proof.
  induction l as [|b l IH]; intros s p s' Hp Hl Hf.
  - injection Hf as <-. exists [], p. by rewrite app_nil_r.
  - apply Forall_cons in Hl as (Hb & Hl). cbn [feed] in Hf. unfold bind in Hf. rewrite UpdateState_eq in Hf.
    destruct (TransactionBoundaryParser.next_state s b) as [s1 []] eqn:Hn; [done|].
    destruct (step_sound s p b s1 Hp Hb Hn) as [Hp1|[-> Hg]].
    + destruct (IH s1 (p ++ [b]) s' Hp1 Hl Hf) as (gs & p' & E & Hgs & Hp').
      exists gs, p'. by rewrite <-app_assoc in E.
    + destruct (IH EventParserNone [] s' partial_none Hl Hf) as (gs & p' & E & Hgs & Hp').
      exists ((p ++ [b]) :: gs), p'. cbn [concat]. rewrite <-!app_assoc. cbn [app] in *. rewrite E.
      split; [done|]. split; [by constructor|done].
Qed.

Lemma feed_pre ps s :
  s = EventParserDDL \/ s = EventParserDML -> Forall (eq EventBoundaryTypePreStatement) ps ->
  feed ps (at_state s) = (Ok tt, at_state s).
Proof. intros Hs. induction 1 as [|b ps <- Hps IH]; [done|]. by destruct Hs as [->| ->]. Qed.

Lemma feed_dml ss : Forall in_dml ss -> feed ss (at_state EventParserDML) = (Ok tt, at_state EventParserDML).
Proof. induction 1 as [|b ss [->| ->] Hss IH]; done. Qed.

(** Reading what a state stands for leads to it. *)
Lemma feed_partial s p : partial s p -> feed p (at_state EventParserNone) = (Ok tt, at_state s).
Proof.
  intros [| |g ps [-> | ->] Hne Hps|g ss [-> | ->] Hss]; try done.
  - destruct Hps as [|b ps <- Hps]; [done|]. apply (feed_pre ps EventParserDDL); auto.
  - destruct Hps as [|b ps <- Hps]; [done|]. apply (feed_pre ps EventParserDDL); auto.
  - by apply feed_dml.
  - by apply (feed_dml ss).
Qed.

Lemma feed_group g : group g -> feed g (at_state EventParserNone) = (Ok tt, at_state EventParserNone).
Proof.
  intros [g' ps Hg Hps|g' ss e Hg Hss He| |s p Hp].
  - destruct ps as [|b ps].
    + by destruct Hg as [-> | ->].
    + rewrite app_assoc. erewrite feed_app; [|apply feed_partial, partial_ddl; done]. done.
  - replace (g' ++ EventBoundaryTypeBeginTrx :: ss ++ [e])
      with ((g' ++ EventBoundaryTypeBeginTrx :: ss) ++ [e]) by (by rewrite <-app_assoc).
    erewrite feed_app; [|by apply feed_partial, partial_dml]. by destruct He as [-> | ->].
  - done.
  - erewrite feed_app; [|by apply feed_partial]. by destruct Hp.
Qed.

Lemma feed_groups gs :
  Forall group gs -> feed (concat gs) (at_state EventParserNone) = (Ok tt, at_state EventParserNone).
Proof. induction 1 as [|g gs Hg Hgs IH]; [done|]. cbn [concat]. by erewrite feed_app; [|apply feed_group]. Qed.

(** C35: From the state outside of a transaction the parser accepts a stream
    and is outside of a transaction after it if and only if the stream, with
    the ignored events left out, is a sequence of DDL and DML groups, rollbacks
    of prepared XA transactions and groups cut short by an incident. *)
Theorem parser_accepts_groups l :
  feed l (at_state EventParserNone) = (Ok tt, at_state EventParserNone) <->
  exists gs, Forall group gs /\ relevant l = concat gs.
Proof.
  rewrite feed_relevant. split.
  - intros Hf. destruct (feed_sound (relevant l) EventParserNone [] EventParserNone partial_none)
      as (gs & p & E & Hgs & Hp); [|done|].
    { apply Forall_forall. intros b Hb. unfold relevant in Hb. by apply list_elem_of_filter in Hb as (? & ?). }
    exists gs. split; [done|]. inversion Hp; subst. by rewrite app_nil_r in E.
  - intros (gs & Hgs & ->). by apply feed_groups.
Qed.

(** After any stream that it accepts, the parser is inside of a
    transaction exactly when the groups that the stream consists of are
    followed by the beginning of another one. *)
Theorem parser_inside_transaction l p :
  feed l (at_state EventParserNone) = (Ok tt, p) ->
  exists gs rest, relevant l = concat gs ++ rest /\ Forall group gs /\ partial (TransactionBoundaryParser.currentState p) rest /\
    TransactionBoundaryParser.IsInsideTransaction p = bool_decide (rest <> []) /\
    TransactionBoundaryParser.IsNotInsideTransaction p = bool_decide (rest = []) /\
    TransactionBoundaryParser.IsError p = false.
Proof.
  rewrite feed_relevant. destruct p as [s]. intros Hf.
  destruct (feed_sound (relevant l) EventParserNone [] s partial_none) as (gs & rest & E & Hgs & Hp); [|done|].
  { apply Forall_forall. intros b Hb. unfold relevant in Hb. by apply list_elem_of_filter in Hb as (? & ?). }
  exists gs, rest. split; [done|]. split; [done|]. split; [done|].
  destruct Hp as [| |g ps Hg Hne Hps|g ss Hg Hss]; try done.
  - rewrite !bool_decide_decide. by destruct g, ps.
  - by destruct g.
Qed.

Lemma parser_inside_transaction_witness :
  exists gs rest, relevant [EventBoundaryTypeGtid; EventBoundaryTypeBeginTrx; EventBoundaryTypeStatement] =
      concat gs ++ rest /\ Forall group gs /\ partial EventParserDML rest /\
    true = bool_decide (rest <> []) /\ false = bool_decide (rest = []) /\ false = false.
Proof.
  apply (parser_inside_transaction
    [EventBoundaryTypeGtid; EventBoundaryTypeBeginTrx; EventBoundaryTypeStatement] (at_state EventParserDML)).
  reflexivity.
Defined.
