(* ===== verification/Text.v ===== *)
(** What kingbus uses of the packages strings, strconv, encoding/hex and path,
    and the text form of UUIDs (the vendored package go.uuid). Text is ASCII
    here: keys of the metadata store, GTIDs and names of binlog files. *)
From S2P Require Import Prelude.
From S2P Require Import Names.
From Stdlib Require Import Ascii.
From stdpp Require Import list strings.
Local Open Scope string_scope.
Local Open Scope Z_scope.

(** * strings *)

(** [strings.Split] at a separator of one character. *)
Fixpoint Split (sep : ascii) (s : string) : list string :=
  match s with
  | "" => [""]
  | String c s' =>
      if ascii_dec c sep then "" :: Split sep s' else
      match Split sep s' with
      | [] => []
      | w :: ws => String c w :: ws
      end
  end.

Definition is_space (c : ascii) : bool :=
  bool_decide (c ∈ [" "%char; "009"%char; "010"%char; "011"%char; "012"%char; "013"%char]).

Fixpoint TrimLeft (s : string) : string :=
  match s with
  | "" => ""
  | String c s' => if is_space c then TrimLeft s' else s
  end.

Fixpoint TrimRight (s : string) : string :=
  match s with
  | "" => ""
  | String c s' =>
      match TrimRight s' with
      | "" => if is_space c then "" else String c ""
      | r => String c r
      end
  end.

Definition TrimSpace (s : string) : string := TrimRight (TrimLeft s).

Fixpoint str_HasPrefix (s prefix : string) : bool :=
  match prefix, s with
  | "", _ => true
  | String c prefix', String d s' => if ascii_dec c d then str_HasPrefix s' prefix' else false
  | String _ _, "" => false
  end.

(** [path.Join] of two elements that are not empty and clean. *)
Definition path_Join (a b : string) : string := a +:+ "/" +:+ b.

(** * strconv *)

Inductive NumError : Type := ErrSyntax | ErrRange.

(** The loop of [ParseUint(s, 10, 64)]. *)
Fixpoint parse_uint_loop (n : Z) (s : string) : Z * option NumError :=
  match s with
  | "" => (n, None)
  | String c s' =>
      match digit_val c with
      | None => (0, Some ErrSyntax)
      | Some d =>
          let cutoff := (2 ^ 64 - 1) / 10 + 1 in
          if cutoff <=? n then (2 ^ 64 - 1, Some ErrRange) else
          let n1 := 10 * n + d in
          if 2 ^ 64 <=? n1 then (2 ^ 64 - 1, Some ErrRange) else
          parse_uint_loop n1 s'
      end
  end.

Definition ParseUint (s : string) : Z * option NumError :=
  match s with "" => (0, Some ErrSyntax) | _ => parse_uint_loop 0 s end.

(** [ParseInt(s, 10, 64)]: the value is also returned next to an error. *)
Definition ParseInt (s : string) : Z * option NumError :=
  match s with
  | "" => (0, Some ErrSyntax)
  | String c s' =>
      let neg := bool_decide (c = "-"%char) in
      let digits := if bool_decide (c = "+"%char) || neg then s' else s in
      let cutoff := 2 ^ 63 in
      match ParseUint digits with
      | (_, Some ErrSyntax) => (0, Some ErrSyntax)
      | (un, _) =>
          if negb neg && (cutoff <=? un) then (cutoff - 1, Some ErrRange)
          else if neg && (cutoff <? un) then (- cutoff, Some ErrRange)
          else (if neg then - un else un, None)
      end
  end.

(** [%d] of an [int64] or [uint64]. *)
Fixpoint ndigits (fuel : nat) (n : Z) : nat :=
  match fuel with
  | O => 1
  | S f => if n <? 10 then 1 else S (ndigits f (n / 10))
  end.

Definition fmt_d (n : Z) : string :=
  if n <? 0 then "-" +:+ digits (ndigits 20 (- n)) (- n) else digits (ndigits 20 n) n.

(** [%06d] of a [uint64]. *)
Definition fmt_06d (n : Z) : string := digits (Nat.max 6 (ndigits 20 n)) n.

(** * encoding/hex *)

Definition hex_digit (d : Z) : ascii :=
  ascii_of_N (Z.to_N (if d <? 10 then 48 + d else 87 + d)).

Definition hex_val (c : ascii) : option Z :=
  let n := Z.of_N (N_of_ascii c) in
  if (48 <=? n) && (n <=? 57) then Some (n - 48)
  else if (97 <=? n) && (n <=? 102) then Some (n - 87)
  else if (65 <=? n) && (n <=? 70) then Some (n - 55)
  else None.

Fixpoint hex_Encode (l : bytes) : string :=
  match l with
  | [] => ""
  | b :: l' => String (hex_digit (b / 16)) (String (hex_digit (b mod 16)) (hex_Encode l'))
  end.

Fixpoint hex_Decode (s : string) : option bytes :=
  match s with
  | "" => Some []
  | String c (String d s') =>
      match hex_val c, hex_val d, hex_Decode s' with
      | Some h, Some l, Some r => Some (16 * h + l :: r)
      | _, _, _ => None
      end
  | String _ "" => None
  end.

(** * go.uuid *)

Module UUID.

(** A UUID is an array of 16 bytes. *)
Definition ok (u : bytes) : Prop := length u = 16%nat /\ bytes_ok u.

Definition String (u : bytes) : string :=
  hex_Encode (take 4 u) +:+ "-" +:+ hex_Encode (take 2 (drop 4 u)) +:+ "-" +:+
  hex_Encode (take 2 (drop 6 u)) +:+ "-" +:+ hex_Encode (take 2 (drop 8 u)) +:+ "-" +:+
  hex_Encode (drop 10 u).

Definition decodeHashLike (t : string) : option bytes := hex_Decode t.

Definition decodeCanonical (t : string) : option bytes :=
  let dash i := bool_decide (String.get i t = Some "-"%char) in
  if dash 8%nat && dash 13%nat && dash 18%nat && dash 23%nat then
    hex_Decode (String.substring 0 8 t) ≫= fun a =>
    hex_Decode (String.substring 9 4 t) ≫= fun b =>
    hex_Decode (String.substring 14 4 t) ≫= fun c =>
    hex_Decode (String.substring 19 4 t) ≫= fun d =>
    hex_Decode (String.substring 24 12 t) ≫= fun e =>
    Some (a ++ b ++ c ++ d ++ e)%list
  else None.

Definition decodePlain (t : string) : option bytes :=
  match String.length t with
  | 32%nat => decodeHashLike t
  | 36%nat => decodeCanonical t
  | _ => None
  end.

Definition decodeBraced (t : string) : option bytes :=
  let l := String.length t in
  if bool_decide (String.get 0 t = Some "{"%char) && bool_decide (String.get (l - 1) t = Some "}"%char)
  then decodePlain (String.substring 1 (l - 2) t) else None.

Definition decodeURN (t : string) : option bytes :=
  if String.eqb (String.substring 0 9 t) "urn:uuid:"
  then decodePlain (String.substring 9 (String.length t - 9) t) else None.

(** [FromString], by way of [UnmarshalText]. *)
Definition FromString (text : string) : option bytes :=
  match String.length text with
  | 32%nat => decodeHashLike text
  | 36%nat => decodeCanonical text
  | 38%nat => decodeBraced text
  | 41%nat => decodeURN text
  | 45%nat => decodeURN text
  | _ => None
  end.

Definition FromBytes (data : bytes) : option bytes := if blen data =? 16 then Some data else None.

End UUID.

(** * Characters of a string *)

Fixpoint has_char (c : ascii) (s : string) : bool :=
  match s with
  | "" => false
  | String d s' => if ascii_dec d c then true else has_char c s'
  end.

Lemma has_char_app c s t : has_char c (s +:+ t) = has_char c s || has_char c t.
Proof.
  induction s as [|d s IH]; [done|]. rewrite string_app_cons. cbn [has_char]. by destruct (ascii_dec d c).
Qed.

Lemma has_char_single c d : d <> c -> has_char c (String d "") = false.
Proof. intros H. cbn. by destruct (ascii_dec d c). Qed.

Lemma Split_single sep s : has_char sep s = false -> Split sep s = [s].
Proof.
  induction s as [|c s IH]; [done|]. cbn [has_char Split]. destruct (ascii_dec c sep); [done|].
  intros H. by rewrite IH.
Qed.

Lemma Split_app sep s t : has_char sep s = false -> Split sep (s +:+ String sep t) = s :: Split sep t.
Proof.
  induction s as [|c s IH]; cbn [has_char].
  - intros _. change ("" +:+ String sep t) with (String sep t). cbn [Split]. by destruct (ascii_dec sep sep).
  - destruct (ascii_dec c sep) as [|Hn] eqn:E; [done|]. intros H. rewrite string_app_cons. cbn [Split].
    by rewrite E, IH.
Qed.

Lemma TrimSpace_id s :
  (forall c, has_char c s = true -> is_space c = false) -> TrimSpace s = s.
Proof.
  intros H. unfold TrimSpace.
  assert (forall s, (forall c, has_char c s = true -> is_space c = false) -> TrimRight s = s) as HR.
  { clear. induction s as [|c s IH]; intros H; [done|]. cbn [TrimRight].
    rewrite IH by (intros d Hd; apply H; cbn [has_char]; by destruct (ascii_dec c d)).
    destruct s; [|done]. rewrite H; [done|]. cbn [has_char]. by destruct (ascii_dec c c). }
  destruct s as [|c s]; [done|]. cbn [TrimLeft]. rewrite H; [by apply HR|]. cbn [has_char].
  by destruct (ascii_dec c c).
Qed.

(** * Numbers *)

(** The characters of a number. *)
Lemma digits_char k n c : has_char c (digits k n) = true -> exists d, c = digit d.
Proof.
  induction k as [|k IH]; [done|]. cbn [digits has_char]. destruct (ascii_dec _ c) as [<-|]; [by eexists|done].
Qed.

Lemma digit_range d : (48 <= N_of_ascii (digit d) <= 57)%N.
Proof. rewrite N_of_digit. pose proof (Z.mod_pos_bound d 10). lia. Qed.

Lemma digits_no_char k n c :
  (N_of_ascii c < 48 \/ 57 < N_of_ascii c)%N -> has_char c (digits k n) = false.
Proof.
  intros Hc. destruct (has_char c (digits k n)) eqn:E; [|done].
  apply digits_char in E as [d ->]. pose proof (digit_range d). lia.
Qed.

Lemma parse_digits k : forall acc n,
  0 <= acc -> 10 ^ Z.of_nat k * acc + n mod 10 ^ Z.of_nat k < 2 ^ 64 ->
  parse_uint_loop acc (digits k n) = (10 ^ Z.of_nat k * acc + n mod 10 ^ Z.of_nat k, None).
Proof.
  induction k as [|k IH]; intros acc n Ha Hl.
  - cbn [digits parse_uint_loop]. rewrite Z.mod_1_r. do 2 f_equal. lia.
  - cbn [digits parse_uint_loop]. rewrite digit_val_digit.
    set (d := (n / 10 ^ Z.of_nat k) mod 10).
    pose proof (Z.mod_pos_bound (n / 10 ^ Z.of_nat k) 10 ltac:(lia)) as Hd. fold d in Hd.
    assert (10 ^ Z.of_nat (S k) * acc + n mod 10 ^ Z.of_nat (S k) =
            10 ^ Z.of_nat k * (10 * acc + d) + n mod 10 ^ Z.of_nat k) as E.
    { rewrite Nat2Z.inj_succ, Z.pow_succ_r by lia.
      rewrite (Z.mul_comm 10 (10 ^ Z.of_nat k)), Z.rem_mul_r by lia. fold d. ring. }
    rewrite E in Hl |- *.
    assert (0 < 10 ^ Z.of_nat k) as Hp by lia.
    pose proof (Z.mod_pos_bound n (10 ^ Z.of_nat k) Hp).
    assert (10 * acc + d < 2 ^ 64) as Hlt by nia.
    rewrite (proj2 (Z.leb_gt _ _)) by (change ((2 ^ 64 - 1) / 10 + 1) with 1844674407370955162; lia).
    rewrite (proj2 (Z.leb_gt _ _)) by lia. apply IH; lia.
Qed.

Lemma ndigits_bound f : forall n, 0 <= n < 10 ^ (Z.of_nat f + 1) -> n < 10 ^ Z.of_nat (ndigits f n).
Proof.
  induction f as [|f IH]; intros n Hn; cbn [ndigits]; [cbn in *; lia|].
  destruct (Z.ltb_spec n 10); [cbn; lia|].
  specialize (IH (n / 10)). rewrite !Nat2Z.inj_succ in *. unfold Z.succ in *.
  rewrite !(Z.pow_add_r 10 _ 1) in * by lia. change (10 ^ 1) with 10 in *.
  pose proof (Z.div_mod n 10 ltac:(lia)). pose proof (Z.mod_pos_bound n 10 ltac:(lia)).
  assert (n / 10 < 10 ^ Z.of_nat (ndigits f (n / 10))) by (apply IH; split; [lia|]; apply Z.div_lt_upper_bound; lia).
  lia.
Qed.

Lemma ndigits_pos f n : (0 < ndigits f n)%nat.
Proof. destruct f; cbn; [lia|]. destruct (n <? 10); lia. Qed.

Lemma ParseUint_digits k n :
  (0 < k)%nat -> n mod 10 ^ Z.of_nat k < 2 ^ 64 -> ParseUint (digits k n) = (n mod 10 ^ Z.of_nat k, None).
Proof.
  intros Hk Hn. destruct k as [|k]; [lia|]. unfold ParseUint.
  change (match digits (S k) n with "" => (0, Some ErrSyntax) | _ => parse_uint_loop 0 (digits (S k) n) end)
    with (parse_uint_loop 0 (digits (S k) n)).
  rewrite parse_digits by lia. by rewrite Z.mul_0_r.
Qed.

Lemma ParseUint_020d n : is_u64 n -> ParseUint (fmt_020d n) = (n, None).
Proof.
  intros Hn. unfold is_u64 in Hn. unfold fmt_020d. rewrite ParseUint_digits; rewrite ?Z.mod_small by lia; lia || done.
Qed.

Lemma ParseUint_fmt_d n : is_u64 n -> ParseUint (fmt_d n) = (n, None).
Proof.
  intros Hn. unfold is_u64 in Hn. unfold fmt_d. rewrite (proj2 (Z.ltb_ge _ _)) by lia.
  pose proof (ndigits_bound 20 n ltac:(lia)). pose proof (ndigits_pos 20 n).
  rewrite ParseUint_digits; rewrite ?Z.mod_small by lia; lia || done.
Qed.

Lemma fmt_d_no_char n c : 0 <= n -> (N_of_ascii c < 48 \/ 57 < N_of_ascii c)%N -> has_char c (fmt_d n) = false.
Proof. intros Hn Hc. unfold fmt_d. rewrite (proj2 (Z.ltb_ge _ _)) by lia. by apply digits_no_char. Qed.

Lemma ParseInt_fmt_d n : 0 <= n < 2 ^ 63 -> ParseInt (fmt_d n) = (n, None).
Proof.
  intros Hn. pose proof (ParseUint_fmt_d n ltac:(unfold is_u64; lia)) as HP.
  assert (forall c, (N_of_ascii c < 48 \/ 57 < N_of_ascii c)%N -> has_char c (fmt_d n) = false) as HC
    by (intros; apply fmt_d_no_char; [lia|done]).
  unfold ParseInt. destruct (fmt_d n) as [|c s] eqn:E.
  { done. }
  assert (forall d, (N_of_ascii d < 48 \/ 57 < N_of_ascii d)%N -> c <> d) as Hne.
  { intros d Hd ->. specialize (HC d Hd). cbn in HC. by destruct (ascii_dec d d). }
  rewrite (bool_decide_eq_false_2 (c = "+"%char)) by (apply Hne; cbn; lia).
  rewrite (bool_decide_eq_false_2 (c = "-"%char)) by (apply Hne; cbn; lia). cbn [orb negb andb]. rewrite HP.
  by rewrite (proj2 (Z.leb_gt _ _)) by lia.
Qed.

(** * Hexadecimal text and UUIDs *)

Lemma string_app_nil_r s : s +:+ "" = s.
Proof. induction s as [|c s IH]; [done|]. rewrite string_app_cons. by rewrite IH. Qed.

Lemma N_of_hex d : 0 <= d < 16 ->
  N_of_ascii (hex_digit d) = Z.to_N (if d <? 10 then 48 + d else 87 + d).
Proof. intros Hd. unfold hex_digit. apply N_ascii_embedding. destruct (Z.ltb_spec d 10); lia. Qed.

Lemma hex_val_digit d : 0 <= d < 16 -> hex_val (hex_digit d) = Some d.
Proof.
  intros Hd. unfold hex_val. rewrite N_of_hex by done.
  destruct (Z.ltb_spec d 10); rewrite Z2N.id by lia; zdecide; f_equal; lia.
Qed.

Lemma hex_Decode_Encode l : bytes_ok l -> hex_Decode (hex_Encode l) = Some l.
Proof.
  induction 1 as [|b l Hb Hl IH]; [done|]. cbn [hex_Encode hex_Decode]. unfold is_u8 in Hb.
  pose proof (Z.div_mod b 16 ltac:(lia)). pose proof (Z.mod_pos_bound b 16 ltac:(lia)).
  rewrite (hex_val_digit (b / 16)) by (split; [apply Z.div_pos|apply Z.div_lt_upper_bound]; lia).
  rewrite hex_val_digit by done.
  rewrite IH. do 2 f_equal. lia.
Qed.

Lemma length_hex_Encode l : String.length (hex_Encode l) = (2 * length l)%nat.
Proof. induction l as [|b l IH]; [done|]. cbn [hex_Encode String.length length]. rewrite IH. lia. Qed.

Lemma hex_no_char l c :
  bytes_ok l -> (N_of_ascii c < 48 \/ 57 < N_of_ascii c < 97)%N -> has_char c (hex_Encode l) = false.
Proof.
  intros Hl Hc.
  assert (forall d, 0 <= d < 16 -> hex_digit d <> c) as Hd.
  { intros d Hd <-. rewrite N_of_hex in Hc by done. destruct (Z.ltb_spec d 10); lia. }
  induction Hl as [|b l Hb Hl IH]; [done|]. cbn [hex_Encode has_char]. unfold is_u8 in Hb.
  pose proof (Z.mod_pos_bound b 16 ltac:(lia)).
  destruct (ascii_dec _ c) as [E|_]; [by apply Hd in E; [|split; [apply Z.div_pos|apply Z.div_lt_upper_bound]; lia]|].
  destruct (ascii_dec _ c) as [E|_]; [by apply Hd in E|]. done.
Qed.

Lemma substring_full s : String.substring 0 (String.length s) s = s.
Proof. induction s as [|c s IH]; [done|]. cbn. by rewrite IH. Qed.

Lemma substring_prefix s t : String.substring 0 (String.length s) (s +:+ t) = s.
Proof. induction s as [|c s IH]; [by destruct t|]. rewrite string_app_cons. cbn. by rewrite IH. Qed.

Lemma substring_skip s t n : String.substring (String.length s) n (s +:+ t) = String.substring 0 n t.
Proof. induction s as [|c s IH]; [done|]. rewrite string_app_cons. cbn. apply IH. Qed.

Lemma substring_mid s t u i n :
  i = String.length s -> n = String.length t -> String.substring i n (s +:+ t +:+ u) = t.
Proof. intros -> ->. by rewrite substring_skip, substring_prefix. Qed.

Lemma get_mid s c t i : i = String.length s -> String.get i (s +:+ String c t) = Some c.
Proof. intros ->. induction s as [|d s IH]; [done|]. rewrite string_app_cons. cbn. apply IH. Qed.

(** The text of a UUID is hexadecimal digits and dashes. *)
Lemma uuid_no_char u c :
  UUID.ok u -> (N_of_ascii c < 48 \/ 57 < N_of_ascii c < 97)%N -> c <> "-"%char ->
  has_char c (UUID.String u) = false.
Proof.
  intros [Hl Hu] Hc Hd. unfold UUID.String. rewrite !has_char_app, (has_char_single c "-"%char) by done.
  rewrite !hex_no_char; try done; unfold bytes_ok in *; auto using Forall_take, Forall_drop.
Qed.

Lemma length_uuid u : UUID.ok u -> String.length (UUID.String u) = 36%nat.
Proof.
  intros [Hl _]. unfold UUID.String. rewrite !string_app_length, !length_hex_Encode.
  rewrite !length_take, !length_drop, Hl. done.
Qed.

Ltac lens := rewrite ?string_app_length; cbn [String.length]; lia.

Lemma uuid_roundtrip u : UUID.ok u -> UUID.FromString (UUID.String u) = Some u.
Proof.
  intros Hu. pose proof (length_uuid u Hu) as Hlen. destruct Hu as [Hl Hu].
  unfold UUID.FromString. rewrite Hlen. unfold UUID.decodeCanonical.
  unfold UUID.String in *. set (a := hex_Encode (take 4 u)) in *.
  set (b := hex_Encode (take 2 (drop 4 u))) in *. set (c := hex_Encode (take 2 (drop 6 u))) in *.
  set (d := hex_Encode (take 2 (drop 8 u))) in *. set (e := hex_Encode (drop 10 u)) in *.
  assert (String.length a = 8 /\ String.length b = 4 /\ String.length c = 4 /\ String.length d = 4 /\
          String.length e = 12)%nat as (La & Lb & Lc & Ld & Le).
  { unfold a, b, c, d, e. rewrite !length_hex_Encode, !length_take, !length_drop, Hl. done. }
  set (t := a +:+ _) in *.
  assert (forall s m r i n, t = s +:+ m +:+ r -> i = String.length s -> n = String.length m ->
    String.substring i n t = m) as HM by (intros s m r i n -> -> ->; by apply substring_mid).
  assert (forall s r i, t = s +:+ String "-" r -> i = String.length s -> String.get i t = Some "-"%char) as HG
    by (intros s r i -> ->; by apply get_mid).
  assert (t = (a +:+ "-" +:+ b) +:+ "-" +:+ c +:+ "-" +:+ d +:+ "-" +:+ e) as T1
    by (unfold t; by rewrite ?string_app_assoc).
  assert (t = (a +:+ "-" +:+ b +:+ "-" +:+ c) +:+ "-" +:+ d +:+ "-" +:+ e) as T2
    by (unfold t; by rewrite ?string_app_assoc).
  assert (t = (a +:+ "-" +:+ b +:+ "-" +:+ c +:+ "-" +:+ d) +:+ "-" +:+ e) as T3
    by (unfold t; by rewrite ?string_app_assoc).
  rewrite (HG a (b +:+ "-" +:+ c +:+ "-" +:+ d +:+ "-" +:+ e)), (HG _ _ 13%nat T1), (HG _ _ 18%nat T2),
    (HG _ _ 23%nat T3) by (done || lens).
  rewrite !bool_decide_eq_true_2 by done. cbn [andb].
  rewrite (HM "" a ("-" +:+ b +:+ "-" +:+ c +:+ "-" +:+ d +:+ "-" +:+ e) 0%nat 8%nat) by (done || lens).
  rewrite (HM (a +:+ "-") b ("-" +:+ c +:+ "-" +:+ d +:+ "-" +:+ e) 9%nat 4%nat)
    by (lens || unfold t; by rewrite ?string_app_assoc).
  rewrite (HM (a +:+ "-" +:+ b +:+ "-") c ("-" +:+ d +:+ "-" +:+ e) 14%nat 4%nat)
    by (lens || unfold t; by rewrite ?string_app_assoc).
  rewrite (HM (a +:+ "-" +:+ b +:+ "-" +:+ c +:+ "-") d ("-" +:+ e) 19%nat 4%nat)
    by (lens || unfold t; by rewrite ?string_app_assoc).
  rewrite (HM (a +:+ "-" +:+ b +:+ "-" +:+ c +:+ "-" +:+ d +:+ "-") e "" 24%nat 12%nat)
    by (lens || unfold t; by rewrite ?string_app_assoc, string_app_nil_r).
  unfold a, b, c, d, e. unfold bytes_ok in Hu.
  rewrite !hex_Decode_Encode by (unfold bytes_ok; auto using Forall_take, Forall_drop). cbn [mbind option_bind].
  do 16 (destruct u as [|? u]; [done|]). by destruct u.
Qed.

Lemma uuid_inj u v : UUID.ok u -> UUID.ok v -> UUID.String u = UUID.String v -> u = v.
Proof.
  intros Hu Hv E. apply (f_equal UUID.FromString) in E. rewrite !uuid_roundtrip in E by done. by injection E.
Qed.
