(* ===== verification/Metrics.v ===== *)
(** The metrics: the samples of utils/metrics_utils.go, the registry that kingbus
    puts its metrics into, and the server that exports them, server/prometheus.go. *)
From S2P Require Import Prelude.
From S2P Require Import Names.
From S2P Require Import Text.
From S2P Require Import Timers.
From Stdlib Require Import Ascii.
From stdpp Require Import list gmap strings relations.
Local Open Scope string_scope.
Local Open Scope list_scope.
Local Open Scope Z_scope.
Local Open Scope go_scope.

(** * Samples *)

(** The vendored go-metrics, sample.go. *)
Definition SampleMax (values : list Z) : Z :=
  match values with [] => 0 | _ => foldl (fun max v => if max <? v then v else max) (- 2 ^ 63) values end.
Definition SampleMin (values : list Z) : Z :=
  match values with [] => 0 | _ => foldl (fun min v => if v <? min then v else min) (2 ^ 63 - 1) values end.
Definition SampleSum (values : list Z) : Z := foldl (fun sum v => i64 (sum + v)) 0 values.

Module UniformSample.
Record t : Type := mk { count : Z; reservoirSize : Z; values : list Z }.

Definition NewUniformSample (reservoirSize : Z) : res t :=
  if reservoirSize <? 0 then Panic else Ok (mk 0 reservoirSize []).

Definition Clear (s : t) : t := mk 0 (reservoirSize s) [].
Definition Count (s : t) : Z := count s.
Definition Max (s : t) : Z := SampleMax (values s).
Definition Min (s : t) : Z := SampleMin (values s).
Definition Size (s : t) : Z := blen (values s).
Definition Sum (s : t) : Z := SampleSum (values s).
Definition Values (s : t) : list Z := values s.

(** [NewSampleSnapshot] of a copy of the values. *)
Definition Snapshot (s : t) : Z * list Z := (count s, values s).

Definition Update (v : Z) : St t unit := fun s =>
  let s := mk (i64 (count s + 1)) (reservoirSize s) (values s) in
  if blen (values s) <? reservoirSize s then (Ok tt, mk (count s) (reservoirSize s) (values s ++ [v])) else
  if reservoirSize s =? 0 then (Panic, s) else
  let idx := Z.rem (count s) (reservoirSize s) in
  if (0 <=? idx) && (idx <? blen (values s))
  then (Ok tt, mk (count s) (reservoirSize s) (<[Z.to_nat idx := v]> (values s))) else (Panic, s).

Fixpoint updates (vs : list Z) : St t unit :=
  match vs with [] => ret tt | v :: vs' => Update v ;! updates vs' end.
End UniformSample.

(** A list read from [r] on and then from its start. *)
Definition ring {A} (r : nat) (l : list A) : list A := drop r l ++ take r l.

Lemma ring_insert {A} r (l : list A) v : (r < length l)%nat -> ring (S r) (<[r := v]> l) = tail (ring r l) ++ [v].
Proof.
  intros Hr. destruct (lookup_lt_is_Some_2 l r Hr) as [x Hx]. unfold ring.
  rewrite drop_insert_lt by lia. rewrite (take_S_r _ r v) by (by apply list_lookup_insert_eq). rewrite take_insert_ge by lia.
  rewrite (drop_S _ _ _ Hx). cbn [app tail]. by rewrite app_assoc.
Qed.

Lemma ring_all {A} (l : list A) : ring (length l) l = l.
Proof. unfold ring. by rewrite drop_all, firstn_all. Qed.

Lemma ring_zero {A} (l : list A) : ring 0 l = l.
Proof. unfold ring. by rewrite app_nil_r. Qed.

Lemma ring_perm {A} r (l : list A) : ring r l ≡ₚ l.
Proof. unfold ring. rewrite Permutation_app_comm. by rewrite take_drop. Qed.

Lemma tail_drop_snoc {A} i (l : list A) v : (i < length l)%nat -> tail (drop i l) ++ [v] = drop (S i) (l ++ [v]).
Proof.
  intros Hi. destruct (lookup_lt_is_Some_2 l i Hi) as [x Hx]. rewrite (drop_S _ _ _ Hx). cbn [tail].
  by rewrite drop_app_le by lia.
Qed.

(** The values after [vs] with room for [n]: all of them while there is room; then
    the first one and the last ones behind it, until it is replaced as the last of the first [n]; then the
    last ones. *)
Definition sampled (n : nat) (vs values : list Z) : Prop :=
  let k := length vs in
  length values = Nat.min k n /\
  ((k <= n)%nat -> values = vs) /\
  ((n <= k < 2 * n)%nat -> exists v t, head vs = Some v /\ values = v :: t /\ ring (k - n) t = drop (S (k - n)) vs) /\
  ((2 * n <= k)%nat -> ring (S k mod n) values = drop (k - n) vs).

(** Where the next value goes when there is no room. *)
Lemma sampled_insert n vs values v : (0 < n <= length vs)%nat -> sampled n vs values ->
  sampled n (vs ++ [v]) (<[(S (length vs) mod n)%nat := v]> values).
Proof.
  intros Hn (Hl & Ha & Hb & Hc). set (k := length vs) in *. unfold sampled. rewrite length_app. cbn [length]. fold k.
  rewrite length_insert, Hl. split; [lia|]. split; [lia|].
  destruct (decide (k < 2 * n)%nat) as [Hk|Hk].
  - destruct Hb as (v0 & t & Hv & -> & Hr); [lia|]. cbn in Hl.
    assert (length t = (n - 1)%nat) as Ht by lia.
    destruct (decide (S k = 2 * n)%nat) as [E|E].
    + split; [lia|]. intros _. replace (k + 1)%nat with (S k) by lia.
      replace (S k mod n)%nat with 0%nat by (rewrite E; symmetry; apply Nat.Div0.mod_mul). cbn [list_insert insert].
      replace (k - n)%nat with (length t) in Hr by lia. rewrite ring_all in Hr.
      replace (S k - n)%nat with (S (length t)) by lia. rewrite drop_app_le by lia. rewrite <-Hr.
      replace (S (S k)) with (1 + 2 * n)%nat by lia. rewrite Nat.Div0.mod_add.
      destruct (decide (n = 1)%nat) as [->|]; [|by rewrite Nat.mod_small by lia].
      by destruct t.
    + split; [|lia]. intros _. replace (S k mod n)%nat with (S (k - n)); cycle 1.
      { replace (S k) with (S (k - n) + 1 * n)%nat by lia. rewrite Nat.Div0.mod_add. by rewrite Nat.mod_small by lia. }
      exists v0, (<[(k - n)%nat := v]> t). split; [by destruct vs|]. split; [done|].
      replace (k + 1 - n)%nat with (S (k - n)) by lia. rewrite ring_insert by lia. rewrite Hr. apply tail_drop_snoc. fold k. lia.
  - split; [lia|]. intros _. specialize (Hc ltac:(lia)). replace (k + 1)%nat with (S k) by lia.
    set (r := (S k mod n)%nat) in *. assert (r < n)%nat as Hrn by (apply Nat.mod_upper_bound; lia).
    replace (S k - n)%nat with (S (k - n)) by lia. rewrite <-tail_drop_snoc by (fold k; lia). rewrite <-Hc, <-ring_insert by lia.
    assert (S (S k) mod n = S r mod n)%nat as ->.
    { symmetry. exact (Nat.Div0.add_mod_idemp_r 1 (S k) n). }
    destruct (decide (S r = n)) as [Er|]; [|by rewrite Nat.mod_small by lia].
    rewrite Er, Nat.Div0.mod_same, ring_zero. rewrite <-(ring_all (<[r := v]> values)) at 1. f_equal. rewrite length_insert. lia.
Qed.

Lemma Update_sampled n vs s v :
  (0 < n)%nat -> UniformSample.reservoirSize s = Z.of_nat n -> UniformSample.count s = blen vs -> blen vs + 1 < 2 ^ 63 ->
  sampled n vs (UniformSample.values s) ->
  exists l, UniformSample.Update v s = (Ok tt, UniformSample.mk (blen (vs ++ [v])) (Z.of_nat n) l) /\ sampled n (vs ++ [v]) l.
Proof.
  destruct s as [c rs l]. cbn. intros Hn -> -> Hlt Hs. pose proof Hs as (Hl & Ha & _). unfold UniformSample.Update. cbn.
  pose proof (blen_nonneg vs). rewrite (i64_small (blen vs + 1)) by lia. rewrite blen_app.
  destruct (Z.ltb_spec (blen l) (Z.of_nat n)) as [Hlt'|Hge].
  - eexists. split; [reflexivity|]. unfold blen in *. assert (length vs < n)%nat as Hk by lia. rewrite Ha by lia.
    unfold sampled. rewrite length_app. cbn [length]. split; [lia|]. split; [done|]. split; [|lia].
    intros Hk'. assert (length vs + 1 - n = 0)%nat as -> by lia.
    destruct vs as [|v0 vs]; [by exists v, []|]. exists v0, (vs ++ [v]). by rewrite ring_zero.
  - rewrite (proj2 (Z.eqb_neq _ _)) by lia. unfold blen in *. assert (n <= length vs)%nat as Hk by lia.
    replace (Z.of_nat (length vs) + 1) with (Z.of_nat (S (length vs))) by lia.
    rewrite Z.rem_mod_nonneg by lia. rewrite <-Nat2Z.inj_mod. rewrite Nat2Z.id.
    pose proof (Nat.mod_upper_bound (S (length vs)) n ltac:(lia)).
    rewrite (proj2 (Z.leb_le _ _)), (proj2 (Z.ltb_lt _ _)) by lia. cbn [andb].
    exists (<[(S (length vs) mod n)%nat := v]> l). split; [do 2 f_equal; cbn [length]; lia|]. by apply sampled_insert.
Qed.

(** A sample of size [n] is a window over the values: it has all of them
    while there is room, and the last [n] once there were twice as many; in between it has the last
    [n - 1] and still the first one, since the place after it is filled again first. *)
Theorem sample_keeps_latest n vs s :
  0 < n -> blen vs < 2 ^ 63 -> UniformSample.NewUniformSample n = Ok s ->
  exists s', UniformSample.updates vs s = (Ok tt, s') /\ UniformSample.Count s' = blen vs /\
    UniformSample.Size s' = Z.min (blen vs) n /\
    (blen vs <= n -> UniformSample.Values s' = vs) /\
    (n < blen vs < 2 * n -> exists v, head vs = Some v /\ UniformSample.Values s' ≡ₚ v :: drop (Z.to_nat (blen vs - n + 1)) vs) /\
    (2 * n <= blen vs -> UniformSample.Values s' ≡ₚ drop (Z.to_nat (blen vs - n)) vs).
Proof.
  intros Hn Hlt. unfold UniformSample.NewUniformSample. rewrite (proj2 (Z.ltb_ge _ _)) by lia. intros [= <-].
  assert (forall ws us s, ws ++ us = vs -> UniformSample.reservoirSize s = n -> UniformSample.count s = blen ws ->
    sampled (Z.to_nat n) ws (UniformSample.values s) ->
    exists l, UniformSample.updates us s = (Ok tt, UniformSample.mk (blen vs) n l) /\ sampled (Z.to_nat n) vs l) as Hall.
  { intros ws us. revert ws. induction us as [|u us IH]; intros ws s E Hr Hc Hs.
    - rewrite app_nil_r in E. subst ws. exists (UniformSample.values s). split; [|done]. destruct s. cbn in *. by subst.
    - cbn [UniformSample.updates]. destruct (Update_sampled (Z.to_nat n) ws s u) as (l & HU & Hl); try done; [lia|lia| |].
      { rewrite <-E, blen_app, blen_cons in Hlt. pose proof (blen_nonneg us). lia. }
      rewrite (bind_ok _ _ _ _ _ HU). rewrite Z2Nat.id by lia. apply (IH (ws ++ [u])); try done. by rewrite <-app_assoc. }
  destruct (Hall [] vs (UniformSample.mk 0 n [])) as (l & HU & Hl & Ha & Hb & Hc); try done.
  { unfold sampled. cbn. split; [lia|]. split; [done|]. split; [lia|]. lia. }
  eexists. split; [exact HU|]. unfold UniformSample.Count, UniformSample.Size, UniformSample.Values, blen in *. cbn.
  split; [done|]. split; [lia|]. split; [intros; apply Ha; lia|]. split.
  - intros Hk. destruct Hb as (v & t & Hv & -> & Hr); [lia|]. exists v. split; [done|]. f_equiv.
    rewrite <-(ring_perm (length vs - Z.to_nat n) t), Hr. by replace (Z.to_nat (Z.of_nat (length vs) - n + 1)) with (S (length vs - Z.to_nat n)) by lia.
  - intros Hk. rewrite <-(ring_perm (S (length vs) mod Z.to_nat n) l), Hc by lia.
    by replace (Z.to_nat (Z.of_nat (length vs) - n)) with (length vs - Z.to_nat n)%nat by lia.
Qed.

(** * The registry of go-metrics *)

Section prometheus.
(** Numbers of type [float64], and the two of them that a histogram computes. *)
Context {F : Type} (float64 : Z -> F) (SampleMean Sample95 : list Z -> F).

Inductive metric : Type :=
  | Counter (count : Z)
  | Gauge (value : Z)
  | GaugeFloat64 (value : F)
  | Healthcheck
  | Histogram (sample : UniformSample.t)
  | Meter (rate1 : F)
  | TimerMetric (rate1 : F).

Inductive register_error : Type := DuplicateMetric (name : string).

Definition Register (name : string) (i : metric) (r : gmap string metric) : option register_error * gmap string metric :=
  match r !! name with Some _ => (Some (DuplicateMetric name), r) | None => (None, <[name := i]> r) end.

(** * The exporter *)

(** [strings.Replace] of one character everywhere. *)
Fixpoint Replace (old new : ascii) (s : string) : string :=
  match s with
  | EmptyString => EmptyString
  | String c s' => String (if ascii_dec c old then new else c) (Replace old new s')
  end.

Definition flattenKey (key : string) : string :=
  let key := Replace " " "_" key in
  let key := Replace "." "_" key in
  let key := Replace "-" "_" key in
  Replace "=" "_" key.

Definition between (a c b : ascii) : bool := (N_of_ascii a <=? N_of_ascii c)%N && (N_of_ascii c <=? N_of_ascii b)%N.
Definition is_letter (c : ascii) : bool :=
  between "a" c "z" || between "A" c "Z" || Ascii.eqb c "_" || Ascii.eqb c ":".
Fixpoint str_all (p : ascii -> bool) (s : string) : bool :=
  match s with EmptyString => true | String c s' => p c && str_all p s' end.

(** From the vendored prometheus/common. *)
Definition IsValidMetricName (n : string) : bool :=
  match n with EmptyString => false | String c n' => is_letter c && str_all (fun c => is_letter c || between "0" c "9") n' end.

(** From the vendored prometheus/client_golang. *)
Definition BuildFQName (namespace subsystem name : string) : string :=
  if String.eqb name "" then "" else
  if negb (String.eqb namespace "") && negb (String.eqb subsystem "") then namespace +:+ "_" +:+ subsystem +:+ "_" +:+ name
  else if negb (String.eqb namespace "") then namespace +:+ "_" +:+ name
  else if negb (String.eqb subsystem "") then subsystem +:+ "_" +:+ name
  else name.

Definition namespace : string := "kingbus".
Definition subsystem : string := "metrics".

(** [gauges] holds the full name of the gauge of a key, [exported] the gauges of
    kingbus that are registered with prometheus, with their values. *)
Record exporter : Type := Exp { gauges : gmap string string; exported : gmap string F }.

Definition gauge_key (name : string) : string := namespace +:+ "_" +:+ subsystem +:+ "_" +:+ name.
Definition gauge_name (name : string) : string := BuildFQName (flattenKey namespace) (flattenKey subsystem) (flattenKey name).

(** [MustRegister] panics for a name that is not valid or registered already. *)
Definition gaugeFromNameAndValue (name : string) (val : F) : St exporter unit := fun c =>
  let key := gauge_key name in
  match gauges c !! key with
  | Some g => (Ok tt, Exp (gauges c) (<[g := val]> (exported c)))
  | None =>
      let g := gauge_name name in
      if negb (IsValidMetricName g) || bool_decide (is_Some (exported c !! g)) then (Panic, c)
      else (Ok tt, Exp (<[key := g]> (gauges c)) (<[g := val]> (exported c)))
  end.

(** The values that are exported for a metric. *)
Definition values_of (name : string) (i : metric) : list (string * F) :=
  match i with
  | Counter n | Gauge n => [(name, float64 n)]
  | GaugeFloat64 x | Meter x | TimerMetric x => [(name, x)]
  | Histogram s =>
      let '(_, snap) := UniformSample.Snapshot s in
      [(name +:+ ".mean", SampleMean snap); (name +:+ ".p95", Sample95 snap); (name +:+ ".max", float64 (SampleMax snap))]
  | Healthcheck => []
  end.

Fixpoint set_gauges (l : list (string * F)) : St exporter unit :=
  match l with [] => ret tt | (name, val) :: l' => gaugeFromNameAndValue name val ;! set_gauges l' end.

(** [l] is the registry in the order in which it is ranged over. *)
Definition updatePrometheusMetricsOnce (l : list (string * metric)) : St exporter unit :=
  set_gauges (l ≫= fun '(name, i) => values_of name i).

(** * The metrics of kingbus *)

(** storage/metrics.go and server/metrics.go. *)
Definition init_metrics : list (string * metric) :=
  [("read_tps", Meter (float64 0)); ("read_throughput", Meter (float64 0)); ("read_latency", Histogram (UniformSample.mk 0 8192 []));
   ("write_tps", Meter (float64 0)); ("write_throughput", Meter (float64 0)); ("write_latency", Histogram (UniformSample.mk 0 8192 []));
   ("syncer_eps", Meter (float64 0)); ("apply_eps", Meter (float64 0)); ("propose_channel_size", Gauge 0)].

Definition init_registry : gmap string metric := foldl (fun r '(name, i) => (Register name i r).2) ∅ init_metrics.

(** The meters of a dump, in command.go; the errors are not looked at. *)
Definition slave_eps (slaveServerID : Z) : string := "slave_eps_" +:+ fmt_d slaveServerID.
Definition slave_thoughput (slaveServerID : Z) : string := "slave_thoughput_" +:+ fmt_d slaveServerID.
Definition register_slave (slaveServerID : Z) (r : gmap string metric) : gmap string metric :=
  let r := (Register (slave_eps slaveServerID) (Meter (float64 0)) r).2 in
  (Register (slave_thoughput slaveServerID) (Meter (float64 0)) r).2.

(** A metric is measured: its value changes, not its kind. *)
Definition measures (i i' : metric) : Prop :=
  match i, i' with
  | Counter _, Counter _ | Gauge _, Gauge _ | GaugeFloat64 _, GaugeFloat64 _ | Healthcheck, Healthcheck
  | Histogram _, Histogram _ | Meter _, Meter _ | TimerMetric _, TimerMetric _ => True
  | _, _ => False
  end.

Inductive registry : gmap string metric -> Prop :=
  | registry_init : registry init_registry
  | registry_slave id r : is_u32 id -> registry r -> registry (register_slave id r)
  | registry_measures name i i' r : registry r -> r !! name = Some i -> measures i i' -> registry (<[name := i']> r).

(** The names that are registered. *)
Inductive kingbus_metric : string -> metric -> Prop :=
  | kingbus_init name i i' : (name, i) ∈ init_metrics -> measures i i' -> kingbus_metric name i'
  | kingbus_eps id x : is_u32 id -> kingbus_metric (slave_eps id) (Meter x)
  | kingbus_thoughput id x : is_u32 id -> kingbus_metric (slave_thoughput id) (Meter x).

Lemma Register_metric name i r : map_Forall kingbus_metric r -> kingbus_metric name i -> map_Forall kingbus_metric (Register name i r).2.
Proof. intros Hr Hi. unfold Register. destruct (r !! name); [done|]. by apply map_Forall_insert_2. Qed.

Lemma measures_trans i j k : measures i j -> measures j k -> measures i k.
Proof. by destruct i, j, k. Qed.

Lemma measures_refl i : measures i i.
Proof. by destruct i. Qed.

Lemma kingbus_measures name i i' : kingbus_metric name i -> measures i i' -> kingbus_metric name i'.
Proof.
  intros [n j j' Hj Hm|id x Hid|id x Hid] Hm'.
  - by eapply kingbus_init, measures_trans.
  - destruct i'; try done. by apply kingbus_eps.
  - destruct i'; try done. by apply kingbus_thoughput.
Qed.

Lemma registry_metric r : registry r -> map_Forall kingbus_metric r.
Proof.
  induction 1 as [|id r Hid _ IH|name i i' r _ IH Hi Hm].
  - assert (forall l r, (forall x, x ∈ l -> x ∈ init_metrics) -> map_Forall kingbus_metric r ->
      map_Forall kingbus_metric (foldl (fun r '(name, i) => (Register name i r).2) r l)) as H0.
    { induction l as [|[n i] l IHl]; intros r Hl Hr; [done|]. apply IHl; [intros x Hx; apply Hl; by right|].
      apply Register_metric; [done|]. eapply kingbus_init; [apply Hl; by left|apply measures_refl]. }
    by apply H0.
  - apply Register_metric; [apply Register_metric; [done|]|]; by constructor.
  - apply map_Forall_insert_2; [|done]. by eapply kingbus_measures, Hm; apply IH.
Qed.

(** * Their full names *)

(** The names of the values that they export. *)
Definition init_names : list string :=
  ["read_tps"; "read_throughput"; "read_latency.mean"; "read_latency.p95"; "read_latency.max";
   "write_tps"; "write_throughput"; "write_latency.mean"; "write_latency.p95"; "write_latency.max";
   "syncer_eps"; "apply_eps"; "propose_channel_size"].

Inductive kingbus_name : string -> Prop :=
  | name_init n : n ∈ init_names -> kingbus_name n
  | name_eps id : is_u32 id -> kingbus_name (slave_eps id)
  | name_thoughput id : is_u32 id -> kingbus_name (slave_thoughput id).

Lemma Replace_none old new s : has_char old s = false -> Replace old new s = s.
Proof.
  induction s as [|c s IH]; [done|]. cbn [has_char Replace]. destruct (ascii_dec c old); [done|]. intros E. by rewrite IH.
Qed.

Definition specials : list ascii := [" "; "."; "-"; "="]%char.

Lemma flattenKey_plain s : Forall (fun c => has_char c s = false) specials -> flattenKey s = s.
Proof.
  unfold specials. intros Hs. repeat (apply Forall_cons in Hs as [? Hs]). unfold flattenKey. cbv zeta.
  rewrite (Replace_none " " "_" s), (Replace_none "." "_" s), (Replace_none "-" "_" s), (Replace_none "=" "_" s) by done. done.
Qed.

Lemma flatten_slave p id : is_u32 id -> Forall (fun c => has_char c p = false) specials -> flattenKey (p +:+ fmt_d id) = p +:+ fmt_d id.
Proof.
  intros Hid Hp. unfold is_u32 in Hid. apply flattenKey_plain.
  assert (Forall (fun c => N_of_ascii c < 48 \/ 57 < N_of_ascii c)%N specials) as Hc by (repeat constructor; cbn; lia).
  rewrite Forall_forall in *. intros c Hin. rewrite has_char_app, (Hp c Hin), fmt_d_no_char; [done|lia|by apply Hc].
Qed.

Lemma flatten_eps id : is_u32 id -> flattenKey (slave_eps id) = slave_eps id.
Proof. intros Hid. apply flatten_slave; [done|by repeat constructor]. Qed.

Lemma flatten_thoughput id : is_u32 id -> flattenKey (slave_thoughput id) = slave_thoughput id.
Proof. intros Hid. apply flatten_slave; [done|by repeat constructor]. Qed.

(** The names that are there from the start stay different, and none of them is
    taken for one of a slave. *)
Lemma init_flatten_inj a b : a ∈ init_names -> b ∈ init_names -> flattenKey a = flattenKey b -> a = b.
Proof.
  intros Ha Hb E.
  assert (forallb (fun a => forallb (fun b => implb (String.eqb (flattenKey a) (flattenKey b)) (String.eqb a b)) init_names) init_names = true)
    as Hall by reflexivity.
  rewrite forallb_forall in Hall. specialize (Hall a (proj1 (list_elem_of_In _ _) Ha)). rewrite forallb_forall in Hall.
  specialize (Hall b (proj1 (list_elem_of_In _ _) Hb)). rewrite E, String.eqb_refl in Hall. by apply String.eqb_eq.
Qed.

Lemma HasPrefix_app p s : str_HasPrefix (p +:+ s) p = true.
Proof. induction p as [|c p IH]; [by destruct s|]. rewrite string_app_cons. cbn [str_HasPrefix]. by destruct (ascii_dec c c). Qed.

Lemma init_not_slave a s : a ∈ init_names -> flattenKey a = "slave_" +:+ s -> False.
Proof.
  intros Ha E. assert (forallb (fun a => negb (str_HasPrefix (flattenKey a) "slave_")) init_names = true) as Hall by reflexivity.
  rewrite forallb_forall in Hall. specialize (Hall a (proj1 (list_elem_of_In _ _) Ha)). by rewrite E, HasPrefix_app in Hall.
Qed.

Lemma flatten_inj a b : kingbus_name a -> kingbus_name b -> flattenKey a = flattenKey b -> a = b.
Proof.
  intros [a' Ha|x Hx|x Hx] [b' Hb|y Hy|y Hy] E; rewrite ?flatten_eps, ?flatten_thoughput in E by done; try done.
  - by apply init_flatten_inj.
  - by destruct (init_not_slave _ _ Ha E).
  - by destruct (init_not_slave _ _ Ha E).
  - by destruct (init_not_slave _ _ Hb (eq_sym E)).
  - by destruct (init_not_slave _ _ Hb (eq_sym E)).
Qed.

Lemma str_all_app p s t : str_all p (s +:+ t) = str_all p s && str_all p t.
Proof. induction s as [|c s IH]; [done|]. rewrite string_app_cons. cbn [str_all]. by rewrite IH, andb_assoc. Qed.

Lemma digits_all k n : str_all (fun c => is_letter c || between "0" c "9") (digits k n) = true.
Proof.
  induction k as [|k IH]; [done|]. cbn [digits str_all]. rewrite IH, andb_true_r. apply orb_true_iff. right.
  unfold between. pose proof (digit_range (n / 10 ^ Z.of_nat k)) as [H1 H2]. apply andb_true_iff. split; apply N.leb_le; done.
Qed.

(** The prefix is put before every name that is not empty. *)
Lemma fq_name n : n <> "" -> BuildFQName (flattenKey namespace) (flattenKey subsystem) n = "kingbus_metrics_" +:+ n.
Proof. intros Hn. unfold BuildFQName. by rewrite (proj2 (String.eqb_neq _ _) Hn). Qed.

Lemma valid_slave p id : is_u32 id -> p <> "" -> str_all (fun c => is_letter c || between "0" c "9") p = true ->
  IsValidMetricName (BuildFQName (flattenKey namespace) (flattenKey subsystem) (p +:+ fmt_d id)) = true.
Proof.
  intros Hid Hne Hp. unfold is_u32 in Hid. rewrite fq_name by (by destruct p).
  change (is_letter "k" && str_all (fun c => is_letter c || between "0" c "9") ("ingbus_metrics_" +:+ (p +:+ fmt_d id)) = true).
  rewrite !str_all_app, Hp. unfold fmt_d. rewrite (proj2 (Z.ltb_ge _ _)) by lia. by rewrite digits_all.
Qed.

Lemma name_valid n : kingbus_name n -> IsValidMetricName (gauge_name n) = true.
Proof.
  intros [n' Hn|x Hx|x Hx]; unfold gauge_name; rewrite ?flatten_eps, ?flatten_thoughput by done.
  - assert (forallb (fun n => IsValidMetricName (gauge_name n)) init_names = true) as Hall by reflexivity.
    rewrite forallb_forall in Hall. by apply Hall, list_elem_of_In.
  - by apply valid_slave.
  - by apply valid_slave.
Qed.

Lemma gauge_name_inj a b : kingbus_name a -> kingbus_name b -> gauge_name a = gauge_name b -> a = b.
Proof.
  intros Ha Hb E. apply flatten_inj; [done..|]. pose proof (name_valid _ Ha) as Va. pose proof (name_valid _ Hb) as Vb.
  unfold gauge_name in *.
  destruct (decide (flattenKey a = "")) as [Ea|Ea]; [by rewrite Ea in Va|].
  destruct (decide (flattenKey b = "")) as [Eb|Eb]; [by rewrite Eb in Vb|].
  rewrite !fq_name in E by done. by injection E.
Qed.

Lemma gauge_key_inj a b : gauge_key a = gauge_key b -> a = b.
Proof. intros E. by injection E. Qed.

(** * An update *)

Record exporter_ok (c : exporter) : Prop := {
  ok_gauges : forall k g, gauges c !! k = Some g -> exists n, kingbus_name n /\ k = gauge_key n /\ g = gauge_name n;
  ok_exported : forall g, is_Some (exported c !! g) -> exists n, kingbus_name n /\ g = gauge_name n /\ gauges c !! gauge_key n = Some g }.

Lemma set_gauge name val c : kingbus_name name -> exporter_ok c ->
  exists gs, gaugeFromNameAndValue name val c = (Ok tt, Exp gs (<[gauge_name name := val]> (exported c))) /\
    exporter_ok (Exp gs (<[gauge_name name := val]> (exported c))).
Proof.
  intros Hn Hok. unfold gaugeFromNameAndValue. destruct (gauges c !! gauge_key name) as [g|] eqn:Eg.
  - destruct (ok_gauges c Hok _ _ Eg) as (n & Hk & Ek%gauge_key_inj & ->). subst n. eexists. split; [reflexivity|]. split; cbn; [apply Hok|].
    intros g [x Hx]. destruct (decide (g = gauge_name name)) as [->|]; [by exists name|]. rewrite lookup_insert_ne in Hx by done.
    apply Hok. by eexists.
  - rewrite name_valid by done. rewrite bool_decide_eq_false_2; cycle 1.
    { intros (n & Hk & E & Hg)%(ok_exported c Hok). apply gauge_name_inj in E; [|done..]. subst n. by rewrite Eg in Hg. }
    eexists. split; [reflexivity|]. split; cbn.
    + intros k g Hg. destruct (decide (k = gauge_key name)) as [->|].
      * rewrite lookup_insert_eq in Hg. injection Hg as <-. by exists name.
      * rewrite lookup_insert_ne in Hg by done. by apply Hok.
    + intros g [x Hx]. destruct (decide (g = gauge_name name)) as [->|Hne].
      * exists name. by rewrite lookup_insert_eq.
      * rewrite lookup_insert_ne in Hx by done. destruct (ok_exported c Hok g) as (m & Hk & -> & Hg); [by eexists|].
        exists m. split; [done|]. split; [done|]. rewrite lookup_insert_ne; [done|]. intros E%gauge_key_inj. by subst m.
Qed.

Lemma set_gauges_ok l c : Forall (fun x => kingbus_name x.1) l -> exporter_ok c ->
  exists c', set_gauges l c = (Ok tt, c') /\ exporter_ok c' /\
    forall g, (exists n v, (n, v) ∈ l /\ g = gauge_name n /\ exported c' !! g = Some v) \/
              ((forall n v, (n, v) ∈ l -> g <> gauge_name n) /\ exported c' !! g = exported c !! g).
Proof.
  revert c. induction l as [|[n v] l IH]; intros c Hl Hok.
  - exists c. split; [done|]. split; [done|]. intros g. right. split; [|done]. by intros n v ?%not_elem_of_nil.
  - apply Forall_cons in Hl as [Hn Hl]. cbn in Hn. destruct (set_gauge n v c Hn Hok) as (gs & HS & Hok1).
    destruct (IH _ Hl Hok1) as (c' & HS' & Hok' & Hg). exists c'. cbn [set_gauges]. rewrite (bind_ok _ _ _ _ _ HS).
    split; [done|]. split; [done|]. intros g. destruct (Hg g) as [(n' & v' & Hin & ?)|[Hno E]].
    + left. exists n', v'. split; [by right|done].
    + cbn in E. destruct (decide (g = gauge_name n)) as [->|].
      * left. exists n, v. rewrite E, lookup_insert_eq. split; [by left|done].
      * right. rewrite lookup_insert_ne in E by done. split; [|done]. intros n' v' [[= -> ->]|?]%elem_of_cons; [done|by eapply Hno].
Qed.

(** The name of a metric is that of its values up to a dot. *)
Lemma value_owner name i n v : has_char "." name = false -> (n, v) ∈ values_of name i -> head (Split "." n) = Some name.
Proof.
  intros Hd Hin. destruct i; cbn in Hin; repeat (apply elem_of_cons in Hin as [[= -> _]|Hin]); try by apply not_elem_of_nil in Hin.
  all: try by rewrite Split_single.
  all: match goal with |- context [?m +:+ String "." ?t] => by rewrite (Split_app "." m t) end.
Qed.

Lemma value_unique name i n v v' : has_char "." name = false -> (n, v) ∈ values_of name i -> (n, v') ∈ values_of name i -> v = v'.
Proof.
  intros Hd Hin Hin'. destruct i; cbn in Hin, Hin'; repeat (apply elem_of_cons in Hin as [[= -> ->]|Hin]); try by apply not_elem_of_nil in Hin.
  all: repeat (apply elem_of_cons in Hin' as [[= E]|Hin']); try by apply not_elem_of_nil in Hin'.
  all: try done.
  all: exfalso; apply (f_equal (Split ".")) in E; match type of E with Split _ (?m +:+ String _ ?t) = Split _ (_ +:+ String _ ?u) =>
    rewrite (Split_app "." m t), (Split_app "." m u) in E by done end; discriminate E.
Qed.

Lemma metric_plain name i : kingbus_metric name i -> has_char "." name = false.
Proof.
  intros [n j j' Hj _|id x Hid|id x Hid].
  - assert (forallb (fun x => negb (has_char "." x.1)) init_metrics = true) as Hall by reflexivity.
    rewrite forallb_forall in Hall. apply list_elem_of_In, Hall in Hj. by apply negb_true_iff in Hj.
  - unfold slave_eps, is_u32 in *. rewrite has_char_app, fmt_d_no_char by (cbn; lia). done.
  - unfold slave_thoughput, is_u32 in *. rewrite has_char_app, fmt_d_no_char by (cbn; lia). done.
Qed.

Lemma metric_names name i : kingbus_metric name i -> Forall (fun x => kingbus_name x.1) (values_of name i).
Proof.
  intros [n j j' Hj Hm|id x Hid|id x Hid]; [|by constructor; [apply name_eps|]|by constructor; [apply name_thoughput|]].
  unfold init_metrics in Hj. repeat (apply elem_of_cons in Hj as [[= -> ->]|Hj]; [destruct j'; try done; cbn|]);
    try by apply not_elem_of_nil in Hj.
  all: repeat constructor; cbn; apply name_init; unfold init_names; set_solver.
Qed.

(** The exporter never panics and shows what was measured: whatever slaves have
    been registered, the full names of the values are valid and different, and a round of updates sets each
    of them to the value of its metric, in whatever order the registry is ranged over. *)
Theorem metrics_exported r l c :
  registry r -> l ≡ₚ map_to_list r -> exporter_ok c ->
  exists c', updatePrometheusMetricsOnce l c = (Ok tt, c') /\ exporter_ok c' /\
    forall name i n v, r !! name = Some i -> (n, v) ∈ values_of name i -> exported c' !! gauge_name n = Some v.
Proof.
  intros Hr%registry_metric Hl Hok.
  assert (forall name i, (name, i) ∈ l <-> r !! name = Some i) as Hin by (intros; by rewrite Hl, elem_of_map_to_list).
  assert (forall n v, (n, v) ∈ (l ≫= fun '(name, i) => values_of name i) <-> exists name i, r !! name = Some i /\ (n, v) ∈ values_of name i) as Hv.
  { intros n v. rewrite list_elem_of_bind. split.
    - intros ([name i] & H1 & H2%Hin). by exists name, i.
    - intros (name & i & H1%Hin & H2). by exists (name, i). }
  assert (forall name i n v, r !! name = Some i -> (n, v) ∈ values_of name i -> kingbus_name n) as Hn.
  { intros name i n v Hi Hnv. pose proof (metric_names _ _ (Hr _ _ Hi)) as Hf. rewrite Forall_forall in Hf. by apply (Hf (n, v)). }
  destruct (set_gauges_ok (l ≫= fun '(name, i) => values_of name i) c) as (c' & HS & Hok' & Hg); [|done|].
  { apply Forall_forall. intros [n v] (name & i & Hi & Hnv)%Hv. by eapply Hn. }
  exists c'. split; [done|]. split; [done|]. intros name i n v Hi Hnv.
  destruct (Hg (gauge_name n)) as [(n' & v' & (name' & i' & Hi' & Hnv')%Hv & E & ->)|[Hno _]].
  - apply gauge_name_inj in E; [|by apply (Hn _ _ _ _ Hi Hnv)|by apply (Hn _ _ _ _ Hi' Hnv')]. subst n'. f_equal.
    pose proof (value_owner _ _ _ _ (metric_plain _ _ (Hr _ _ Hi)) Hnv) as Ho.
    pose proof (value_owner _ _ _ _ (metric_plain _ _ (Hr _ _ Hi')) Hnv') as Ho'. rewrite Ho in Ho'. injection Ho' as <-.
    rewrite Hi in Hi'. injection Hi' as <-. symmetry. eapply value_unique; [|done..]. by eapply metric_plain, Hr.
  - exfalso. eapply Hno; [|reflexivity]. apply Hv. eauto.
Qed.

(** * The loop *)

(** The goroutine of [updatePrometheusMetrics], the timer that [NewPrometheusServer] makes, and
    the registry, which changes all the time. *)
Record exporting : Type := Xpt { export : exporter; tick : Timer.t; done : bool; ended : bool; measured : gmap string metric }.

Inductive export_step : exporting -> exporting -> Prop :=
  | export_fires c t t' b e r : Timer.fire t = Some t' -> export_step (Xpt c t b e r) (Xpt c t' b e r)
  | export_updates c t t' b r l c' : Timer.receive t = Some t' -> l ≡ₚ map_to_list r ->
      updatePrometheusMetricsOnce l c = (Ok tt, c') -> export_step (Xpt c t b false r) (Xpt c' t' b false r)
  | export_ends c t r : export_step (Xpt c t true false r) (Xpt c t true true r)
  | export_stops c t b e r : export_step (Xpt c t b e r) (Xpt c (Timer.Stop t).2 true e r)
  | export_measures c t b e r r' : registry r' -> export_step (Xpt c t b e r) (Xpt c t b e r').

Definition exporter_start (r : gmap string metric) : exporting := Xpt (Exp ∅ ∅) Timer.NewTimer false false r.

Lemma export_spent x y : Timer.spent (tick x) -> rtc export_step x y -> exported (export y) = exported (export x).
Proof.
  intros Hsp Hs. induction Hs as [x|x y z Hxy _ IH]; [done|].
  assert (Timer.spent (tick y) /\ exported (export y) = exported (export x)) as [H1 <-]; [|by apply IH].
  destruct (Timer.spent_stays _ Hsp) as [Hf Hrc]. destruct Hxy; cbn in *; try done; [congruence|congruence|]. by destruct Hsp.
Qed.

Lemma export_inv r x : rtc export_step (exporter_start r) x -> Timer.fresh (tick x) /\ (Timer.spent (tick x) \/ exported (export x) = ∅).
Proof.
  intros Hs. assert (Timer.fresh (tick (exporter_start r)) /\ exported (export (exporter_start r)) = ∅) as [H1 H2] by done.
  revert H1. assert (Timer.spent (tick (exporter_start r)) \/ exported (export (exporter_start r)) = ∅) as H3 by (by right).
  clear H2. revert H3. induction Hs as [x|x y z Hxy _ IH]; [done|]. intros Ho Hf. apply IH; clear IH.
  - destruct Hxy as [c t t' b e r0 Hfi|c t t' b r0 l c' Hrc _ _|c t r0|c t b e r0|c t b e r0 r' _]; cbn in *; try done.
    + destruct Ho as [Hsp|]; [|by right]. destruct (Timer.spent_stays _ Hsp). congruence.
    + left. by eapply Timer.receive_spends.
    + destruct Ho as [[? ?]|]; [by left|by right].
  - destruct Hxy as [c t t' b e r0 Hfi|c t t' b r0 l c' Hrc _ _|c t r0|c t b e r0|c t b e r0 r' _]; cbn in *; try done.
    + by eapply Timer.fire_fresh.
    + destruct (Timer.receive_spends _ _ Hf Hrc) as [E _]. unfold Timer.fresh. by rewrite E.
Qed.

(** The metrics are exported once: the timer of the exporter is not set again,
    so that the values of its first round, a second after the start, are shown for as long as the process
    runs, whatever is measured. *)
Theorem metrics_frozen r x y :
  rtc export_step (exporter_start r) x -> exported (export x) <> ∅ -> rtc export_step x y -> exported (export y) = exported (export x).
Proof. intros [_ [Hsp|?]]%export_inv Hne Hs; [by apply export_spent|done]. Qed.
End prometheus.

(** * A sample of two values, and a node with one slave *)

Lemma sample_keeps_latest_witness :
  exists s', UniformSample.updates [10; 20; 30] (UniformSample.mk 0 2 []) = (Ok tt, s') /\ UniformSample.Values s' ≡ₚ [10; 30].
Proof.
  destruct (sample_keeps_latest 2 [10; 20; 30] (UniformSample.mk 0 2 [])) as (s' & HU & _ & _ & _ & Hb & _).
  - reflexivity.
  - reflexivity.
  - reflexivity.
  - exists s'. split; [exact HU|]. destruct Hb as (v & [= <-] & Hv); [vm_compute; split; reflexivity|]. exact Hv.
Defined.

Definition sample_mean (l : list Z) : Z := match l with [] => 0 | _ => SampleSum l / blen l end.
Definition sample_registry : gmap string metric := register_slave (fun z => z) 7 (init_registry (fun z => z)).

Lemma sample_is_registry : registry (fun z => z) sample_registry.
Proof. apply registry_slave; [unfold is_u32; lia|apply registry_init]. Qed.

Lemma metrics_exported_witness :
  exists c', updatePrometheusMetricsOnce (fun z => z) sample_mean sample_mean (map_to_list sample_registry) (Exp ∅ ∅) = (Ok tt, c') /\
    exported c' !! "kingbus_metrics_slave_eps_7" = Some 0 /\ exported c' !! "kingbus_metrics_read_latency_p95" = Some 0.
Proof.
  destruct (metrics_exported (fun z => z) sample_mean sample_mean sample_registry (map_to_list sample_registry) (Exp ∅ ∅)) as (c' & HU & _ & Hv).
  - exact sample_is_registry.
  - reflexivity.
  - split; cbn; [intros k g Hg; by rewrite lookup_empty in Hg|intros g [x Hx]; by rewrite lookup_empty in Hx].
  - exists c'. split; [exact HU|]. split.
    + apply (Hv "slave_eps_7" (Meter 0) "slave_eps_7" 0); [vm_compute; reflexivity|]. by left.
    + apply (Hv "read_latency" (Histogram (UniformSample.mk 0 8192 [])) "read_latency.p95" 0); [vm_compute; reflexivity|].
      right. by left.
Defined.

Definition sample_round : exporter := (updatePrometheusMetricsOnce (fun z => z) sample_mean sample_mean (map_to_list sample_registry) (Exp ∅ ∅)).2.
Definition sample_exporting (r : gmap string metric) : exporting := Xpt sample_round (Timer.mk false false) false false r.

(** The slave sends events, which nobody sees. *)
Lemma metrics_frozen_witness :
  exported (export (sample_exporting (<["slave_eps_7" := Meter 1000]> sample_registry))) !! "kingbus_metrics_slave_eps_7" = Some 0.
Proof.
  rewrite (metrics_frozen (fun z => z) sample_mean sample_mean sample_registry (sample_exporting sample_registry)
    (sample_exporting (<["slave_eps_7" := Meter 1000]> sample_registry))).
  - vm_compute. reflexivity.
  - eapply rtc_l; [apply export_fires; reflexivity|]. apply rtc_once. eapply export_updates; [reflexivity|reflexivity|].
    vm_compute. reflexivity.
  - intros E. apply (f_equal (lookup "kingbus_metrics_slave_eps_7")) in E. vm_compute in E. discriminate E.
  - apply rtc_once, export_measures. eapply registry_measures; [exact sample_is_registry|vm_compute; reflexivity|exact I].
Defined.
