(* ===== verification/Gtid.v ===== *)
(** GTID sets, as the vendored package go-mysql (mysql/mysql_gtid.go) has them:
    intervals and their normal form, the sets of one server and of all servers,
    their text and binary forms. The theorems give the slices of intervals
    their meaning as sets of transaction numbers. *)
From S2P Require Import Prelude.
From S2P Require Import Names.
From S2P Require Import Text.
From Stdlib Require Import Ascii.
From stdpp Require Import sorting strings.
Local Open Scope string_scope.
Local Open Scope Z_scope.

(** * Intervals *)

Module Interval.

(** [Start] belongs to the interval, [Stop] does not. *)
Record t : Type := mk { Start : Z; Stop : Z }.

#[global] Instance eq_dec : EqDecision t.
Proof. solve_decision. Defined.

(** The text is [n] or [n-m] with both ends in the interval. An error of the
    first number is lost when the second one is well formed. *)
Definition parseInterval (str : string) : option t :=
  let check (i : t) (err : option NumError) :=
    match err with
    | Some _ => None
    | None => if Stop i <=? Start i then None else Some i
    end in
  match Split "-" str with
  | [p0] => let '(start, err) := ParseInt p0 in check (mk start (i64 (start + 1))) err
  | [p0; p1] =>
      let '(start, _) := ParseInt p0 in
      let '(stop, err) := ParseInt p1 in
      check (mk start (i64 (stop + 1))) err
  | _ => None
  end.

Definition String (i : t) : string :=
  if Stop i =? i64 (Start i + 1) then fmt_d (Start i)
  else fmt_d (Start i) +:+ "-" +:+ fmt_d (i64 (Stop i - 1)).

(** The order of [IntervalSlice.Less]. *)
Definition le (a b : t) : Prop := Start a < Start b \/ (Start a = Start b /\ Stop a <= Stop b).

#[global] Instance le_dec : RelDecision le.
Proof. intros a b. unfold le. apply _. Defined.

End Interval.

Module IntervalSlice.

Abbreviation t := (list Interval.t).

Definition Sort (s : t) : t := merge_sort Interval.le s.

(** The loop of [Normalize]: [last] is the last element of the result so far. *)
Fixpoint normalize_loop (last : Interval.t) (s : t) : t :=
  match s with
  | [] => [last]
  | x :: s' =>
      if Interval.Stop last <? Interval.Start x then last :: normalize_loop x s'
      else
        let stop := Interval.Stop x in
        let stop := if stop <? Interval.Stop last then Interval.Stop last else stop in
        normalize_loop (Interval.mk (Interval.Start last) stop) s'
  end.

Definition Normalize (s : t) : t :=
  match Sort s with
  | [] => []
  | x :: s' => normalize_loop x s'
  end.

(** The inner loop of [Contain]: the intervals of [s] from the first one that
    does not end before [start]. *)
Fixpoint skip_to (start : Z) (s : t) : t :=
  match s with
  | [] => []
  | x :: s' => if Interval.Stop x <? start then skip_to start s' else s
  end.

Fixpoint Contain (s sub : t) : bool :=
  match sub with
  | [] => true
  | x :: sub' =>
      match skip_to (Interval.Start x) s with
      | [] => false
      | y :: s' =>
          if (Interval.Start x <? Interval.Start y) || (Interval.Stop y <? Interval.Stop x) then false
          else Contain (y :: s') sub'
      end
  end.

Definition Equal (s o : t) : bool := bool_decide (s = o).

End IntervalSlice.

(** * Sets of one server *)

Module UUIDSet.

Record t : Type := mk { SID : bytes; Intervals : IntervalSlice.t }.

#[global] Instance eq_dec : EqDecision t.
Proof. solve_decision. Defined.

Fixpoint parse_intervals (l : list string) : option IntervalSlice.t :=
  match l with
  | [] => Some []
  | s :: l' => Interval.parseInterval s ≫= fun i => parse_intervals l' ≫= fun r => Some (i :: r)
  end.

Definition ParseUUIDSet (str : string) : option t :=
  match Split ":" (TrimSpace str) with
  | [] | [_] => None
  | uid :: ints =>
      UUID.FromString uid ≫= fun sid =>
      parse_intervals ints ≫= fun l =>
      Some (mk sid (IntervalSlice.Normalize l))
  end.

Definition NewUUIDSet (sid : bytes) (ins : IntervalSlice.t) : t := mk sid (IntervalSlice.Normalize ins).

Definition Contain (s sub : t) : bool :=
  if negb (bool_decide (SID s = SID sub)) then false
  else IntervalSlice.Contain (Intervals s) (Intervals sub).

Fixpoint intervals_text (l : IntervalSlice.t) : string :=
  match l with
  | [] => ""
  | i :: l' => ":" +:+ Interval.String i +:+ intervals_text l'
  end.

Definition String (s : t) : string := UUID.String (SID s) +:+ intervals_text (Intervals s).

Definition AddInterval (ins : IntervalSlice.t) (s : t) : t :=
  mk (SID s) (IntervalSlice.Normalize (Intervals s ++ ins)).

Definition encode_interval (i : Interval.t) : bytes :=
  le_bytes 8 (Interval.Start i) ++ le_bytes 8 (Interval.Stop i).

Definition encode (s : t) : bytes :=
  SID s ++ le_bytes 8 (blen (Intervals s)) ++ concat (encode_interval <$> Intervals s).

(** The loop of [decode], [n] rounds from [pos] on. *)
Fixpoint decode_loop (n : nat) (data : bytes) (pos : Z) : res (IntervalSlice.t * Z) :=
  match n with
  | O => Ok ([], pos)
  | S n' =>
      match slice data pos (pos + 8), slice data (pos + 8) (pos + 16) with
      | Some a, Some b =>
          match decode_loop n' data (pos + 16) with
          | Ok (l, pos') => Ok (Interval.mk (i64 (le_val a)) (i64 (le_val b)) :: l, pos')
          | r => r
          end
      | _, _ => Panic
      end
  end.

(** The set and the number of bytes read. The size check wraps around; a count
    that passes it without being the count of the intervals makes the
    allocation panic, since it is negative or too large for memory. *)
Definition decode (data : bytes) : res (t * Z) :=
  if blen data <? 24 then Err ErrGtidFormat else
  match slice data 0 16, slice data 16 24 with
  | Some sid, Some cnt =>
      let n := i64 (le_val cnt) in
      let pos := 24 in
      if blen data <? i64 (i64 (16 * n) + pos) then Err ErrGtidFormat else
      if (n <? 0) || (2 ^ 59 <=? n) then Panic else
      match decode_loop (Z.to_nat n) data pos with
      | Ok (l, pos') => Ok (mk sid l, pos')
      | Err e => Err e
      | Panic => Panic
      end
  | _, _ => Panic
  end.

End UUIDSet.

(** * Sets of all servers *)

Module MysqlGTIDSet.

(** [Sets], keyed by the text of the UUID. *)
Abbreviation t := (gmap string UUIDSet.t).

Definition AddSet (set : UUIDSet.t) (s : t) : t :=
  let sid := UUID.String (UUIDSet.SID set) in
  match s !! sid with
  | Some o => <[sid := UUIDSet.AddInterval (UUIDSet.Intervals set) o]> s
  | None => <[sid := set]> s
  end.

Fixpoint parse_sets (l : list string) (s : t) : option t :=
  match l with
  | [] => Some s
  | str :: l' => UUIDSet.ParseUUIDSet str ≫= fun set => parse_sets l' (AddSet set s)
  end.

Definition ParseMysqlGTIDSet (str : string) : option t :=
  if String.eqb str "" then Some ∅ else parse_sets (Split "," str) ∅.

(** The loop of [DecodeMysqlGTIDSet]: [n] sets are left. Each one takes at
    least 24 bytes, so the length of the data bounds the rounds. *)
Fixpoint decode_sets (fuel : nat) (n : Z) (data : bytes) (s : t) : res t :=
  match fuel with
  | O => Panic
  | S fuel' =>
      if n <=? 0 then Ok s else
      match UUIDSet.decode data with
      | Ok (set, pos) => decode_sets fuel' (n - 1) (drop (Z.to_nat pos) data) (AddSet set s)
      | Err e => Err e
      | Panic => Panic
      end
  end.

Definition DecodeMysqlGTIDSet (data : bytes) : res t :=
  match slice data 0 8 with
  | None => Err ErrGtidFormat
  | Some cnt => decode_sets (S (length data)) (i64 (le_val cnt)) (drop 8 data) ∅
  end.

Definition Update (GTIDStr : string) (s : t) : option t :=
  UUIDSet.ParseUUIDSet GTIDStr ≫= fun uuidSet => Some (AddSet uuidSet s).

Definition Contain (s sub : t) : bool :=
  forallb (fun '(key, set) => match s !! key with
                              | None => false
                              | Some o => UUIDSet.Contain o set
                              end) (map_to_list sub).

Definition Equal (s sub : t) : bool :=
  forallb (fun '(key, set) => match s !! key with
                              | None => false
                              | Some o => IntervalSlice.Equal (UUIDSet.Intervals o) (UUIDSet.Intervals set)
                              end) (map_to_list sub).

(** [Encode] and [String] write the sets in the order in which Go ranges over
    the map, which is any order. *)
Definition encode_sets (l : list UUIDSet.t) : bytes := le_bytes 8 (blen l) ++ concat (UUIDSet.encode <$> l).

Fixpoint sets_text (l : list UUIDSet.t) : string :=
  match l with
  | [] => ""
  | [s] => UUIDSet.String s
  | s :: l' => UUIDSet.String s +:+ "," +:+ sets_text l'
  end.

Definition orders (s : t) (l : list UUIDSet.t) : Prop := l ≡ₚ (map_to_list s).*2.

Definition Encode (s : t) : bytes := encode_sets (map_to_list s).*2.
Definition String (s : t) : string := sets_text (map_to_list s).*2.

Definition Clone (s : t) : t :=
  foldl (fun clone set =>
           let sid := UUID.String (UUIDSet.SID set) in
           match clone !! sid with
           | Some o => <[sid := UUIDSet.AddInterval (UUIDSet.Intervals set) o]> clone
           | None => <[sid := UUIDSet.NewUUIDSet (UUIDSet.SID set) (UUIDSet.Intervals set)]> clone
           end) ∅ (map_to_list s).*2.

End MysqlGTIDSet.

(** * Meaning *)

(** The numbers in a slice of intervals. *)
Definition mem (x : Z) (l : IntervalSlice.t) : Prop :=
  exists i, i ∈ l /\ Interval.Start i <= x < Interval.Stop i.

Definition valid (i : Interval.t) : Prop := Interval.Start i < Interval.Stop i.

(** Normal form: intervals that are not empty, in order, with a gap between
    each two of them. *)
Fixpoint normal (l : IntervalSlice.t) : Prop :=
  match l with
  | [] => True
  | x :: l' => valid x /\ match l' with [] => True | y :: _ => Interval.Stop x < Interval.Start y end /\ normal l'
  end.

Definition starts_le (a b : Interval.t) : Prop := Interval.Start a <= Interval.Start b.

Lemma mem_nil x : ~ mem x [].
Proof. intros (i & Hi & _). by apply elem_of_nil in Hi. Qed.

Lemma mem_cons x i l : mem x (i :: l) <-> Interval.Start i <= x < Interval.Stop i \/ mem x l.
Proof.
  unfold mem. setoid_rewrite elem_of_cons. split.
  - intros (j & [-> |Hj] & Hx); eauto.
  - intros [H|(j & Hj & Hx)]; eauto.
Qed.

Lemma mem_perm x l k : l ≡ₚ k -> mem x l <-> mem x k.
Proof. intros H. unfold mem. by setoid_rewrite H. Qed.

Lemma mem_app x l k : mem x (l ++ k) <-> mem x l \/ mem x k.
Proof.
  unfold mem. setoid_rewrite elem_of_app.
  split; [intros (i & [?|?] & ?)|intros [(i & ? & ?)|(i & ? & ?)]]; eauto.
Qed.

(** In a normal form everything later is behind the end of the first interval. *)
Lemma normal_after x l : normal (x :: l) -> forall y, y ∈ l -> Interval.Stop x < Interval.Start y.
Proof.
  revert x. induction l as [|z l IH]; intros x (Hx & Hxz & Hl) y Hy; [by apply elem_of_nil in Hy|].
  apply elem_of_cons in Hy as [-> |Hy]; [done|].
  pose proof (IH z Hl y Hy). destruct Hl as (Hz & _). unfold valid in Hz. lia.
Qed.

Lemma normal_after_mem x l n : normal (x :: l) -> mem n l -> Interval.Stop x < n.
Proof. intros Hn (y & Hy & Hr). pose proof (normal_after x l Hn y Hy). lia. Qed.

Lemma normal_valid l : normal l -> Forall valid l.
Proof. induction l as [|x l IH]; [done|]. intros (Hx & _ & Hl). constructor; auto. Qed.

Lemma normal_tail x l : normal (x :: l) -> normal l.
Proof. by intros (_ & _ & ?). Qed.

Lemma normal_starts l : normal l -> StronglySorted starts_le l.
Proof.
  induction l as [|x l IH]; intros Hn; [constructor|]. constructor; [by eapply IH, normal_tail|].
  apply Forall_forall. intros y Hy. pose proof (normal_after x l Hn y Hy).
  destruct Hn as (Hx & _). unfold starts_le, valid in *. lia.
Qed.

(** ** Normalize *)

#[global] Instance interval_le_trans : Transitive Interval.le.
Proof. intros a b c. unfold Interval.le. lia. Qed.
#[global] Instance interval_le_total : Total Interval.le.
Proof. intros a b. unfold Interval.le. lia. Qed.

Lemma Sort_starts s : StronglySorted starts_le (IntervalSlice.Sort s).
Proof.
  assert (StronglySorted Interval.le (IntervalSlice.Sort s)) as H by (unfold IntervalSlice.Sort; apply (StronglySorted_merge_sort Interval.le)).
  induction H as [|a l Hl IH Ha]; constructor; [done|].
  eapply Forall_impl; [exact Ha|]. intros b. unfold Interval.le, starts_le. lia.
Qed.

Lemma normalize_loop_ok s : forall last,
  valid last -> Forall valid s -> StronglySorted starts_le (last :: s) ->
  let r := IntervalSlice.normalize_loop last s in
  normal r /\ (forall x, mem x r <-> mem x (last :: s)) /\
  exists x r', r = x :: r' /\ Interval.Start x = Interval.Start last.
Proof.
  induction s as [|y s IH]; intros last Hv Hs Hsort; cbn [IntervalSlice.normalize_loop].
  { split; [done|]. split; [done|]. eauto. }
  apply Forall_cons in Hs as (Hy & Hs). apply StronglySorted_inv in Hsort as (Hsort & Hle).
  apply Forall_cons in Hle as (Hly & Hle). unfold valid, starts_le in *.
  destruct (Z.ltb_spec (Interval.Stop last) (Interval.Start y)) as [Hlt|Hge].
  - destruct (IH y Hy Hs Hsort) as (Hn & Hm & x & r' & Hr & Hx). split; [|split].
    + rewrite Hr in *. split; [exact Hv|]. split; [lia|exact Hn].
    + intros z. rewrite mem_cons, Hm, (mem_cons z last). done.
    + eauto.
  - set (stop := if Interval.Stop y <? Interval.Stop last then Interval.Stop last else Interval.Stop y).
    assert (stop = Z.max (Interval.Stop last) (Interval.Stop y)) as Estop by (unfold stop; zdecide).
    apply StronglySorted_inv in Hsort as (Hsort & Hley).
    destruct (IH (Interval.mk (Interval.Start last) stop)) as (Hn & Hm & x & r' & Hr & Hx);
      [cbn; lia|done|by constructor|].
    split; [done|]. split; [|eauto].
    intros z. rewrite Hm, !mem_cons. cbn [Interval.Start Interval.Stop]. rewrite Estop. split.
    + intros [H|H]; [|tauto]. destruct (Z.lt_ge_cases z (Interval.Stop last)); [left; lia|].
      right. left. lia.
    + intros [H|[H|H]]; [left; lia|left; lia|tauto].
Qed.

Lemma Normalize_ok s :
  Forall valid s ->
  normal (IntervalSlice.Normalize s) /\ forall x, mem x (IntervalSlice.Normalize s) <-> mem x s.
Proof.
  intros Hv. unfold IntervalSlice.Normalize. pose proof (Sort_starts s) as Hsort.
  assert (IntervalSlice.Sort s ≡ₚ s) as Hp by (apply merge_sort_Permutation).
  assert (Forall valid (IntervalSlice.Sort s)) as Hv' by (by rewrite Hp).
  destruct (IntervalSlice.Sort s) as [|x r].
  - split; [done|]. intros x. by apply mem_perm.
  - apply Forall_cons in Hv' as (Hx & Hr).
    destruct (normalize_loop_ok r x Hx Hr Hsort) as (Hn & Hm & _). split; [done|].
    intros z. by rewrite Hm, (mem_perm z _ _ Hp).
Qed.

(** ** Contain and Equal *)

(** The part that [skip_to] drops ends before [start]. *)
Lemma skip_to_split start s :
  exists d, s = (d ++ IntervalSlice.skip_to start s)%list /\ Forall (fun i => Interval.Stop i < start) d /\
    match IntervalSlice.skip_to start s with [] => True | y :: _ => start <= Interval.Stop y end.
Proof.
  induction s as [|x s IH]; [by exists []|]. cbn [IntervalSlice.skip_to].
  destruct (Z.ltb_spec (Interval.Stop x) start).
  - destruct IH as (d & E & Hd & Hy). exists (x :: d). split; [by rewrite E at 1|]. split; [by constructor|done].
  - exists []. done.
Qed.

Lemma normal_suffix d s : normal (d ++ s) -> normal s.
Proof. induction d as [|x d IH]; [done|]. intros Hn. eapply IH, normal_tail, Hn. Qed.

Lemma skip_to_mem start s x : start <= x -> mem x s -> mem x (IntervalSlice.skip_to start s).
Proof.
  intros Hx Hm. destruct (skip_to_split start s) as (d & E & Hd & _). rewrite E in Hm.
  apply mem_app in Hm as [(i & Hi & Hr)|Hm]; [|done].
  rewrite Forall_forall in Hd. specialize (Hd i Hi). lia.
Qed.

Lemma skip_to_incl start s x : mem x (IntervalSlice.skip_to start s) -> mem x s.
Proof. destruct (skip_to_split start s) as (d & E & _). rewrite E at 2. rewrite mem_app. tauto. Qed.

Lemma Contain_mem sub : forall s,
  IntervalSlice.Contain s sub = true -> forall n, mem n sub -> mem n s.
Proof.
  induction sub as [|x sub IH]; intros s Hc n Hn; [by apply mem_nil in Hn|]. cbn [IntervalSlice.Contain] in Hc.
  destruct (IntervalSlice.skip_to _ s) as [|y s'] eqn:E; [done|].
  destruct (_ || _) eqn:Hb; [done|]. apply orb_false_iff in Hb as (H1%Z.ltb_ge & H2%Z.ltb_ge).
  apply (skip_to_incl (Interval.Start x)). rewrite E. apply mem_cons in Hn as [Hn|Hn].
  - apply mem_cons. left. lia.
  - by apply (IH (y :: s')).
Qed.

(** In a normal form a run of numbers lies in one interval. *)
Lemma run_in_one y s n m :
  normal (y :: s) -> Interval.Start y <= n < Interval.Stop y -> n < m ->
  (forall k, n <= k < m -> mem k (y :: s)) -> m <= Interval.Stop y.
Proof.
  intros Hn Hy Hm Hrun. destruct (Z.le_gt_cases m (Interval.Stop y)) as [|Hgt]; [done|].
  specialize (Hrun (Interval.Stop y) ltac:(lia)). apply mem_cons in Hrun as [?|Hr]; [lia|].
  apply (normal_after_mem _ _ _ Hn) in Hr. lia.
Qed.

Lemma mem_Contain sub : forall s,
  normal s -> Forall valid sub -> StronglySorted starts_le sub -> (forall n, mem n sub -> mem n s) ->
  IntervalSlice.Contain s sub = true.
Proof.
  induction sub as [|x sub IH]; intros s Hn Hv Hsort Hsub; [done|]. cbn [IntervalSlice.Contain].
  apply Forall_cons in Hv as (Hx & Hv). apply StronglySorted_inv in Hsort as (Hsort & Hle).
  assert (forall n, mem n (x :: sub) -> mem n (IntervalSlice.skip_to (Interval.Start x) s)) as Hskip.
  { intros n Hm. apply skip_to_mem; [|by apply Hsub]. apply mem_cons in Hm as [Hm|(i & Hi & Hm)]; [lia|].
    rewrite Forall_forall in Hle. specialize (Hle i Hi). unfold starts_le in Hle. lia. }
  destruct (skip_to_split (Interval.Start x) s) as (d & E & _ & Hy).
  assert (normal (IntervalSlice.skip_to (Interval.Start x) s)) as Hns by (rewrite E in Hn; by apply normal_suffix in Hn).
  destruct (IntervalSlice.skip_to (Interval.Start x) s) as [|y s'].
  { destruct (mem_nil (Interval.Start x)). apply Hskip, mem_cons. left. unfold valid in Hx. lia. }
  assert (forall n, Interval.Start x <= n < Interval.Stop x -> mem n (y :: s')) as Hrun
    by (intros n Hr; apply Hskip, mem_cons; by left).
  unfold valid in Hx.
  assert (Interval.Start y <= Interval.Start x < Interval.Stop y) as Hst.
  { specialize (Hrun (Interval.Start x) ltac:(lia)). apply mem_cons in Hrun as [?|Hr]; [done|].
    apply (normal_after_mem _ _ _ Hns) in Hr. lia. }
  pose proof (run_in_one y s' _ _ Hns Hst Hx Hrun) as Hstop.
  rewrite (proj2 (Z.ltb_ge _ _)), (proj2 (Z.ltb_ge _ _)) by lia. cbn [orb].
  apply IH; [done..|]. intros n Hm. apply Hskip, mem_cons. by right.
Qed.

Lemma normal_unique l : forall k, normal l -> normal k -> (forall x, mem x l <-> mem x k) -> l = k.
Proof.
  induction l as [|x l IH]; intros k Hl Hk Hm.
  - destruct k as [|y k]; [done|]. destruct (mem_nil (Interval.Start y)). apply Hm, mem_cons. left.
    destruct Hk as (Hy & _). unfold valid in Hy. lia.
  - destruct k as [|y k].
    { destruct (mem_nil (Interval.Start x)). apply Hm, mem_cons. left. destruct Hl as (Hx & _). unfold valid in Hx. lia. }
    assert (valid x /\ valid y) as (Hx & Hy) by (by destruct Hl, Hk). unfold valid in Hx, Hy.
    assert (forall a b l' k', normal (a :: l') -> normal (b :: k') ->
      (forall n, mem n (a :: l') -> mem n (b :: k')) -> Interval.Start b <= Interval.Start a) as Hstart.
    { intros a b l' k' Ha Hb H. assert (valid a) as Va by (by destruct Ha). unfold valid in Va.
      assert (valid b) as Vb by (by destruct Hb). unfold valid in Vb.
      specialize (H (Interval.Start a)). rewrite !mem_cons in H. destruct H as [H|H]; [left; lia|lia|].
      apply (normal_after_mem _ _ _ Hb) in H. lia. }
    assert (Interval.Start x = Interval.Start y) as Es.
    { apply Z.le_antisymm; [apply (Hstart y x k l)|apply (Hstart x y l k)]; try done; intros n; apply Hm. }
    assert (Interval.Stop x = Interval.Stop y) as Ep.
    { apply Z.le_antisymm.
      - apply (run_in_one y k (Interval.Start x)); [done|lia|lia|]. intros n Hn. apply Hm, mem_cons. by left.
      - apply (run_in_one x l (Interval.Start y)); [done|lia|lia|]. intros n Hn. apply Hm, mem_cons. by left. }
    assert (x = y) as -> by (destruct x, y; cbn in *; congruence). f_equal.
    apply IH; [by eapply normal_tail|by eapply normal_tail|]. intros n. specialize (Hm n). rewrite !mem_cons in Hm.
    split; intros H.
    + pose proof (normal_after_mem _ _ _ Hl H). destruct Hm as [Hm _]. destruct Hm as [?|?]; [by right|lia|done].
    + pose proof (normal_after_mem _ _ _ Hk H). destruct Hm as [_ Hm]. destruct Hm as [?|?]; [by right|lia|done].
Qed.

(** * Sets of all servers *)

(** The numbers of transactions: not negative and below the end of [int64]. *)
Definition interval_ok (i : Interval.t) : Prop := 0 <= Interval.Start i /\ Interval.Stop i < 2 ^ 63.

Record uuid_set_ok (s : UUIDSet.t) : Prop := {
  sid_ok : UUID.ok (UUIDSet.SID s);
  intervals_normal : normal (UUIDSet.Intervals s);
  intervals_some : UUIDSet.Intervals s <> [];
  intervals_ok : Forall interval_ok (UUIDSet.Intervals s) }.

(** The invariant of a [MysqlGTIDSet]. *)
Definition gtids_ok (s : MysqlGTIDSet.t) : Prop :=
  map_Forall (fun key set => key = UUID.String (UUIDSet.SID set) /\ uuid_set_ok set) s.

(** The transaction [x] of the server [u] is in the set. *)
Definition gmem (u : bytes) (x : Z) (s : MysqlGTIDSet.t) : Prop :=
  exists set, s !! UUID.String u = Some set /\ mem x (UUIDSet.Intervals set).

Lemma Normalize_interval_ok l : Forall interval_ok l -> Forall interval_ok (IntervalSlice.Normalize l).
Proof.
  intros Hl. unfold IntervalSlice.Normalize.
  assert (Forall interval_ok (IntervalSlice.Sort l)) as Hs
    by (unfold IntervalSlice.Sort; by rewrite (merge_sort_Permutation Interval.le l)).
  destruct Hs as [|x r Hx Hr]; [done|].
  revert x Hx. induction Hr as [|y r Hy Hr IH]; intros x Hx; cbn [IntervalSlice.normalize_loop]; [by constructor|].
  destruct (_ <? _); [constructor; auto|]. apply IH. destruct Hx, Hy. split; cbn; [done|]. by destruct (_ <? _).
Qed.

Lemma Normalize_some l : l <> [] -> IntervalSlice.Normalize l <> [].
Proof.
  intros Hl. unfold IntervalSlice.Normalize.
  destruct (IntervalSlice.Sort l) as [|x r] eqn:E.
  { assert (IntervalSlice.Sort l ≡ₚ l) as Hp by (apply merge_sort_Permutation).
    rewrite E in Hp. by apply Permutation_nil_l in Hp. }
  clear. revert x. induction r as [|y r IH]; intros x; [done|]. cbn [IntervalSlice.normalize_loop].
  by destruct (_ <? _).
Qed.

Lemma AddInterval_ok ins s :
  uuid_set_ok s -> Forall valid ins -> Forall interval_ok ins ->
  let s' := UUIDSet.AddInterval ins s in
  uuid_set_ok s' /\ UUIDSet.SID s' = UUIDSet.SID s /\
  forall x, mem x (UUIDSet.Intervals s') <-> mem x (UUIDSet.Intervals s) \/ mem x ins.
Proof.
  intros [H1 H2 H3 H4] Hv Hi s'.
  destruct (Normalize_ok (UUIDSet.Intervals s ++ ins)) as (Hn & Hm).
  { apply Forall_app. split; [by apply normal_valid|done]. }
  split; [|split; [done|]].
  - split; cbn; [done|done| |].
    + apply Normalize_some. by destruct (UUIDSet.Intervals s).
    + apply Normalize_interval_ok, Forall_app. done.
  - intros x. cbn. by rewrite Hm, mem_app.
Qed.

Lemma AddSet_ok set s :
  gtids_ok s -> uuid_set_ok set ->
  gtids_ok (MysqlGTIDSet.AddSet set s) /\
  forall u x, UUID.ok u ->
    gmem u x (MysqlGTIDSet.AddSet set s) <->
      gmem u x s \/ u = UUIDSet.SID set /\ mem x (UUIDSet.Intervals set).
Proof.
  intros Hs Hset. unfold MysqlGTIDSet.AddSet. set (sid := UUID.String (UUIDSet.SID set)).
  destruct (s !! sid) as [o|] eqn:E.
  - destruct (Hs _ _ E) as (Ho & Hok).
    assert (UUIDSet.SID o = UUIDSet.SID set) as Esid
      by (symmetry; apply uuid_inj; [apply Hset|apply Hok|done]).
    destruct (AddInterval_ok (UUIDSet.Intervals set) o Hok) as (Hok' & Hsid & Hm).
    { apply normal_valid, Hset. } { apply Hset. }
    split; [apply map_Forall_insert_2; [|done]; split; [by rewrite Hsid|done]|].
    intros u x Hu. unfold gmem. destruct (decide (u = UUIDSet.SID set)) as [->|Hne].
    + fold sid. rewrite lookup_insert_eq, E. split.
      * intros (? & [= <-] & H). apply Hm in H as [H|H]; eauto.
      * intros [(? & [= <-] & H)|[_ H]]; eexists; (split; [done|]); apply Hm; auto.
    + rewrite lookup_insert_ne by (intros Ek; apply Hne, uuid_inj; [done|apply Hset|done]). naive_solver.
  - split; [apply map_Forall_insert_2; done|].
    intros u x Hu. unfold gmem. destruct (decide (u = UUIDSet.SID set)) as [->|Hne].
    + fold sid. rewrite lookup_insert_eq, E. naive_solver.
    + rewrite lookup_insert_ne by (intros Ek; apply Hne, uuid_inj; [done|apply Hset|done]). naive_solver.
Qed.

Lemma gtids_ok_empty : gtids_ok ∅.
Proof. apply map_Forall_empty. Qed.

(** ** Contain *)

Lemma forallb_map_to_list {A} (f : string * A -> bool) (s : gmap string A) :
  forallb f (map_to_list s) = true <-> forall k a, s !! k = Some a -> f (k, a) = true.
Proof.
  rewrite forallb_forall. split.
  - intros H k a Hk. apply H, list_elem_of_In, elem_of_map_to_list, Hk.
  - intros H [k a] Hk. apply H. by apply list_elem_of_In, elem_of_map_to_list in Hk.
Qed.

Lemma set_Contain_spec o set :
  UUIDSet.SID o = UUIDSet.SID set -> normal (UUIDSet.Intervals o) -> normal (UUIDSet.Intervals set) ->
  UUIDSet.Contain o set = true <->
    forall x, mem x (UUIDSet.Intervals set) -> mem x (UUIDSet.Intervals o).
Proof.
  intros E Ho Hset. unfold UUIDSet.Contain. rewrite (bool_decide_eq_true_2 _ E). cbn [negb].
  split; [apply Contain_mem|]. intros H. apply mem_Contain; auto using normal_valid, normal_starts.
Qed.

Lemma normal_some_mem l : normal l -> l <> [] -> exists x, mem x l.
Proof.
  destruct l as [|i l]; [done|]. intros (Hi & _) _. exists (Interval.Start i). apply mem_cons. left.
  unfold valid in Hi. lia.
Qed.

Lemma gtids_Contain_spec s sub :
  gtids_ok s -> gtids_ok sub ->
  MysqlGTIDSet.Contain s sub = true <-> forall u x, UUID.ok u -> gmem u x sub -> gmem u x s.
Proof.
  intros Hs Hsub. unfold MysqlGTIDSet.Contain. rewrite forallb_map_to_list. split.
  - intros H u x Hu (set & Hset & Hx). specialize (H _ _ Hset). cbn in H.
    destruct (s !! UUID.String u) as [o|] eqn:Eo; [|done]. exists o. split; [done|].
    destruct (Hs _ _ Eo) as (K1 & O1). destruct (Hsub _ _ Hset) as (K2 & O2).
    revert Hx. apply set_Contain_spec; [|apply O1|apply O2|done].
    apply uuid_inj; [apply O1|apply O2|congruence].
  - intros H k set Hset. cbn. destruct (Hsub _ _ Hset) as (-> & O2).
    assert (forall x, mem x (UUIDSet.Intervals set) -> gmem (UUIDSet.SID set) x s) as Hm
      by (intros x Hx; apply H; [apply O2|by eexists]).
    destruct (normal_some_mem _ (intervals_normal _ O2) (intervals_some _ O2)) as (x0 & Hx0).
    destruct (Hm x0 Hx0) as (o & Eo & _). rewrite Eo. destruct (Hs _ _ Eo) as (K1 & O1).
    apply set_Contain_spec; [|apply O1|apply O2|].
    + symmetry. apply uuid_inj; [apply O2|apply O1|done].
    + intros x Hx. destruct (Hm x Hx) as (o' & Eo' & Hx'). congruence.
Qed.

(** A set is determined by its members. *)
Lemma gtids_ext s s' :
  gtids_ok s -> gtids_ok s' -> (forall u x, UUID.ok u -> gmem u x s <-> gmem u x s') -> s = s'.
Proof.
  intros Hs Hs' Hm.
  assert (forall a b k set, gtids_ok a -> gtids_ok b -> (forall u x, UUID.ok u -> gmem u x a <-> gmem u x b) ->
    a !! k = Some set -> b !! k = Some set) as Hsub.
  { intros a b k set Ha Hb Hab Ek. destruct (Ha _ _ Ek) as (-> & O1).
    destruct (normal_some_mem _ (intervals_normal _ O1) (intervals_some _ O1)) as (x0 & Hx0).
    destruct (proj1 (Hab (UUIDSet.SID set) x0 (sid_ok _ O1))) as (o & Eo & _); [by eexists|].
    destruct (Hb _ _ Eo) as (K2 & O2). rewrite Eo. f_equal.
    apply uuid_inj in K2; [|apply O1|apply O2]. destruct o as [sid' l'], set as [sid l]. cbn in *. f_equal; [done|].
    apply normal_unique; [apply O2|apply O1|]. intros x. specialize (Hab sid x (sid_ok _ O1)). unfold gmem in Hab.
    rewrite Ek, Eo in Hab. cbn in Hab. naive_solver. }
  apply map_eq. intros k. apply option_eq. intros set. split; apply Hsub; try done.
  intros u x Hu. symmetry. by apply Hm.
Qed.
