(* ===== verification/GtidCodec.v ===== *)
(** The binary and the text form of GTID sets, read back; and the theorems
    about GTID sets. *)
From S2P Require Import Prelude.
From S2P Require Import Names.
From S2P Require Import Text.
From S2P Require Import Gtid.
From Stdlib Require Import Ascii.
From stdpp Require Import list strings.
Local Open Scope string_scope.
Local Open Scope list_scope.
Local Open Scope Z_scope.

(** * Binary form *)

Lemma blen_encode_interval i : blen (UUIDSet.encode_interval i) = 16.
Proof. unfold UUIDSet.encode_interval. len. Qed.

Lemma blen_encode_intervals l : blen (concat (UUIDSet.encode_interval <$> l)) = 16 * blen l.
Proof.
  induction l as [|i l IH]; [done|]. rewrite fmap_cons. cbn [concat].
  rewrite blen_app, blen_encode_interval, IH, blen_cons. lia.
Qed.

Lemma i64_le_val z : 0 <= z < 2 ^ 63 -> i64 (le_val (le_bytes 8 z)) = z.
Proof. intros Hz. rewrite le_val_u64 by (unfold is_u64; lia). apply i64_small. lia. Qed.

Lemma decode_loop_ok l : forall pre rest,
  Forall valid l -> Forall interval_ok l ->
  UUIDSet.decode_loop (length l) (pre ++ concat (UUIDSet.encode_interval <$> l) ++ rest) (blen pre) =
    Ok (l, blen pre + 16 * blen l).
Proof.
  induction l as [|i l IH]; intros pre rest Hv Hi.
  - cbn. do 2 f_equal. unfold blen. cbn. lia.
  - apply Forall_cons in Hv as (Hvi & Hv). apply Forall_cons in Hi as ((Hi1 & Hi2) & Hi).
    unfold valid in Hvi. cbn [length UUIDSet.decode_loop]. rewrite fmap_cons. cbn [concat].
    set (a := le_bytes 8 (Interval.Start i)). set (b := le_bytes 8 (Interval.Stop i)).
    change (UUIDSet.encode_interval i) with (a ++ b). rewrite <-!app_assoc.
    assert (blen a = 8) as La by (unfold a; len). assert (blen b = 8) as Lb by (unfold b; len).
    rewrite (slice_mid pre a) by lia.
    rewrite (app_assoc pre a), (slice_mid (pre ++ a) b) by (rewrite ?blen_app; lia).
    rewrite app_assoc. replace (blen pre + 16) with (blen ((pre ++ a) ++ b)) by (rewrite !blen_app; lia).
    rewrite IH by done. unfold a, b. rewrite !i64_le_val by lia. rewrite !blen_app, !blen_le_bytes, blen_cons.
    destruct i. cbn [Interval.Start Interval.Stop]. do 2 f_equal. lia.
Qed.

Lemma blen_encode s : UUID.ok (UUIDSet.SID s) -> blen (UUIDSet.encode s) = 24 + 16 * blen (UUIDSet.Intervals s).
Proof.
  intros [Hl _]. unfold UUIDSet.encode. rewrite !blen_app, blen_encode_intervals, blen_le_bytes.
  unfold blen at 1. rewrite Hl. lia.
Qed.

Lemma UUIDSet_decode_encode s rest :
  uuid_set_ok s -> blen (UUIDSet.encode s ++ rest) < 2 ^ 62 ->
  UUIDSet.decode (UUIDSet.encode s ++ rest) = Ok (s, blen (UUIDSet.encode s)).
Proof.
  intros [Hs Hn Hne Hi] Hl. pose proof (blen_encode s Hs) as Hb. pose proof (blen_nonneg rest).
  pose proof (blen_nonneg (UUIDSet.Intervals s)). rewrite blen_app, Hb in Hl.
  unfold UUIDSet.decode. rewrite blen_app, (proj2 (Z.ltb_ge _ _)) by lia. destruct s as [sid l].
  unfold UUIDSet.encode in *. cbn [UUIDSet.SID UUIDSet.Intervals] in *. rewrite <-!app_assoc.
  assert (blen sid = 16) as Lsid by (destruct Hs as [Hs _]; unfold blen; lia).
  set (cnt := le_bytes 8 (blen l)). assert (blen cnt = 8) as Lcnt by (unfold cnt; len).
  rewrite (slice_prefix sid) by lia. rewrite (slice_mid sid cnt) by lia.
  assert (i64 (le_val cnt) = blen l) as -> by (apply i64_le_val; lia). rewrite (i64_small (16 * blen l)), i64_small by lia.
  fold cnt in Hb. rewrite Hb, (proj2 (Z.ltb_ge _ _)) by lia.
  rewrite (proj2 (Z.ltb_ge (blen l) 0)), (proj2 (Z.leb_gt _ _)) by lia. cbn [orb].
  replace (Z.to_nat (blen l)) with (length l) by (unfold blen; lia).
  rewrite app_assoc. replace 24 with (blen (sid ++ cnt)) by (rewrite blen_app; lia).
  rewrite decode_loop_ok by (by try apply normal_valid). done.
Qed.

Lemma decode_sets_ok l : forall fuel s0 rest,
  (length l < fuel)%nat -> Forall uuid_set_ok l -> blen (concat (UUIDSet.encode <$> l) ++ rest) < 2 ^ 62 ->
  MysqlGTIDSet.decode_sets fuel (blen l) (concat (UUIDSet.encode <$> l) ++ rest) s0 =
    Ok (foldl (fun s set => MysqlGTIDSet.AddSet set s) s0 l).
Proof.
  induction l as [|set l IH]; intros fuel s0 rest Hf Hok Hl; (destruct fuel as [|fuel]; [cbn in Hf; lia|]).
  - done.
  - apply Forall_cons in Hok as (Hset & Hok). cbn [MysqlGTIDSet.decode_sets].
    rewrite (proj2 (Z.leb_gt _ _)) by (rewrite blen_cons; pose proof (blen_nonneg l); lia).
    rewrite fmap_cons in *. cbn [concat foldl] in *. rewrite <-app_assoc in *.
    rewrite UUIDSet_decode_encode by done. rewrite to_nat_blen, drop_app_length, blen_cons.
    replace (1 + blen l - 1) with (blen l) by lia. apply IH; [cbn in Hf; lia|done|].
    rewrite blen_app in Hl. pose proof (blen_nonneg (UUIDSet.encode set)). lia.
Qed.

(** Adding the sets of a map in any order gives the map. *)
Lemma add_sets_order l : forall s0,
  gtids_ok s0 -> Forall uuid_set_ok l -> 
  let s := foldl (fun s set => MysqlGTIDSet.AddSet set s) s0 l in
  gtids_ok s /\ forall u x, UUID.ok u ->
    gmem u x s <-> gmem u x s0 \/ exists set, set ∈ l /\ UUIDSet.SID set = u /\ mem x (UUIDSet.Intervals set).
Proof.
  induction l as [|set l IH]; intros s0 H0 Hl; cbn [foldl].
  - split; [done|]. intros u x Hu. split; [by left|]. intros [?|(? & Hin & _)]; [done|]. by apply elem_of_nil in Hin.
  - apply Forall_cons in Hl as (Hset & Hl). destruct (AddSet_ok set s0 H0 Hset) as (H1 & Hm1).
    destruct (IH _ H1 Hl) as (H2 & Hm2). split; [done|]. intros u x Hu. rewrite Hm2, Hm1 by done.
    setoid_rewrite elem_of_cons. split.
    + intros [[?|[-> ?]]|(o & ? & ? & ?)]; eauto 6.
    + intros [?|(o & [-> |?] & <- & ?)]; eauto 6.
Qed.

Lemma orders_ok s l : gtids_ok s -> MysqlGTIDSet.orders s l -> Forall uuid_set_ok l.
Proof.
  intros Hs Hl. apply Forall_forall. intros set Hin. unfold MysqlGTIDSet.orders in Hl. rewrite Hl in Hin.
  apply list_elem_of_fmap in Hin as ((k & set') & -> & Hk). apply elem_of_map_to_list in Hk. by apply Hs in Hk as (_ & ?).
Qed.

Lemma add_orders s l :
  gtids_ok s -> MysqlGTIDSet.orders s l -> foldl (fun s set => MysqlGTIDSet.AddSet set s) ∅ l = s.
Proof.
  intros Hs Hl. destruct (add_sets_order l ∅ gtids_ok_empty (orders_ok s l Hs Hl)) as (Hok & Hm).
  apply gtids_ext; [done|done|]. intros u x Hu. rewrite Hm by done. unfold MysqlGTIDSet.orders in Hl. split.
  - intros [(? & H & _)|(set & Hin & <- & Hx)]; [by rewrite lookup_empty in H|]. rewrite Hl in Hin.
    apply list_elem_of_fmap in Hin as ((k & set') & -> & Hk). apply elem_of_map_to_list in Hk.
    destruct (Hs _ _ Hk) as (-> & _). by eexists.
  - intros (set & Hk & Hx). right. exists set. destruct (Hs _ _ Hk) as (Ek & Ok).
    split; [|split; [|done]].
    + rewrite Hl. apply list_elem_of_fmap. exists (UUID.String u, set). split; [done|]. by apply elem_of_map_to_list.
    + symmetry. apply uuid_inj; [done|apply Ok|done].
Qed.

Lemma length_encode_sets l : (length l <= length (concat (UUIDSet.encode <$> l)))%nat.
Proof.
  induction l as [|set l IH]; [done|]. rewrite fmap_cons. cbn [concat length]. rewrite length_app.
  unfold UUIDSet.encode at 1. rewrite !length_app, length_le_bytes. lia.
Qed.

Lemma decode_encode_sets s l rest :
  gtids_ok s -> MysqlGTIDSet.orders s l -> blen (MysqlGTIDSet.encode_sets l ++ rest) < 2 ^ 62 ->
  MysqlGTIDSet.DecodeMysqlGTIDSet (MysqlGTIDSet.encode_sets l ++ rest) = Ok s.
Proof.
  intros Hs Hl Hb. unfold MysqlGTIDSet.DecodeMysqlGTIDSet, MysqlGTIDSet.encode_sets in *.
  pose proof (length_encode_sets l) as Hlen. rewrite <-app_assoc in *.
  rewrite slice_prefix by len. rewrite blen_app, blen_le_bytes, blen_app in Hb.
  rewrite (drop_app_length' (le_bytes 8 (blen l))) by (by rewrite length_le_bytes).
  assert (0 <= blen l <= blen (concat (UUIDSet.encode <$> l))) by (unfold blen; lia).
  pose proof (blen_nonneg rest). rewrite i64_le_val by lia.
  rewrite decode_sets_ok; [by rewrite (add_orders s l)| |by eapply orders_ok|rewrite blen_app; lia].
  rewrite !length_app. lia.
Qed.

(** * Text form *)

Lemma interval_text_no_char i c :
  interval_ok i -> valid i -> (N_of_ascii c < 48 \/ 57 < N_of_ascii c)%N -> c <> "-"%char ->
  has_char c (Interval.String i) = false.
Proof.
  intros [H1 H2] Hv Hc Hd. unfold valid in Hv. unfold Interval.String. rewrite (i64_small (_ - 1)) by lia.
  destruct (_ =? _); rewrite ?has_char_app, ?fmt_d_no_char by (done || lia); [done|].
  by rewrite has_char_single.
Qed.

Lemma parseInterval_String i :
  interval_ok i -> valid i -> Interval.parseInterval (Interval.String i) = Some i.
Proof.
  intros [H1 H2] Hv. unfold valid in Hv. destruct i as [a b]. unfold Interval.parseInterval, Interval.String.
  cbn [Interval.Start Interval.Stop] in *. rewrite !i64_small by lia.
  assert (forall n, 0 <= n -> has_char "-" (fmt_d n) = false) as Hd
    by (intros n Hn; apply fmt_d_no_char; [done|cbn; lia]).
  destruct (Z.eqb_spec b (a + 1)) as [->|Hne].
  - rewrite Split_single by (by apply Hd). rewrite ParseInt_fmt_d by lia. cbn [Interval.Start Interval.Stop].
    rewrite i64_small by lia. by rewrite (proj2 (Z.leb_gt _ _)) by lia.
  - change ("-" +:+ ?s) with (String "-" s). rewrite Split_app, Split_single by (apply Hd; lia).
    rewrite !ParseInt_fmt_d by lia. cbn [Interval.Start Interval.Stop].
    replace (b - 1 + 1) with b by lia. rewrite i64_small by lia. by rewrite (proj2 (Z.leb_gt _ _)) by lia.
Qed.

Lemma parse_intervals_String l :
  Forall interval_ok l -> Forall valid l -> UUIDSet.parse_intervals (Interval.String <$> l) = Some l.
Proof.
  induction l as [|i l IH]; intros Hi Hv; [done|].
  apply Forall_cons in Hi as (? & ?). apply Forall_cons in Hv as (? & ?).
  rewrite fmap_cons. cbn [UUIDSet.parse_intervals]. rewrite parseInterval_String by done. cbn. by rewrite IH.
Qed.

Lemma Split_intervals l : forall s,
  has_char ":" s = false -> Forall interval_ok l -> Forall valid l ->
  Split ":" (s +:+ UUIDSet.intervals_text l) = s :: (Interval.String <$> l).
Proof.
  induction l as [|i l IH]; intros s Hs Hi Hv; cbn [UUIDSet.intervals_text].
  - rewrite string_app_nil_r. by apply Split_single.
  - apply Forall_cons in Hi as (Hi1 & Hi). apply Forall_cons in Hv as (Hv1 & Hv).
    change (":" +:+ ?s) with (String ":" s). rewrite Split_app by done. rewrite fmap_cons. f_equal.
    apply IH; [|done|done]. apply interval_text_no_char; [done|done|cbn; lia|done].
Qed.

(** No white space and no comma in the text of a set. *)
Lemma set_text_no_char s c : uuid_set_ok s -> (N_of_ascii c < 45)%N -> has_char c (UUIDSet.String s) = false.
Proof.
  intros [Hs Hn _ Hi] Hc. unfold UUIDSet.String. rewrite has_char_app.
  assert (c <> "-"%char /\ c <> ":"%char) as (H1 & H2) by (split; intros ->; cbn in Hc; lia).
  rewrite uuid_no_char by (done || lia). cbn [orb].
  apply normal_valid in Hn. revert Hi Hn. generalize (UUIDSet.Intervals s). clear - Hc H1 H2.
  induction l as [|i l IH]; intros Hi Hv; [done|]. cbn [UUIDSet.intervals_text].
  apply Forall_cons in Hi as (Hi1 & Hi). apply Forall_cons in Hv as (Hv1 & Hv).
  rewrite !has_char_app, IH, interval_text_no_char, has_char_single by (done || lia). done.
Qed.

Lemma Normalize_normal l : normal l -> IntervalSlice.Normalize l = l.
Proof.
  intros Hn. destruct (Normalize_ok l (normal_valid l Hn)) as (H1 & H2). by apply normal_unique.
Qed.

(** A clone has the same sets. *)
Lemma Clone_same s : gtids_ok s -> MysqlGTIDSet.Clone s = s.
Proof.
  intros Hs. rewrite <- (add_orders s (map_to_list s).*2 Hs (Permutation_refl _)) at 2. unfold MysqlGTIDSet.Clone.
  pose proof (orders_ok s (map_to_list s).*2 Hs (Permutation_refl _)) as Hok.
  generalize (∅ : MysqlGTIDSet.t). induction Hok as [|set l Hset _ IH]; intros c; [done|]. cbn [foldl]. rewrite IH. f_equal.
  unfold MysqlGTIDSet.AddSet. destruct (c !! _); [done|]. unfold UUIDSet.NewUUIDSet.
  rewrite Normalize_normal by apply Hset. by destruct set.
Qed.

Lemma ParseUUIDSet_String s : uuid_set_ok s -> UUIDSet.ParseUUIDSet (UUIDSet.String s) = Some s.
Proof.
  intros Hok. pose proof Hok as [Hs Hn Hne Hi]. unfold UUIDSet.ParseUUIDSet. rewrite TrimSpace_id.
  2:{ intros c Hc. destruct (is_space c) eqn:E; [|done]. rewrite set_text_no_char in Hc; [done|done|].
      apply bool_decide_eq_true in E. repeat apply elem_of_cons in E as [-> |E]; [cbn; lia..|].
      by apply elem_of_nil in E. }
  unfold UUIDSet.String. rewrite Split_intervals by (apply normal_valid in Hn; try done; apply uuid_no_char; done || cbn; lia).
  destruct (Interval.String <$> UUIDSet.Intervals s) as [|x r] eqn:E.
  { by destruct (UUIDSet.Intervals s). }
  rewrite uuid_roundtrip by done. cbn [mbind option_bind]. rewrite <-E.
  rewrite parse_intervals_String by (try apply normal_valid; done). cbn [mbind option_bind].
  rewrite Normalize_normal by done. by destruct s.
Qed.

Lemma set_text_some s : uuid_set_ok s -> exists c r, UUIDSet.String s = String c r.
Proof.
  intros [Hs _ _ _]. pose proof (length_uuid _ Hs) as Hl. unfold UUIDSet.String.
  destruct (UUID.String (UUIDSet.SID s)) as [|c r]; [done|]. eauto.
Qed.

Lemma parse_sets_text l : forall s0, Forall uuid_set_ok l -> l <> [] ->
  MysqlGTIDSet.parse_sets (Split "," (MysqlGTIDSet.sets_text l)) s0 =
    Some (foldl (fun s set => MysqlGTIDSet.AddSet set s) s0 l).
Proof.
  induction l as [|set l IH]; intros s0 Hl Hne; [done|]. apply Forall_cons in Hl as (Hset & Hl).
  assert (has_char "," (UUIDSet.String set) = false) as Hc by (apply set_text_no_char; [done|cbn; lia]).
  destruct l as [|set' l].
  - cbn [MysqlGTIDSet.sets_text]. rewrite Split_single by done. cbn [MysqlGTIDSet.parse_sets foldl].
    by rewrite ParseUUIDSet_String.
  - change (MysqlGTIDSet.sets_text (set :: set' :: l))
      with (UUIDSet.String set +:+ String "," (MysqlGTIDSet.sets_text (set' :: l))).
    rewrite Split_app by done. cbn [MysqlGTIDSet.parse_sets].
    rewrite ParseUUIDSet_String by done. cbn [mbind option_bind]. by rewrite IH.
Qed.

Lemma parse_orders s l :
  gtids_ok s -> MysqlGTIDSet.orders s l -> MysqlGTIDSet.ParseMysqlGTIDSet (MysqlGTIDSet.sets_text l) = Some s.
Proof.
  intros Hs Hl. pose proof (orders_ok s l Hs Hl) as Hok. rewrite <-(add_orders s l Hs Hl).
  unfold MysqlGTIDSet.ParseMysqlGTIDSet. destruct l as [|set l]; [done|].
  destruct (String.eqb_spec (MysqlGTIDSet.sets_text (set :: l)) "") as [E|_].
  - apply Forall_cons in Hok as (Hset & _). destruct (set_text_some set Hset) as (c & r & Er).
    destruct l; cbn [MysqlGTIDSet.sets_text] in E; rewrite Er in E; done.
  - by apply parse_sets_text.
Qed.

(** The text of one GTID, as the syncer keeps it. *)
Definition gtid_text (u : bytes) (gno : Z) : string := UUID.String u +:+ ":" +:+ fmt_d gno.

Definition single (u : bytes) (gno : Z) : UUIDSet.t := UUIDSet.mk u [Interval.mk gno (gno + 1)].

Lemma single_ok u gno : UUID.ok u -> 0 <= gno < 2 ^ 63 - 1 -> uuid_set_ok (single u gno).
Proof.
  intros Hu Hg. split; cbn; [done| |done|].
  - unfold valid. cbn. split; [lia|done].
  - repeat constructor; cbn; lia.
Qed.

Lemma gtid_text_single u gno : 0 <= gno < 2 ^ 63 - 1 -> gtid_text u gno = UUIDSet.String (single u gno).
Proof.
  intros Hg. unfold gtid_text, UUIDSet.String, single, UUIDSet.intervals_text, Interval.String.
  cbn [UUIDSet.SID UUIDSet.Intervals Interval.Start Interval.Stop]. rewrite i64_small, Z.eqb_refl by lia.
  by rewrite string_app_nil_r.
Qed.

Lemma Update_gtid u gno s :
  UUID.ok u -> 0 <= gno < 2 ^ 63 - 1 ->
  MysqlGTIDSet.Update (gtid_text u gno) s = Some (MysqlGTIDSet.AddSet (single u gno) s).
Proof.
  intros Hu Hg. unfold MysqlGTIDSet.Update. rewrite gtid_text_single by done.
  by rewrite ParseUUIDSet_String by (by apply single_ok).
Qed.

(** Text with the sets of two servers is not the text of one set: the UUID of
    the second one ends up in an interval. *)
Fixpoint count_char (c : ascii) (s : string) : nat :=
  match s with
  | "" => O
  | String d s' => if ascii_dec d c then S (count_char c s') else count_char c s'
  end.

Lemma count_char_app c s t : count_char c (s +:+ t) = (count_char c s + count_char c t)%nat.
Proof.
  induction s as [|d s IH]; [done|]. rewrite string_app_cons. cbn [count_char].
  destruct (ascii_dec d c); rewrite IH; done.
Qed.

Lemma length_Split sep s : length (Split sep s) = S (count_char sep s).
Proof.
  induction s as [|c s IH]; [done|]. cbn [Split count_char]. destruct (ascii_dec c sep); [cbn; by rewrite IH|].
  destruct (Split sep s); [done|]. done.
Qed.

Lemma parseInterval_uuid a u : Interval.parseInterval (a +:+ UUID.String u) = None.
Proof.
  unfold Interval.parseInterval. pose proof (length_Split "-" (a +:+ UUID.String u)) as Hl.
  unfold UUID.String in *. rewrite !count_char_app in Hl. change (count_char "-" "-") with 1%nat in Hl.
  destruct (Split "-" _) as [|p0 [|p1 [|p2 r]]]; cbn [length] in Hl; done || lia.
Qed.

Lemma parse_intervals_uuid l a u r :
  UUIDSet.parse_intervals (l ++ (a +:+ UUID.String u) :: r) = None.
Proof.
  induction l as [|s l IH]; cbn [app UUIDSet.parse_intervals].
  - by rewrite parseInterval_uuid.
  - rewrite IH. by destruct (Interval.parseInterval s).
Qed.

Lemma Split_intervals_then l : forall s t,
  has_char ":" s = false -> Forall interval_ok l -> Forall valid l -> has_char ":" t = false -> l <> [] ->
  forall r, exists m z, Split ":" (s +:+ UUIDSet.intervals_text l +:+ t +:+ String ":" r) =
    s :: m ++ (z +:+ t) :: Split ":" r.
Proof.
  induction l as [|i l IH]; intros s t Hs Hi Hv Ht Hne r; [done|]. cbn [UUIDSet.intervals_text].
  apply Forall_cons in Hi as (Hi1 & Hi). apply Forall_cons in Hv as (Hv1 & Hv).
  assert (has_char ":" (Interval.String i) = false) as Hc by (apply interval_text_no_char; [done|done|cbn; lia|done]).
  change (":" +:+ ?s) with (String ":" s). rewrite string_app_cons, string_app_assoc, Split_app by done.
  destruct l as [|j l].
  - exists [], (Interval.String i). cbn [UUIDSet.intervals_text app]. f_equal.
    change ("" +:+ ?s) with s. rewrite <-string_app_assoc. rewrite Split_app; [done|].
    by rewrite has_char_app, Hc, Ht.
  - destruct (IH (Interval.String i) t Hc Hi Hv Ht ltac:(done) r) as (m & z & E).
    exists (Interval.String i :: m), z. by rewrite E.
Qed.

Lemma sets_text_no_space c l :
  Forall uuid_set_ok l -> is_space c = true -> has_char c (MysqlGTIDSet.sets_text l) = false.
Proof.
  intros Hl Hc.
  assert (N_of_ascii c < 45)%N as Hlt.
  { apply bool_decide_eq_true in Hc. repeat apply elem_of_cons in Hc as [-> |Hc]; [cbn; lia..|].
    by apply elem_of_nil in Hc. }
  assert (c <> ","%char) as Hcomma by (intros ->; done).
  induction Hl as [|x k Hx Hk IH]; [done|]. destruct k; [by apply set_text_no_char|].
  cbn [MysqlGTIDSet.sets_text].
  rewrite has_char_app, set_text_no_char, has_char_app, has_char_single by (done || congruence). apply IH.
Qed.

Lemma Update_several a b l s :
  uuid_set_ok a -> uuid_set_ok b -> Forall uuid_set_ok l ->
  MysqlGTIDSet.Update (MysqlGTIDSet.sets_text (a :: b :: l)) s = None.
Proof.
  intros Ha Hb Hl. unfold MysqlGTIDSet.Update, UUIDSet.ParseUUIDSet. rewrite TrimSpace_id.
  2:{ intros c Hc. destruct (is_space c) eqn:E; [|done].
      rewrite sets_text_no_space in Hc; [done|constructor; [done|by constructor]|done]. }
  pose proof Ha as [Ha1 Ha2 Ha3 Ha4]. pose proof Hb as [Hb1 Hb2 Hb3 Hb4].
  assert (exists r, MysqlGTIDSet.sets_text (a :: b :: l) =
    UUID.String (UUIDSet.SID a) +:+ UUIDSet.intervals_text (UUIDSet.Intervals a) +:+
      ("," +:+ UUID.String (UUIDSet.SID b)) +:+ String ":" r) as (r & ->).
  { cbn [MysqlGTIDSet.sets_text]. unfold UUIDSet.String.
    destruct (UUIDSet.Intervals b) as [|i bl]; [done|]. cbn [UUIDSet.intervals_text].
    destruct l; rewrite !string_app_assoc; eexists; reflexivity. }
  destruct (Split_intervals_then (UUIDSet.Intervals a) (UUID.String (UUIDSet.SID a)) ("," +:+ UUID.String (UUIDSet.SID b)))
    with (r := r) as (m & z & ->); [|done|by apply normal_valid| |done|].
  { apply uuid_no_char; [done|cbn; lia|done]. }
  { rewrite has_char_app, uuid_no_char; [done|done|cbn; lia|done]. }
  destruct (m ++ _) as [|x y] eqn:E; [by destruct m|]. rewrite <-E. destruct (UUID.FromString _); [|done].
  cbn [mbind option_bind]. rewrite <-string_app_assoc. by rewrite parse_intervals_uuid.
Qed.

(** * Theorems *)

Definition sid1 : bytes := replicate 16 17.
Definition sid2 : bytes := replicate 16 34.
Definition sample_gtids : MysqlGTIDSet.t :=
  {[ UUID.String sid1 := UUIDSet.mk sid1 [Interval.mk 1 6; Interval.mk 8 9];
     UUID.String sid2 := UUIDSet.mk sid2 [Interval.mk 3 4] ]}.

Lemma sids_ok : UUID.ok sid1 /\ UUID.ok sid2.
Proof.
  unfold UUID.ok, bytes_ok, is_u8. split; (split; [done|]); apply Forall_replicate; lia.
Qed.

Lemma sample_sets_ok :
  uuid_set_ok (UUIDSet.mk sid1 [Interval.mk 1 6; Interval.mk 8 9]) /\
  uuid_set_ok (UUIDSet.mk sid2 [Interval.mk 3 4]).
Proof.
  destruct sids_ok. split; split; cbn; unfold valid, interval_ok; cbn; try done; try lia; repeat constructor; cbn; lia.
Qed.

Lemma sample_gtids_ok : gtids_ok sample_gtids.
Proof.
  destruct sample_sets_ok as [H1 H2]. unfold sample_gtids, gtids_ok.
  apply map_Forall_insert_2; [by split|]. apply map_Forall_singleton. by split.
Qed.

(** C38: Normalizing a slice of intervals that are not empty keeps the numbers
    in it and gives its normal form, the only slice in order and with gaps that
    has these numbers. *)
Theorem normalize_normal_form l :
  Forall valid l ->
  normal (IntervalSlice.Normalize l) /\ (forall x, mem x (IntervalSlice.Normalize l) <-> mem x l) /\
  forall k, normal k -> (forall x, mem x k <-> mem x l) -> k = IntervalSlice.Normalize l.
Proof.
  intros Hv. destruct (Normalize_ok l Hv) as (Hn & Hm). split; [done|]. split; [done|].
  intros k Hk Hkm. apply normal_unique; [done|done|]. intros x. by rewrite Hm.
Qed.

Lemma normalize_normal_form_witness :
  IntervalSlice.Normalize [Interval.mk 5 7; Interval.mk 1 3; Interval.mk 3 4] = [Interval.mk 1 4; Interval.mk 5 7] /\
  forall x, mem x [Interval.mk 1 4; Interval.mk 5 7] <-> mem x [Interval.mk 5 7; Interval.mk 1 3; Interval.mk 3 4].
Proof.
  split; [reflexivity|].
  apply (normalize_normal_form [Interval.mk 5 7; Interval.mk 1 3; Interval.mk 3 4]).
  repeat constructor.
Defined.

(** C37: Of two well-formed GTID sets, [Contain] holds exactly when every
    transaction of the second one is in the first one. *)
Theorem contain_is_subset s sub :
  gtids_ok s -> gtids_ok sub ->
  MysqlGTIDSet.Contain s sub = true <-> forall u x, UUID.ok u -> gmem u x sub -> gmem u x s.
Proof. apply gtids_Contain_spec. Qed.

Lemma contain_is_subset_witness :
  MysqlGTIDSet.Contain sample_gtids sample_gtids = true <->
  forall u x, UUID.ok u -> gmem u x sample_gtids -> gmem u x sample_gtids.
Proof. apply (contain_is_subset sample_gtids sample_gtids); apply sample_gtids_ok. Defined.

(** Adding one transaction. *)
Lemma AddSet_single s u gno :
  gtids_ok s -> UUID.ok u -> 0 <= gno < 2 ^ 63 - 1 ->
  gtids_ok (MysqlGTIDSet.AddSet (single u gno) s) /\
  forall v x, UUID.ok v -> gmem v x (MysqlGTIDSet.AddSet (single u gno) s) <-> gmem v x s \/ (v = u /\ x = gno).
Proof.
  intros Hs Hu Hg. destruct (AddSet_ok (single u gno) s Hs (single_ok u gno Hu Hg)) as (H1 & H2). split; [done|].
  intros v x Hv. rewrite H2 by done. cbn [single UUIDSet.SID UUIDSet.Intervals].
  setoid_rewrite mem_cons. cbn [Interval.Start Interval.Stop].
  split; (intros [?|[-> Hx]]; [by left|right; split; [done|]]).
  - destruct Hx as [?|Hx]; [lia|by apply mem_nil in Hx].
  - left. lia.
Qed.

(** Adding the transactions of a server keeps a GTID set well formed and
    adds exactly these transactions; the GTID that the syncer keeps as text
    adds the one transaction that it names. *)
Theorem add_transactions set s u gno :
  gtids_ok s -> uuid_set_ok set -> UUID.ok u -> 0 <= gno < 2 ^ 63 - 1 ->
  (gtids_ok (MysqlGTIDSet.AddSet set s) /\
   forall v x, UUID.ok v ->
     gmem v x (MysqlGTIDSet.AddSet set s) <->
       gmem v x s \/ v = UUIDSet.SID set /\ mem x (UUIDSet.Intervals set)) /\
  exists s', MysqlGTIDSet.Update (gtid_text u gno) s = Some s' /\ gtids_ok s' /\
    forall v x, UUID.ok v -> gmem v x s' <-> gmem v x s \/ (v = u /\ x = gno).
Proof.
  intros Hs Hset Hu Hg. split; [by apply AddSet_ok|].
  exists (MysqlGTIDSet.AddSet (single u gno) s). split; [by apply Update_gtid|]. by apply AddSet_single.
Qed.

Lemma add_transactions_witness :
  exists s', MysqlGTIDSet.Update (gtid_text sid2 4) sample_gtids = Some s' /\ gtids_ok s' /\
    forall v x, UUID.ok v -> gmem v x s' <-> gmem v x sample_gtids \/ (v = sid2 /\ x = 4).
Proof.
  apply (add_transactions (UUIDSet.mk sid2 [Interval.mk 3 4]) sample_gtids sid2 4);
    [apply sample_gtids_ok|apply sample_sets_ok|apply sids_ok|lia].
Defined.

(** C40: In whatever order Go ranges over the map, the binary form of a
    well-formed GTID set is decoded to the set, and so is its text. *)
Theorem gtids_read_back s l rest :
  gtids_ok s -> MysqlGTIDSet.orders s l -> blen (MysqlGTIDSet.encode_sets l ++ rest) < 2 ^ 62 ->
  MysqlGTIDSet.DecodeMysqlGTIDSet (MysqlGTIDSet.encode_sets l ++ rest) = Ok s /\
  MysqlGTIDSet.ParseMysqlGTIDSet (MysqlGTIDSet.sets_text l) = Some s.
Proof. intros Hs Hl Hb. split; [by apply decode_encode_sets|by apply parse_orders]. Qed.

Lemma gtids_read_back_witness :
  MysqlGTIDSet.DecodeMysqlGTIDSet (MysqlGTIDSet.Encode sample_gtids ++ [1; 2]) = Ok sample_gtids /\
  MysqlGTIDSet.ParseMysqlGTIDSet (MysqlGTIDSet.String sample_gtids) = Some sample_gtids.
Proof.
  apply (gtids_read_back sample_gtids (map_to_list sample_gtids).*2 [1; 2]);
    [apply sample_gtids_ok|apply Permutation_refl|vm_compute; reflexivity].
Defined.

(** [Update] takes the text of a single UUID only: the text of a set with
    transactions of two or more servers is an error. *)
Theorem update_refuses_several s l t :
  gtids_ok s -> MysqlGTIDSet.orders s l -> (2 <= size s)%nat ->
  MysqlGTIDSet.Update (MysqlGTIDSet.sets_text l) t = None.
Proof.
  intros Hs Hl Hsz. pose proof (orders_ok s l Hs Hl) as Hok. unfold MysqlGTIDSet.orders in Hl.
  apply Permutation_length in Hl. rewrite length_fmap, length_map_to_list in Hl.
  destruct l as [|a [|b l]]; cbn [length] in Hl; [lia|lia|].
  apply Forall_cons in Hok as (Ha & Hok). apply Forall_cons in Hok as (Hb & Hok). by apply Update_several.
Qed.

Lemma update_refuses_several_witness : MysqlGTIDSet.Update (MysqlGTIDSet.String sample_gtids) ∅ = None.
Proof.
  apply (update_refuses_several sample_gtids (map_to_list sample_gtids).*2 ∅);
    [apply sample_gtids_ok|apply Permutation_refl|].
  vm_compute. lia.
Defined.

Lemma Equal_spec s sub :
  gtids_ok s -> gtids_ok sub -> MysqlGTIDSet.Equal s sub = true <-> sub ⊆ s.
Proof.
  intros Hs Hsub. unfold MysqlGTIDSet.Equal. rewrite forallb_map_to_list, map_subseteq_spec.
  split; intros H k set Hk; specialize (H k set Hk).
  - destruct (s !! k) as [o|] eqn:Eo; [|done]. f_equal. apply bool_decide_eq_true in H.
    destruct (Hs _ _ Eo) as (K1 & O1). destruct (Hsub _ _ Hk) as (K2 & O2).
    destruct o as [a i], set as [b j]. cbn in *. f_equal; [|done]. apply uuid_inj; [apply O1|apply O2|congruence].
  - rewrite H. by apply bool_decide_eq_true.
Qed.

(** [Equal] looks only at the sets of its argument: it holds exactly when
    each of them is also a set of the receiver, which can have more. *)
Theorem equal_one_sided s sub :
  gtids_ok s -> gtids_ok sub -> MysqlGTIDSet.Equal s sub = true <-> sub ⊆ s.
Proof. apply Equal_spec. Qed.

Lemma equal_one_sided_witness : MysqlGTIDSet.Equal sample_gtids ∅ = true <-> ∅ ⊆ sample_gtids.
Proof. apply (equal_one_sided sample_gtids ∅); [apply sample_gtids_ok|apply gtids_ok_empty]. Defined.
