(* ===== verification/MetaStore.v ===== *)
(** The metadata store, storage/meta_storage.go: a bolt bucket as a finite map
    whose cursor walks the keys in the order of their bytes, transactions that
    commit all of their changes or none, and the operations of [MetaStore]. *)
From S2P Require Import Prelude.
From S2P Require Import Names.
From S2P Require Import Text.
From S2P Require Import Events.
From S2P Require Import Gtid.
From S2P Require Import Storage.
From Stdlib Require Import Ascii.
From stdpp Require Import sorting strings.
Local Open Scope string_scope.
Local Open Scope Z_scope.
Local Open Scope go_scope.

(** [json.Marshal] and [json.Unmarshal] for a type whose values can always be
    marshalled, and what is relied on: a value is read back. *)
Class Json (A : Type) : Type := {
  json_Marshal : A -> bytes;
  json_Unmarshal : bytes -> option A }.
Class JsonLaws (A : Type) `{Json A} : Prop :=
  json_roundtrip (a : A) : json_Unmarshal (json_Marshal a) = Some a.

(** [raftpb.ConfState] *)
Module ConfState.
Record t : Type := mk { Nodes : list Z; Learners : list Z }.
#[global] Instance eq_dec : EqDecision t.
Proof. solve_decision. Defined.
Definition empty : t := mk [] [].
End ConfState.

(** * Keys, storage/storage.go *)

Definition HardStateKey : string := "hard_state".
Definition ConfStateKey : string := "conf_state".
Definition ExecutedGtidSetKey : string := "executed_gtids".
Definition GtidPurgedKey : string := "gtid_purged".
Definition FdePrefix : string := "fde".
Definition NextBinlogPrefix : string := "next_binlog".
Definition MasterInfoKey : string := "master_info".
Definition PgePrefix : string := "pre_gtids".
Definition SyncerArgsKey : string := "syncer_args".
Definition RaftClusterKey : string := "raft_cluster".
Definition AppliedIndexKey : string := "apply_index".
Definition MySQLFlavor : string := "mysql".

(** [path.Join(prefix, fmt.Sprintf("%020d", raftIndex))] *)
Definition index_key (prefix : string) (raftIndex : Z) : string := path_Join prefix (fmt_020d raftIndex).

Module MetaStore.

Abbreviation Bucket := (gmap string bytes).

(** [faults] tells which of the next commits fail. *)
Record t : Type := mk { bucket : Bucket; isClosed : bool; faults : list (option Z) }.

(** * bolt *)

(** [DB.Update]: the changes of [f] are committed, or dropped when [f] returns
    an error. *)
Definition Update {A} (f : Bucket -> res A * Bucket) : St t A := fun s =>
  if isClosed s then (Err ErrDatabaseNotOpen, s) else
  match f (bucket s) with
  | (Ok a, b) =>
      match faults s with
      | Some errno :: l => (Err (ErrOS errno), mk (bucket s) false l)
      | None :: l => (Ok a, mk b false l)
      | [] => (Ok a, mk b false [])
      end
  | (Err e, _) => (Err e, s)
  | (Panic, _) => (Panic, s)
  end.

Definition View {A} (f : Bucket -> res A) : St t A := fun s =>
  if isClosed s then (Err ErrDatabaseNotOpen, s) else (f (bucket s), s).

Definition Put (key : string) (value : bytes) (b : Bucket) : res unit * Bucket :=
  if String.eqb key "" then (Err ErrKeyRequired, b) else (Ok tt, <[key := value]> b).

Fixpoint drop_while {A} (f : A -> bool) (l : list A) : list A :=
  match l with [] => [] | x :: l' => if f x then drop_while f l' else l end.
Fixpoint take_while {A} (f : A -> bool) (l : list A) : list A :=
  match l with [] => [] | x :: l' => if f x then x :: take_while f l' else [] end.

(** [for k, v := cursor.Seek(prefix); k != nil && bytes.HasPrefix(k, prefix);
    k, v = cursor.Next()]: the keys that the loop visits and their values. *)
Definition cursor (b : Bucket) (prefix : string) : list (string * bytes) :=
  (fun k => (k, default [] (b !! k))) <$>
    take_while (fun k => str_HasPrefix k prefix)
      (drop_while (fun k => String.ltb k prefix) (sorted_names b)).

(** * Reading and writing *)

Definition Get (key : bytes) : St t (option bytes) :=
  if blen key =? 0 then throw ErrKeyIsNil else
  View (fun b => Ok (b !! BytesToString key)).

Definition Set_ (key value : bytes) : St t unit := Update (Put (BytesToString key) value).

Definition Delete (key : bytes) : St t unit :=
  Update (fun b => (Ok tt, delete (BytesToString key) b)).

Section RaftState.
Context `{Json HardState.t} `{Json ConfState.t}.

Definition decode_or {A} `{Json A} (zero : A) (value : option bytes) : res A :=
  match value with
  | None => Ok zero
  | Some v => match json_Unmarshal v with None => Err ErrJson | Some a => Ok a end
  end.

Definition InitialState : St t (HardState.t * ConfState.t) :=
  let! hsValue := Get (StringToBytes HardStateKey) in
  let! hs := lift (decode_or HardState.empty hsValue) in
  let! csValue := Get (StringToBytes ConfStateKey) in
  let! cs := lift (decode_or ConfState.empty csValue) in
  ret (hs, cs).

Definition SaveHardState (st : HardState.t) : St t unit :=
  Set_ (StringToBytes HardStateKey) (json_Marshal st).

End RaftState.

(** * GTID sets *)

Definition SetGtidSet (flavor key : string) (gtidSet : MysqlGTIDSet.t) : St t unit :=
  Set_ (StringToBytes (path_Join flavor key)) (MysqlGTIDSet.Encode gtidSet).

Definition GetGtidSet (flavor key : string) : St t MysqlGTIDSet.t :=
  let! value := Get (StringToBytes (path_Join flavor key)) in
  match value with
  | None => ret ∅
  | Some v => lift (MysqlGTIDSet.DecodeMysqlGTIDSet v)
  end.

Definition SetBinlogProgress (appliedIndex : Z) (executedGtidSet : MysqlGTIDSet.t) : St t unit :=
  Update (fun b =>
    match Put (path_Join MySQLFlavor ExecutedGtidSetKey) (MysqlGTIDSet.Encode executedGtidSet) b with
    | (Ok _, b1) => Put AppliedIndexKey (be_bytes 8 appliedIndex) b1
    | r => r
    end).

(** The raft index in a key. *)
Definition key_index (key : string) : res Z :=
  match Split "/" key with
  | [_; s] => match ParseUint s with (i, None) => Ok i | _ => Err ErrKeyNotFound end
  | _ => Err ErrKeyNotFound
  end.

(** * Previous GTID sets *)

Fixpoint pge_exists (previousGtidSet : MysqlGTIDSet.t) (l : list (string * bytes)) : res bool :=
  match l with
  | [] => Ok false
  | (_, v) :: l' =>
      match MysqlGTIDSet.DecodeMysqlGTIDSet v with
      | Ok gtids => if MysqlGTIDSet.Equal gtids previousGtidSet then Ok true else pge_exists previousGtidSet l'
      | Err e => Err e
      | Panic => Panic
      end
  end.

Definition SetPreviousGtidSet (raftIndex : Z) (previousGtidSet : MysqlGTIDSet.t) : St t unit :=
  Update (fun b =>
    match pge_exists previousGtidSet (cursor b PgePrefix) with
    | Ok true => (Ok tt, b)
    | Ok false => Put (index_key PgePrefix raftIndex) (MysqlGTIDSet.Encode previousGtidSet) b
    | Err e => (Err e, b)
    | Panic => (Panic, b)
    end).

(** [cursor.Delete] does not move the cursor, which goes on over the page that
    it has read. *)
Fixpoint delete_before (lastRaftIndex : Z) (l : list (string * bytes)) (b : Bucket) : res unit * Bucket :=
  match l with
  | [] => (Ok tt, b)
  | (k, _) :: l' =>
      match key_index k with
      | Ok raftIndex => delete_before lastRaftIndex l' (if raftIndex <? lastRaftIndex then delete k b else b)
      | Err e => (Err e, b)
      | Panic => (Panic, b)
      end
  end.

Definition deletePreviousGtidSet (lastRaftIndex : Z) : St t unit :=
  Update (fun b => delete_before lastRaftIndex (cursor b PgePrefix) b).

(** The loop of [GetPreviousGtidSet]: the key of the last set found. *)
Fixpoint find_previous (slaveExecutedGtids : MysqlGTIDSet.t) (l : list (string * bytes)) (lastKey : option string)
    : res (option string) :=
  match l with
  | [] => Ok lastKey
  | (k, v) :: l' =>
      match MysqlGTIDSet.DecodeMysqlGTIDSet v with
      | Ok gtids =>
          if (size slaveExecutedGtids =? 0)%nat then Ok (Some k)
          else if MysqlGTIDSet.Contain slaveExecutedGtids gtids
          then find_previous slaveExecutedGtids l' (Some k)
          else find_previous slaveExecutedGtids l' lastKey
      | Err e => Err e
      | Panic => Panic
      end
  end.

Definition GetPreviousGtidSet (slaveExecutedGtids : MysqlGTIDSet.t) : St t Z :=
  View (fun b =>
    match find_previous slaveExecutedGtids (cursor b PgePrefix) None with
    | Ok None => Err ErrNotContain
    | Ok (Some lastKey) => key_index lastKey
    | Err e => Err e
    | Panic => Panic
    end).

(** The loop of [UpdatePugedGtidset]: the first set behind [firstIndex]. *)
Fixpoint find_proximal (firstIndex : Z) (l : list (string * bytes)) : res (option MysqlGTIDSet.t) :=
  match l with
  | [] => Ok None
  | (k, v) :: l' =>
      match key_index k with
      | Ok raftIndex =>
          if firstIndex <? raftIndex then
            match MysqlGTIDSet.DecodeMysqlGTIDSet v with
            | Ok gtids => Ok (Some gtids)
            | Err e => Err e
            | Panic => Panic
            end
          else find_proximal firstIndex l'
      | Err e => Err e
      | Panic => Panic
      end
  end.

(** [gtidPurged.Update(gtids.String())], which ends the process on an error. *)
Definition UpdatePugedGtidset (firstIndex : Z) : St t unit :=
  let! gtids := View (fun b => find_proximal firstIndex (cursor b PgePrefix)) in
  match gtids with
  | None => ret tt
  | Some gtids =>
      if String.eqb (MysqlGTIDSet.String gtids) "" then ret tt else
      let! gtidPurged := fatal_on_err (GetGtidSet MySQLFlavor GtidPurgedKey) in
      let! gtidPurged := must (MysqlGTIDSet.Update (MysqlGTIDSet.String gtids) gtidPurged) in
      SetGtidSet MySQLFlavor GtidPurgedKey gtidPurged ;!
      deletePreviousGtidSet firstIndex
  end.

(** * Format description events and names of binlog files *)

Fixpoint find_fde (preGtidEventIndex : Z) (l : list (string * bytes)) (fde : bytes) : res bytes :=
  match l with
  | [] => Ok fde
  | (k, v) :: l' =>
      match key_index k with
      | Ok raftIndex => if raftIndex <? preGtidEventIndex then find_fde preGtidEventIndex l' v else Ok fde
      | Err e => Err e
      | Panic => Panic
      end
  end.

Definition GetFde (preGtidEventIndex : Z) : St t bytes :=
  let! fde := View (fun b => find_fde preGtidEventIndex (cursor b FdePrefix) []) in
  if blen fde =? 0 then throw ErrNotContain else ret fde.

(** [None] where the process ends. *)
Definition generatePreviousLogName (binlogFileName : string) : option string :=
  match Split "." binlogFileName with
  | [base; s] =>
      match ParseUint s with
      | (num, None) => Some (base +:+ "." +:+ fmt_06d (u64 (num - 1)))
      | _ => None
      end
  | _ => None
  end.

Fixpoint find_next_binlog (startRaftIndex : Z) (l : list (string * bytes)) (fileName : string) : res string :=
  match l with
  | [] => Ok fileName
  | (k, v) :: l' =>
      match key_index k with
      | Ok raftIndex =>
          if raftIndex <? startRaftIndex then find_next_binlog startRaftIndex l' (BytesToString v)
          else if String.eqb fileName "" then
            match generatePreviousLogName (BytesToString v) with None => Panic | Some n => Ok n end
          else Ok fileName
      | Err e => Err e
      | Panic => Panic
      end
  end.

Definition GetNextBinlogFile (startRaftIndex : Z) : St t string :=
  let! fileName := View (fun b => find_next_binlog startRaftIndex (cursor b NextBinlogPrefix) "") in
  if String.eqb fileName "" then throw ErrKeyNotFound else ret fileName.

(** * Opening and closing *)

Definition init : St t unit := Update (fun b => (Ok tt, b)).

(** [NewMetaStore] of a file with the given bucket, empty when the file is new. *)
Definition NewMetaStore (dir : string) (file : Bucket) (faults : list (option Z)) : res t :=
  if String.eqb dir "" then Err ErrArgsIllegal else
  match init (mk file false faults) with
  | (Ok _, s) => Ok s
  | (Err e, _) => Err e
  | (Panic, _) => Panic
  end.

Definition Close2 : St t unit := modify (fun s => mk (bucket s) true (faults s)).

End MetaStore.

(** The interface that the log storage and the raft node use. *)
#[export] Instance meta_store `{Json HardState.t} : MetaStorage MetaStore.t := {|
  meta_SaveHardState := MetaStore.SaveHardState;
  meta_Get := MetaStore.Get;
  meta_Set := MetaStore.Set_;
  meta_UpdatePugedGtidset := MetaStore.UpdatePugedGtidset;
  meta_Close2 := MetaStore.Close2 |}.

(** * Cursors *)

(** The entries under a prefix are those of a map from raft indexes. *)
Definition indexed (prefix : string) (b : gmap string bytes) (m : gmap Z bytes) : Prop :=
  (forall i v, m !! i = Some v -> is_u64 i) /\
  forall k v, str_HasPrefix k prefix = true ->
    (b !! k = Some v <-> exists i, k = index_key prefix i /\ m !! i = Some v).

(** The indexes in order. *)
Definition idx (m : gmap Z bytes) : list Z := merge_sort Z.le (map_to_list m).*1.

Lemma str_HasPrefix_app p s : str_HasPrefix (p +:+ s) p = true.
Proof.
  induction p as [|c p IH]; [by destruct s|]. rewrite string_app_cons. cbn. by destruct (ascii_dec c c).
Qed.

Lemma name_lt_cons c d k p :
  name_lt (String c k) (String d p) <-> (N_of_ascii c < N_of_ascii d)%N \/ (c = d /\ name_lt k p).
Proof.
  unfold name_lt, String.ltb. cbn [String.compare]. rewrite ascii_compare_N.
  destruct (N.compare_spec (N_of_ascii c) (N_of_ascii d)) as [E|E|E].
  - apply (f_equal ascii_of_N) in E. rewrite !ascii_N_embedding in E. subst. split; [by right|].
    intros [?|[_ ?]]; [lia|done].
  - split; [by left|done].
  - split; [done|]. intros [?|[-> _]]; lia.
Qed.

Lemma name_le_not_lt a b : name_le a b <-> ~ name_lt b a.
Proof.
  rewrite name_le_cases. split.
  - intros [-> |H] H'; [by apply name_lt_irrefl in H'|]. apply (name_lt_irrefl a). by trans b.
  - intros H. destruct (total name_le a b) as [H'|H']; apply name_le_cases in H'; destruct H' as [-> |H']; auto; by destruct H.
Qed.

Lemma prefix_not_lt p : forall k, str_HasPrefix k p = true -> ~ name_lt k p.
Proof.
  induction p as [|c p IH]; intros [|d k]; try done. cbn [str_HasPrefix].
  destruct (ascii_dec c d) as [->|]; [|done]. intros H. rewrite name_lt_cons. intros [?|[_ H']]; [lia|].
  by apply (IH k H).
Qed.

(** The keys with a prefix are next to each other. *)
Lemma prefix_convex p : forall k k',
  ~ name_lt k p -> ~ name_lt k' k -> str_HasPrefix k' p = true -> str_HasPrefix k p = true.
Proof.
  induction p as [|c p IH]; intros [|d k] [|e k']; try done; cbn [str_HasPrefix].
  rewrite !name_lt_cons. destruct (ascii_dec c e) as [->|]; [|done].
  intros H1 H2 H3. destruct (ascii_dec e d) as [->|Hne].
  - apply (IH k k'); [intros H; apply H1; auto|intros H; apply H2; auto|done].
  - exfalso. destruct (N.lt_trichotomy (N_of_ascii e) (N_of_ascii d)) as [H|[H|H]].
    + apply H2. by left.
    + apply Hne. apply (f_equal ascii_of_N) in H. by rewrite !ascii_N_embedding in H.
    + apply H1. by left.
Qed.

Lemma filter_none {A} (P : A -> Prop) `{forall x, Decision (P x)} l : Forall (fun x => ~ P x) l -> filter P l = [].
Proof. induction 1; [done|]. by rewrite filter_cons_False. Qed.

Lemma cursor_filter prefix l :
  StronglySorted name_le l ->
  MetaStore.take_while (fun k => str_HasPrefix k prefix)
    (MetaStore.drop_while (fun k => String.ltb k prefix) l) = filter (fun k => str_HasPrefix k prefix = true) l.
Proof.
  induction 1 as [|x l Hl IH Hx]; [done|]. cbn [MetaStore.drop_while].
  destruct (String.ltb x prefix) eqn:Hlt.
  { rewrite IH, filter_cons_False; [done|]. intros H. by apply (prefix_not_lt _ _ H). }
  clear IH. assert (~ name_lt x prefix) as Hnx by (unfold name_lt; by rewrite Hlt). clear Hlt.
  revert x Hnx Hx. induction Hl as [|y l Hl IH Hy]; intros x Hnx Hx; cbn [MetaStore.take_while].
  - rewrite filter_cons. by destruct (str_HasPrefix x prefix).
  - apply Forall_cons in Hx as (Hxy & Hx). rewrite filter_cons.
    destruct (str_HasPrefix x prefix) eqn:Hp.
    + rewrite decide_True by done. f_equal. apply (IH y); [|done]. apply name_le_not_lt in Hnx.
      apply name_le_not_lt. by trans x.
    + rewrite decide_False by done. rewrite filter_none; [done|].
      apply Forall_forall. intros z Hz Hpz.
      assert (name_le x z) as Hxz by (apply elem_of_cons in Hz as [-> |Hz]; [done|]; rewrite Forall_forall in Hx; auto).
      rewrite (prefix_convex prefix x z) in Hp; [done|done|by apply name_le_not_lt|done].
Qed.

Lemma idx_spec m : StronglySorted Z.lt (idx m) /\ forall i, i ∈ idx m <-> is_Some (m !! i).
Proof.
  assert (forall i, i ∈ idx m <-> is_Some (m !! i)) as Hin.
  { intros i. unfold idx. rewrite merge_sort_Permutation, list_elem_of_fmap. split.
    - intros ((j & v) & -> & H%elem_of_map_to_list). by eexists.
    - intros [v Hv]. exists (i, v). split; [done|]. by apply elem_of_map_to_list. }
  split; [|done].
  assert (NoDup (idx m)) as Hnd by (unfold idx; rewrite merge_sort_Permutation; apply NoDup_fst_map_to_list).
  assert (StronglySorted Z.le (idx m)) as Hs by (apply (StronglySorted_merge_sort Z.le)).
  clear Hin. revert Hnd. induction Hs as [|x l Hl IH Hx]; intros Hnd; [constructor|].
  apply NoDup_cons in Hnd as (Hnx & Hnd). constructor; [by apply IH|].
  rewrite Forall_forall in Hx |- *. intros y Hy. specialize (Hx y Hy).
  assert (x <> y) by (by intros ->). lia.
Qed.

Definition entries (prefix : string) (m : gmap Z bytes) : list (string * bytes) :=
  (fun i => (index_key prefix i, default [] (m !! i))) <$> idx m.

Lemma index_key_lt prefix i j : is_u64 i -> is_u64 j -> i < j -> name_lt (index_key prefix i) (index_key prefix j).
Proof.
  intros Hi Hj Hij. unfold name_lt, String.ltb, index_key, path_Join. rewrite !string_compare_app.
  rewrite <-(string_app_nil_r (fmt_020d i)), <-(string_app_nil_r (fmt_020d j)).
  by rewrite fmt_020d_compare.
Qed.

Lemma cursor_entries prefix b m : indexed prefix b m -> MetaStore.cursor b prefix = entries prefix m.
Proof.
  intros [Hu Hb]. unfold MetaStore.cursor, entries. destruct (idx_spec m) as (Hs & Hin).
  rewrite cursor_filter by (apply (StronglySorted_merge_sort name_le)).
  rewrite (sorted_filter _ b (index_key prefix <$> idx m)).
  - rewrite <-list_fmap_compose. apply list_fmap_ext. intros n i Hi. cbn. f_equal.
    apply list_elem_of_lookup_2, Hin in Hi as [v Hv]. rewrite Hv.
    by rewrite (proj2 (Hb (index_key prefix i) v (str_HasPrefix_app _ _)) (ex_intro _ i (conj eq_refl Hv))).
  - assert (Forall (fun i => is_u64 i) (idx m)) as Hall.
    { apply Forall_forall. intros i [v Hv]%Hin. by eapply Hu. }
    clear Hin. induction Hs as [|i l Hl IH Hi]; [constructor|]. apply Forall_cons in Hall as (Hi64 & Hall).
    rewrite fmap_cons. constructor; [by apply IH|].
    rewrite Forall_forall in Hi, Hall. apply Forall_forall. intros k (j & -> & Hj)%list_elem_of_fmap.
    apply index_key_lt; auto.
  - intros k. rewrite list_elem_of_fmap. split.
    + intros (i & -> & [v Hv]%Hin). split; [|apply str_HasPrefix_app]. exists v. apply Hb; [apply str_HasPrefix_app|eauto].
    + intros [[v Hv] Hp]. apply Hb in Hv as (i & -> & Hi); [|done]. exists i. split; [done|]. apply Hin. by eexists.
Qed.
