(* ===== verification/MetaTheorems.v ===== *)
(** What the operations of the metadata store do, in terms of the maps from
    raft indexes to values that the store keeps under its prefixes. *)
From S2P Require Import Prelude.
From S2P Require Import Names.
From S2P Require Import Text.
From S2P Require Import Events.
From S2P Require Import Gtid.
From S2P Require Import GtidCodec.
From S2P Require Import Storage.
From S2P Require Import MetaStore.
From Stdlib Require Import Ascii.
From stdpp Require Import sorting strings list.
Local Open Scope string_scope.
Local Open Scope list_scope.
Local Open Scope Z_scope.
Local Open Scope go_scope.

(** * The last and the first index with a property *)

Definition is_last (P : Z -> Prop) {A} (m : gmap Z A) (i : Z) : Prop :=
  is_Some (m !! i) /\ P i /\ forall j, is_Some (m !! j) -> P j -> j <= i.
Definition is_first (P : Z -> Prop) {A} (m : gmap Z A) (i : Z) : Prop :=
  is_Some (m !! i) /\ P i /\ forall j, is_Some (m !! j) -> P j -> i <= j.

Section Search.
Context (P : Z -> Prop) `{forall i, Decision (P i)}.

Lemma sorted_last l i :
  StronglySorted Z.lt l -> last (filter P l) = Some i ->
  i ∈ l /\ P i /\ forall j, j ∈ l -> P j -> j <= i.
Proof.
  intros Hs Hl. assert (i ∈ filter P l) as Hi.
  { apply last_Some in Hl as (l' & ->). set_solver. }
  apply list_elem_of_filter in Hi as (Hp & Hi). split; [done|]. split; [done|]. intros j Hj Hpj.
  assert (j ∈ filter P l) as Hf by (by apply list_elem_of_filter).
  assert (StronglySorted Z.lt (filter P l)) as Hsf by (by apply StronglySorted_filter).
  apply last_Some in Hl as (l' & E). rewrite E in Hf, Hsf. apply elem_of_app in Hf as [Hf|Hf].
  - clear -Hsf Hf. induction l' as [|x l' IH]; [by apply elem_of_nil in Hf|].
    apply StronglySorted_inv in Hsf as (Hsf & Hx). apply elem_of_cons in Hf as [-> |Hf]; [|by apply IH].
    apply Forall_app in Hx as (_ & Hx). apply Forall_cons in Hx as (Hx & _). lia.
  - apply list_elem_of_singleton in Hf. lia.
Qed.

Lemma idx_last m i : last (filter P (idx m)) = Some i -> is_last P m i.
Proof.
  intros Hl. destruct (idx_spec m) as (Hs & Hin). destruct (sorted_last _ _ Hs Hl) as (Hi & Hp & Hmax).
  split; [by apply Hin|]. split; [done|]. intros j Hj. apply Hmax. by apply Hin.
Qed.

Lemma idx_none m : filter P (idx m) = [] -> forall j, is_Some (m !! j) -> ~ P j.
Proof.
  intros Hl j Hj Hp. destruct (idx_spec m) as (_ & Hin).
  assert (j ∈ filter P (idx m)) as H' by (apply list_elem_of_filter; split; [done|by apply Hin]).
  rewrite Hl in H'. by apply elem_of_nil in H'.
Qed.

Lemma idx_first m i l : filter P (idx m) = i :: l -> is_first P m i.
Proof.
  intros Hl. destruct (idx_spec m) as (Hs & Hin).
  assert (i ∈ filter P (idx m)) as Hi by (rewrite Hl; apply elem_of_cons; by left).
  apply list_elem_of_filter in Hi as (Hp & Hi). split; [by apply Hin|]. split; [done|]. intros j Hj Hpj.
  assert (j ∈ filter P (idx m)) as Hf by (apply list_elem_of_filter; split; [done|by apply Hin]).
  apply (StronglySorted_filter _ P) in Hs. rewrite Hl in Hs, Hf. apply StronglySorted_inv in Hs as (_ & Hs).
  apply elem_of_cons in Hf as [-> |Hf]; [done|]. rewrite Forall_forall in Hs. specialize (Hs j Hf). lia.
Qed.
End Search.

Lemma is_last_unique P {A} (m : gmap Z A) i j : is_last P m i -> is_last P m j -> i = j.
Proof. intros (H1 & H2 & H3) (H4 & H5 & H6). specialize (H3 j H4 H5). specialize (H6 i H1 H2). lia. Qed.

Lemma last_filter_cons (P : Z -> Prop) `{forall i, Decision (P i)} x l :
  last (filter P (x :: l)) = match last (filter P l) with Some y => Some y | None => if decide (P x) then Some x else None end.
Proof.
  rewrite filter_cons. case_decide.
  - rewrite last_cons. by destruct (last (filter P l)).
  - by destruct (last (filter P l)).
Qed.

(** * Keys *)

Lemma key_index_key prefix i :
  has_char "/" prefix = false -> is_u64 i -> MetaStore.key_index (index_key prefix i) = Ok i.
Proof.
  intros Hp Hi. unfold MetaStore.key_index, index_key, path_Join. change ("/" +:+ ?s) with (String "/" s).
  rewrite Split_app, Split_single by (done || apply digits_no_char; cbn; lia). by rewrite ParseUint_020d.
Qed.

Definition ent (prefix : string) (val : Z -> bytes) (l : list Z) : list (string * bytes) :=
  (fun i => (index_key prefix i, val i)) <$> l.

Lemma idx_u64 prefix b m : indexed prefix b m -> Forall is_u64 (idx m).
Proof.
  intros [Hu _]. apply Forall_forall. intros i Hi. destruct (idx_spec m) as (_ & Hin).
  apply Hin in Hi as [v Hv]. by eapply Hu.
Qed.

(** * The loops *)

Lemma find_fde_ent prefix val i l : forall d,
  has_char "/" prefix = false -> StronglySorted Z.lt l -> Forall is_u64 l ->
  MetaStore.find_fde i (ent prefix val l) d =
    Ok (default d (val <$> last (filter (fun j => j < i) l))).
Proof.
  intros d Hp Hs Hu. revert d. induction Hs as [|x l Hl IH Hx]; intros d; [done|].
  apply Forall_cons in Hu as (Hxu & Hu). unfold ent. rewrite fmap_cons. cbn [MetaStore.find_fde].
  rewrite key_index_key by done. rewrite last_filter_cons. destruct (Z.ltb_spec x i).
  - fold (ent prefix val l). rewrite IH by done. rewrite decide_True by done. by destruct (last _).
  - rewrite filter_none; [by rewrite decide_False by lia|].
    rewrite Forall_forall in Hx |- *. intros y Hy. specialize (Hx y Hy). lia.
Qed.

Lemma find_next_ent prefix val i l : forall d,
  has_char "/" prefix = false -> StronglySorted Z.lt l -> Forall is_u64 l ->
  (forall j, j ∈ l -> BytesToString (val j) <> "") ->
  MetaStore.find_next_binlog i (ent prefix val l) d =
    match last (filter (fun j => j < i) l) with
    | Some j => Ok (BytesToString (val j))
    | None =>
        if String.eqb d "" then
          match l with
          | [] => Ok d
          | j :: _ => match MetaStore.generatePreviousLogName (BytesToString (val j)) with
                      | None => Panic
                      | Some n => Ok n
                      end
          end
        else Ok d
    end.
Proof.
  intros d Hp Hs Hu Hv. revert d. induction Hs as [|x l Hl IH Hx]; intros d.
  { cbn. by destruct (String.eqb_spec d ""). }
  apply Forall_cons in Hu as (Hxu & Hu). unfold ent. rewrite fmap_cons. cbn [MetaStore.find_next_binlog].
  rewrite key_index_key by done. rewrite last_filter_cons. destruct (Z.ltb_spec x i).
  - fold (ent prefix val l). rewrite IH by (done || intros j Hj; apply Hv, elem_of_cons; by right).
    rewrite decide_True by done. destruct (last _); [done|].
    destruct (String.eqb_spec (BytesToString (val x)) "") as [E|_]; [|done].
    exfalso. apply (Hv x); [apply elem_of_cons; by left|done].
  - rewrite filter_none; [by rewrite decide_False by lia|].
    rewrite Forall_forall in Hx |- *. intros y Hy. specialize (Hx y Hy). lia.
Qed.

(** A stored GTID set, in whatever order it was encoded. *)
Definition gtids_value (v : bytes) (s : MysqlGTIDSet.t) : Prop :=
  gtids_ok s /\ exists l, MysqlGTIDSet.orders s l /\ v = MysqlGTIDSet.encode_sets l /\ blen v < 2 ^ 62.

Lemma decode_value v s : gtids_value v s -> MysqlGTIDSet.DecodeMysqlGTIDSet v = Ok s.
Proof.
  intros (Hok & l & Hl & -> & Hb). rewrite <-(app_nil_r (MysqlGTIDSet.encode_sets l)).
  apply decode_encode_sets; [done|done|by rewrite app_nil_r].
Qed.

Section Previous.
Context (prefix : string) (val : Z -> bytes) (gs : Z -> MysqlGTIDSet.t).

Lemma find_previous_ent slave l : forall d,
  (forall j, j ∈ l -> gtids_value (val j) (gs j)) -> size slave <> 0%nat ->
  MetaStore.find_previous slave (ent prefix val l) d =
    Ok match last (filter (fun j => MysqlGTIDSet.Contain slave (gs j) = true) l) with
       | Some j => Some (index_key prefix j)
       | None => d
       end.
Proof.
  intros d Hv Hne. revert d. induction l as [|x l IH]; intros d; [done|]. unfold ent. rewrite fmap_cons.
  cbn [MetaStore.find_previous]. rewrite (decode_value _ (gs x)) by (apply Hv, elem_of_cons; by left).
  rewrite (proj2 (Nat.eqb_neq _ _) Hne). rewrite last_filter_cons. fold (ent prefix val l).
  destruct (MysqlGTIDSet.Contain slave (gs x)) eqn:E.
  - rewrite IH by (intros j Hj; apply Hv, elem_of_cons; by right). rewrite decide_True by done. by destruct (last _).
  - rewrite IH by (intros j Hj; apply Hv, elem_of_cons; by right). rewrite decide_False by done. by destruct (last _).
Qed.

Lemma pge_exists_ent new l :
  (forall j, j ∈ l -> gtids_value (val j) (gs j)) ->
  MetaStore.pge_exists new (ent prefix val l) = Ok (existsb (fun j => MysqlGTIDSet.Equal (gs j) new) l).
Proof.
  intros Hv. induction l as [|x l IH]; [done|]. unfold ent. rewrite fmap_cons. cbn [MetaStore.pge_exists existsb].
  rewrite (decode_value _ (gs x)) by (apply Hv, elem_of_cons; by left). fold (ent prefix val l).
  destruct (MysqlGTIDSet.Equal (gs x) new); [done|]. apply IH. intros j Hj. apply Hv, elem_of_cons. by right.
Qed.

Lemma find_proximal_ent first l :
  has_char "/" prefix = false -> Forall is_u64 l -> (forall j, j ∈ l -> gtids_value (val j) (gs j)) ->
  MetaStore.find_proximal first (ent prefix val l) = Ok (gs <$> head (filter (fun j => first < j) l)).
Proof.
  intros Hp Hu Hv. induction l as [|x l IH]; [done|]. apply Forall_cons in Hu as (Hxu & Hu).
  unfold ent. rewrite fmap_cons. cbn [MetaStore.find_proximal]. rewrite key_index_key by done.
  rewrite filter_cons. fold (ent prefix val l). destruct (Z.ltb_spec first x).
  - rewrite decide_True by done. by rewrite (decode_value _ (gs x)) by (apply Hv, elem_of_cons; by left).
  - rewrite decide_False by lia. apply IH; [done|]. intros j Hj. apply Hv, elem_of_cons. by right.
Qed.

Lemma delete_before_ent first l : forall b,
  has_char "/" prefix = false -> Forall is_u64 l ->
  MetaStore.delete_before first (ent prefix val l) b =
    (Ok tt, foldl (fun b j => delete (index_key prefix j) b) b (filter (fun j => j < first) l)).
Proof.
  intros b Hp Hu. revert b. induction l as [|x l IH]; intros b; [done|]. apply Forall_cons in Hu as (Hxu & Hu).
  unfold ent. rewrite fmap_cons. cbn [MetaStore.delete_before]. rewrite key_index_key by done.
  rewrite filter_cons. fold (ent prefix val l). rewrite IH by done. by destruct (Z.ltb_spec x first); case_decide; try lia.
Qed.
End Previous.

(** * The store *)

(** The store holds the previous GTID sets [pgs], the format description events
    [fdes] and the names of binlog files [files], by raft index. *)
Record meta_ok (s : MetaStore.t) (pgs : gmap Z MysqlGTIDSet.t) (fdes files : gmap Z bytes) : Prop := {
  meta_open : MetaStore.isClosed s = false;
  meta_pgs : exists pge, indexed PgePrefix (MetaStore.bucket s) pge /\
    map_Forall2 (fun _ v g => gtids_value v g) pge pgs;
  meta_fdes : indexed FdePrefix (MetaStore.bucket s) fdes;
  meta_files : indexed NextBinlogPrefix (MetaStore.bucket s) files }.

Lemma index_key_inj prefix i j : is_u64 i -> is_u64 j -> index_key prefix i = index_key prefix j -> i = j.
Proof.
  intros Hi Hj E. destruct (Z.lt_trichotomy i j) as [H|[H|H]]; [|done|];
    eapply (index_key_lt prefix) in H; try done; rewrite E in H; by apply name_lt_irrefl in H.
Qed.

Lemma indexed_insert prefix b m i v :
  indexed prefix b m -> is_u64 i -> indexed prefix (<[index_key prefix i := v]> b) (<[i := v]> m).
Proof.
  intros [Hu Hb] Hi. split.
  - intros j w. rewrite lookup_insert. case_decide; [by subst|apply Hu].
  - intros k w Hk. rewrite lookup_insert. case_decide as E.
    + subst k. split.
      * intros [= ->]. exists i. by rewrite lookup_insert_eq.
      * intros (j & Ej & Hj). rewrite lookup_insert in Hj. case_decide as Ei; [by injection Hj as ->|].
        exfalso. apply Ei, (index_key_inj prefix); [done|by eapply Hu|done].
    + rewrite (Hb k w Hk). split; intros (j & -> & Hj); exists j; (split; [done|]).
      * rewrite lookup_insert_ne; [done|]. by intros ->.
      * rewrite lookup_insert_ne in Hj; [done|]. by intros ->.
Qed.

Lemma indexed_insert_other prefix b m k v :
  indexed prefix b m -> str_HasPrefix k prefix = false -> indexed prefix (<[k := v]> b) m.
Proof.
  intros [Hu Hb] Hk. split; [done|]. intros k' w Hk'. rewrite lookup_insert_ne by (intros ->; congruence). by apply Hb.
Qed.

Lemma indexed_delete prefix b m i :
  indexed prefix b m -> is_u64 i -> indexed prefix (delete (index_key prefix i) b) (delete i m).
Proof.
  intros [Hu Hb] Hi. split.
  - intros j w. rewrite lookup_delete. case_decide; [done|apply Hu].
  - intros k w Hk. rewrite lookup_delete. case_decide as E.
    + subst k. split; [done|]. intros (j & Ej & Hj). rewrite lookup_delete in Hj. case_decide as Ei; [done|].
      exfalso. apply Ei, (index_key_inj prefix); [done|by eapply Hu|done].
    + rewrite (Hb k w Hk). split; intros (j & -> & Hj); exists j; (split; [done|]).
      * rewrite lookup_delete_ne; [done|]. by intros ->.
      * rewrite lookup_delete_ne in Hj; [done|]. by intros ->.
Qed.

Lemma indexed_delete_other prefix b m k :
  indexed prefix b m -> str_HasPrefix k prefix = false -> indexed prefix (delete k b) m.
Proof.
  intros [Hu Hb] Hk. split; [done|]. intros k' w Hk'. rewrite lookup_delete_ne by (intros ->; congruence). by apply Hb.
Qed.

Lemma bytes_string s : BytesToString (StringToBytes s) = s.
Proof.
  induction s as [|c s IH]; [done|]. cbn. by rewrite N2Z.id, ascii_N_embedding, IH.
Qed.

Lemma string_bytes l : bytes_ok l -> StringToBytes (BytesToString l) = l.
Proof.
  induction 1 as [|b l Hb Hl IH]; [done|]. cbn. unfold is_u8 in Hb. rewrite N_ascii_embedding by lia.
  rewrite Z2N.id by lia. by rewrite IH.
Qed.

Lemma Get_open s key : MetaStore.isClosed s = false -> key <> [] ->
  MetaStore.Get key s = (Ok (MetaStore.bucket s !! BytesToString key), s).
Proof.
  intros Hc Hk. unfold MetaStore.Get. destruct key as [|b key]; [done|].
  rewrite (proj2 (Z.eqb_neq _ _)) by (rewrite blen_cons; pose proof (blen_nonneg key); lia).
  unfold MetaStore.View. by rewrite Hc.
Qed.

Lemma BytesToString_some l : l <> [] -> String.eqb (BytesToString l) "" = false.
Proof. by destruct l. Qed.

Lemma Set_open s key value : MetaStore.isClosed s = false -> MetaStore.faults s = [] -> key <> [] ->
  MetaStore.Set_ key value s =
    (Ok tt, MetaStore.mk (<[BytesToString key := value]> (MetaStore.bucket s)) false []).
Proof.
  intros Hc Hf Hk. unfold MetaStore.Set_, MetaStore.Update, MetaStore.Put.
  by rewrite Hc, BytesToString_some, Hf.
Qed.

(** The bolt store while it is open and its commits succeed. *)
Definition store_up (st : MetaStore.t) : Prop := MetaStore.isClosed st = false /\ MetaStore.faults st = [].

(** A value that is set is read back until it is deleted, the other keys
    keep theirs, and a commit that fails changes nothing. *)
Theorem meta_set_get s key value :
  MetaStore.isClosed s = false -> MetaStore.faults s = [] -> key <> [] -> bytes_ok key ->
  exists s1 s2, MetaStore.Set_ key value s = (Ok tt, s1) /\ MetaStore.Delete key s1 = (Ok tt, s2) /\
    MetaStore.Get key s1 = (Ok (Some value), s1) /\ MetaStore.Get key s2 = (Ok None, s2) /\
    (forall key', key' <> [] -> bytes_ok key' -> key' <> key ->
       (MetaStore.Get key' s1).1 = (MetaStore.Get key' s).1 /\
       (MetaStore.Get key' s2).1 = (MetaStore.Get key' s).1) /\
    forall errno l, MetaStore.Set_ key value (MetaStore.mk (MetaStore.bucket s) false (Some errno :: l)) =
      (Err (ErrOS errno), MetaStore.mk (MetaStore.bucket s) false l).
Proof.
  intros Hc Hf Hk Hb. eexists _, _. split; [by apply Set_open|]. split; [reflexivity|].
  rewrite !Get_open by done. cbn [MetaStore.bucket]. rewrite lookup_insert_eq, lookup_delete_eq.
  split; [done|]. split; [done|]. split.
  - intros key' Hk' Hb' Hne. rewrite !Get_open by done. cbn.
    assert (BytesToString key <> BytesToString key') as Hns.
    { intros E. apply Hne. apply (f_equal StringToBytes) in E. by rewrite !string_bytes in E. }
    by rewrite lookup_delete_ne, lookup_insert_ne.
  - intros errno l. unfold MetaStore.Set_, MetaStore.Update, MetaStore.Put. cbn. by rewrite BytesToString_some.
Qed.

Definition new_store : MetaStore.t := MetaStore.mk ∅ false [].

Lemma meta_set_get_witness :
  exists s1, MetaStore.Set_ [97] [1; 2] new_store = (Ok tt, s1) /\ MetaStore.Get [97] s1 = (Ok (Some [1; 2]), s1).
Proof.
  destruct (meta_set_get new_store [97] [1; 2]) as (s1 & s2 & H1 & _ & H2 & _);
    [reflexivity|reflexivity|discriminate|repeat constructor; unfold is_u8; lia|]. eauto.
Defined.

(** The hard state that was saved last and the configuration state in the
    store are what the raft node starts from. *)
Theorem raft_state_restored `{JsonLaws HardState.t} `{JsonLaws ConfState.t} s st cs :
  MetaStore.isClosed s = false -> MetaStore.faults s = [] ->
  MetaStore.bucket s !! ConfStateKey = Some (json_Marshal cs) ->
  exists s1, MetaStore.SaveHardState st s = (Ok tt, s1) /\ MetaStore.InitialState s1 = (Ok (st, cs), s1).
Proof.
  intros Hc Hf Hcs. eexists. split; [by apply Set_open|]. unfold MetaStore.InitialState.
  set (s1 := MetaStore.mk _ _ _).
  rewrite (bind_ok _ _ _ _ _ (Get_open s1 (StringToBytes HardStateKey) eq_refl ltac:(discriminate))).
  rewrite !bytes_string. cbn [MetaStore.bucket s1]. rewrite lookup_insert_eq. unfold MetaStore.decode_or, lift.
  rewrite json_roundtrip. unfold bind at 1. fold s1.
  rewrite (bind_ok _ _ _ _ _ (Get_open s1 (StringToBytes ConfStateKey) eq_refl ltac:(discriminate))).
  rewrite bytes_string. cbn [MetaStore.bucket s1]. rewrite lookup_insert_ne by done. rewrite Hcs. unfold bind.
  by rewrite json_roundtrip.
Qed.

(** A codec for the witnesses: the digits of a code of the value. *)
Fixpoint pos_text (p : positive) : bytes :=
  match p with
  | xH => []
  | xO p' => 48 :: pos_text p'
  | xI p' => 49 :: pos_text p'
  end.

Fixpoint text_pos (l : bytes) : positive :=
  match l with
  | [] => xH
  | b :: l' => if b =? 48 then xO (text_pos l') else xI (text_pos l')
  end.

Definition code_json (A : Type) `{Countable A} : Json A := {|
  json_Marshal a := pos_text (encode a);
  json_Unmarshal l := decode (text_pos l) |}.

Lemma code_json_laws (A : Type) `{Countable A} : @JsonLaws A (code_json A).
Proof.
  intros a. cbn. assert (forall p, text_pos (pos_text p) = p) as E by (induction p; cbn; congruence).
  rewrite E. apply decode_encode.
Qed.

#[export] Instance HardState_countable : Countable HardState.t.
Proof.
  apply (inj_countable' (fun h => (HardState.Term h, HardState.Vote h, HardState.Commit h))
    (fun '(a, b, c) => HardState.mk a b c)). by intros [].
Defined.
#[export] Instance ConfState_countable : Countable ConfState.t.
Proof.
  apply (inj_countable' (fun c => (ConfState.Nodes c, ConfState.Learners c)) (fun '(a, b) => ConfState.mk a b)).
  by intros [].
Defined.

Definition conf_store : MetaStore.t :=
  MetaStore.mk {[ ConfStateKey := @json_Marshal _ (code_json ConfState.t) (ConfState.mk [1; 2] []) ]} false [].

Lemma raft_state_restored_witness :
  let _ := code_json HardState.t in
  let _ := code_json ConfState.t in
  exists s1, MetaStore.SaveHardState (HardState.mk 3 1 7) conf_store = (Ok tt, s1) /\
    MetaStore.InitialState s1 = (Ok (HardState.mk 3 1 7, ConfState.mk [1; 2] []), s1).
Proof.
  apply (@raft_state_restored (code_json HardState.t) (code_json_laws HardState.t)
    (code_json ConfState.t) (code_json_laws ConfState.t)); reflexivity.
Defined.

(** The applied index and the executed GTID set are stored together: both
    are read back after the call, and when the commit fails both are as before. *)
Theorem progress_all_or_nothing s i gtids :
  MetaStore.isClosed s = false -> is_u64 i -> gtids_ok gtids -> blen (MysqlGTIDSet.Encode gtids) < 2 ^ 62 ->
  let s1 := (MetaStore.SetBinlogProgress i gtids s).2 in
  match (MetaStore.SetBinlogProgress i gtids s).1 with
  | Ok _ =>
      MetaStore.GetGtidSet MySQLFlavor ExecutedGtidSetKey s1 = (Ok gtids, s1) /\
      exists v, MetaStore.Get (StringToBytes AppliedIndexKey) s1 = (Ok (Some v), s1) /\ be_val v = i
  | Err _ => MetaStore.bucket s1 = MetaStore.bucket s /\ exists e l, MetaStore.faults s = Some e :: l
  | Panic => False
  end.
Proof.
  intros Hc Hi Hg Hb s1. unfold s1, MetaStore.SetBinlogProgress, MetaStore.Update, MetaStore.Put. rewrite Hc.
  change (String.eqb (path_Join MySQLFlavor ExecutedGtidSetKey) "") with false.
  change (String.eqb AppliedIndexKey "") with false. cbv iota beta.
  set (b := <[AppliedIndexKey := _]> _).
  assert (forall l, let s1 := MetaStore.mk b false l in
    MetaStore.GetGtidSet MySQLFlavor ExecutedGtidSetKey s1 = (Ok gtids, s1) /\
    exists v, MetaStore.Get (StringToBytes AppliedIndexKey) s1 = (Ok (Some v), s1) /\ be_val v = i) as Hok.
  { intros l s2. split.
    - unfold MetaStore.GetGtidSet.
      rewrite (bind_ok _ _ _ _ _ (Get_open s2 (StringToBytes (path_Join MySQLFlavor ExecutedGtidSetKey)) eq_refl ltac:(discriminate))).
      rewrite bytes_string. unfold s2, b. cbn [MetaStore.bucket]. rewrite lookup_insert_ne by done. rewrite lookup_insert_eq.
      unfold lift. f_equal. apply decode_value. split; [done|]. eexists. split; [apply Permutation_refl|]. done.
    - rewrite Get_open by done. rewrite bytes_string. unfold s2, b. cbn [MetaStore.bucket]. rewrite lookup_insert_eq.
      eexists. split; [done|]. apply be_val_bytes_small. exact Hi. }
  destruct (MetaStore.faults s) as [|[errno|] l] eqn:E; cbn [fst snd].
  - apply Hok.
  - split; [done|]. eauto.
  - apply Hok.
Qed.

Lemma progress_all_or_nothing_witness :
  exists s1, MetaStore.SetBinlogProgress 5 sample_gtids new_store = (Ok tt, s1) /\
    MetaStore.GetGtidSet MySQLFlavor ExecutedGtidSetKey s1 = (Ok sample_gtids, s1).
Proof.
  pose proof (progress_all_or_nothing new_store 5 sample_gtids eq_refl ltac:(unfold is_u64; lia) sample_gtids_ok
    ltac:(vm_compute; reflexivity)) as H. eexists. split; [reflexivity|]. apply H.
Defined.

(** ** Reading by raft index *)

(** A read of the store. *)
Lemma View_open {A} (f : gmap string bytes -> res A) s :
  MetaStore.isClosed s = false -> MetaStore.View f s = (f (MetaStore.bucket s), s).
Proof. intros Hc. unfold MetaStore.View. by rewrite Hc. Qed.

Lemma cursor_ent prefix b m :
  indexed prefix b m -> MetaStore.cursor b prefix = ent prefix (fun i => default [] (m !! i)) (idx m).
Proof. apply cursor_entries. Qed.

Definition some_value (m : gmap Z bytes) : Prop := map_Forall (fun _ v => v <> []) m.

(** [GetFde] returns the format description event with the largest raft
    index below the given one, and [ErrNotContain] when there is none. *)
Theorem fde_before_index s pgs fdes files i :
  meta_ok s pgs fdes files -> some_value fdes ->
  (exists j v, is_last (fun j => j < i) fdes j /\ fdes !! j = Some v /\ MetaStore.GetFde i s = (Ok v, s)) \/
  ((forall j, is_Some (fdes !! j) -> i <= j) /\ MetaStore.GetFde i s = (Err ErrNotContain, s)).
Proof.
  intros [Hc _ Hf _] Hv. unfold MetaStore.GetFde. destruct (idx_spec fdes) as (Hs & Hin).
  rewrite (bind_ok (MetaStore.View _) _ s (default [] ((fun i => default [] (fdes !! i)) <$>
    last (filter (fun j => j < i) (idx fdes)))) s).
  2:{ rewrite View_open by done. rewrite (cursor_ent _ _ _ Hf).
      by rewrite find_fde_ent by (done || by eapply idx_u64). }
  destruct (last _) as [j|] eqn:E.
  - left. apply idx_last in E. destruct E as ([v Hj] & E). exists j, v. cbn. rewrite Hj. cbn.
    split; [by split; [eexists|]|]. split; [done|]. pose proof (Hv _ _ Hj) as Hne. destruct v; [done|].
    by rewrite (proj2 (Z.eqb_neq _ _)) by (rewrite blen_cons; pose proof (blen_nonneg v); lia).
  - right. split; [|done]. intros j Hj. apply last_None in E. pose proof (idx_none _ _ E j Hj). cbn in *. lia.
Qed.

Definition sample_meta : MetaStore.t :=
  MetaStore.mk {[ index_key FdePrefix 2 := [1; 2]; index_key FdePrefix 9 := [3];
                  index_key NextBinlogPrefix 5 := StringToBytes "bin.000007";
                  index_key PgePrefix 3 := MysqlGTIDSet.Encode ∅;
                  index_key PgePrefix 10 := MysqlGTIDSet.Encode sample_gtids;
                  path_Join MySQLFlavor GtidPurgedKey := MysqlGTIDSet.Encode ∅ ]} false [].
Definition sample_pgs : gmap Z MysqlGTIDSet.t := {[ 3 := ∅; 10 := sample_gtids ]}.
Definition sample_fdes : gmap Z bytes := {[ 2 := [1; 2]; 9 := [3] ]}.
Definition sample_files : gmap Z bytes := {[ 5 := StringToBytes "bin.000007" ]}.

Lemma indexed_empty prefix : indexed prefix ∅ ∅.
Proof. split; [done|]. intros k v _. rewrite lookup_empty. split; [done|]. intros (i & _ & H). by rewrite lookup_empty in H. Qed.

Lemma Encode_value s : gtids_ok s -> blen (MysqlGTIDSet.Encode s) < 2 ^ 62 -> gtids_value (MysqlGTIDSet.Encode s) s.
Proof. intros Hs Hb. split; [done|]. eexists. split; [apply Permutation_refl|done]. Qed.

(** Steps through the insertions of the sample. *)
Ltac indexed_tac :=
  repeat (first [ apply indexed_insert_other; [|reflexivity]
                | apply indexed_insert; [|unfold is_u64; lia]
                | rewrite <-insert_empty
                | apply indexed_empty ]).

Lemma sample_meta_ok : meta_ok sample_meta sample_pgs sample_fdes sample_files.
Proof.
  split; [done| | |].
  - exists {[ 3 := MysqlGTIDSet.Encode ∅; 10 := MysqlGTIDSet.Encode sample_gtids ]}. split.
    + unfold sample_meta. cbn [MetaStore.bucket]. indexed_tac.
    + unfold sample_pgs. apply map_Forall2_insert_2; [|rewrite <-!insert_empty; apply map_Forall2_insert_2].
      * apply Encode_value; [apply gtids_ok_empty|vm_compute; reflexivity].
      * apply Encode_value; [apply sample_gtids_ok|vm_compute; reflexivity].
      * apply map_Forall2_empty.
  - unfold sample_meta, sample_fdes. cbn [MetaStore.bucket]. indexed_tac.
  - unfold sample_meta, sample_files. cbn [MetaStore.bucket]. indexed_tac.
Qed.

Lemma fde_before_index_witness :
  (exists j v, is_last (fun j => j < 9) sample_fdes j /\ sample_fdes !! j = Some v /\
     MetaStore.GetFde 9 sample_meta = (Ok v, sample_meta)) \/
  ((forall j, is_Some (sample_fdes !! j) -> 9 <= j) /\
     MetaStore.GetFde 9 sample_meta = (Err ErrNotContain, sample_meta)).
Proof.
  apply (fde_before_index sample_meta sample_pgs sample_fdes sample_files 9); [apply sample_meta_ok|].
  unfold sample_fdes. apply map_Forall_insert_2; [done|]. by apply map_Forall_singleton.
Defined.

Lemma BytesToString_ne v : v <> [] -> BytesToString v <> "".
Proof. by destruct v. Qed.

Lemma idx_some (m : gmap Z bytes) i : m !! i <> None -> i ∈ idx m.
Proof. intros H. destruct (idx_spec m) as (_ & Hin). apply Hin. destruct (m !! i); [by eexists|done]. Qed.

(** [GetNextBinlogFile] returns the name stored with the largest raft index
    below the given one; before the first such index it makes up the name of
    the file before the first stored one, and it returns [ErrKeyNotFound] when
    no name is stored. *)
Theorem binlog_file_at_index s pgs fdes files i :
  meta_ok s pgs fdes files -> some_value files ->
  (exists j v, is_last (fun j => j < i) files j /\ files !! j = Some v /\
     MetaStore.GetNextBinlogFile i s = (Ok (BytesToString v), s)) \/
  (exists j v, is_first (fun _ => True) files j /\ i <= j /\ files !! j = Some v /\
     (MetaStore.GetNextBinlogFile i s).1 =
       match MetaStore.generatePreviousLogName (BytesToString v) with Some n => Ok n | None => Panic end) \/
  (files = ∅ /\ MetaStore.GetNextBinlogFile i s = (Err ErrKeyNotFound, s)).
Proof.
  intros [Hc _ _ Hf] Hv. unfold MetaStore.GetNextBinlogFile. destruct (idx_spec files) as (Hs & Hin).
  assert (forall j, j ∈ idx files -> BytesToString (default [] (files !! j)) <> "") as Hne.
  { intros j [v Hj]%Hin. rewrite Hj. apply BytesToString_ne, (Hv _ _ Hj). }
  unfold bind. rewrite View_open, (cursor_ent _ _ _ Hf) by done.
  rewrite find_next_ent by (done || by eapply idx_u64).
  destruct (last _) as [j|] eqn:E.
  - left. apply idx_last in E. destruct E as ([v Hj] & E). exists j, v. rewrite Hj. cbn [default from_option].
    split; [by split; [eexists|]|]. split; [done|].
    by rewrite (proj2 (String.eqb_neq _ _)) by (apply BytesToString_ne, (Hv _ _ Hj)).
  - right. apply last_None in E. pose proof (idx_none (fun j => j < i) files E) as Hge. cbn [String.eqb].
    destruct (idx files) as [|j l] eqn:Ei.
    + right. split; [|done]. apply map_empty. intros j. destruct (files !! j) eqn:Ej; [|done].
      pose proof (idx_some files j) as H. rewrite Ej, Ei in H. by apply elem_of_nil in H.
    + left. assert (is_first (fun _ => True) files j) as Hj.
      { apply (idx_first (fun _ => True) files j l). rewrite Ei. clear. rewrite filter_cons_True by done. f_equal.
        induction l; [done|]. rewrite filter_cons_True by done. by f_equal. }
      destruct Hj as ([v Hj] & Hj'). exists j, v. split; [by split; [eexists|]|].
      split; [specialize (Hge j (ex_intro _ v Hj)); cbn in Hge; lia|]. split; [done|].
      rewrite Hj. cbn [default from_option]. destruct (MetaStore.generatePreviousLogName _) as [n|] eqn:En; [|done].
      unfold MetaStore.generatePreviousLogName in En. destruct (Split "." _) as [|base [|x [|y z]]]; try done.
      destruct (ParseUint x) as [num [err|]]; [done|]. injection En as <-. by destruct base.
Qed.

Lemma binlog_file_at_index_witness :
  (exists j v, is_last (fun j => j < 6) sample_files j /\ sample_files !! j = Some v /\
     MetaStore.GetNextBinlogFile 6 sample_meta = (Ok (BytesToString v), sample_meta)) \/
  (exists j v, is_first (fun _ => True) sample_files j /\ 6 <= j /\ sample_files !! j = Some v /\
     (MetaStore.GetNextBinlogFile 6 sample_meta).1 =
       match MetaStore.generatePreviousLogName (BytesToString v) with Some n => Ok n | None => Panic end) \/
  (sample_files = ∅ /\ MetaStore.GetNextBinlogFile 6 sample_meta = (Err ErrKeyNotFound, sample_meta)).
Proof.
  apply (binlog_file_at_index sample_meta sample_pgs sample_fdes sample_files 6); [apply sample_meta_ok|].
  unfold sample_files. by apply map_Forall_singleton.
Defined.

(** ** Where a dump starts *)

Lemma pge_values pge pgs :
  map_Forall2 (fun _ v g => gtids_value v g) pge pgs ->
  (forall j, j ∈ idx pge -> gtids_value (default [] (pge !! j)) (default ∅ (pgs !! j))) /\
  forall j, is_Some (pge !! j) <-> is_Some (pgs !! j).
Proof.
  intros H. split.
  - intros j Hj. destruct (idx_spec pge) as (_ & Hin). apply Hin in Hj as [v Hv]. specialize (H j). rewrite Hv in *.
    inversion H as [? ? H' E1 E2|]; subst. done.
  - intros j. specialize (H j). inversion H; split; intros [? ?]; done || by eexists.
Qed.

Lemma is_last_dom P {A B} (m : gmap Z A) (m' : gmap Z B) i :
  (forall j, is_Some (m !! j) <-> is_Some (m' !! j)) -> is_last P m i -> is_last P m' i.
Proof. intros H (H1 & H2 & H3). split; [by apply H|]. split; [done|]. intros j Hj. apply H3. by apply H. Qed.

Lemma is_first_dom P {A B} (m : gmap Z A) (m' : gmap Z B) i :
  (forall j, is_Some (m !! j) <-> is_Some (m' !! j)) -> is_first P m i -> is_first P m' i.
Proof. intros H (H1 & H2 & H3). split; [by apply H|]. split; [done|]. intros j Hj. apply H3. by apply H. Qed.

(** A dump for a slave starts at the last previous GTID set all of whose
    transactions the slave has executed, for a slave without any transaction at
    the first one, and is refused with [ErrNotContain] when there is none. *)
Theorem dump_starts_at_last_contained s pgs fdes files slave :
  meta_ok s pgs fdes files ->
  let contained j := forall u x g, pgs !! j = Some g -> UUID.ok u -> gmem u x g -> gmem u x slave in
  gtids_ok slave ->
  (exists j, (if (size slave =? 0)%nat then is_first (fun _ => True) pgs j else is_last contained pgs j) /\
     MetaStore.GetPreviousGtidSet slave s = (Ok j, s)) \/
  ((forall j, is_Some (pgs !! j) -> size slave <> 0%nat /\ ~ contained j) /\
     MetaStore.GetPreviousGtidSet slave s = (Err ErrNotContain, s)).
Proof.
  intros [Hc (pge & Hp & Hv) _ _] contained Hs. destruct (pge_values _ _ Hv) as (Hval & Hdom).
  destruct (idx_spec pge) as (Hsort & Hin). unfold MetaStore.GetPreviousGtidSet.
  rewrite View_open, (cursor_ent _ _ _ Hp) by done.
  assert (forall j, is_Some (pgs !! j) ->
    MysqlGTIDSet.Contain slave (default ∅ (pgs !! j)) = true <-> contained j) as Hcont.
  { intros j [g Hg]. rewrite Hg. cbn. rewrite gtids_Contain_spec; [|done|].
    - unfold contained. split; [|eauto]. intros H u x g' [= <-]%(eq_trans (eq_sym Hg)). apply H.
    - assert (j ∈ idx pge) as Hj by (apply Hin, Hdom; by eexists). apply Hval in Hj as [Hj _]. by rewrite Hg in Hj. }
  destruct (Nat.eqb_spec (size slave) 0) as [Hz|Hnz].
  - destruct (idx pge) as [|j l] eqn:Ei.
    + right. split; [|done]. intros j Hj. apply Hdom, Hin in Hj. by apply elem_of_nil in Hj.
    + left. exists j. assert (j ∈ j :: l) as Hjl by (apply elem_of_cons; by left). split.
      * apply (is_first_dom _ pge); [done|]. apply (idx_first (fun _ => True) pge j l). rewrite Ei.
        rewrite filter_cons_True by done. f_equal. clear. induction l; [done|]. rewrite filter_cons_True by done. by f_equal.
      * unfold ent. rewrite fmap_cons. cbn [MetaStore.find_previous].
        rewrite (decode_value _ _ (Hval j Hjl)), Hz. cbn [Nat.eqb].
        rewrite key_index_key; [done|done|]. apply Hin in Hjl as [v Hjv]. by eapply (proj1 Hp).
  - rewrite (find_previous_ent _ _ (fun j => default ∅ (pgs !! j))) by done.
    destruct (last _) as [j|] eqn:E.
    + left. exists j. apply (idx_last (fun j => MysqlGTIDSet.Contain slave (default ∅ (pgs !! j)) = true)) in E.
      destruct E as (E1 & E2 & E3). assert (is_Some (pgs !! j)) as Hj by (by apply Hdom). split.
      * split; [done|]. split; [by apply Hcont|]. intros k Hk Hck. apply E3; [by apply Hdom|]. by apply Hcont.
      * rewrite key_index_key; [done|done|]. destruct E1 as [v Hjv]. by eapply (proj1 Hp).
    + right. split; [|done]. intros j Hj. split; [done|]. apply last_None in E.
      rewrite <-Hcont by done. apply (idx_none _ _ E). by apply Hdom.
Qed.

Lemma dump_starts_at_last_contained_witness :
  let contained j := forall u x g, sample_pgs !! j = Some g -> UUID.ok u -> gmem u x g -> gmem u x sample_gtids in
  (exists j, (if (size sample_gtids =? 0)%nat then is_first (fun _ => True) sample_pgs j
              else is_last contained sample_pgs j) /\
     MetaStore.GetPreviousGtidSet sample_gtids sample_meta = (Ok j, sample_meta)) \/
  ((forall j, is_Some (sample_pgs !! j) -> size sample_gtids <> 0%nat /\ ~ contained j) /\
     MetaStore.GetPreviousGtidSet sample_gtids sample_meta = (Err ErrNotContain, sample_meta)).
Proof.
  apply (dump_starts_at_last_contained sample_meta sample_pgs sample_fdes sample_files sample_gtids);
    [apply sample_meta_ok|apply sample_gtids_ok].
Defined.

(** ** Recording previous GTID sets *)

Lemma idx_existsb (f : Z -> bool) (m : gmap Z bytes) :
  existsb f (idx m) = true <-> exists j, is_Some (m !! j) /\ f j = true.
Proof.
  rewrite existsb_exists. destruct (idx_spec m) as (_ & Hin).
  split; intros (j & Hj & Hf); exists j; (split; [|done]); revert Hj; rewrite <-list_elem_of_In; apply Hin.
Qed.

(** A previous GTID set is recorded under its raft index unless a recorded
    one has all of its servers with the same intervals; nothing else changes. *)
Lemma SetPreviousGtidSet_ok s pgs fdes files i g :
  meta_ok s pgs fdes files -> MetaStore.faults s = [] -> is_u64 i -> gtids_ok g ->
  blen (MysqlGTIDSet.Encode g) < 2 ^ 62 ->
  exists s1, MetaStore.SetPreviousGtidSet i g s = (Ok tt, s1) /\ MetaStore.faults s1 = [] /\
    (forall k, k <> index_key PgePrefix i -> MetaStore.bucket s1 !! k = MetaStore.bucket s !! k) /\
    ((exists j g', pgs !! j = Some g' /\ g ⊆ g') /\ meta_ok s1 pgs fdes files \/
     (forall j g', pgs !! j = Some g' -> ~ g ⊆ g') /\ meta_ok s1 (<[i := g]> pgs) fdes files).
Proof.
  intros [Hc (pge & Hp & Hv) Hfd Hfi] Hf Hi Hg Hb. destruct (pge_values _ _ Hv) as (Hval & Hdom).
  unfold MetaStore.SetPreviousGtidSet, MetaStore.Update. rewrite Hc, Hf, (cursor_ent _ _ _ Hp).
  rewrite (pge_exists_ent _ _ (fun j => default ∅ (pgs !! j))) by done.
  assert (forall j g', pgs !! j = Some g' -> gtids_ok g') as Hok.
  { intros j g' Hj. assert (j ∈ idx pge) as Hin by (apply idx_spec, Hdom; by eexists).
    apply Hval in Hin as [Hin _]. by rewrite Hj in Hin. }
  destruct (existsb _ _) eqn:E.
  - eexists. split; [reflexivity|]. split; [done|]. split; [done|]. left. split; [|split; eauto]. apply idx_existsb in E as (j & [g' Hj]%Hdom & HE).
    rewrite Hj in HE. cbn in HE. exists j, g'. split; [done|]. apply Equal_spec in HE; eauto.
  - unfold MetaStore.Put. change (String.eqb (index_key PgePrefix i) "") with false. cbv iota beta.
    eexists. split; [reflexivity|]. split; [done|]. split; [intros k Hk; by apply lookup_insert_ne|]. right. split.
    + intros j g' Hj Hsub. apply Equal_spec in Hsub; [|by eapply Hok|done]. apply not_true_iff_false in E. apply E.
      apply idx_existsb. exists j. rewrite Hj. split; [apply Hdom; by eexists|done].
    + split; cbn [MetaStore.isClosed MetaStore.bucket]; [done| | |].
      * exists (<[i := MysqlGTIDSet.Encode g]> pge). split; [by apply indexed_insert|].
        apply map_Forall2_insert_2; [by apply Encode_value|done].
      * by apply indexed_insert_other.
      * by apply indexed_insert_other.
Qed.

Definition more_gtids : MysqlGTIDSet.t := {[ UUID.String sid2 := UUIDSet.mk sid2 [Interval.mk 3 5] ]}.

Lemma more_gtids_ok : gtids_ok more_gtids.
Proof.
  apply map_Forall_singleton. split; [done|]. destruct sids_ok.
  split; cbn; unfold valid, interval_ok; cbn; try done; try lia. repeat constructor; cbn; lia.
Qed.

(** ** Purging *)

Lemma lookup_foldl_delete {A} (m : gmap Z A) l i :
  foldl (fun m j => delete j m) m l !! i = if decide (i ∈ l) then None else m !! i.
Proof.
  revert m. induction l as [|j l IH]; intros m; [done|]. cbn [foldl]. rewrite IH.
  destruct (decide (i = j)) as [->|Hne].
  - rewrite lookup_delete_eq. rewrite (decide_True (P := j ∈ j :: l)) by (apply elem_of_cons; by left). by case_decide.
  - rewrite lookup_delete_ne by done. destruct (decide (i ∈ l)) as [Hi|Hi].
    + by rewrite decide_True by (apply elem_of_cons; by right).
    + rewrite decide_False; [done|]. intros [?|?]%elem_of_cons; done.
Qed.

Lemma indexed_foldl_delete prefix l : forall b m,
  Forall is_u64 l -> indexed prefix b m ->
  indexed prefix (foldl (fun b j => delete (index_key prefix j) b) b l) (foldl (fun m j => delete j m) m l).
Proof.
  induction l as [|j l IH]; intros b m Hu Hi; [done|]. apply Forall_cons in Hu as (Hj & Hu).
  cbn [foldl]. apply IH; [done|]. by apply indexed_delete.
Qed.

Lemma indexed_foldl_delete_other prefix prefix' l : forall b m,
  (forall j, str_HasPrefix (index_key prefix' j) prefix = false) -> indexed prefix b m ->
  indexed prefix (foldl (fun b j => delete (index_key prefix' j) b) b l) m.
Proof.
  induction l as [|j l IH]; intros b m Hp Hi; [done|]. cbn [foldl]. apply IH; [done|]. by apply indexed_delete_other.
Qed.

(** The previous GTID sets from an index on. *)
Definition from_index (first : Z) (pgs : gmap Z MysqlGTIDSet.t) : gmap Z MysqlGTIDSet.t :=
  filter (fun '(i, _) => first <= i) pgs.

Lemma delete_previous_ok s pgs fdes files first :
  meta_ok s pgs fdes files -> MetaStore.faults s = [] ->
  exists s1, MetaStore.deletePreviousGtidSet first s = (Ok tt, s1) /\ meta_ok s1 (from_index first pgs) fdes files /\
    MetaStore.faults s1 = [] /\
    forall k, str_HasPrefix k PgePrefix = false -> MetaStore.bucket s1 !! k = MetaStore.bucket s !! k.
Proof.
  intros [Hc (pge & Hp & Hv) Hfd Hfi] Hf. unfold MetaStore.deletePreviousGtidSet, MetaStore.Update.
  rewrite Hc, Hf, (cursor_ent _ _ _ Hp). pose proof (idx_u64 _ _ _ Hp) as Hu.
  rewrite delete_before_ent by done. eexists. split; [reflexivity|].
  set (js := filter (fun j => j < first) (idx pge)).
  assert (Forall is_u64 js) as Hju.
  { rewrite Forall_forall in Hu |- *. intros j Hj. apply Hu. by apply list_elem_of_filter in Hj as (_ & ?). }
  split; [|split; [done|]].
  - split; cbn [MetaStore.isClosed MetaStore.bucket]; [done| | |].
    + exists (foldl (fun m j => delete j m) pge js). split; [by apply indexed_foldl_delete|].
      intros i. rewrite lookup_foldl_delete. unfold from_index.
      destruct (pge_values _ _ Hv) as (_ & Hdom). specialize (Hv i). destruct (decide (i ∈ js)) as [Hi|Hi].
      * apply list_elem_of_filter in Hi as (Hlt & Hi). rewrite map_lookup_filter_None_2; [constructor|]. right.
        intros g Hg. lia.
      * destruct (pgs !! i) as [g|] eqn:Eg.
        -- rewrite (map_lookup_filter_Some_2 _ _ _ g); [done|done|].
           destruct (Z.le_gt_cases first i); [done|]. exfalso. apply Hi, list_elem_of_filter. split; [lia|].
           apply idx_spec, Hdom. by eexists.
        -- rewrite map_lookup_filter_None_2; [done|by left].
    + by apply indexed_foldl_delete_other.
    + by apply indexed_foldl_delete_other.
  - intros k Hk. cbn [MetaStore.bucket]. clear -Hk. generalize (MetaStore.bucket s). induction js as [|j js IH]; intros b; [done|].
    cbn [foldl]. rewrite IH. rewrite lookup_delete_ne; [done|]. intros <-. unfold index_key, path_Join in Hk.
    by rewrite str_HasPrefix_app in Hk.
Qed.

(** A GTID set with transactions of one server. *)
Lemma single_set (g : MysqlGTIDSet.t) :
  gtids_ok g -> size g = 1%nat ->
  exists set, (map_to_list g).*2 = [set] /\ uuid_set_ok set /\
    forall u x, UUID.ok u -> gmem u x g <-> u = UUIDSet.SID set /\ mem x (UUIDSet.Intervals set).
Proof.
  intros Hg Hs. rewrite <-(length_map_to_list g) in Hs. destruct (map_to_list g) as [|[k set] [|]] eqn:El; try done.
  exists set. split; [done|].
  assert (g !! k = Some set) as Hgk by (apply elem_of_map_to_list; rewrite El; by apply list_elem_of_singleton).
  destruct (Hg _ _ Hgk) as (-> & Hset). split; [done|]. intros u x Hu. unfold gmem. split.
  - intros (set' & Hl & Hx). apply elem_of_map_to_list in Hl. rewrite El in Hl.
    apply list_elem_of_singleton in Hl as [= Hsid ->]. split; [|done]. apply uuid_inj; [done|apply Hset|done].
  - intros [-> Hx]. eauto.
Qed.

Definition purged_key : string := path_Join MySQLFlavor GtidPurgedKey.

Lemma GetGtidSet_value s flavor key v g :
  MetaStore.isClosed s = false -> MetaStore.bucket s !! path_Join flavor key = Some v -> gtids_value v g ->
  MetaStore.GetGtidSet flavor key s = (Ok g, s).
Proof.
  intros Hc Hk Hv. unfold MetaStore.GetGtidSet.
  assert (StringToBytes (path_Join flavor key) <> []) as Hne by (by destruct flavor).
  rewrite (bind_ok _ _ _ _ _ (Get_open s _ Hc Hne)). rewrite bytes_string, Hk. unfold lift. by rewrite (decode_value _ _ Hv).
Qed.

(** What [UpdatePugedGtidset] reads first. *)
Lemma proximal_ok s pgs fdes files first :
  meta_ok s pgs fdes files ->
  exists o, MetaStore.View (fun b => MetaStore.find_proximal first (MetaStore.cursor b PgePrefix)) s = (Ok o, s) /\
    match o with
    | Some g => gtids_ok g /\ exists j, is_first (fun j => first < j) pgs j /\ pgs !! j = Some g
    | None => forall j, is_Some (pgs !! j) -> j <= first
    end.
Proof.
  intros [Hc (pge & Hp & Hv) _ _]. destruct (pge_values _ _ Hv) as (Hval & Hdom).
  rewrite View_open, (cursor_ent _ _ _ Hp) by done. pose proof (idx_u64 _ _ _ Hp) as Hu.
  rewrite (find_proximal_ent _ _ (fun j => default ∅ (pgs !! j))) by done.
  eexists. split; [reflexivity|].
  destruct (filter _ _) as [|j l] eqn:E; cbn.
  - intros j Hj%Hdom. pose proof (idx_none _ _ E j Hj). cbn in *. lia.
  - apply idx_first in E. apply (is_first_dom _ _ _ _ Hdom) in E as ([g Hg] & E). rewrite Hg. cbn. split.
    + assert (j ∈ idx pge) as Hj by (apply idx_spec, Hdom; by eexists). apply Hval in Hj as [Hj _]. by rewrite Hg in Hj.
    + exists j. split; [|done]. split; [by eexists|done].
Qed.

(** Purging the log before an index adds the transactions of the first
    previous GTID set behind the index to the purged ones and drops the
    previous GTID sets before the index, when that set has transactions of one
    server; without such a set or with an empty one nothing changes. *)
Theorem purged_gtids_updated s pgs fdes files first v p :
  meta_ok s pgs fdes files -> MetaStore.faults s = [] ->
  MetaStore.bucket s !! purged_key = Some v -> gtids_value v p ->
  (forall j g, is_first (fun j => first < j) pgs j -> pgs !! j = Some g -> (size g <= 1)%nat) ->
  exists s1, MetaStore.UpdatePugedGtidset first s = (Ok tt, s1) /\
    ((exists j g p', is_first (fun j => first < j) pgs j /\ pgs !! j = Some g /\
       meta_ok s1 (from_index first pgs) fdes files /\ gtids_ok p' /\
       (forall u x, UUID.ok u -> gmem u x p' <-> gmem u x p \/ gmem u x g) /\
       MetaStore.bucket s1 !! purged_key = Some (MysqlGTIDSet.Encode p')) \/
     (forall j g, is_first (fun j => first < j) pgs j -> pgs !! j = Some g -> g = ∅) /\ s1 = s).
Proof.
  intros Hm Hf Hk Hv Hsz. destruct (proximal_ok s pgs fdes files first Hm) as (o & Ho & Hog).
  unfold MetaStore.UpdatePugedGtidset. rewrite (bind_ok _ _ _ _ _ Ho). destruct o as [g|].
  2:{ eexists. split; [reflexivity|]. right. split; [|done]. intros j g (Hj & Hlt & _) _. specialize (Hog j Hj). lia. }
  destruct Hog as (Hg & j & Hj & Hjg). specialize (Hsz j g Hj Hjg).
  destruct (size g) as [|[|]] eqn:Es; [| |lia].
  { apply map_size_empty_inv in Es as ->. change (String.eqb (MysqlGTIDSet.String ∅) "") with true. cbv iota.
    eexists. split; [reflexivity|]. right. split; [|done]. intros j' g' Hj' Hg'.
    assert (j = j') as <- by (destruct Hj as (A1 & A2 & A3), Hj' as (B1 & B2 & B3);
      specialize (A3 j' B1 B2); specialize (B3 j A1 A2); lia). congruence. }
  destruct (single_set g Hg Es) as (set & Eset & Hset & Hgm).
  unfold MysqlGTIDSet.String. rewrite Eset. cbn [MysqlGTIDSet.sets_text].
  destruct (set_text_some set Hset) as (c & r & Er). rewrite Er. cbn [String.eqb]. rewrite <-Er.
  unfold fatal_on_err. unfold bind at 1.
  rewrite (GetGtidSet_value s MySQLFlavor GtidPurgedKey v p (meta_open _ _ _ _ Hm) Hk Hv).
  unfold MysqlGTIDSet.Update. rewrite ParseUUIDSet_String by done. cbn [mbind option_bind]. rewrite bind_must.
  destruct (AddSet_ok set p (proj1 Hv) Hset) as (Hp' & Hmem). set (p' := MysqlGTIDSet.AddSet set p) in *.
  unfold MetaStore.SetGtidSet.
  rewrite (bind_ok _ _ _ _ _ (Set_open s (StringToBytes purged_key) (MysqlGTIDSet.Encode p') (meta_open _ _ _ _ Hm) Hf ltac:(discriminate))).
  rewrite bytes_string. set (s0 := MetaStore.mk _ _ _).
  assert (meta_ok s0 pgs fdes files) as Hm0.
  { destruct Hm as [H1 (pge & H2 & H3) H4 H5]. split; [done| | |]; [exists pge; split; [|done]| |];
      by apply indexed_insert_other. }
  destruct (delete_previous_ok s0 pgs fdes files first Hm0 eq_refl) as (s1 & E1 & Hm1 & _ & Hkeep).
  exists s1. split; [exact E1|]. left. exists j, g, p'. split; [done|]. split; [done|]. split; [done|]. split; [done|].
  split.
  - intros u x Hu. by rewrite Hmem, Hgm.
  - rewrite Hkeep by done. unfold s0. cbn [MetaStore.bucket]. by rewrite lookup_insert_eq.
Qed.

Definition one_server_meta : MetaStore.t :=
  MetaStore.mk {[ index_key PgePrefix 3 := MysqlGTIDSet.Encode ∅;
                  index_key PgePrefix 10 := MysqlGTIDSet.Encode more_gtids;
                  purged_key := MysqlGTIDSet.Encode sample_gtids ]} false [].
Definition one_server_pgs : gmap Z MysqlGTIDSet.t := {[ 3 := ∅; 10 := more_gtids ]}.

Lemma one_server_meta_ok : meta_ok one_server_meta one_server_pgs ∅ ∅.
Proof.
  split; [done| | |].
  - exists {[ 3 := MysqlGTIDSet.Encode ∅; 10 := MysqlGTIDSet.Encode more_gtids ]}. split.
    + unfold one_server_meta. cbn [MetaStore.bucket]. indexed_tac.
    + unfold one_server_pgs. apply map_Forall2_insert_2; [|rewrite <-!insert_empty; apply map_Forall2_insert_2].
      * apply Encode_value; [apply gtids_ok_empty|vm_compute; reflexivity].
      * apply Encode_value; [apply more_gtids_ok|vm_compute; reflexivity].
      * apply map_Forall2_empty.
  - unfold one_server_meta. cbn [MetaStore.bucket]. indexed_tac.
  - unfold one_server_meta. cbn [MetaStore.bucket]. indexed_tac.
Qed.

Lemma purged_gtids_updated_witness :
  exists s1, MetaStore.UpdatePugedGtidset 5 one_server_meta = (Ok tt, s1) /\
    ((exists j g p', is_first (fun j => 5 < j) one_server_pgs j /\ one_server_pgs !! j = Some g /\
       meta_ok s1 (from_index 5 one_server_pgs) ∅ ∅ /\ gtids_ok p' /\
       (forall u x, UUID.ok u -> gmem u x p' <-> gmem u x sample_gtids \/ gmem u x g) /\
       MetaStore.bucket s1 !! purged_key = Some (MysqlGTIDSet.Encode p')) \/
     (forall j g, is_first (fun j => 5 < j) one_server_pgs j -> one_server_pgs !! j = Some g -> g = ∅) /\
       s1 = one_server_meta).
Proof.
  apply (purged_gtids_updated one_server_meta one_server_pgs ∅ ∅ 5 (MysqlGTIDSet.Encode sample_gtids) sample_gtids).
  - apply one_server_meta_ok.
  - reflexivity.
  - reflexivity.
  - apply Encode_value; [apply sample_gtids_ok|vm_compute; reflexivity].
  - intros j g _ Hg. unfold one_server_pgs in Hg.
    apply lookup_insert_Some in Hg as [[_ <-]|[_ Hg]]; [vm_compute; lia|].
    apply lookup_singleton_Some in Hg as [_ <-]. vm_compute. lia.
Defined.

(** Purging ends the process when the first previous GTID set behind the
    index has transactions of two or more servers: their text is not accepted
    by [Update]. *)
Theorem purge_of_several_servers_panics s pgs fdes files first j g v p :
  meta_ok s pgs fdes files -> MetaStore.bucket s !! purged_key = Some v -> gtids_value v p ->
  is_first (fun j => first < j) pgs j -> pgs !! j = Some g -> (2 <= size g)%nat ->
  MetaStore.UpdatePugedGtidset first s = (Panic, s).
Proof.
  intros Hm Hk Hv Hj Hjg Hsz. destruct (proximal_ok s pgs fdes files first Hm) as (o & Ho & Hog).
  unfold MetaStore.UpdatePugedGtidset. rewrite (bind_ok _ _ _ _ _ Ho). destruct o as [g'|].
  2:{ destruct Hj as (H1 & H2 & _). specialize (Hog j H1). lia. }
  destruct Hog as (Hg & j' & Hj' & Hjg').
  assert (j = j') as <- by (destruct Hj as (A1 & A2 & A3), Hj' as (B1 & B2 & B3);
    specialize (A3 j' B1 B2); specialize (B3 j A1 A2); lia).
  assert (g' = g) as -> by congruence.
  assert (exists a b l, (map_to_list g).*2 = a :: b :: l /\ uuid_set_ok a /\ uuid_set_ok b /\ Forall uuid_set_ok l)
    as (a & b & l & El & Ha & Hb & Hl).
  { pose proof (orders_ok g _ Hg (Permutation_refl _)) as Hall. rewrite <-(length_map_to_list g) in Hsz.
    destruct (map_to_list g) as [|[k1 a] [|[k2 b] l]]; cbn in Hsz; [lia|lia|]. cbn in Hall.
    apply Forall_cons in Hall as (? & Hall). apply Forall_cons in Hall as (? & ?). eauto 8. }
  unfold MysqlGTIDSet.String. rewrite El.
  destruct (set_text_some a Ha) as (c & r & Er).
  replace (String.eqb (MysqlGTIDSet.sets_text (a :: b :: l)) "") with false
    by (cbn [MysqlGTIDSet.sets_text]; by rewrite Er).
  unfold fatal_on_err. unfold bind at 1.
  rewrite (GetGtidSet_value s MySQLFlavor GtidPurgedKey v p (meta_open _ _ _ _ Hm) Hk Hv).
  by rewrite Update_several.
Qed.

Lemma purge_of_several_servers_panics_witness :
  MetaStore.UpdatePugedGtidset 5 sample_meta = (Panic, sample_meta).
Proof.
  apply (purge_of_several_servers_panics sample_meta sample_pgs sample_fdes sample_files 5 10 sample_gtids
    (MysqlGTIDSet.Encode ∅) ∅).
  - apply sample_meta_ok.
  - reflexivity.
  - apply Encode_value; [apply gtids_ok_empty|vm_compute; reflexivity].
  - split; [by eexists|]. split; [lia|]. intros j [g Hg] Hlt. unfold sample_pgs in Hg.
    apply lookup_insert_Some in Hg as [[<- _]|[_ Hg]]; [lia|]. by apply lookup_singleton_Some in Hg as [<- _].
  - reflexivity.
  - vm_compute. lia.
Defined.
