(* ===== verification/Progress.v ===== *)
(** The progress of the replication, server/binlog_progress.go: which
    transactions have been received, followed with the boundary parser, and when
    this is stored. *)
From S2P Require Import Prelude.
From S2P Require Import Names.
From S2P Require Import Text.
From S2P Require Import Events.
From S2P Require Import TrxParser.
From S2P Require Import Gtid.
From S2P Require Import GtidCodec.
From S2P Require Import Storage.
From S2P Require Import MetaStore.
From S2P Require Import MetaTheorems.
From stdpp Require Import list strings.
Local Open Scope string_scope.
Local Open Scope list_scope.
Local Open Scope Z_scope.
Local Open Scope go_scope.

Definition persistentCount : Z := 10000.
Definition persistentTimeInterval : Z := 4 * 10 ^ 9.

Module BinlogProgress.

(** Times are in nanoseconds. *)
Record t : Type := mk {
  currentGtid : string;
  lastSaveGtid : string;
  lastBinlogFile : string;
  lastFilePosition : Z;
  executedGtidSetStr : string;
  trxBoundaryParser : TransactionBoundaryParser.t;
  persistentTime : Z;
  persistentAppliedIndex : Z;
  executedGtidSet : MysqlGTIDSet.t;
  store : MetaStore.t }.

Definition set_currentGtid (g : string) (p : t) : t :=
  mk g (lastSaveGtid p) (lastBinlogFile p) (lastFilePosition p) (executedGtidSetStr p) (trxBoundaryParser p)
    (persistentTime p) (persistentAppliedIndex p) (executedGtidSet p) (store p).
Definition set_lastBinlogFile (f : string) (p : t) : t :=
  mk (currentGtid p) (lastSaveGtid p) f (lastFilePosition p) (executedGtidSetStr p) (trxBoundaryParser p)
    (persistentTime p) (persistentAppliedIndex p) (executedGtidSet p) (store p).
Definition set_lastFilePosition (n : Z) (p : t) : t :=
  mk (currentGtid p) (lastSaveGtid p) (lastBinlogFile p) n (executedGtidSetStr p) (trxBoundaryParser p)
    (persistentTime p) (persistentAppliedIndex p) (executedGtidSet p) (store p).
Definition set_parser (b : TransactionBoundaryParser.t) (p : t) : t :=
  mk (currentGtid p) (lastSaveGtid p) (lastBinlogFile p) (lastFilePosition p) (executedGtidSetStr p) b
    (persistentTime p) (persistentAppliedIndex p) (executedGtidSet p) (store p).
Definition set_store (m : MetaStore.t) (p : t) : t :=
  mk (currentGtid p) (lastSaveGtid p) (lastBinlogFile p) (lastFilePosition p) (executedGtidSetStr p)
    (trxBoundaryParser p) (persistentTime p) (persistentAppliedIndex p) (executedGtidSet p) m.
Definition set_persistent (i now : Z) (p : t) : t :=
  mk (currentGtid p) (lastSaveGtid p) (lastBinlogFile p) (lastFilePosition p) (executedGtidSetStr p)
    (trxBoundaryParser p) now i (executedGtidSet p) (store p).
(** [executedGtidSet] and its text. *)
Definition set_executed (g : MysqlGTIDSet.t) (p : t) : t :=
  mk (currentGtid p) (lastSaveGtid p) (lastBinlogFile p) (lastFilePosition p) (executedGtidSetStr p)
    (trxBoundaryParser p) (persistentTime p) (persistentAppliedIndex p) g (store p).
Definition set_executedStr (s : string) (p : t) : t :=
  mk (currentGtid p) (lastSaveGtid p) (lastBinlogFile p) (lastFilePosition p) s
    (trxBoundaryParser p) (persistentTime p) (persistentAppliedIndex p) (executedGtidSet p) (store p).
Definition set_lastSaveGtid (g : string) (p : t) : t :=
  mk (currentGtid p) g (lastBinlogFile p) (lastFilePosition p) (executedGtidSetStr p) (trxBoundaryParser p)
    (persistentTime p) (persistentAppliedIndex p) (executedGtidSet p) (store p).

Definition on_store {A} (m : St MetaStore.t A) : St t A := zoom store set_store m.
Definition on_parser {A} (m : St TransactionBoundaryParser.t A) : St t A := zoom trxBoundaryParser set_parser m.

Definition newBinlogProgress (st : MetaStore.t) : res t * MetaStore.t :=
  match MetaStore.GetGtidSet MySQLFlavor ExecutedGtidSetKey st with
  | (Ok g, st) => (Ok (mk "" "" "" 0 (MysqlGTIDSet.String g) (TransactionBoundaryParser.mk EventParserNone) 0 0 g st), st)
  | (Err e, st) => (Err e, st)
  | (Panic, st) => (Panic, st)
  end.

(** [lastSaveGtid] is not reset. *)
Definition reset (gtids : string) : St t unit :=
  modify (fun p => mk "" (lastSaveGtid p) "" 0 (executedGtidSetStr p) (TransactionBoundaryParser.mk EventParserNone)
                      0 0 (executedGtidSet p) (store p)) ;!
  (if String.eqb gtids "" then ret tt else
     let! g := gets executedGtidSet in
     match MysqlGTIDSet.Update gtids g with
     | None => throw ErrGtidFormat
     | Some g' =>
         modify (set_executed g') ;!
         on_store (MetaStore.SetGtidSet MySQLFlavor ExecutedGtidSetKey g')
     end) ;!
  modify (fun p => set_executedStr (MysqlGTIDSet.String (executedGtidSet p)) p).

(** The last part of [updateProcess], once the parser has moved on. *)
Definition save_progress (now raftIndex : Z) : St t unit :=
  let! p := gets id in
  let currentGtidStr := currentGtid p in
  if TransactionBoundaryParser.IsNotInsideTransaction (trxBoundaryParser p) &&
     negb (String.eqb currentGtidStr "") && negb (String.eqb (lastSaveGtid p) currentGtidStr)
  then
    match MysqlGTIDSet.Update currentGtidStr (executedGtidSet p) with
    | None => throw ErrGtidFormat
    | Some g =>
        modify (set_executed g) ;!
        modify (set_lastSaveGtid currentGtidStr) ;!
        modify (set_executedStr (MysqlGTIDSet.String g)) ;!
        if (persistentCount <? u64 (raftIndex - persistentAppliedIndex p)) ||
           (persistentTimeInterval <? now - persistentTime p)
        then
          on_store (MetaStore.SetBinlogProgress raftIndex g) ;!
          modify (set_persistent raftIndex now)
        else ret tt
    end
  else ret tt.

(** [now] is the time of the call. *)
Definition updateProcess (now raftIndex : Z) (eventRawData : bytes) : St t unit :=
  let! h := lift (EventHeader.Decode eventRawData) in
  modify (set_lastFilePosition (EventHeader.LogPos h)) ;!
  let! eventRawData := must (slice eventRawData EventHeader.EventHeaderSize (blen eventRawData)) in
  let eventLen := EventHeader.EventSize h - EventHeader.EventHeaderSize in
  if negb (blen eventRawData =? eventLen) then throw ErrInvalidEvent else
  let! eventRawData := must (slice eventRawData 0 (blen eventRawData - EventHeader.BinlogChecksumLength)) in
  let! eventBoundaryType := lift (TransactionBoundaryParser.GetEventBoundaryType h eventRawData) in
  fun p =>
    match on_parser (TransactionBoundaryParser.UpdateState eventBoundaryType) p with
    | (Ok _, p) => save_progress now raftIndex p
    | (Err _, p) => (on_parser TransactionBoundaryParser.Reset ;! modify (set_currentGtid "")) p
    | (Panic, p) => (Panic, p)
    end.

Definition LastBinlogFile : t -> string := lastBinlogFile.
Definition LastFilePosition : t -> Z := lastFilePosition.
Definition ExecutedGtidSetStr : t -> string := executedGtidSetStr.
Definition CurrentGtidStr : t -> string := currentGtid.
Definition ExecutedGtidSetClone (p : t) : MysqlGTIDSet.t := MysqlGTIDSet.Clone (executedGtidSet p).

End BinlogProgress.

(** * One event *)

Import BinlogProgress.

Definition event_body (raw : bytes) : bytes :=
  take (length raw - 23) (drop 19 raw).

(** [raw] is a whole event with header [h] and boundary type [b]. *)
Record whole_event (raw : bytes) (h : EventHeader.t) (b : EventBoundaryType) : Prop := {
  whole_header : EventHeader.Decode raw = Ok h;
  whole_size : EventHeader.EventSize h = blen raw;
  whole_crc : 23 <= blen raw;
  whole_boundary : TransactionBoundaryParser.GetEventBoundaryType h (event_body raw) = Ok b }.

Lemma slice_body raw : 23 <= blen raw ->
  slice raw EventHeader.EventHeaderSize (blen raw) = Some (drop 19 raw) /\
  slice (drop 19 raw) 0 (blen (drop 19 raw) - EventHeader.BinlogChecksumLength) = Some (event_body raw).
Proof.
  intros Hl. unfold EventHeader.EventHeaderSize, EventHeader.BinlogChecksumLength, event_body, blen in *. split.
  - rewrite slice_in_bounds by (unfold blen; lia). f_equal. apply take_ge. rewrite length_drop. lia.
  - rewrite length_drop. rewrite slice_in_bounds by (unfold blen; rewrite ?length_drop; lia).
    rewrite drop_0. do 2 f_equal. lia.
Qed.

(** What the parser does with the event decides. *)
Lemma updateProcess_step now i raw h b p :
  whole_event raw h b ->
  let p1 := set_lastFilePosition (EventHeader.LogPos h) p in
  updateProcess now i raw p =
    match TransactionBoundaryParser.next_state (TransactionBoundaryParser.currentState (trxBoundaryParser p)) b with
    | (s', false) => save_progress now i (set_parser (at_state s') p1)
    | (_, true) => (Ok tt, set_currentGtid "" (set_parser (at_state EventParserNone) p1))
    end.
Proof.
  intros [Hh Hs Hc Hb] p1. destruct (slice_body raw Hc) as [E1 E2].
  unfold updateProcess. rewrite Hh. cbn [lift]. unfold lift at 1. unfold bind at 1. cbn iota.
  unfold bind at 1, modify at 1. fold p1. rewrite E1. unfold bind at 1, must at 1, ret at 1.
  rewrite Hs, (proj2 (Z.eqb_eq _ _)).
  2:{ unfold EventHeader.EventHeaderSize, blen in *. rewrite length_drop. lia. }
  cbn [negb]. rewrite E2. unfold bind at 1, must at 1, ret at 1. rewrite Hb. unfold bind at 1, lift at 1.
  unfold on_parser, zoom, TransactionBoundaryParser.UpdateState. cbn [trxBoundaryParser p1 set_lastFilePosition].
  destruct (TransactionBoundaryParser.next_state _ b) as [s' []]; reflexivity.
Qed.

(** Inside of a transaction nothing is recorded. *)
Lemma save_inside now i p :
  TransactionBoundaryParser.currentState (trxBoundaryParser p) <> EventParserNone -> save_progress now i p = (Ok tt, p).
Proof.
  intros Hs. unfold save_progress, bind, gets, TransactionBoundaryParser.IsNotInsideTransaction, id.
  by rewrite bool_decide_eq_false_2.
Qed.

(** Nor outside of one when the current GTID is recorded already, or there is
    none. *)
Lemma save_again now i p :
  currentGtid p = "" \/ currentGtid p = lastSaveGtid p -> save_progress now i p = (Ok tt, p).
Proof.
  intros Hs. unfold save_progress, bind, gets, id.
  destruct (TransactionBoundaryParser.IsNotInsideTransaction _); [|done].
  destruct Hs as [-> | ->]; [done|]. rewrite String.eqb_refl. by rewrite andb_false_r.
Qed.

(** The store holds the applied index [i] and the executed set [g]. *)
Definition progress_in (m : MetaStore.t) (i : Z) (g : MysqlGTIDSet.t) : Prop :=
  MetaStore.bucket m !! AppliedIndexKey = Some (be_bytes 8 i) /\
  MetaStore.bucket m !! path_Join MySQLFlavor ExecutedGtidSetKey = Some (MysqlGTIDSet.Encode g).

Lemma SetBinlogProgress_up m i g : store_up m -> exists m',
  MetaStore.SetBinlogProgress i g m = (Ok tt, m') /\ store_up m' /\ progress_in m' i g.
Proof.
  intros [Hc Hf]. eexists. unfold MetaStore.SetBinlogProgress, MetaStore.Update, MetaStore.Put.
  rewrite Hc, Hf. change (String.eqb (path_Join MySQLFlavor ExecutedGtidSetKey) "") with false.
  change (String.eqb AppliedIndexKey "") with false. cbv iota beta. split; [reflexivity|].
  split; [done|]. unfold progress_in. cbn [MetaStore.bucket].
  rewrite lookup_insert_eq, lookup_insert_ne by done. by rewrite lookup_insert_eq.
Qed.

(** The parts of the progress that decide what is recorded next: the state of
    the parser, the current and the last recorded GTID and the executed set,
    whose text is kept next to it. *)
Record prog (p : t) (s : eventParserState) (cur last : string) (g : MysqlGTIDSet.t) : Prop := {
  prog_state : trxBoundaryParser p = at_state s;
  prog_cur : currentGtid p = cur;
  prog_last : lastSaveGtid p = last;
  prog_executed : executedGtidSet p = g;
  prog_text : executedGtidSetStr p = MysqlGTIDSet.String g;
  prog_up : store_up (store p) }.

(** The end of a transaction records its GTID in memory, and sometimes the
    whole set in the store. *)
Lemma save_end now i p u gno last g :
  prog p EventParserNone (gtid_text u gno) last g -> UUID.ok u -> 0 <= gno < 2 ^ 63 - 1 -> last <> gtid_text u gno ->
  let g' := MysqlGTIDSet.AddSet (single u gno) g in
  exists p', save_progress now i p = (Ok tt, p') /\ prog p' EventParserNone (gtid_text u gno) (gtid_text u gno) g' /\
    (store p' = store p \/ progress_in (store p') i g').
Proof.
  intros [Hs Hcur Hlast Hg Htext Hup] Hu Hgno Hne g'.
  unfold save_progress, bind, gets, id. rewrite Hs, Hcur, Hlast, Hg.
  change (TransactionBoundaryParser.IsNotInsideTransaction (at_state EventParserNone)) with true.
  assert (String.eqb (gtid_text u gno) "" = false) as ->.
  { destruct (set_text_some (single u gno)) as (c & r & E); [by apply single_ok|]. by rewrite gtid_text_single, E. }
  rewrite (proj2 (String.eqb_neq _ _) Hne). cbn [negb andb]. rewrite Update_gtid by done. fold g'.
  unfold modify, throw. cbn [persistentAppliedIndex persistentTime].
  destruct ((_ <? _) || (_ <? _)).
  - unfold on_store, zoom. cbn [store set_executed set_lastSaveGtid set_executedStr].
    destruct (SetBinlogProgress_up (store p) i g' Hup) as (m' & E & Hup' & Hin). rewrite E.
    eexists. split; [reflexivity|]. split; [|by right]. by split.
  - eexists. split; [reflexivity|]. split; [|by left]. by split.
Qed.
