(* ===== verification/Membership.v ===== *)
(** The members of the raft cluster, raft/membership/cluster.go and member.go:
    who is a member, which ids were removed, which configuration changes are
    valid, and the copy of all this in the metadata store. *)
From S2P Require Import Prelude.
From S2P Require Import Names.
From S2P Require Import Text.
From S2P Require Import Events.
From S2P Require Import Storage.
From S2P Require Import MetaStore.
From S2P Require Import MetaTheorems.
From stdpp Require Import sorting strings.
Local Open Scope string_scope.
Local Open Scope list_scope.
Local Open Scope Z_scope.
Local Open Scope go_scope.

(** * crypto/sha1 *)

Module Sha1.

Definition rotl (n x : Z) : Z := Z.lor (u32 (Z.shiftl x n)) (Z.shiftr x (32 - n)).

(** The message with the bit 1, zeros and its length in bits. *)
Definition pad (m : bytes) : bytes :=
  m ++ [128] ++ zeros ((55 - blen m) mod 64) ++ be_bytes 8 (8 * blen m).

Fixpoint be_words (n : nat) (l : bytes) : list Z :=
  match n with
  | O => []
  | S n' => be_val (take 4 l) :: be_words n' (drop 4 l)
  end.

(** The words of the schedule, last one first. *)
Fixpoint schedule (n : nat) (ws : list Z) : list Z :=
  match n with
  | O => ws
  | S n' =>
      let w k := nth k ws 0 in
      schedule n' (rotl 1 (Z.lxor (Z.lxor (w 2%nat) (w 7%nat)) (Z.lxor (w 13%nat) (w 15%nat))) :: ws)
  end.

Definition f_k (t : Z) (b c d : Z) : Z * Z :=
  if t <? 20 then (Z.lor (Z.land b c) (Z.land (Z.lxor b (2 ^ 32 - 1)) d), 1518500249)
  else if t <? 40 then (Z.lxor (Z.lxor b c) d, 1859775393)
  else if t <? 60 then (Z.lor (Z.lor (Z.land b c) (Z.land b d)) (Z.land c d), 2400959708)
  else (Z.lxor (Z.lxor b c) d, 3395469782).

Definition state : Type := (Z * Z * Z * Z * Z)%type.

Fixpoint rounds (t : Z) (ws : list Z) (s : state) : state :=
  match ws with
  | [] => s
  | w :: ws' =>
      let '(a, b, c, d, e) := s in
      let '(f, k) := f_k t b c d in
      rounds (t + 1) ws' (u32 (rotl 5 a + f + e + w + k), a, rotl 30 b, c, d)
  end.

Definition block (l : bytes) (s : state) : state :=
  let ws := rev (schedule 64 (rev (be_words 16 l))) in
  let '(a, b, c, d, e) := s in
  let '(a', b', c', d', e') := rounds 0 ws s in
  (u32 (a + a'), u32 (b + b'), u32 (c + c'), u32 (d + d'), u32 (e + e')).

Fixpoint blocks (n : nat) (l : bytes) (s : state) : state :=
  match n with
  | O => s
  | S n' => blocks n' (drop 64 l) (block (take 64 l) s)
  end.

Definition Sum (m : bytes) : bytes :=
  let p := pad m in
  let '(a, b, c, d, e) := blocks (Z.to_nat (blen p / 64)) p
    (1732584193, 4023233417, 2562383102, 271733878, 3285377520) in
  be_bytes 4 a ++ be_bytes 4 b ++ be_bytes 4 c ++ be_bytes 4 d ++ be_bytes 4 e.

End Sha1.

Example sha1_abc :
  Sha1.Sum (StringToBytes "abc") =
    [169; 153; 62; 54; 71; 6; 129; 106; 186; 62; 37; 113; 120; 80; 194; 108; 156; 208; 216; 157].
Proof. vm_compute. reflexivity. Qed.

Definition u64_of_hash (h : bytes) : Z := be_val (take 8 h).

(** [raft.None] *)
Definition None_id : Z := 0.

(** * Members, member.go *)

Module Member.

(** [RaftAttributes] is the list of peer URLs; [Attributes] is the name and
    the admin URLs. A nil slice is the empty list. *)
Record t : Type := mk { ID : Z; PeerURLs : list string; Name : string; AdminURLs : list string }.

#[global] Instance eq_dec : EqDecision t.
Proof. solve_decision. Defined.
#[global] Instance countable : Countable t.
Proof.
  apply (inj_countable' (fun m => (ID m, PeerURLs m, Name m, AdminURLs m))
                        (fun '(i, p, n, a) => mk i p n a)). by intros [].
Defined.

Definition set_Attributes (name : string) (urls : list string) (m : t) : t := mk (ID m) (PeerURLs m) name urls.
Definition set_RaftAttributes (urls : list string) (m : t) : t := mk (ID m) urls (Name m) (AdminURLs m).

(** [now] is the time in seconds, if it is given. *)
Definition NewMember (name : string) (peerURLs adminURLs : list string) (now : option Z) : t :=
  let urls := merge_sort name_le peerURLs in
  let b := StringToBytes name ++ concat (map StringToBytes urls) ++
           match now with Some n => StringToBytes (fmt_d n) | None => [] end in
  mk (u64_of_hash (Sha1.Sum b)) urls name adminURLs.

(** [r] is the random number below the number of URLs. *)
Definition PickPeerURL (r : nat) (m : t) : res string :=
  match PeerURLs m !! r with Some u => Ok u | None => Panic end.

(** The slices are copied: the clone shares nothing with the member. *)
Definition Clone (m : t) : t := mk (ID m) (PeerURLs m) (Name m) (AdminURLs m).

Definition IsStarted (m : t) : bool := negb (Z.of_nat (String.length (Name m)) =? 0).

(** [MembersByID], [MembersByPeerURLs] *)
Definition id_le (a b : t) : Prop := ID a <= ID b.
#[global] Instance id_le_dec : RelDecision id_le.
Proof. intros a b. unfold id_le. apply _. Defined.

Definition url_le (a b : t) : Prop :=
  match PeerURLs a, PeerURLs b with
  | u :: _, v :: _ => name_le u v
  | _, _ => False
  end.
#[global] Instance url_le_dec : RelDecision url_le.
Proof. intros a b. unfold url_le. destruct (PeerURLs a), (PeerURLs b); apply _. Defined.

End Member.

(** [raftpb.ConfChange] *)
Inductive ConfChangeType : Type :=
  | ConfChangeAddNode
  | ConfChangeRemoveNode
  | ConfChangeUpdateNode
  | ConfChangeAddLearnerNode
  | ConfChangeType_other (n : Z).

Module ConfChange.
Record t : Type := mk { ID : Z; Type_ : ConfChangeType; NodeID : Z; Context_ : bytes }.
End ConfChange.

(** * The cluster, cluster.go *)

Module RaftCluster.

(** The fields that are marshalled: the store is next to it in the state. *)
Record t : Type := mk {
  ID : Z;
  MembersMap : gmap Z Member.t;
  RemovedMap : gmap Z bool }.

#[global] Instance eq_dec : EqDecision t.
Proof. solve_decision. Defined.
#[global] Instance countable : Countable t.
Proof.
  apply (inj_countable' (fun c => (ID c, MembersMap c, RemovedMap c)) (fun '(i, m, r) => mk i m r)). by intros [].
Defined.

Definition set_MembersMap (m : gmap Z Member.t) (c : t) : t := mk (ID c) m (RemovedMap c).
Definition set_RemovedMap (m : gmap Z bool) (c : t) : t := mk (ID c) (MembersMap c) m.

Definition values (m : gmap Z Member.t) : list Member.t := (map_to_list m).*2.

Definition NewCluster : t := mk 0 ∅ ∅.

Definition NewClusterFromMembers (id : Z) (membs : list Member.t) : t :=
  mk id (foldl (fun m x => <[Member.ID x := x]> m) ∅ membs) ∅.

Definition Members (c : t) : list Member.t :=
  merge_sort Member.id_le (map Member.Clone (values (MembersMap c))).

Definition Member (id : Z) (c : t) : option Member.t := Member.Clone <$> MembersMap c !! id.

Definition MemberByName (name : string) (c : t) : res (option Member.t) :=
  match filter (fun m => Member.Name m = name) (values (MembersMap c)) with
  | [] => Ok None
  | [m] => Ok (Some (Member.Clone m))
  | _ => Panic
  end.

Definition MemberIDs (c : t) : list Z := merge_sort Z.le (map Member.ID (values (MembersMap c))).

Definition IsIDRemoved (id : Z) (c : t) : bool := default false (RemovedMap c !! id).

Definition PeerURLs (c : t) : list string :=
  merge_sort name_le (concat (map Member.PeerURLs (values (MembersMap c)))).

Definition genID (c : t) : t :=
  mk (u64_of_hash (Sha1.Sum (concat (map (be_bytes 8) (MemberIDs c))))) (MembersMap c) (RemovedMap c).

Definition GetID : t -> Z := ID.
Definition SetID (id : Z) (c : t) : t := mk id (MembersMap c) (RemovedMap c).

(** The loop of [NewClusterFromURLsMap], over the entries of the map. *)
Fixpoint add_new (l : list (string * list string)) (m : gmap Z Member.t) : option (gmap Z Member.t) :=
  match l with
  | [] => Some m
  | (name, urls) :: l =>
      let x := Member.NewMember name urls [] None in
      match m !! Member.ID x with
      | Some _ => None
      | None => if Member.ID x =? None_id then None else add_new l (<[Member.ID x := x]> m)
      end
  end.

Definition NewClusterFromURLsMap (urlsmap : gmap string (list string)) : res t :=
  match add_new (map_to_list urlsmap) ∅ with
  | Some m => Ok (genID (mk 0 m ∅))
  | None => Err ErrFormat
  end.

Definition GetRemotePeerURLs (cl : t) (local : string) : list string :=
  merge_sort name_le (concat (map Member.PeerURLs (filter (fun m => Member.Name m <> local) (Members cl)))).

Definition getRemotePeerURLs : t -> string -> list string := GetRemotePeerURLs.

Definition IsReadyToAddNewMember (c : t) : bool :=
  let ms := values (MembersMap c) in
  let nstarted := Z.of_nat (length (filter (fun m => Member.IsStarted m = true) ms)) in
  let nmembers := 1 + Z.of_nat (length ms) in
  if (nstarted =? 1) && (nmembers =? 2) then true else
  let nquorum := Z.quot nmembers 2 + 1 in
  negb (nstarted <? nquorum).

Definition IsReadyToRemoveMember (id : Z) (c : t) : bool :=
  let ms := filter (fun m => Member.ID m <> id) (values (MembersMap c)) in
  let nstarted := Z.of_nat (length (filter (fun m => Member.IsStarted m = true) ms)) in
  let nmembers := Z.of_nat (length ms) in
  let nquorum := Z.quot nmembers 2 + 1 in
  negb (nstarted <? nquorum).

(** [sort.Sort] compares every element when there are two or more, and
    [PeerURLs[0]] of a member without URLs panics. *)
Definition sort_by_url (l : list Member.t) : res (list Member.t) :=
  if (1 <? Z.of_nat (length l)) && existsb (fun m => match Member.PeerURLs m with [] => true | _ => false end) l
  then Panic
  else Ok (merge_sort Member.url_le l).

(** [netutil.URLStringsEqual], which resolves host names, is a parameter. *)
Section validate.
Context (URLStringsEqual : list string -> list string -> bool).

Fixpoint assign_ids (ems lms : list Member.t) : option (list Member.t) :=
  match ems, lms with
  | e :: ems, l :: lms =>
      if URLStringsEqual (Member.PeerURLs e) (Member.PeerURLs l)
      then cons (Member.mk (Member.ID e) (Member.PeerURLs l) (Member.Name l) (Member.AdminURLs l)) <$> assign_ids ems lms
      else None
  | _, _ => Some []
  end.

(** The result is the new [local]. *)
Definition ValidateClusterAndAssignIDs (local existing : t) : res t :=
  let ems := Members existing in
  let lms := Members local in
  if negb (Z.of_nat (length ems) =? Z.of_nat (length lms)) then Err ErrFormat else
  match sort_by_url ems, sort_by_url lms with
  | Ok ems, Ok lms =>
      match assign_ids ems lms with
      | None => Err ErrFormat
      | Some lms => Ok (set_MembersMap (foldl (fun m x => <[Member.ID x := x]> m) ∅ lms) local)
      end
  | _, _ => Panic
  end.
End validate.

(** Over any metadata store and any JSON encoding of the cluster and of a
    member. *)
Section store.
Context {M : Type} `{MetaStorage M} `{Json t} `{Json Member.t}.

Definition GetRaftClusterFromStorage : St M t :=
  fun st => match meta_Get (StringToBytes RaftClusterKey) st with
  | (Ok None, st) => (Err ErrKeyNotFound, st)
  | (Ok (Some value), st) => match json_Unmarshal value with Some r => (Ok r, st) | None => (Panic, st) end
  | (_, st) => (Panic, st)
  end.

Definition SaveToStorage : St (t * M) unit :=
  fun '(c, st) => match meta_Set (StringToBytes RaftClusterKey) (json_Marshal c) st with
  | (Ok _, st) => (Ok tt, (c, st))
  | (_, st) => (Panic, (c, st))
  end.

Definition membersFromStore : St M (gmap Z Member.t * gmap Z bool) :=
  fun st => match GetRaftClusterFromStorage st with
  | (Ok r, st) => (Ok (MembersMap r, RemovedMap r), st)
  | (Err ErrKeyNotFound, st) => (Ok (∅, ∅), st)
  | (_, st) => (Panic, st)
  end.

(** The URLs of the members in [ms]; one of [m]'s among them is an error. *)
Definition check_urls (ms : list Member.t) (context : bytes) : res unit :=
  let urls := concat (map Member.PeerURLs ms) in
  match json_Unmarshal (A := Member.t) context with
  | None => Panic
  | Some m => if existsb (fun u => bool_decide (u ∈ urls)) (Member.PeerURLs m) then Err ErrPeerURLexists else Ok tt
  end.

Definition validate (members : gmap Z Member.t) (removed : gmap Z bool) (cc : ConfChange.t) : res unit :=
  let id := ConfChange.NodeID cc in
  if default false (removed !! id) then Err ErrIDRemoved else
  match ConfChange.Type_ cc with
  | ConfChangeAddNode =>
      match members !! id with
      | Some _ => Err ErrIDExists
      | None => check_urls (values members) (ConfChange.Context_ cc)
      end
  | ConfChangeRemoveNode =>
      match members !! id with None => Err ErrIDNotFound | Some _ => Ok tt end
  | ConfChangeUpdateNode =>
      match members !! id with
      | None => Err ErrIDNotFound
      | Some _ => check_urls (filter (fun m => Member.ID m <> id) (values members)) (ConfChange.Context_ cc)
      end
  | _ => Panic
  end.

Definition ValidateConfigurationChange (cc : ConfChange.t) : St (t * M) unit :=
  let! x := zoom snd (fun st cs => (cs.1, st)) membersFromStore in
  lift (validate x.1 x.2 cc).

Definition update (f : t -> t) : St (t * M) unit := modify (fun cs => (f cs.1, cs.2)).

Definition AddMember (m : Member.t) : St (t * M) unit :=
  update (fun c => set_MembersMap (<[Member.ID m := m]> (MembersMap c)) c) ;!
  fatal_on_err SaveToStorage.

Definition RemoveMember (id : Z) : St (t * M) unit :=
  update (fun c => set_MembersMap (delete id (MembersMap c)) c) ;!
  update (fun c => set_RemovedMap (<[id := true]> (RemovedMap c)) c) ;!
  fatal_on_err SaveToStorage.

Definition UpdateAttributes (id : Z) (name : string) (adminURLs : list string) : St (t * M) unit :=
  let! c := gets fst in
  match MembersMap c !! id with
  | Some m =>
      update (fun c => set_MembersMap (<[id := Member.set_Attributes name adminURLs m]> (MembersMap c)) c) ;!
      fatal_on_err SaveToStorage
  | None =>
      match RemovedMap c !! id with
      | None => panic
      | Some _ => ret tt
      end
  end.

Definition UpdateRaftAttributes (id : Z) (peerURLs : list string) : St (t * M) unit :=
  let! c := gets fst in
  match MembersMap c !! id with
  | None => panic
  | Some m =>
      update (fun c => set_MembersMap (<[id := Member.set_RaftAttributes peerURLs m]> (MembersMap c)) c) ;!
      fatal_on_err SaveToStorage
  end.

(** [cc.Get(u + "/members")] and reading its body: the members in it and the
    cluster id of its header, or nothing when one of these steps fails. *)
Section remote.
Context (http_members : string -> option (list Member.t * Z)).

Fixpoint getClusterFromRemotePeers (urls : list string) : res t :=
  match urls with
  | [] => Err ErrFormat
  | u :: urls =>
      match http_members u with
      | None => getClusterFromRemotePeers urls
      | Some ([], _) => Err ErrFormat
      | Some (membs, id) => Ok (NewClusterFromMembers id membs)
      end
  end.

Definition GetClusterFromRemotePeers : list string -> res t := getClusterFromRemotePeers.

Definition IsMemberBootstrapped (cl : t) (member : string) : res bool :=
  match getClusterFromRemotePeers (getRemotePeerURLs cl member) with
  | Ok rcl =>
      match MemberByName member cl with
      | Ok (Some m) => match Member (Member.ID m) rcl with None => Ok false | Some _ => Ok false end
      | _ => Panic
      end
  | Err _ => Ok false
  | Panic => Panic
  end.
End remote.
End store.

End RaftCluster.

(** * What the store promises to the cluster *)

(** In the states [ok], a value that is set is read back and the values of the
    other keys stay. *)
Class MetaLaws (M : Type) `{MetaStorage M} (ok : M -> Prop) : Prop := {
  meta_get_pure st k : ok st -> k <> [] -> (meta_Get k st).2 = st;
  meta_set_get_law st k v : ok st -> k <> [] -> bytes_ok k -> exists st', meta_Set k v st = (Ok tt, st') /\ ok st' /\
    meta_Get k st' = (Ok (Some v), st') /\
    forall k', k' <> [] -> bytes_ok k' -> k' <> k -> (meta_Get k' st').1 = (meta_Get k' st).1 }.

Lemma StringToBytes_ok s : bytes_ok (StringToBytes s).
Proof.
  unfold bytes_ok. induction s as [|c s IH]; cbn; constructor; [|done].
  unfold is_u8. pose proof (Ascii.N_ascii_bounded c). lia.
Qed.

#[export] Instance meta_store_laws `{Json HardState.t} `{Json ConfState.t} : MetaLaws MetaStore.t store_up.
Proof.
  split.
  - intros st k [Hc Hf] Hk. cbn. by rewrite Get_open.
  - intros st k v [Hc Hf] Hk Hb. cbn. eexists. split; [by apply Set_open|]. split; [done|].
    split; [rewrite Get_open by done; cbn; by rewrite lookup_insert_eq|].
    intros k' Hk' Hb' Hne. rewrite !Get_open by done. cbn. rewrite lookup_insert_ne; [done|].
    intros E. apply Hne. rewrite <- (string_bytes k), <- (string_bytes k') by done. by rewrite E.
Qed.

(** * The invariant of the cluster *)

Record cluster_ok (c : RaftCluster.t) : Prop := {
  ok_ids : map_Forall (fun id m => Member.ID m = id) (RaftCluster.MembersMap c);
  ok_true : map_Forall (fun _ b => b = true) (RaftCluster.RemovedMap c);
  ok_removed id : is_Some (RaftCluster.MembersMap c !! id) -> RaftCluster.RemovedMap c !! id = None;
  ok_urls i j mi mj u : RaftCluster.MembersMap c !! i = Some mi -> RaftCluster.MembersMap c !! j = Some mj ->
    u ∈ Member.PeerURLs mi -> u ∈ Member.PeerURLs mj -> i = j }.

Section cluster.
Context {M : Type} `{MetaLaws M ok} `{JsonLaws RaftCluster.t} `{Json Member.t}.

(** The cluster in memory is well formed, and the store holds it. *)
Definition stored (cs : RaftCluster.t * M) : Prop :=
  cluster_ok cs.1 /\ ok cs.2 /\ meta_Get (StringToBytes RaftClusterKey) cs.2 =
    (Ok (Some (json_Marshal cs.1)), cs.2).

Lemma SaveToStorage_stored c st : cluster_ok c -> ok st -> exists st',
  RaftCluster.SaveToStorage (c, st) = (Ok tt, (c, st')) /\ stored (c, st').
Proof.
  intros Hc Hs. destruct (meta_set_get_law st (StringToBytes RaftClusterKey) (json_Marshal c))
    as (st' & Hset & Hok & Hget & _); [done|done|apply StringToBytes_ok|].
  exists st'. unfold RaftCluster.SaveToStorage. rewrite Hset. done.
Qed.

Lemma membersFromStore_stored cs : stored cs ->
  zoom snd (fun st cs => (cs.1, st)) RaftCluster.membersFromStore cs =
    (Ok (RaftCluster.MembersMap cs.1, RaftCluster.RemovedMap cs.1), cs).
Proof.
  intros (Hc & Hs & Hget). destruct cs as [c st]. cbn [fst snd] in *.
  unfold zoom, RaftCluster.membersFromStore, RaftCluster.GetRaftClusterFromStorage. cbn [snd fst].
  by rewrite Hget, json_roundtrip.
Qed.

Lemma ValidateConfigurationChange_stored cc cs : stored cs ->
  RaftCluster.ValidateConfigurationChange cc cs =
    (RaftCluster.validate (RaftCluster.MembersMap cs.1) (RaftCluster.RemovedMap cs.1) cc, cs).
Proof.
  intros Hs. unfold RaftCluster.ValidateConfigurationChange.
  rewrite (bind_ok _ _ _ _ _ (membersFromStore_stored cs Hs)). cbn. unfold lift. done.
Qed.

(** A change of the cluster that keeps it well formed is followed by a save. *)
Lemma update_save f cs : stored cs -> cluster_ok (f cs.1) -> exists st',
  bind (RaftCluster.update f) (fun _ => fatal_on_err RaftCluster.SaveToStorage) cs = (Ok tt, (f cs.1, st')) /\
  stored (f cs.1, st').
Proof.
  intros (Hc & Hs & _) Hf. destruct cs as [c st].
  destruct (SaveToStorage_stored (f c) st Hf Hs) as (st' & Hsave & Hst).
  exists st'. split; [|done]. unfold RaftCluster.update, bind, modify, fatal_on_err. cbn [fst snd]. by rewrite Hsave.
Qed.

Lemma elem_values id m (ms : gmap Z Member.t) : ms !! id = Some m -> m ∈ RaftCluster.values ms.
Proof.
  intros Hm. unfold RaftCluster.values. apply list_elem_of_fmap. exists (id, m).
  split; [done|]. by apply elem_of_map_to_list.
Qed.

Lemma values_elem m (ms : gmap Z Member.t) : m ∈ RaftCluster.values ms -> exists id, ms !! id = Some m.
Proof.
  unfold RaftCluster.values. intros ([id m'] & -> & Hm)%list_elem_of_fmap.
  exists id. by apply elem_of_map_to_list in Hm.
Qed.

(** [m] shares no URL with the members [ms]. *)
Definition apart (m : Member.t) (ms : list Member.t) : Prop :=
  forall u m', u ∈ Member.PeerURLs m -> m' ∈ ms -> u ∉ Member.PeerURLs m'.

Lemma check_urls_spec (ms : list Member.t) context :
  match json_Unmarshal context with
  | None => RaftCluster.check_urls ms context = Panic
  | Some m => (RaftCluster.check_urls ms context = Ok tt /\ apart m ms) \/
              (RaftCluster.check_urls ms context = Err ErrPeerURLexists /\ ~ apart m ms)
  end.
Proof.
  unfold RaftCluster.check_urls. destruct (json_Unmarshal context) as [m|]; [|done].
  destruct (existsb _ _) eqn:E; [right|left]; (split; [done|]).
  - apply existsb_exists in E as (u & Hu%list_elem_of_In & Hin%bool_decide_eq_true).
    intros Ha. apply list_elem_of_In, in_concat in Hin as (us & (m' & <- & Hm')%in_map_iff & Hin).
    apply (Ha u m' Hu); by apply list_elem_of_In.
  - intros u m' Hu Hm' Hu'. rewrite <- not_true_iff_false in E. apply E.
    apply existsb_exists. exists u. split; [by apply list_elem_of_In|].
    apply bool_decide_eq_true, list_elem_of_In, in_concat. exists (Member.PeerURLs m').
    split; [|by apply list_elem_of_In]. apply in_map. by apply list_elem_of_In.
Qed.

Lemma cluster_ok_insert c m :
  cluster_ok c -> RaftCluster.RemovedMap c !! Member.ID m = None ->
  apart m (filter (fun m' => Member.ID m' <> Member.ID m) (RaftCluster.values (RaftCluster.MembersMap c))) ->
  cluster_ok (RaftCluster.set_MembersMap (<[Member.ID m := m]> (RaftCluster.MembersMap c)) c).
Proof.
  intros [Hids Htrue Hrem Hurls] Hr Ha. split; cbn.
  - by apply map_Forall_insert_2.
  - done.
  - intros id. destruct (decide (id = Member.ID m)) as [->|Hne]; [done|]. rewrite lookup_insert_ne by done. apply Hrem.
  - assert (forall j mj u, j <> Member.ID m -> RaftCluster.MembersMap c !! j = Some mj ->
      u ∈ Member.PeerURLs m -> u ∈ Member.PeerURLs mj -> False) as Hnew.
    { intros j mj u Hj Hmj Hu Hu'. apply (Ha u mj Hu); [|done]. apply list_elem_of_filter.
      split; [|by eapply elem_values]. by rewrite (Hids _ _ Hmj). }
    intros i j mi mj u Hi Hj Hui Huj.
    destruct (decide (i = Member.ID m)) as [->|Hni]; destruct (decide (j = Member.ID m)) as [->|Hnj];
      rewrite ?lookup_insert_eq, ?lookup_insert_ne in * by done; simplify_eq; [done| | |eauto];
      exfalso; eauto.
Qed.

Lemma cluster_ok_delete c id : cluster_ok c ->
  cluster_ok (RaftCluster.set_RemovedMap (<[id := true]> (RaftCluster.RemovedMap c))
    (RaftCluster.set_MembersMap (delete id (RaftCluster.MembersMap c)) c)).
Proof.
  intros [Hids Htrue Hrem Hurls]. split; cbn.
  - by apply map_Forall_delete.
  - by apply map_Forall_insert_2.
  - intros id' [m [Hne Hm]%lookup_delete_Some]. rewrite lookup_insert_ne by done. apply Hrem. eauto.
  - intros i j mi mj u [_ Hi]%lookup_delete_Some [_ Hj]%lookup_delete_Some. eauto.
Qed.

Lemma AddMember_stored m cs :
  stored cs -> RaftCluster.RemovedMap cs.1 !! Member.ID m = None ->
  apart m (filter (fun m' => Member.ID m' <> Member.ID m) (RaftCluster.values (RaftCluster.MembersMap cs.1))) ->
  exists st', let c' := RaftCluster.set_MembersMap (<[Member.ID m := m]> (RaftCluster.MembersMap cs.1)) cs.1 in
    RaftCluster.AddMember m cs = (Ok tt, (c', st')) /\ stored (c', st').
Proof.
  intros Hs Hr Ha. apply (update_save (fun c => RaftCluster.set_MembersMap _ c)); [done|].
  apply cluster_ok_insert; [apply Hs|done|done].
Qed.

Lemma RemoveMember_stored id cs : stored cs ->
  exists st', let c' := RaftCluster.set_RemovedMap (<[id := true]> (RaftCluster.RemovedMap cs.1))
      (RaftCluster.set_MembersMap (delete id (RaftCluster.MembersMap cs.1)) cs.1) in
    RaftCluster.RemoveMember id cs = (Ok tt, (c', st')) /\ stored (c', st').
Proof.
  intros Hs. exact (update_save (fun c => RaftCluster.set_RemovedMap (<[id := true]> (RaftCluster.RemovedMap c))
    (RaftCluster.set_MembersMap (delete id (RaftCluster.MembersMap c)) c)) cs Hs (cluster_ok_delete _ _ (proj1 Hs))).
Qed.

Lemma UpdateRaftAttributes_stored id urls m cs :
  stored cs -> RaftCluster.MembersMap cs.1 !! id = Some m ->
  apart (Member.set_RaftAttributes urls m)
    (filter (fun m' => Member.ID m' <> id) (RaftCluster.values (RaftCluster.MembersMap cs.1))) ->
  exists st', let c' := RaftCluster.set_MembersMap
      (<[id := Member.set_RaftAttributes urls m]> (RaftCluster.MembersMap cs.1)) cs.1 in
    RaftCluster.UpdateRaftAttributes id urls cs = (Ok tt, (c', st')) /\ stored (c', st').
Proof.
  intros Hs Hm Ha. pose proof (ok_ids _ (proj1 Hs) _ _ Hm) as Hid.
  unfold RaftCluster.UpdateRaftAttributes. rewrite bind_gets. rewrite Hm.
  apply (update_save (fun c => RaftCluster.set_MembersMap _ c)); [done|].
  rewrite <- Hid. apply (cluster_ok_insert _ (Member.set_RaftAttributes urls m)); cbn; rewrite ?Hid; [apply Hs| |done].
  apply (ok_removed _ (proj1 Hs)). eauto.
Qed.

(** Attributes of a member are replaced, those of a removed member ignored. *)
Lemma UpdateAttributes_stored id name urls cs :
  stored cs ->
  (exists m st', RaftCluster.MembersMap cs.1 !! id = Some m /\
     let c' := RaftCluster.set_MembersMap (<[id := Member.set_Attributes name urls m]> (RaftCluster.MembersMap cs.1)) cs.1 in
     RaftCluster.UpdateAttributes id name urls cs = (Ok tt, (c', st')) /\ stored (c', st')) \/
  (RaftCluster.MembersMap cs.1 !! id = None /\ is_Some (RaftCluster.RemovedMap cs.1 !! id) /\
     RaftCluster.UpdateAttributes id name urls cs = (Ok tt, cs)) \/
  (RaftCluster.MembersMap cs.1 !! id = None /\ RaftCluster.RemovedMap cs.1 !! id = None /\
     RaftCluster.UpdateAttributes id name urls cs = (Panic, cs)).
Proof.
  intros Hs. unfold RaftCluster.UpdateAttributes. rewrite bind_gets.
  destruct (RaftCluster.MembersMap cs.1 !! id) as [m|] eqn:Hm.
  - left. exists m. pose proof (ok_ids _ (proj1 Hs) _ _ Hm) as Hid.
    destruct (update_save (fun c => RaftCluster.set_MembersMap
      (<[id := Member.set_Attributes name urls m]> (RaftCluster.MembersMap c)) c) cs) as (st' & E & Hst); [done| |eauto].
    rewrite <- Hid. apply (cluster_ok_insert _ (Member.set_Attributes name urls m)); cbn; rewrite ?Hid; [apply Hs| |].
    + apply (ok_removed _ (proj1 Hs)). eauto.
    + intros u m' Hu [Hne Hin]%list_elem_of_filter Hu'. apply values_elem in Hin as [j Hj].
      apply Hne. rewrite (ok_ids _ (proj1 Hs) _ _ Hj). symmetry. eapply (ok_urls _ (proj1 Hs)); eauto.
  - destruct (RaftCluster.RemovedMap cs.1 !! id) eqn:Hr; right; [left|right]; eauto.
Qed.

(** What a configuration change must satisfy to be valid. *)
Lemma validate_ok cc c : cluster_ok c ->
  RaftCluster.validate (RaftCluster.MembersMap c) (RaftCluster.RemovedMap c) cc = Ok tt ->
  let id := ConfChange.NodeID cc in
  RaftCluster.RemovedMap c !! id = None /\
  match ConfChange.Type_ cc with
  | ConfChangeAddNode => RaftCluster.MembersMap c !! id = None /\ exists m : Member.t,
      json_Unmarshal (ConfChange.Context_ cc) = Some m /\ apart m (RaftCluster.values (RaftCluster.MembersMap c))
  | ConfChangeRemoveNode => is_Some (RaftCluster.MembersMap c !! id)
  | ConfChangeUpdateNode => is_Some (RaftCluster.MembersMap c !! id) /\ exists m : Member.t,
      json_Unmarshal (ConfChange.Context_ cc) = Some m /\
      apart m (filter (fun m' => Member.ID m' <> id) (RaftCluster.values (RaftCluster.MembersMap c)))
  | _ => False
  end.
Proof.
  intros Hc. unfold RaftCluster.validate.
  destruct (RaftCluster.RemovedMap c !! ConfChange.NodeID cc) as [b|] eqn:Hr.
  { by rewrite (ok_true _ Hc _ _ Hr). }
  cbn [default from_option]. intros Hv. split; [done|].
  destruct (ConfChange.Type_ cc); try done;
    destruct (RaftCluster.MembersMap c !! ConfChange.NodeID cc) eqn:Hm; try done; eauto.
  - split; [done|]. pose proof (check_urls_spec (RaftCluster.values (RaftCluster.MembersMap c)) (ConfChange.Context_ cc)) as Hs.
    destruct (json_Unmarshal _); [|congruence]. destruct Hs as [[_ ?]|[? _]]; [eauto|congruence].
  - split; [eauto|]. pose proof (check_urls_spec (filter (fun m => Member.ID m <> ConfChange.NodeID cc)
      (RaftCluster.values (RaftCluster.MembersMap c))) (ConfChange.Context_ cc)) as Hs.
    destruct (json_Unmarshal _); [|congruence]. destruct Hs as [[_ ?]|[? _]]; [eauto|congruence].
Qed.

End cluster.

(** * Quorums *)

(** The members of the map that have started. *)
Definition started (ms : gmap Z Member.t) : Z := Z.of_nat (size (filter (fun x => Member.IsStarted x.2 = true) ms)).
Definition members (ms : gmap Z Member.t) : Z := Z.of_nat (size ms).

Lemma values_filter (P : Member.t -> Prop) `{forall m, Decision (P m)} (ms : gmap Z Member.t) :
  RaftCluster.values (filter (fun x => P x.2) ms) ≡ₚ filter P (RaftCluster.values ms).
Proof.
  unfold RaftCluster.values. rewrite map_filter_alt, map_to_list_to_map.
  - apply reflexive_eq. generalize (map_to_list ms). intros l. induction l as [|[k m] l IH]; [done|].
    rewrite filter_cons. cbn [fmap list_fmap]. rewrite filter_cons. cbn [snd].
    destruct (decide (P m)); cbn; by rewrite IH.
  - eapply sublist_NoDup; [exact (NoDup_fst_map_to_list ms)|]. apply fmap_sublist, sublist_filter.
Qed.

Lemma values_length (ms : gmap Z Member.t) : length (RaftCluster.values ms) = size ms.
Proof. unfold RaftCluster.values. by rewrite length_fmap, length_map_to_list. Qed.

Lemma started_values ms : Z.of_nat (length (filter (fun m => Member.IsStarted m = true) (RaftCluster.values ms))) = started ms.
Proof.
  unfold started. rewrite <- values_length. f_equal. symmetry.
  apply Permutation_length. exact (values_filter (fun m => Member.IsStarted m = true) ms).
Qed.

Lemma values_delete ms id : map_Forall (fun id m => Member.ID m = id) ms ->
  filter (fun m => Member.ID m <> id) (RaftCluster.values ms) ≡ₚ RaftCluster.values (delete id ms).
Proof.
  intros Hids. etrans; [symmetry; exact (values_filter (fun m => Member.ID m <> id) ms)|].
  apply reflexive_eq. f_equal.
  apply map_eq. intros j. apply option_eq. intros m.
  rewrite map_lookup_filter_Some, lookup_delete_Some. cbn. split; intros [H1 H2].
  - split; [|done]. intros ->. by rewrite (Hids _ _ H1) in H2.
  - split; [done|]. by rewrite (Hids _ _ H2).
Qed.

Lemma ready_to_remove id c : cluster_ok c ->
  RaftCluster.IsReadyToRemoveMember id c = true <->
  2 * started (delete id (RaftCluster.MembersMap c)) > members (delete id (RaftCluster.MembersMap c)).
Proof.
  intros Hc. unfold RaftCluster.IsReadyToRemoveMember.
  rewrite (values_delete _ id) by apply Hc. rewrite started_values, values_length.
  fold (members (delete id (RaftCluster.MembersMap c))).
  assert (0 <= members (delete id (RaftCluster.MembersMap c))) by (unfold members; lia).
  rewrite negb_true_iff, Z.ltb_ge, Z.quot_div_nonneg by lia. Z.div_mod_to_equations. lia.
Qed.

(** A member may be removed exactly when the started members are a
    majority of the cluster without it; one may be added exactly when they are
    a majority of the cluster with one member more, or the cluster has one
    member and it has started. *)
Theorem member_changes_keep_quorum id c :
  cluster_ok c ->
  let ms := RaftCluster.MembersMap c in
  (RaftCluster.IsReadyToRemoveMember id c = true <-> 2 * started (delete id ms) > members (delete id ms)) /\
  (RaftCluster.IsReadyToAddNewMember c = true <->
     2 * started ms > members ms + 1 \/ (members ms = 1 /\ started ms = 1)).
Proof.
  intros Hc ms. split; [by apply ready_to_remove|]. unfold RaftCluster.IsReadyToAddNewMember. fold ms.
  rewrite started_values, values_length. fold (members ms). assert (0 <= members ms) by (unfold members; lia).
  destruct (_ && _) eqn:E.
  - apply andb_prop in E as [? ?]. lia.
  - rewrite negb_true_iff, Z.ltb_ge, Z.quot_div_nonneg by lia. apply andb_false_iff in E.
      Z.div_mod_to_equations. lia.
Qed.

Definition sample_member (id : Z) (url name : string) : Member.t := Member.mk id [url] name [].
Definition sample_cluster : RaftCluster.t :=
  RaftCluster.NewClusterFromMembers 7
    [sample_member 1 "http://n1" "n1"; sample_member 2 "http://n2" "n2"; sample_member 3 "http://n3" ""].

Lemma sample_cluster_ok : cluster_ok sample_cluster.
Proof.
  split; unfold sample_cluster, RaftCluster.NewClusterFromMembers; cbn [RaftCluster.MembersMap RaftCluster.RemovedMap foldl].
  - by repeat apply map_Forall_insert_2.
  - apply map_Forall_empty.
  - done.
  - intros i j mi mj u Hi Hj Hui Huj.
    repeat (apply lookup_insert_Some in Hi as [[<- <-]|[_ Hi]]); [..|done];
    repeat (apply lookup_insert_Some in Hj as [[<- <-]|[_ Hj]]); try done;
    apply list_elem_of_singleton in Hui, Huj; congruence.
Qed.

Lemma member_changes_keep_quorum_witness :
  RaftCluster.IsReadyToRemoveMember 3 sample_cluster = true /\
  (RaftCluster.IsReadyToAddNewMember sample_cluster = true <-> 2 * 2 > 3 + 1 \/ (3 = 1 /\ 2 = 1)).
Proof.
  destruct (member_changes_keep_quorum 3 sample_cluster sample_cluster_ok) as [Hr Ha].
  split; [apply Hr; by vm_compute|exact Ha].
Defined.

(** * Bootstrap *)

Definition new_entry (x : string * list string) : Z * Member.t :=
  let m := Member.NewMember x.1 x.2 [] None in (Member.ID m, m).

Definition fresh_ids (l : list (string * list string)) (ms : gmap Z Member.t) : Prop :=
  NoDup (map new_entry l).*1 /\ Forall (fun i => ms !! i = None /\ i <> None_id) (map new_entry l).*1.

(** The loop succeeds exactly on distinct ids, none of them [None_id]. *)
Lemma add_new_ok l : forall ms, fresh_ids l ms -> RaftCluster.add_new l ms = Some (list_to_map (map new_entry l) ∪ ms).
Proof.
  induction l as [|[name urls] l IH]; intros ms [Hnd Hf]; cbn [RaftCluster.add_new].
  { cbn. by rewrite map_empty_union. }
  cbn [map] in *. rewrite fmap_cons in Hnd, Hf.
  apply NoDup_cons in Hnd as [Hin Hnd]. apply Forall_cons in Hf as [[Hx Hz] Hf]. cbn [fst snd new_entry] in Hin, Hx, Hz.
  rewrite Hx. rewrite (proj2 (Z.eqb_neq _ _) Hz). rewrite IH.
  - cbn [list_to_map new_entry fst snd]. rewrite <- insert_union_r by (by apply not_elem_of_list_to_map_1).
    by rewrite insert_union_l.
  - split; [done|]. apply Forall_forall. intros i Hi.
    pose proof (proj1 (Forall_forall _ _) Hf i Hi) as [Hni Hiz]. split; [|done].
    rewrite lookup_insert_ne; [done|]. by intros <-.
Qed.

Lemma add_new_fresh l : forall ms ms', RaftCluster.add_new l ms = Some ms' -> fresh_ids l ms.
Proof.
  induction l as [|[name urls] l IH]; intros ms ms'; cbn [RaftCluster.add_new].
  { intros _. split; constructor. }
  destruct (ms !! _) eqn:Hx; [done|]. destruct (Z.eqb_spec (Member.ID (Member.NewMember name urls [] None)) None_id); [done|].
  intros [Hnd Hf]%IH. split; cbn [map]; rewrite fmap_cons.
  - apply NoDup_cons. split; [|done]. intros Hin.
    pose proof (proj1 (Forall_forall _ _) Hf _ Hin) as [Hn _]. cbn in Hn. by rewrite lookup_insert_eq in Hn.
  - apply Forall_cons. split; [done|]. eapply Forall_impl; [exact Hf|]. cbn. intros i [Hi ?]. split; [|done].
    destruct (decide (i = Member.ID (Member.NewMember name urls [] None))) as [->|Hne]; [done|].
    by rewrite lookup_insert_ne in Hi.
Qed.

Lemma fresh_ids_perm l l' ms : l ≡ₚ l' -> fresh_ids l ms -> fresh_ids l' ms.
Proof. intros E [Hnd Hf]. unfold fresh_ids. by rewrite <- E. Qed.

Lemma add_new_perm l l' ms ms' :
  l ≡ₚ l' -> RaftCluster.add_new l ms = Some ms' -> RaftCluster.add_new l' ms = Some ms'.
Proof.
  intros E Hl. pose proof (add_new_fresh _ _ _ Hl) as Hf.
  rewrite add_new_ok in Hl by done. rewrite add_new_ok by (by eapply fresh_ids_perm).
  rewrite <- Hl. do 2 f_equal. symmetry. apply list_to_map_proper; [apply Hf|by rewrite E].
Qed.

(** The members of a new cluster. *)
Lemma new_cluster_members urlsmap c : RaftCluster.NewClusterFromURLsMap urlsmap = Ok c ->
  RaftCluster.RemovedMap c = ∅ /\
  (forall id m, RaftCluster.MembersMap c !! id = Some m <-> exists name urls,
     urlsmap !! name = Some urls /\ m = Member.NewMember name urls [] None /\ id = Member.ID m) /\
  RaftCluster.MembersMap c !! None_id = None.
Proof.
  unfold RaftCluster.NewClusterFromURLsMap.
  destruct (RaftCluster.add_new (map_to_list urlsmap) ∅) as [ms|] eqn:Hms; [|done]. intros [= <-].
  pose proof (add_new_fresh _ _ _ Hms) as [Hnd Hf]. cbn. split; [done|].
  rewrite add_new_ok in Hms by done. rewrite map_union_empty in Hms. injection Hms as <-. split.
  - intros id m. rewrite <- elem_of_list_to_map by done. rewrite list_elem_of_In, in_map_iff. split.
    + intros ([name urls] & [= <- <-] & Hin%list_elem_of_In%elem_of_map_to_list). eauto.
    + intros (name & urls & Hu & -> & ->). exists (name, urls). split; [done|].
      by apply list_elem_of_In, elem_of_map_to_list.
  - apply not_elem_of_list_to_map_1. intros Hin. by destruct (proj1 (Forall_forall _ _) Hf _ Hin).
Qed.

(** Every node computes the same members and the same cluster id from the
    same configuration: the result does not depend on the order in which the map
    is iterated, each configured node is a member under the id derived from its
    name and URLs, and two nodes with the same id, or with the id that means
    none, are refused. *)
Theorem bootstrap_is_deterministic urlsmap l :
  l ≡ₚ map_to_list urlsmap ->
  match RaftCluster.NewClusterFromURLsMap urlsmap with
  | Ok c => RaftCluster.add_new l ∅ = Some (RaftCluster.MembersMap c) /\ RaftCluster.RemovedMap c = ∅ /\
      (forall id m, RaftCluster.MembersMap c !! id = Some m <-> exists name urls,
         urlsmap !! name = Some urls /\ m = Member.NewMember name urls [] None /\ id = Member.ID m) /\
      RaftCluster.MembersMap c !! None_id = None
  | Err e => e = ErrFormat /\ RaftCluster.add_new l ∅ = None
  | Panic => False
  end.
Proof.
  intros E. pose proof (new_cluster_members urlsmap) as Hn. unfold RaftCluster.NewClusterFromURLsMap in *.
  destruct (RaftCluster.add_new (map_to_list urlsmap) ∅) as [ms|] eqn:Hms.
  - split; [by eapply add_new_perm|by apply Hn].
  - split; [done|]. destruct (RaftCluster.add_new l ∅) eqn:Hl; [|done].
    by rewrite (add_new_perm _ _ _ _ E Hl) in Hms.
Qed.

Lemma bootstrap_is_deterministic_witness :
  let urlsmap : gmap string (list string) := {[ "n1" := ["http://h1"]; "n2" := ["http://h2"] ]} in
  match RaftCluster.NewClusterFromURLsMap urlsmap with
  | Ok c => RaftCluster.add_new (rev (map_to_list urlsmap)) ∅ = Some (RaftCluster.MembersMap c)
  | _ => False
  end.
Proof.
  intros urlsmap. pose proof (bootstrap_is_deterministic urlsmap (rev (map_to_list urlsmap))) as Hb.
  destruct (RaftCluster.NewClusterFromURLsMap urlsmap) eqn:E; [|by vm_compute in E..].
  apply Hb. symmetry. apply Permutation_rev.
Defined.

(** A node is never found to be bootstrapped, whatever the others answer. *)
Lemma never_bootstrapped http cl name : RaftCluster.IsMemberBootstrapped http cl name <> Ok true.
Proof. unfold RaftCluster.IsMemberBootstrapped. by repeat case_match. Qed.
