(* ===== verification/Config.v ===== *)
(** The arguments that go through the raft log and the configuration of the
    sub servers: config/server_config.go and [MasterInfo] of mysql/status.go.
    JSON is a parameter with its round trip. *)
From S2P Require Import Prelude.
From S2P Require Import Text.
From S2P Require Import Wire.
From S2P Require Import MetaStore.
From Stdlib Require Import Ascii.
From stdpp Require Import list strings.
Local Open Scope string_scope.
Local Open Scope list_scope.
Local Open Scope Z_scope.

(** [EncodeWithType] of each type: the type byte, then the JSON text. *)
Definition encode_with_type {A} `{Json A} (ty : Z) (a : A) : bytes := ty :: json_Marshal a.

Module SyncerArgs.
Record t : Type := mk {
  SyncerID : Z; SynerUUID : string; MysqlAddr : string; MysqlUser : string; MysqlPassword : string; SemiSync : bool }.

#[global] Instance eq_dec : EqDecision t.
Proof. solve_decision. Defined.
#[global] Instance countable : Countable t.
Proof.
  apply (inj_countable' (fun a => (SyncerID a, SynerUUID a, MysqlAddr a, MysqlUser a, MysqlPassword a, SemiSync a))
                        (fun '(i, u, a, n, p, s) => mk i u a n p s)). by intros [].
Defined.

Definition Check (s : t) : res unit :=
  if (SyncerID s <? 0) || String.eqb (MysqlAddr s) "" || String.eqb (MysqlUser s) "" || String.eqb (SynerUUID s) ""
  then Err ErrArgs else Ok tt.

Definition EncodeWithType `{Json t} : t -> bytes := encode_with_type SyncerArgsType.
End SyncerArgs.

Module Attributes.
Record t : Type := mk { ID : Z; Name : string; AdminURLs : list string }.

#[global] Instance eq_dec : EqDecision t.
Proof. solve_decision. Defined.
#[global] Instance countable : Countable t.
Proof.
  apply (inj_countable' (fun a => (ID a, Name a, AdminURLs a)) (fun '(i, n, u) => mk i n u)). by intros [].
Defined.

Definition EncodeWithType `{Json t} : t -> bytes := encode_with_type NodeAttributesType.
End Attributes.

Module MasterGtidPurged.
Record t : Type := mk { GtidPurged : string }.

#[global] Instance eq_dec : EqDecision t.
Proof. solve_decision. Defined.
#[global] Instance countable : Countable t.
Proof. apply (inj_countable' GtidPurged mk). by intros []. Defined.

Definition EncodeWithType `{Json t} : t -> bytes := encode_with_type MasterGtidPurgedType.
End MasterGtidPurged.

Module MasterInfo.
Record t : Type := mk { ServerID : Z; ServerUUID : string; Version : string }.

#[global] Instance eq_dec : EqDecision t.
Proof. solve_decision. Defined.
#[global] Instance countable : Countable t.
Proof.
  apply (inj_countable' (fun a => (ServerID a, ServerUUID a, Version a)) (fun '(i, u, v) => mk i u v)). by intros [].
Defined.

Definition EncodeMasterInfo `{Json t} : t -> bytes := encode_with_type MasterInfoType.
End MasterInfo.

(** [replication.BinlogSyncerConfig] and [MaxEventBytes]; durations are in
    nanoseconds. The options that are nil or zero are left out. *)
Module SyncerConfig.
Record t : Type := mk {
  ServerID : Z; ServerUuid : string; Flavor : string; Host : string; Port : Z; User : string; Password : string;
  Charset : string; SemiSyncEnabled : bool; RawModeEnabled : bool; ParseTime : bool; UseDecimal : bool;
  HeartbeatPeriod : Z; ReadTimeout : Z; MaxReconnectAttempts : Z; VerifyChecksum : bool; MaxEventBytes : Z }.
End SyncerConfig.

Definition MaxRequestBytes : Z := 20 * 1024 * 1024.

(** [mysqlAddr[1]] panics when the address has no colon; [ParseInt] is called
    for 32 bits. *)
Definition NewSyncerConfig (args : SyncerArgs.t) : res SyncerConfig.t :=
  match Split ":"%char (SyncerArgs.MysqlAddr args) with
  | host :: port :: _ =>
      match ParseInt port with
      | (_, Some _) => Err ErrFormat
      | (p, None) =>
          if negb ((- 2 ^ 31 <=? p) && (p <? 2 ^ 31)) then Err ErrFormat
          else if (p <? 1) || (65535 <? p) then Err ErrFormat
          else Ok (SyncerConfig.mk (u32 (SyncerArgs.SyncerID args)) (SyncerArgs.SynerUUID args) "mysql" host
                 (p mod 2 ^ 16) (SyncerArgs.MysqlUser args) (SyncerArgs.MysqlPassword args) "utf8"
                 (SyncerArgs.SemiSync args) false false true (10 * 10 ^ 9) (20 * 10 ^ 9) 3 true MaxRequestBytes)
      end
  | _ => Panic
  end.

Module BinlogServerConfig.
Record t : Type := mk { Addr : string; User : string; Password : string }.

#[global] Instance eq_dec : EqDecision t.
Proof. solve_decision. Defined.
#[global] Instance countable : Countable t.
Proof.
  apply (inj_countable' (fun a => (Addr a, User a, Password a)) (fun '(a, u, p) => mk a u p)). by intros [].
Defined.

Definition Check (kingbusIP : string) (s : t) : res unit :=
  if String.eqb (Addr s) "" || String.eqb (User s) "" || String.eqb (Password s) "" then Err ErrArgs else
  match Split ":"%char (Addr s) with
  | ip :: _ => if String.eqb ip kingbusIP then Ok tt else Err ErrArgs
  | [] => Panic
  end.
End BinlogServerConfig.
