(* ===== verification/NodeConfig.v ===== *)
(** The configuration of a node, config/config.go, with [types.URLsMap] of the
    vendored etcd package: reading it, and the checks before a node bootstraps a
    cluster or joins one. *)
From S2P Require Import Prelude.
From S2P Require Import Names.
From S2P Require Import Text.
From S2P Require Import Config.
From Stdlib Require Import Ascii.
From stdpp Require Import sorting list strings.
Local Open Scope string_scope.
Local Open Scope list_scope.
Local Open Scope Z_scope.
Local Open Scope go_scope.

(** * URLs *)

(** The text of the URL that [url.Parse] and the tests of [NewURLs] (scheme,
    host and port, no path) take a text for, if they take it. *)
Class URLParser : Type := ParseURL : string -> option string.

(** A [types.URLs] is the list of the texts of its URLs. *)
Definition NewURLs `{URLParser} (strs : list string) : res (list string) :=
  match strs with
  | [] => Err ErrFormat
  | _ => match mapM (fun s => ParseURL (TrimSpace s)) strs with
         | Some us => Ok (merge_sort name_le us)
         | None => Err ErrFormat
         end
  end.

Module URLsMap.
Abbreviation t := (gmap string (list string)).

(** The text before and behind the first [c]. *)
Fixpoint cut (c : ascii) (s : string) : string * string :=
  match s with
  | "" => ("", "")
  | String d s' => if ascii_dec d c then ("", s') else let '(a, b) := cut c s' in (String d a, b)
  end.

(** The loop of [parse] over the parts between commas. *)
Definition parse (s : string) : t :=
  foldl (fun m key =>
           if String.eqb key "" then m else
           let '(key, value) := cut "="%char key in
           <[key := default [] (m !! key) ++ [value]]> m)
    ∅ (Split ","%char s).

(** The order in which the map is gone through does not matter: the errors
    are not told apart. *)
Definition NewURLsMap `{URLParser} (s : string) : res t :=
  foldr (fun '(name, urls) r =>
           match NewURLs urls, r with
           | Ok us, Ok m => Ok (<[name := us]> m)
           | Ok _, r => r
           | Err e, _ => Err e
           | Panic, _ => Panic
           end)
    (Ok ∅) (map_to_list (parse s)).

Definition pairs (m : t) : list string :=
  concat (map (fun '(name, urls) => map (fun u => name +:+ "=" +:+ u) urls) (map_to_list m)).

Definition String_ (m : t) : string := String.concat "," (merge_sort name_le (pairs m)).

(** The URLs of all names. *)
Definition all_urls (m : t) : list string := concat (map snd (map_to_list m)).
End URLsMap.

(** * The configuration of a raft node *)

(** Durations are in nanoseconds. *)
Module RaftNodeConfig.
Record t : Type := mk {
  Name : string;
  AppliedIndex : Z;
  PeerURLs : list string;
  InitialPeerURLsMap : URLsMap.t;
  MaxRequestBytes : Z;
  HeartbeatMs : Z;
  ElectionTimeoutMs : Z;
  NewCluster : bool;
  PreVote : bool;
  DataDir : string;
  ReserveDataSize : Z;
  StrictReconfigCheck : bool }.

Definition set_AppliedIndex (i : Z) (c : t) : t :=
  mk (Name c) i (PeerURLs c) (InitialPeerURLsMap c) (MaxRequestBytes c) (HeartbeatMs c) (ElectionTimeoutMs c)
    (NewCluster c) (PreVote c) (DataDir c) (ReserveDataSize c) (StrictReconfigCheck c).

Definition hasLocalMember (c : t) : res unit :=
  match InitialPeerURLsMap c !! Name c with
  | None => Err ErrNoLocalMember
  | Some _ => Ok tt
  end.

(** [netutil.URLStringsEqual], which resolves host names, is a parameter. *)
Section verify.
Context (URLStringsEqual : list string -> list string -> bool).

(** The URLs of the map come sorted from [NewURLs], so that sorting them in
    place changes nothing. *)
Definition advertiseMatchesCluster (c : t) : res unit :=
  let urls := merge_sort name_le (default [] (InitialPeerURLsMap c !! Name c)) in
  let apurls := merge_sort name_le (PeerURLs c) in
  if URLStringsEqual apurls urls then Ok tt else
  let apMap : gset string := list_to_set (PeerURLs c) in
  let initMap : gset string := list_to_set urls in
  if negb (bool_decide (initMap ∖ apMap = ∅)) then Err ErrInitialMissing else
  if negb (bool_decide (apMap ∖ initMap = ∅)) then Err ErrPeerMissing else
  Err ErrUnresolved.

(** The loops of [checkDuplicateURL]; [um] holds the URLs seen before. *)
Fixpoint duplicate (um : gset string) (urls : list string) : bool :=
  match urls with
  | [] => false
  | u :: urls => if bool_decide (u ∈ um) then true else duplicate ({[u]} ∪ um) urls
  end.

Definition checkDuplicateURL (urlsmap : URLsMap.t) : bool := duplicate ∅ (URLsMap.all_urls urlsmap).

Definition VerifyBootstrap (c : t) : res unit :=
  match hasLocalMember c with
  | Ok _ =>
      match advertiseMatchesCluster c with
      | Ok _ =>
          if checkDuplicateURL (InitialPeerURLsMap c) then Err ErrDuplicateURL
          else if String.eqb (URLsMap.String_ (InitialPeerURLsMap c)) "" then Err ErrClusterUnset
          else if ReserveDataSize c <? 4 then Err ErrReserveTooSmall
          else Ok tt
      | r => r
      end
  | r => r
  end.

Definition VerifyJoinExisting (c : t) : res unit :=
  match hasLocalMember c with
  | Ok _ => if checkDuplicateURL (InitialPeerURLsMap c) then Err ErrDuplicateURL else Ok tt
  | r => r
  end.
End verify.
End RaftNodeConfig.

(** * Reading the file *)

(** The package viper: the outcome of [ReadInConfig] on a path, and the values
    that are then read by their name. *)
Class Viper : Type := {
  ReadInConfig : string -> res unit;
  GetString : string -> string;
  GetDuration : string -> Z;
  GetInt : string -> Z }.

Definition ClusterStateFlagNew : string := "new".

Definition getRaftNodeConfig `{Viper} `{URLParser} : res RaftNodeConfig.t :=
  match NewURLs [GetString "peer-url"] with
  | Ok peerURLs =>
      match URLsMap.NewURLsMap (GetString "initial-cluster") with
      | Ok initialPeerURLsMap =>
          let clusterStatus := GetString "initial-cluster-state" in
          Ok (RaftNodeConfig.mk (GetString "name") 0 peerURLs initialPeerURLsMap MaxRequestBytes
                (GetDuration "heartbeat-interval") (GetDuration "election-timeout")
                (String.eqb clusterStatus ClusterStateFlagNew) true (GetString "data-dir")
                (GetInt "reserve-data-size") true)
      | Err e => Err e
      | Panic => Panic
      end
  | Err e => Err e
  | Panic => Panic
  end.

Module KingbusServerConfig.
Record t : Type := mk {
  RaftNodeCfg : RaftNodeConfig.t; AdminURLs : list string; MetricsAddr : string; LogDir : string; LogLevel : string }.
End KingbusServerConfig.

Definition NewKingbusServerConfig `{Viper} `{URLParser} (configPath : string) : res KingbusServerConfig.t :=
  if String.eqb configPath "" then Err ErrConfigPath else
  match ReadInConfig configPath with
  | Ok _ =>
      match getRaftNodeConfig with
      | Ok raftNodeCfg =>
          match NewURLs [GetString "admin-url"] with
          | Ok adminURLs =>
              if negb (blen adminURLs =? 1) then Err ErrAdminURLs else
              Ok (KingbusServerConfig.mk raftNodeCfg adminURLs (GetString "metrics-addr") (GetString "log-dir")
                    (GetString "log-level"))
          | Err e => Err e
          | Panic => Panic
          end
      | Err e => Err e
      | Panic => Panic
      end
  | Err e => Err e
  | Panic => Panic
  end.

(** * What the checks let through *)

Lemma duplicate_spec urls : forall um,
  RaftNodeConfig.duplicate um urls = false <-> NoDup urls /\ Forall (fun u => u ∉ um) urls.
Proof.
  induction urls as [|u urls IH]; intros um; cbn [RaftNodeConfig.duplicate]; [split; [by repeat constructor|done]|].
  destruct (bool_decide (u ∈ um)) eqn:E; [apply bool_decide_eq_true in E|apply bool_decide_eq_false in E].
  - split; [done|]. intros [_ Hf]. by apply Forall_inv in Hf.
  - rewrite IH, NoDup_cons, Forall_cons, !Forall_forall. clear IH. set_solver.
Qed.

Lemma all_urls_elem m u : u ∈ URLsMap.all_urls m <-> exists name urls, m !! name = Some urls /\ u ∈ urls.
Proof.
  unfold URLsMap.all_urls. rewrite list_elem_of_In, in_concat. split.
  - intros (l & Hl & Hu). apply in_map_iff in Hl as ([name urls] & <- & Hm). exists name, urls.
    split; [by apply elem_of_map_to_list, list_elem_of_In|by apply list_elem_of_In].
  - intros (name & urls & Hm & Hu). exists urls. split; [|by apply list_elem_of_In].
    apply in_map_iff. exists (name, urls). split; [done|]. by apply list_elem_of_In, elem_of_map_to_list.
Qed.

Lemma pairs_nil m : URLsMap.pairs m = [] <-> URLsMap.all_urls m = [].
Proof.
  unfold URLsMap.pairs, URLsMap.all_urls. induction (map_to_list m) as [|[n us] l IH]; [done|]. cbn.
  split; intros [H1 H2]%app_eq_nil; [apply map_eq_nil in H1|]; subst; cbn in *; subst; by apply IH.
Qed.

Lemma string_nil m : URLsMap.String_ m = "" <-> URLsMap.all_urls m = [].
Proof.
  rewrite <- pairs_nil. unfold URLsMap.String_.
  pose proof (merge_sort_Permutation name_le (URLsMap.pairs m)) as Hp.
  assert (Forall (fun s => s <> "") (URLsMap.pairs m)) as Hne.
  { unfold URLsMap.pairs. apply Forall_concat, Forall_map, Forall_forall. intros [n us] _.
    apply Forall_map, Forall_forall. intros u _. by destruct n. }
  rewrite <- Hp in Hne. split; intros E.
  - rewrite <- (Permutation_nil_r (URLsMap.pairs m)). rewrite <- Hp. destruct (merge_sort _ _) as [|s l]; [done|].
    apply Forall_inv in Hne. destruct s; [done|]. by destruct l.
  - by rewrite E.
Qed.

Lemma VerifyBootstrap_spec eq c :
  RaftNodeConfig.VerifyBootstrap eq c = Ok tt <->
  exists urls, RaftNodeConfig.InitialPeerURLsMap c !! RaftNodeConfig.Name c = Some urls /\
    eq (merge_sort name_le (RaftNodeConfig.PeerURLs c)) (merge_sort name_le urls) = true /\
    NoDup (URLsMap.all_urls (RaftNodeConfig.InitialPeerURLsMap c)) /\
    URLsMap.all_urls (RaftNodeConfig.InitialPeerURLsMap c) <> [] /\ 4 <= RaftNodeConfig.ReserveDataSize c.
Proof.
  unfold RaftNodeConfig.VerifyBootstrap, RaftNodeConfig.hasLocalMember, RaftNodeConfig.advertiseMatchesCluster.
  set (m := RaftNodeConfig.InitialPeerURLsMap c).
  destruct (m !! RaftNodeConfig.Name c) as [urls|] eqn:Em; [|split; [done|by intros (? & ? & _)]]. cbn [default from_option id].
  destruct (eq _ _) eqn:Eq;
    [|split; [by repeat destruct (negb _)|intros (urls' & [= <-] & Eq' & _); by rewrite Eq in Eq']].
  unfold RaftNodeConfig.checkDuplicateURL.
  destruct (RaftNodeConfig.duplicate ∅ _) eqn:Ed.
  { split; [done|]. intros (urls' & _ & _ & Hn & _).
    enough (RaftNodeConfig.duplicate ∅ (URLsMap.all_urls m) = false) by congruence.
    apply duplicate_spec. split; [done|]. apply Forall_forall. set_solver. }
  apply duplicate_spec in Ed as [Hn _].
  destruct (String.eqb_spec (URLsMap.String_ m) "") as [Es|Es]; rewrite string_nil in Es.
  { split; [done|]. by intros (? & _ & _ & _ & Hs & _). }
  destruct (Z.ltb_spec (RaftNodeConfig.ReserveDataSize c) 4); split; try done.
  - intros (? & _ & _ & _ & _ & ?). lia.
  - intros _. by exists urls.
Qed.

(** The checks before a bootstrap let a configuration through exactly when
    the node is in the initial cluster under its name and with its own peer URLs, no URL of
    the cluster is given twice, and at least four gigabytes are reserved. *)
Theorem bootstrap_verified eq c :
  RaftNodeConfig.VerifyBootstrap eq c = Ok tt <->
  exists urls, RaftNodeConfig.InitialPeerURLsMap c !! RaftNodeConfig.Name c = Some urls /\
    eq (merge_sort name_le (RaftNodeConfig.PeerURLs c)) (merge_sort name_le urls) = true /\
    NoDup (URLsMap.all_urls (RaftNodeConfig.InitialPeerURLsMap c)) /\
    URLsMap.all_urls (RaftNodeConfig.InitialPeerURLsMap c) <> [] /\ 4 <= RaftNodeConfig.ReserveDataSize c.
Proof. apply VerifyBootstrap_spec. Qed.

(** * Reading the initial cluster *)

(** The text of the configuration file: a name and a URL for each peer. *)
Definition cluster_text (l : list (string * string)) : string :=
  String.concat "," (map (fun x => x.1 +:+ "=" +:+ x.2) l).

(** The URLs that the text gives for a name, in its order. *)
Definition urls_of (name : string) (l : list (string * string)) : list string :=
  map snd (filter (fun x => x.1 = name) l).

Lemma cut_app c s t : has_char c s = false -> URLsMap.cut c (s +:+ String c t) = (s, t).
Proof.
  induction s as [|d s IH]; cbn [has_char].
  - intros _. change ("" +:+ String c t) with (String c t). cbn [URLsMap.cut]. by destruct (ascii_dec c c).
  - destruct (ascii_dec d c) as [|Hd] eqn:E; [done|]. intros Hs. rewrite string_app_cons. cbn [URLsMap.cut].
    by rewrite E, (IH Hs).
Qed.

Lemma Split_concat l : l <> [] -> Forall (fun s => has_char ","%char s = false) l ->
  Split ","%char (String.concat "," l) = l.
Proof.
  intros Hne Hl. induction Hl as [|s l Hs Hl IH]; [done|]. destruct l as [|t l]; [by apply Split_single|].
  change (String.concat "," (s :: t :: l)) with (s +:+ String ","%char (String.concat "," (t :: l))).
  by rewrite Split_app, IH.
Qed.

(** The map that [parse] builds, part by part. *)
Definition add_url (m : URLsMap.t) (x : string * string) : URLsMap.t :=
  <[x.1 := default [] (m !! x.1) ++ [x.2]]> m.

Lemma parse_text l : l <> [] ->
  Forall (fun x => has_char ","%char x.1 = false /\ has_char "="%char x.1 = false /\ has_char ","%char x.2 = false) l ->
  URLsMap.parse (cluster_text l) = foldl add_url ∅ l.
Proof.
  intros Hne Hl. unfold URLsMap.parse, cluster_text. rewrite Split_concat.
  2: { intros E. by apply map_eq_nil in E. }
  2: { apply Forall_map. eapply Forall_impl; [exact Hl|]. intros [n u] (H1 & _ & H3). cbn in *.
       by rewrite !has_char_app, H1, H3. }
  clear Hne. generalize (∅ : URLsMap.t) as m. induction Hl as [|[n u] l (_ & H2 & _) Hl IH]; intros m; [done|].
  cbn [map foldl fst snd]. destruct (String.eqb_spec (n +:+ "=" +:+ u) "") as [E|_]; [by destruct n|].
  cbn [fst] in H2. change ("=" +:+ u) with (String "="%char u). rewrite cut_app by done. apply IH.
Qed.

Lemma add_urls_lookup l name : forall m, foldl add_url m l !! name =
  match default [] (m !! name) ++ urls_of name l with
  | [] => m !! name
  | us => Some us
  end.
Proof.
  induction l as [|[n u] l IH]; intros m; cbn [foldl].
  - unfold urls_of. cbn. rewrite app_nil_r. destruct (m !! name) as [[|]|]; done.
  - rewrite IH. unfold add_url, urls_of. rewrite filter_cons. cbn [fst snd].
    destruct (decide (n = name)) as [->|Hn].
    + rewrite lookup_insert_eq. cbn. rewrite <- app_assoc. cbn.
      destruct (default [] (m !! name)); done.
    + by rewrite lookup_insert_ne.
Qed.

Lemma NewURLsMap_fold `{URLParser} (f : list string -> list string) l :
  Forall (fun x => NewURLs x.2 = Ok (f x.2)) l ->
  foldr (fun '(name, urls) r =>
           match NewURLs urls, r with
           | Ok us, Ok m => Ok (<[name := us]> m)
           | Ok _, r => r
           | Err e, _ => Err e
           | Panic, _ => Panic
           end) (Ok (∅ : URLsMap.t)) l = Ok (list_to_map (prod_map id f <$> l)).
Proof. induction 1 as [|[n us] l Hx _ IH]; [done|]. cbn [foldr]. cbn in Hx. by rewrite Hx, IH. Qed.

Lemma NewURLs_ok `{URLParser} us : us <> [] -> Forall (fun u => ParseURL (TrimSpace u) = Some u) us ->
  NewURLs us = Ok (merge_sort name_le us).
Proof.
  intros Hne Hus. unfold NewURLs. destruct us as [|u us]; [done|].
  assert (mapM (fun s => ParseURL (TrimSpace s)) (u :: us) = Some (u :: us)) as ->; [|done].
  clear Hne. apply mapM_Some. induction Hus; by constructor.
Qed.

(** From the text [name=url,...] of the initial cluster [NewURLsMap] reads,
    for every name, the URLs that the text gives for it, sorted. *)
Theorem initial_cluster_read `{URLParser} l :
  l <> [] ->
  Forall (fun x => has_char ","%char x.1 = false /\ has_char "="%char x.1 = false /\ has_char ","%char x.2 = false) l ->
  Forall (fun x => ParseURL (TrimSpace x.2) = Some x.2) l ->
  exists m, URLsMap.NewURLsMap (cluster_text l) = Ok m /\
    forall name, m !! name = match urls_of name l with [] => None | us => Some (merge_sort name_le us) end.
Proof.
  intros Hne Hc Hp. exists (merge_sort name_le <$> foldl add_url ∅ l). split.
  - unfold URLsMap.NewURLsMap. rewrite parse_text by done.
    rewrite (NewURLsMap_fold (merge_sort name_le)); [by rewrite list_to_map_fmap, list_to_map_to_list|].
    apply Forall_forall. intros [n us] Hin. apply elem_of_map_to_list in Hin.
    rewrite add_urls_lookup, lookup_empty in Hin. cbn in Hin. cbn [snd].
    assert (us = urls_of n l /\ us <> []) as [-> Hn].
    { destruct (urls_of n l); [done|]. by injection Hin as <-. }
    apply NewURLs_ok; [done|]. unfold urls_of. apply Forall_map, Forall_forall. intros x Hx.
    apply list_elem_of_filter in Hx as [_ Hx]. by eapply Forall_forall in Hp.
  - intros name. rewrite lookup_fmap, add_urls_lookup, lookup_empty. cbn. by destruct (urls_of name l).
Qed.

(** A parser that takes every text for a URL. *)
Lemma initial_cluster_read_witness :
  let _ : URLParser := fun s => Some s in
  exists m, URLsMap.NewURLsMap "n1=http://a:1,n2=http://b:1,n1=http://a:0" = Ok m /\
    m !! "n1" = Some ["http://a:0"; "http://a:1"].
Proof.
  intros P. destruct (initial_cluster_read [("n1", "http://a:1"); ("n2", "http://b:1"); ("n1", "http://a:0")])
    as (m & E & Hm); [done|repeat constructor|repeat constructor|].
  exists m. split; [exact E|]. rewrite Hm. reflexivity.
Defined.
