(* ===== verification/Peers.v ===== *)
(** The listeners for the other nodes: raft/peer_handler.go and [startRaftPeer] of
    server.go. The functions that serve and close a listener are closures that share the
    variable of the loop that makes them. *)
From S2P Require Import Prelude.
From S2P Require Import Names.
From S2P Require Import NodeConfig.
From stdpp Require Import list strings.
Local Open Scope string_scope.
Local Open Scope list_scope.
Local Open Scope go_scope.

(** The [close] of a listener: the first one does nothing, that of [NewPeerListener]
    closes [peers[i].Listener] for the [i] of the loop, that of [SetPeerHandler] shuts down the server
    made in its round. *)
Inductive close_fn : Type := CloseNothing | CloseAtLoop | CloseServer (srv : nat).

(** A listener is known by its address; [serve] is the server of the closure, which
    serves [r.PeerListener[i].Listener] for the [i] of the loop. *)
Module peerListener.
Record t : Type := mk { Listener : option string; serve : option nat; close : close_fn }.
End peerListener.

(** The addresses that are listened on, and which server serves which. *)
Record world : Type := World { listening : list string; served : list (nat * string) }.

Section peers.
(** [rafthttp.NewListener]; a failed one gives a nil listener. *)
Context (NewListener : string -> option error).

(** The deferred function after an error in the round of the last of [peers], whose
    listener is nil. *)
Fixpoint close_all (peers : list peerListener.t) : res unit :=
  match peers with
  | [] => Ok tt
  | p :: peers' => match peerListener.close p with CloseAtLoop => Panic | _ => close_all peers' end
  end.

(** The loop of [NewPeerListener]; [peers] are those of the rounds before. *)
Fixpoint listen_loop (peers : list peerListener.t) (urls : list string) : St world (list peerListener.t) :=
  match urls with
  | [] => ret peers
  | u :: urls' =>
      match NewListener u with
      | Some e =>
          let! x := lift (close_all (peers ++ [peerListener.mk None None CloseNothing])) in throw e
      | None =>
          modify (fun w => World (listening w ++ [u]) (served w)) ;!
          listen_loop (peers ++ [peerListener.mk (Some u) None CloseAtLoop]) urls'
      end
  end.

Definition NewPeerListener (peerURLs : list string) : St world (list peerListener.t) := listen_loop [] peerURLs.

Definition SetPeerHandler (peers : list peerListener.t) : list peerListener.t :=
  imap (fun k p => peerListener.mk (peerListener.Listener p) (Some k) (CloseServer k)) peers.

(** [peer.serve()], when the loop of [SetPeerHandler] is over: its [i] is that of the
    last listener. *)
Definition serve_one (peers : list peerListener.t) (p : peerListener.t) (w : world) : world :=
  match peerListener.serve p, last peers ≫= peerListener.Listener with
  | Some srv, Some l => World (listening w) (served w ++ [(srv, l)])
  | _, _ => w
  end.

Definition PeerHandlerServe (peers : list peerListener.t) (w : world) : world :=
  foldl (fun w p => serve_one peers p w) w peers.

(** [Shutdown] closes the listeners that the server serves. *)
Definition close_one (p : peerListener.t) (w : world) : world :=
  match peerListener.close p with
  | CloseServer srv => World (filter (fun l => (srv, l) ∉ served w) (listening w)) (filter (fun x => x.1 <> srv) (served w))
  | _ => w
  end.

Definition StopPeerListener (peers : list peerListener.t) (w : world) : world := foldl (fun w p => close_one p w) w peers.

Definition startRaftPeer (peerURLs : list string) : St world (list peerListener.t) :=
  let! peers := NewPeerListener peerURLs in
  let peers := SetPeerHandler peers in
  modify (PeerHandlerServe peers) ;!
  ret peers.

(** * One URL *)

Lemma NewURLs_one `{URLParser} s us : NewURLs [s] = Ok us -> exists u, us = [u].
Proof.
  unfold NewURLs. cbn. destruct (ParseURL _) as [u|]; [|done]. cbn. intros [= <-]. by exists u.
Qed.

Lemma close_server l s k ls sv : close_one (peerListener.mk l s (CloseServer k)) (World ls sv) =
  World (filter (fun l => (k, l) ∉ sv) ls) (filter (fun x => x.1 <> k) sv).
Proof. done. Qed.

(** The peers of a node reach it: the configuration has one peer URL, whose
    listener is served once it is open, an error of opening it is returned with nothing left open, and
    stopping closes it. *)
Theorem peer_listener_served `{Viper} `{URLParser} cfg : getRaftNodeConfig = Ok cfg ->
  exists u, RaftNodeConfig.PeerURLs cfg = [u] /\
    match NewListener u with
    | Some e => startRaftPeer [u] (World [] []) = (Err e, World [] [])
    | None => exists peers, startRaftPeer [u] (World [] []) = (Ok peers, World [u] [(0%nat, u)]) /\
        StopPeerListener peers (World [u] [(0%nat, u)]) = World [] []
    end.
Proof.
  unfold getRaftNodeConfig. destruct (NewURLs _) as [us| |] eqn:E; try done. apply NewURLs_one in E as [u ->].
  destruct (URLsMap.NewURLsMap _); try done. intros [= <-]. exists u. split; [done|].
  unfold startRaftPeer, NewPeerListener. cbn [listen_loop]. destruct (NewListener u) as [e|]; [done|].
  exists [peerListener.mk (Some u) (Some 0%nat) (CloseServer 0)]. split; [reflexivity|].
  unfold StopPeerListener. cbn [foldl]. rewrite close_server. rewrite !filter_cons, !filter_nil. by rewrite !decide_False by (cbn; set_solver).
Qed.

(** With two URLs both servers would serve the second listener, and stopping would
    leave the first one open. *)
Lemma two_peer_urls u v : u <> v -> NewListener u = None -> NewListener v = None ->
  exists peers, startRaftPeer [u; v] (World [] []) = (Ok peers, World [u; v] [(0%nat, v); (1%nat, v)]) /\
    listening (StopPeerListener peers (World [u; v] [(0%nat, v); (1%nat, v)])) = [u].
Proof.
  intros Hne Hu Hv. unfold startRaftPeer, NewPeerListener. cbn [listen_loop]. rewrite Hu, Hv.
  exists [peerListener.mk (Some u) (Some 0%nat) (CloseServer 0); peerListener.mk (Some v) (Some 1%nat) (CloseServer 1)].
  split; [reflexivity|]. unfold StopPeerListener. cbn [foldl].
  rewrite !close_server. cbn [listening]. rewrite !filter_cons, !filter_nil. cbn [fst].
  rewrite (decide_True (P := (0%nat, u) ∉ _)) by set_solver. rewrite (decide_False (P := (0%nat, v) ∉ _)) by set_solver.
  rewrite !filter_cons, !filter_nil. rewrite decide_True; [done|]. set_solver.
Qed.

(** An error for the second of two URLs is not returned: the deferred function calls
    a method of the nil listener. *)
Lemma second_listener_error_panics u v e w : NewListener u = None -> NewListener v = Some e ->
  (startRaftPeer [u; v] w).1 = Panic.
Proof. intros Hu Hv. unfold startRaftPeer, NewPeerListener. cbn [listen_loop]. by rewrite Hu, Hv. Qed.
End peers.

(** * A configuration *)

#[local] Instance sample_parser : URLParser := fun s => Some s.
#[local] Instance sample_viper : Viper := {
  ReadInConfig _ := Ok tt;
  GetString k := if String.eqb k "peer-url" then "http://10.0.0.1:2380" else "";
  GetDuration _ := 0%Z;
  GetInt _ := 4%Z }.

Lemma peer_listener_served_witness :
  exists peers, startRaftPeer (fun _ => None) ["http://10.0.0.1:2380"] (World [] []) =
    (Ok peers, World ["http://10.0.0.1:2380"] [(0%nat, "http://10.0.0.1:2380")]).
Proof.
  destruct (getRaftNodeConfig (H := sample_viper)) as [cfg| |] eqn:E; [|by vm_compute in E..].
  assert (RaftNodeConfig.PeerURLs cfg = ["http://10.0.0.1:2380"]) as Hp by (vm_compute in E; by injection E as <-).
  destruct (peer_listener_served (fun _ => None) cfg E) as (u & Hu & peers & Hs & _).
  rewrite Hp in Hu. injection Hu as <-. exists peers. exact Hs.
Defined.
