(* ===== verification/Apply.v ===== *)
(** What the server does with a committed raft entry, server/apply.go. The
    first part is on the replication progress and the store behind it, the
    second part on the whole server. A call that ends the process
    ([log.Log.Fatalf], [Panicf]) is [Panic]. *)
From S2P Require Import Prelude.
From S2P Require Import Names.
From S2P Require Import Text.
From S2P Require Import Wire.
From S2P Require Import Events.
From S2P Require Import TrxParser.
From S2P Require Import Gtid.
From S2P Require Import GtidCodec.
From S2P Require Import Storage.
From S2P Require Import MetaStore.
From S2P Require Import MetaTheorems.
From S2P Require Import Progress.
From S2P Require Import Membership.
From S2P Require Import Config.
From stdpp Require Import sorting list strings.
Local Open Scope string_scope.
Local Open Scope list_scope.
Local Open Scope Z_scope.
Local Open Scope go_scope.

Definition needApply (eventType : Z) : bool :=
  (eventType =? GTID_EVENT) || (eventType =? FORMAT_DESCRIPTION_EVENT) ||
  (eventType =? ROTATE_EVENT) || (eventType =? PREVIOUS_GTIDS_EVENT).

(** * The replication progress *)

Import BinlogProgress.

Definition applyBinlogEvent (eventRawData : bytes) (eventType raftIndex : Z) : St t unit :=
  if eventType =? FORMAT_DESCRIPTION_EVENT then
    on_store (MetaStore.Set_ (StringToBytes (index_key FdePrefix raftIndex)) eventRawData)
  else
  let! data := must (slice eventRawData EventHeader.EventHeaderSize (blen eventRawData)) in
  let! data := must (slice data 0 (blen data - EventHeader.BinlogChecksumLength)) in
  if eventType =? GTID_EVENT then
    let! e := must (GTIDEvent.Decode data) in
    match UUID.FromBytes (GTIDEvent.SID e) with
    | None => throw ErrFormat
    | Some u => modify (set_currentGtid (UUID.String u +:+ ":" +:+ fmt_d (GTIDEvent.GNO e)))
    end
  else if eventType =? ROTATE_EVENT then
    let! e := must (RotateEvent.Decode data) in
    on_store (MetaStore.Set_ (StringToBytes (index_key NextBinlogPrefix raftIndex)) (RotateEvent.NextLogName e)) ;!
    modify (set_lastBinlogFile (BytesToString (RotateEvent.NextLogName e)))
  else if eventType =? PREVIOUS_GTIDS_EVENT then
    let! gset := lift (MysqlGTIDSet.DecodeMysqlGTIDSet data) in
    on_store (MetaStore.SetPreviousGtidSet raftIndex gset)
  else throw ErrUnsupport.

(** [now] is the time at which the entry is applied. *)
Definition applyMySQLBinlogEvent (now : Z) (e : Entry.t) : St t unit :=
  let! binlogEvent := lift (DecodeBinlogEvent e) in
  let eventType := u8 (BinlogEvent.Type_ binlogEvent) in
  let data := default [] (BinlogEvent.Data binlogEvent) in
  (if (BinlogEvent.DividedCount binlogEvent =? 0) ||
      (negb (BinlogEvent.DividedCount binlogEvent =? 0) && (BinlogEvent.DividedSeqNum binlogEvent =? 0))
   then fatal_on_err (updateProcess now (Entry.Index e) data)
   else ret tt) ;!
  if needApply eventType then fatal_on_err (applyBinlogEvent data eventType (Entry.Index e)) else ret tt.

(** The sets of the master whose server is not in the set of the syncer. *)
Definition add_missing (master syncer : MysqlGTIDSet.t) : MysqlGTIDSet.t :=
  foldl (fun s '(uuid, set) => match s !! uuid with Some _ => s | None => MysqlGTIDSet.AddSet set s end)
    syncer (map_to_list master).

Definition applyMasterGtidPurged `{Json MasterGtidPurged.t} (e : Entry.t) : St t unit :=
  let! data := must (slice (Entry.data e) 1 (blen (Entry.data e))) in
  let! args := must (json_Unmarshal data) in
  let gtids := MasterGtidPurged.GtidPurged args in
  let! masterGtidPurged := must (MysqlGTIDSet.ParseMysqlGTIDSet gtids) in
  let! gtidPurged := fatal_on_err (on_store (MetaStore.GetGtidSet MySQLFlavor GtidPurgedKey)) in
  fatal_on_err (on_store (MetaStore.SetGtidSet MySQLFlavor GtidPurgedKey (add_missing masterGtidPurged gtidPurged))) ;!
  fatal_on_err (reset gtids).

(** * The raft library, as far as a configuration change goes *)

(** The voters and learners of the vendored raft node ([prs], [learnerPrs]);
    [done] tells that it was stopped, when it answers with an empty state. *)
Module RaftConf.
Record t : Type := mk { prs : gset Z; learnerPrs : gset Z; done : bool }.

Definition nodes (s : gset Z) : list Z := merge_sort Z.le (elements s).

Definition conf_state (r : t) : ConfState.t := ConfState.mk (nodes (prs r)) (nodes (learnerPrs r)).

Definition addNodeOrLearnerNode (id : Z) (isLearner : bool) (r : t) : t :=
  if bool_decide (id ∈ prs r) then r
  else if bool_decide (id ∈ learnerPrs r)
  then if isLearner then r else mk ({[id]} ∪ prs r) (learnerPrs r ∖ {[id]}) (done r)
  else if isLearner then mk (prs r) ({[id]} ∪ learnerPrs r) (done r)
  else mk ({[id]} ∪ prs r) (learnerPrs r) (done r).

Definition removeNode (id : Z) (r : t) : t := mk (prs r ∖ {[id]}) (learnerPrs r ∖ {[id]}) (done r).

Definition ApplyConfChange (cc : ConfChange.t) : St t ConfState.t := fun r =>
  if done r then (Ok (ConfState.mk [] []), r) else
  if ConfChange.NodeID cc =? None_id then (Ok (conf_state r), r) else
  let answer r := (Ok (conf_state r), r) in
  match ConfChange.Type_ cc with
  | ConfChangeAddNode => answer (addNodeOrLearnerNode (ConfChange.NodeID cc) false r)
  | ConfChangeAddLearnerNode => answer (addNodeOrLearnerNode (ConfChange.NodeID cc) true r)
  | ConfChangeRemoveNode => answer (removeNode (ConfChange.NodeID cc) r)
  | ConfChangeUpdateNode => answer r
  | ConfChangeType_other _ => (Panic, r)
  end.
End RaftConf.

(** * The server *)

Module KingbusServer.

(** What applying an entry does outside of the state below: the peers of the
    transport, the waiters of [s.wait] (with the members and the error of a
    [confChangeResponse]), the readers behind [applyBroadcast], the signal on
    [Notifyc], and the stop of the server. *)
Inductive call : Type :=
  | AddPeer (id : Z) (urls : list string)
  | RemovePeer (id : Z)
  | UpdatePeer (id : Z) (urls : list string)
  | Trigger (id : Z) (membs : list Member.t) (err : option error)
  | Broadcast
  | Notify
  | Stop.

(** The store of the server and of the cluster is the one of the progress. *)
Record t : Type := mk {
  id : Z;
  cluster : RaftCluster.t;
  binlogProgress : BinlogProgress.t;
  raft : RaftConf.t;
  appliedIndex : Z;
  term : Z;
  calls : list call }.

Definition store (s : t) : MetaStore.t := BinlogProgress.store (binlogProgress s).

Definition set_cluster (c : RaftCluster.t) (s : t) : t :=
  mk (id s) c (binlogProgress s) (raft s) (appliedIndex s) (term s) (calls s).
Definition set_progress (p : BinlogProgress.t) (s : t) : t :=
  mk (id s) (cluster s) p (raft s) (appliedIndex s) (term s) (calls s).
Definition set_raft (r : RaftConf.t) (s : t) : t :=
  mk (id s) (cluster s) (binlogProgress s) r (appliedIndex s) (term s) (calls s).
Definition set_store (m : MetaStore.t) (s : t) : t :=
  set_progress (BinlogProgress.set_store m (binlogProgress s)) s.
Definition SetAppliedIndex (i : Z) (s : t) : t :=
  mk (id s) (cluster s) (binlogProgress s) (raft s) i (term s) (calls s).
Definition SetTerm (v : Z) (s : t) : t :=
  mk (id s) (cluster s) (binlogProgress s) (raft s) (appliedIndex s) v (calls s).
Definition emit (c : call) : St t unit :=
  modify (fun s => mk (id s) (cluster s) (binlogProgress s) (raft s) (appliedIndex s) (term s) (calls s ++ [c])).

Definition on_progress {A} (m : St BinlogProgress.t A) : St t A := zoom binlogProgress set_progress m.
Definition on_store {A} (m : St MetaStore.t A) : St t A := zoom store set_store m.
Definition on_cluster {A} (m : St (RaftCluster.t * MetaStore.t) A) : St t A :=
  zoom (fun s => (cluster s, store s)) (fun '(c, m) s => set_store m (set_cluster c s)) m.

Section apply.
Context `{Json HardState.t} `{Json ConfState.t} `{Json RaftCluster.t} `{Json Member.t}.
Context `{Json Attributes.t} `{Json SyncerArgs.t} `{Json MasterInfo.t} `{Json MasterGtidPurged.t}.
(** [raftpb.ConfChange.Unmarshal] *)
Context (ConfChange_Unmarshal : bytes -> option ConfChange.t).

Definition saveConfState (confState : ConfState.t) : St t unit :=
  fatal_on_err (on_store (MetaStore.Set_ (StringToBytes ConfStateKey) (json_Marshal confState))).

Definition set_NodeID (n : Z) (cc : ConfChange.t) : ConfChange.t :=
  ConfChange.mk (ConfChange.ID cc) (ConfChange.Type_ cc) n (ConfChange.Context_ cc).

Definition raft_ApplyConfChange (cc : ConfChange.t) : St t ConfState.t := zoom raft set_raft (RaftConf.ApplyConfChange cc).

(** The member in the context of a change; its id must be the node's. *)
Definition conf_member (cc : ConfChange.t) : St t Member.t :=
  let! m := must (json_Unmarshal (ConfChange.Context_ cc)) in
  if ConfChange.NodeID cc =? Member.ID m then ret m else panic.

(** The switch of [applyConfChange]. *)
Definition change_members (cc : ConfChange.t) : St t bool :=
  match ConfChange.Type_ cc with
  | ConfChangeAddNode =>
      let! m := conf_member cc in
      on_cluster (RaftCluster.AddMember m) ;!
      let! self := gets id in
      (if Member.ID m =? self then ret tt else emit (AddPeer (Member.ID m) (Member.PeerURLs m))) ;!
      ret false
  | ConfChangeRemoveNode =>
      let n := ConfChange.NodeID cc in
      on_cluster (RaftCluster.RemoveMember n) ;!
      let! self := gets id in
      if n =? self then ret true else emit (RemovePeer n) ;! ret false
  | ConfChangeUpdateNode =>
      let! m := conf_member cc in
      on_cluster (RaftCluster.UpdateRaftAttributes (Member.ID m) (Member.PeerURLs m)) ;!
      let! self := gets id in
      (if Member.ID m =? self then ret tt else emit (UpdatePeer (Member.ID m) (Member.PeerURLs m))) ;!
      ret false
  | _ => ret false
  end.

(** Whether the node itself was removed, and the error of the validation. *)
Definition applyConfChange (cc : ConfChange.t) : St t (bool * option error) := fun s =>
  match on_cluster (RaftCluster.ValidateConfigurationChange cc) s with
  | (Err e, s) =>
      (let! confState := raft_ApplyConfChange (set_NodeID None_id cc) in
       saveConfState confState ;! ret (false, Some e)) s
  | (Ok _, s) =>
      (let! confState := raft_ApplyConfChange cc in
       let! removedSelf := change_members cc in
       saveConfState confState ;! ret (removedSelf, None)) s
  | (Panic, s) => (Panic, s)
  end.

(** [e.Data[1:]], decoded. *)
Definition payload {A} `{Json A} (e : Entry.t) : St t (bytes * A) :=
  let! data := must (slice (Entry.data e) 1 (blen (Entry.data e))) in
  let! a := must (json_Unmarshal data) in ret (data, a).

Definition applyNodeAttributes (e : Entry.t) : St t unit :=
  let! x := payload e in
  let attributes : Attributes.t := x.2 in
  on_cluster (RaftCluster.UpdateAttributes (Attributes.ID attributes) (Attributes.Name attributes)
    (Attributes.AdminURLs attributes)).

Definition applySyncerArgs (e : Entry.t) : St t unit :=
  let! x := payload (A := SyncerArgs.t) e in
  fatal_on_err (on_store (MetaStore.Set_ (StringToBytes SyncerArgsKey) x.1)).

Definition applyMasterInfo (e : Entry.t) : St t unit :=
  let! x := payload (A := MasterInfo.t) e in
  fatal_on_err (on_store (MetaStore.Set_ (StringToBytes MasterInfoKey) x.1)).

Definition applyEntryNormal (now : Z) (e : Entry.t) : St t unit :=
  match Entry.data e with
  | [] => ret tt
  | dataType :: _ =>
      if dataType =? MySQLBinlogEventType then
        on_progress (applyMySQLBinlogEvent now e) ;! emit Broadcast
      else if dataType =? NodeAttributesType then applyNodeAttributes e
      else if dataType =? SyncerArgsType then applySyncerArgs e
      else if dataType =? MasterInfoType then applyMasterInfo e
      else if dataType =? MasterGtidPurgedType then on_progress (applyMasterGtidPurged e)
      else panic
  end.

(** One round of the loop of [apply]; the result tells whether the node itself
    was removed. *)
Definition apply_entry (now : Z) (e : Entry.t) : St t bool :=
  if Entry.Type_ e =? Entry.EntryNormal then
    applyEntryNormal now e ;!
    modify (SetAppliedIndex (Entry.Index e)) ;! modify (SetTerm (Entry.Term e)) ;! ret false
  else if Entry.Type_ e =? Entry.EntryConfChange then
    let! cc := must (ConfChange_Unmarshal (Entry.data e)) in
    let! r := applyConfChange cc in
    modify (SetAppliedIndex (Entry.Index e)) ;! modify (SetTerm (Entry.Term e)) ;!
    let! c := gets cluster in
    emit (Trigger (ConfChange.ID cc) (RaftCluster.Members c) r.2) ;! ret r.1
  else panic.

(** [clock i] is the time at which the entry with index [i] is applied. *)
Fixpoint apply (clock : Z -> Z) (es : list Entry.t) (shouldStop : bool) : St t bool :=
  match es with
  | [] => ret shouldStop
  | e :: es' =>
      let! removedSelf := apply_entry (clock (Entry.Index e)) e in
      apply clock es' (shouldStop || removedSelf)
  end.

Definition applyEntries (clock : Z -> Z) (entries : list Entry.t) : St t unit :=
  match entries with
  | [] => ret tt
  | e :: _ =>
      let firstIndex := Entry.Index e in
      let! appliedIndex := gets appliedIndex in
      if u64 (appliedIndex + 1) <? firstIndex then panic else
      let skip := u64 (appliedIndex + 1 - firstIndex) in
      let ents := if skip <? blen entries then drop (Z.to_nat skip) entries else [] in
      match ents with
      | [] => ret tt
      | _ =>
          let! shouldstop := apply clock ents false in
          if shouldstop then emit Stop else ret tt
      end
  end.

Definition applyAll (clock : Z -> Z) (entries : list Entry.t) : St t unit :=
  match entries with
  | [] => emit Notify
  | _ => applyEntries clock entries ;! emit Notify
  end.
End apply.

End KingbusServer.
