(* ===== verification/ApplyTheorems.v ===== *)
(** What holds when committed entries are applied: a transaction is recorded
    when it ends and never before, a restart goes on from the stored progress,
    every entry is applied once, and the members of the cluster, of the store and
    of the raft library stay the same. *)
From S2P Require Import Prelude.
From S2P Require Import Names.
From S2P Require Import Text.
From S2P Require Import Wire.
From S2P Require Import Events.
From S2P Require Import TrxParser.
From S2P Require Import Gtid.
From S2P Require Import GtidCodec.
From S2P Require Import Storage.
From S2P Require Import MetaStore.
From S2P Require Import MetaTheorems.
From S2P Require Import Packets.
From S2P Require Import Progress.
From S2P Require Import Membership.
From S2P Require Import Config.
From S2P Require Import Apply.
From stdpp Require Import sorting list strings.
Local Open Scope string_scope.
Local Open Scope list_scope.
Local Open Scope Z_scope.
Local Open Scope go_scope.

Import BinlogProgress.

(** * Entries with one event *)

(** The entry [e] holds a whole event, not divided, with boundary type [b]. *)
Record carries (e : Entry.t) (raw : bytes) (h : EventHeader.t) (b : EventBoundaryType) : Prop := {
  carries_entry : IsBinlogEvent e = true;
  carries_event : exists fl seq x, DecodeBinlogEvent e =
    Ok (BinlogEvent.mk (EventHeader.EventType h) fl 0 seq (Some raw) x);
  carries_type : is_u8 (EventHeader.EventType h);
  carries_whole : whole_event raw h b }.

Lemma apply_carried now e raw h b p :
  carries e raw h b ->
  applyMySQLBinlogEvent now e p =
    (fatal_on_err (updateProcess now (Entry.Index e) raw) ;!
     if needApply (EventHeader.EventType h)
     then fatal_on_err (applyBinlogEvent raw (EventHeader.EventType h) (Entry.Index e)) else ret tt) p.
Proof.
  intros [_ (fl & seq & x & Hd) Ht Hw]. unfold applyMySQLBinlogEvent.
  unfold bind at 1, lift. rewrite Hd. cbn [BinlogEvent.Type_ BinlogEvent.DividedCount BinlogEvent.Data].
  rewrite u8_small by done. reflexivity.
Qed.

(** Inside of a group: an event that keeps the parser inside changes nothing
    but the position. *)
Lemma apply_inside now e raw h b p s s' cur last g :
  carries e raw h b -> needApply (EventHeader.EventType h) = false ->
  prog p s cur last g -> TransactionBoundaryParser.next_state s b = (s', false) -> s' <> EventParserNone ->
  exists p', applyMySQLBinlogEvent now e p = (Ok tt, p') /\ prog p' s' cur last g /\ store p' = store p.
Proof.
  intros Hc Hn [Hs Hcur Hlast Hg Htext Hup] Hnext Hin. rewrite (apply_carried now e raw h b p Hc), Hn.
  unfold bind, fatal_on_err. rewrite (updateProcess_step _ _ _ _ _ _ (carries_whole _ _ _ _ Hc)), Hs.
  cbn [TransactionBoundaryParser.currentState at_state]. rewrite Hnext, save_inside by done.
  eexists. split; [reflexivity|]. by split; [split|].
Qed.

(** The event that ends it records the GTID. *)
Lemma apply_end now e raw h b p s u gno last g :
  carries e raw h b -> needApply (EventHeader.EventType h) = false ->
  prog p s (gtid_text u gno) last g -> TransactionBoundaryParser.next_state s b = (EventParserNone, false) ->
  UUID.ok u -> 0 <= gno < 2 ^ 63 - 1 -> last <> gtid_text u gno ->
  let g' := MysqlGTIDSet.AddSet (single u gno) g in
  exists p', applyMySQLBinlogEvent now e p = (Ok tt, p') /\
    prog p' EventParserNone (gtid_text u gno) (gtid_text u gno) g' /\
    (store p' = store p \/ progress_in (store p') (Entry.Index e) g').
Proof.
  intros Hc Hn [Hs Hcur Hlast Hg Htext Hup] Hnext Hu Hgno Hne g'. rewrite (apply_carried now e raw h b p Hc), Hn.
  unfold bind, fatal_on_err. rewrite (updateProcess_step _ _ _ _ _ _ (carries_whole _ _ _ _ Hc)), Hs.
  cbn [TransactionBoundaryParser.currentState at_state]. rewrite Hnext.
  set (p1 := set_parser _ _).
  destruct (save_end now (Entry.Index e) p1 u gno last g) as (p' & E & Hp & Hst); [by split|done..|].
  rewrite E. exists p'. done.
Qed.

(** The GTID event of the transaction [gno] of server [u]. *)
Definition gtid_event (e : Entry.t) (u : bytes) (gno : Z) : Prop :=
  exists raw h ev, carries e raw h EventBoundaryTypeGtid /\ EventHeader.EventType h = GTID_EVENT /\
    GTIDEvent.Decode (event_body raw) = Some ev /\ GTIDEvent.SID ev = u /\ GTIDEvent.GNO ev = gno.

Lemma applyBinlogEvent_gtid raw ev i u gno p :
  23 <= blen raw -> GTIDEvent.Decode (event_body raw) = Some ev -> GTIDEvent.SID ev = u -> GTIDEvent.GNO ev = gno ->
  UUID.ok u -> applyBinlogEvent raw GTID_EVENT i p = (Ok tt, set_currentGtid (gtid_text u gno) p).
Proof.
  intros Hl Hd HSID HGNO Hu. destruct (slice_body raw Hl) as [E1 E2].
  unfold applyBinlogEvent. change (GTID_EVENT =? FORMAT_DESCRIPTION_EVENT) with false.
  change (GTID_EVENT =? GTID_EVENT) with true. cbv iota.
  unfold bind, must. rewrite E1. unfold ret at 1. rewrite E2. unfold ret at 1. rewrite Hd. unfold ret at 1.
  unfold UUID.FromBytes. by rewrite HSID, HGNO, (proj2 (Z.eqb_eq _ _)) by (destruct Hu; unfold blen; lia).
Qed.

Lemma apply_gtid now e u gno p cur last g :
  gtid_event e u gno -> UUID.ok u -> prog p EventParserNone cur last g ->
  exists p', applyMySQLBinlogEvent now e p = (Ok tt, p') /\ prog p' EventParserGtid (gtid_text u gno) last g /\
    store p' = store p.
Proof.
  intros (raw & h & ev & Hc & Ht & Hd & HSID & HGNO) Hu [Hs Hcur Hlast Hg Htext Hup].
  rewrite (apply_carried now e _ _ _ p Hc), Ht. change (needApply GTID_EVENT) with true.
  unfold bind at 1, fatal_on_err. rewrite (updateProcess_step _ _ _ _ _ _ (carries_whole _ _ _ _ Hc)), Hs.
  cbn [TransactionBoundaryParser.currentState at_state TransactionBoundaryParser.next_state].
  rewrite save_inside by done.
  rewrite (applyBinlogEvent_gtid raw ev _ u gno) by (done || apply Hc).
  eexists. split; [reflexivity|]. by split; [split|].
Qed.

(** A GTID event inside of a transaction resets the parser. *)
Lemma apply_gtid_inside now e u gno p s cur last g :
  gtid_event e u gno -> UUID.ok u -> prog p s cur last g -> s <> EventParserNone ->
  exists p', applyMySQLBinlogEvent now e p = (Ok tt, p') /\ prog p' EventParserNone (gtid_text u gno) last g /\
    store p' = store p.
Proof.
  intros (raw & h & ev & Hc & Ht & Hd & HSID & HGNO) Hu [Hs Hcur Hlast Hg Htext Hup] Hin.
  rewrite (apply_carried now e _ _ _ p Hc), Ht. change (needApply GTID_EVENT) with true.
  unfold bind at 1, fatal_on_err. rewrite (updateProcess_step _ _ _ _ _ _ (carries_whole _ _ _ _ Hc)), Hs.
  assert (TransactionBoundaryParser.next_state s EventBoundaryTypeGtid = (EventParserGtid, true)) as En by (by destruct s).
  cbn [TransactionBoundaryParser.currentState at_state]. rewrite En.
  rewrite (applyBinlogEvent_gtid raw ev _ u gno) by (done || apply Hc).
  eexists. split; [reflexivity|]. by split; [split|].
Qed.

(** * Divided events *)

(** The rounds after the first one. *)
Lemma divide_rest src fl cnt n : forall i pos, 1 <= i -> 0 <= pos ->
  (0 < n)%nat -> pos + (Z.of_nat n - 1) * MaxPayloadLen <= blen (RawData src) ->
  exists evs, divide_loop src fl cnt n i pos = Ok evs.
Proof.
  induction n as [|n IH]; intros i pos Hi Hp Hn Hle; [lia|].
  assert (exists evs, divide_loop src fl cnt n (i + 1) (pos + round_size i) = Ok evs) as [evs E].
  { destruct n as [|n]; [by eexists|]. unfold round_size. rewrite (proj2 (Z.eqb_neq i 0)) by lia.
    apply IH; [lia|mp; lia|lia|mp; lia]. }
  eexists. apply divide_round; [lia|mp; lia|exact E].
Qed.

Lemma divide_first src :
  MaxPayloadLen <= blen (RawData src) < 2 ^ 31 ->
  exists cnt evs, 0 < cnt /\ divideBinlogEvent src =
    Ok (BinlogEvent.mk (EventHeader.EventType (Header src)) BinlogEvent.FlavorType_MySQL cnt 0
          (Some (take (Z.to_nat (MaxPayloadLen - 1)) (RawData src))) None :: evs).
Proof.
  intros HL. set (L := blen (RawData src)) in *.
  assert (exists cnt, 0 < cnt /\ (cnt - 1) * MaxPayloadLen <= L + 1 /\
    divideBinlogEvent src = divide_loop src BinlogEvent.FlavorType_MySQL cnt (Z.to_nat cnt) 0 0) as (cnt & Hc & Hle & ->).
  { destruct (Z.eq_dec (L mod MaxPayloadLen) 0) as [Hm|Hm].
    - pose proof (Z.div_mod L MaxPayloadLen ltac:(mp; lia)) as D.
      exists (L / MaxPayloadLen). assert (1 <= L / MaxPayloadLen < 256) by (mp; lia).
      split; [lia|]. split; [mp; lia|]. apply divide_multiple; [fold L; lia|lia].
    - destruct (divided_count L ltac:(unfold L; pose proof (blen_nonneg (RawData src)); lia) Hm) as (Hc & Hw).
      eexists. split; [exact Hc|]. split; [|unfold divideBinlogEvent, OKHeaderByte; fold L;
        by rewrite (proj2 (Z.eqb_neq _ _) Hm)].
      lia. }
  destruct (Z.to_nat cnt) as [|n] eqn:En; [lia|].
  assert (exists evs, divide_loop src BinlogEvent.FlavorType_MySQL cnt n (0 + 1) (0 + round_size 0) = Ok evs) as [evs E].
  { destruct n as [|n]; [by eexists|]. unfold round_size. cbn [Z.eqb].
    apply divide_rest; [lia|mp; lia|lia|fold L; mp; lia]. }
  exists cnt, evs. split; [done|]. rewrite (divide_round _ _ _ _ _ _ evs); [done|lia|fold L; mp; lia|exact E].
Qed.

Lemma slice_take {A} (l : list A) n lo hi : hi <= Z.of_nat n -> hi <= blen l -> slice (take n l) lo hi = slice l lo hi.
Proof.
  intros Hn Hl. unfold slice.
  assert (blen (take n l) = Z.min (Z.of_nat n) (blen l)) as -> by (unfold blen; rewrite length_take; lia).
  destruct (0 <=? lo) eqn:H1; [|done]. destruct (lo <=? hi) eqn:H2; [|done]. cbn [andb].
  rewrite !(proj2 (Z.leb_le _ _)) by lia. f_equal.
  rewrite !take_drop_commute, take_take. do 2 f_equal. lia.
Qed.

Lemma header_take raw n : (19 <= n)%nat -> 19 <= blen raw -> EventHeader.Decode (take n raw) = EventHeader.Decode raw.
Proof.
  intros Hn Hl. unfold EventHeader.Decode, EventHeader.EventHeaderSize.
  rewrite !(proj2 (Z.ltb_ge _ _)) by (unfold blen in *; rewrite ?length_take; lia).
  rewrite !slice_take by lia. unfold index. cbn [Z.ltb].
  destruct (4 <? 0); [done|]. by rewrite lookup_take_lt by lia.
Qed.

(** C22: An event of 16MB or more ends the process of every node: the first of
    its parts has the size of the whole event in its header, [updateProcess] takes it
    for a broken event, and [applyMySQLBinlogEvent] gives up. *)
Theorem large_event_ends_process isMySQL now src h p :
  EventHeader.EventSize (Header src) = blen (RawData src) -> MaxPayloadLen <= blen (RawData src) < 2 ^ 31 ->
  EventHeader.Decode (RawData src) = Ok h -> EventHeader.EventSize h = blen (RawData src) ->
  exists ev evs, proposeBinlogEvent isMySQL src = Ok (ev :: evs) /\
    forall e, DecodeBinlogEvent e = Ok ev -> (applyMySQLBinlogEvent now e p).1 = Panic.
Proof.
  intros Hs HL Hd Hsz. destruct (divide_first src HL) as (cnt & evs & Hc & E).
  eexists _, evs. split; [rewrite propose_large by (done || lia); exact E|]. intros e He.
  unfold applyMySQLBinlogEvent, bind at 1, lift. rewrite He.
  cbn [BinlogEvent.DividedCount BinlogEvent.DividedSeqNum BinlogEvent.Data BinlogEvent.Type_ from_option id].
  rewrite (proj2 (Z.eqb_neq cnt 0)) by lia. change (0 =? 0) with true. cbn [negb orb andb].
  set (data := take _ (RawData src)).
  assert (blen data = MaxPayloadLen - 1) as Hlen.
  { unfold data, blen in *. rewrite length_take. mp. lia. }
  assert (EventHeader.Decode data = Ok h) as Hh.
  { unfold data. rewrite header_take; [done|mp; lia|mp; lia]. }
  clearbody data. clear E He.
  unfold bind at 1, fatal_on_err at 1, updateProcess. unfold bind at 1, lift. rewrite Hh.
  unfold bind at 1, modify at 1. unfold bind at 1, must at 1. unfold EventHeader.EventHeaderSize.
  rewrite slice_in_bounds by (mp; lia).
  unfold ret at 1. rewrite (proj2 (Z.eqb_neq _ _)); [done|].
  rewrite Hsz. unfold blen in *. rewrite length_take, length_drop. mp. lia.
Qed.

(** * Transactions *)

(** The parser goes from a state out of the transaction, on the last event
    and not before. *)
Inductive runs : eventParserState -> list EventBoundaryType -> Prop :=
  | runs_end s b : TransactionBoundaryParser.next_state s b = (EventParserNone, false) -> runs s [b]
  | runs_step s s' b bs : TransactionBoundaryParser.next_state s b = (s', false) -> s' <> EventParserNone ->
      runs s' bs -> runs s (b :: bs).

Lemma runs_ddl ps s :
  s = EventParserGtid \/ s = EventParserDDL -> Forall (eq EventBoundaryTypePreStatement) ps ->
  runs s (ps ++ [EventBoundaryTypeStatement]).
Proof.
  intros Hs Hps. revert s Hs. induction Hps as [|b ps <- Hps IH]; intros s Hs.
  - apply runs_end. by destruct Hs as [-> | ->].
  - eapply (runs_step s EventParserDDL); [by destruct Hs as [-> | ->]|done|]. apply IH. auto.
Qed.

Lemma runs_dml ss b : Forall in_dml ss -> TransactionBoundaryParser.next_state EventParserDML b = (EventParserNone, false) ->
  runs EventParserDML (ss ++ [b]).
Proof.
  intros Hss Hb. induction Hss as [|x ss Hx Hss IH]; [by apply runs_end|].
  eapply (runs_step _ EventParserDML); [by destruct Hx as [-> | ->]|done|done].
Qed.

Lemma runs_pre_incident ps s :
  s = EventParserGtid \/ s = EventParserDDL -> Forall (eq EventBoundaryTypePreStatement) ps ->
  runs s (ps ++ [EventBoundaryTypeIncident]).
Proof.
  intros Hs Hps. revert s Hs. induction Hps as [|b ps <- Hps IH]; intros s Hs; [by apply runs_end|].
  eapply (runs_step s EventParserDDL); [by destruct Hs as [-> | ->]|done|]. apply IH. auto.
Qed.

(** Every group that begins with a GTID does this after it. *)
Lemma group_runs bs : group (EventBoundaryTypeGtid :: bs) -> runs EventParserGtid bs.
Proof.
  intros Hg. inversion Hg as [g ps Ho Hps E|g ss b Ho Hss Hb E|E|s p Hp E].
  - destruct Ho as [-> | ->]; cbn in E.
    + by destruct Hps as [|x ps <- Hps]; injection E as E _.
    + injection E as <-. apply runs_ddl; auto.
  - destruct Ho as [-> | ->]; [done|]. injection E as <-.
    eapply (runs_step _ EventParserDML); [done|done|]. apply runs_dml; [done|by destruct Hb as [-> | ->]].
  - by apply runs_end.
  - destruct Hp as [| |g ps Ho Hne Hps|g ss Ho Hss]; cbn in E.
    + done.
    + injection E as <-. by apply runs_end.
    + destruct Ho as [-> | ->]; [|injection E as <-; apply runs_pre_incident; auto].
      by destruct Hps as [|x ps <- Hps]; [|injection E as E _].
    + destruct Ho as [-> | ->]; [done|]. injection E as <-.
      eapply (runs_step _ EventParserDML); [done|done|]. by apply runs_dml.
Qed.

(** The entries of a transaction and its GTID. *)
Record trx : Type := Trx { trx_entries : list Entry.t; trx_sid : bytes; trx_gno : Z }.
Definition trx_text (t : trx) : string := gtid_text (trx_sid t) (trx_gno t).
Definition trx_add (g : MysqlGTIDSet.t) (t : trx) : MysqlGTIDSet.t :=
  MysqlGTIDSet.AddSet (single (trx_sid t) (trx_gno t)) g.

(** An entry after the GTID event. *)
Definition follows (e : Entry.t) (b : EventBoundaryType) : Prop :=
  exists raw h, carries e raw h b /\ needApply (EventHeader.EventType h) = false.

(** A GTID event and the rest of a group, each entry with a whole event. *)
Record is_trx (t : trx) : Prop := {
  trx_split : exists e es bs, trx_entries t = e :: es /\ gtid_event e (trx_sid t) (trx_gno t) /\
    group (EventBoundaryTypeGtid :: bs) /\ Forall2 follows es bs;
  trx_sid_ok : UUID.ok (trx_sid t);
  trx_gno_ok : 0 <= trx_gno t < 2 ^ 63 - 1 }.

(** The beginning of one, without its end. *)
Definition begun (part : list Entry.t) : Prop :=
  part = [] \/ exists t rest, is_trx t /\ rest <> [] /\ part ++ rest = trx_entries t.

(** No GTID twice in a row. *)
Fixpoint chained (last : string) (ts : list trx) : Prop :=
  match ts with
  | [] => True
  | t :: ts' => last <> trx_text t /\ chained (trx_text t) ts'
  end.

(** * The events of a list of entries *)

Fixpoint apply_events (clock : Z -> Z) (es : list Entry.t) : St t unit :=
  match es with
  | [] => ret tt
  | e :: es' => applyMySQLBinlogEvent (clock (Entry.Index e)) e ;! apply_events clock es'
  end.

Lemma apply_events_app clock es1 es2 p p' :
  apply_events clock es1 p = (Ok tt, p') -> apply_events clock (es1 ++ es2) p = apply_events clock es2 p'.
Proof.
  revert p. induction es1 as [|e es1 IH]; intros p; cbn [apply_events app]; [by injection 1 as ->|].
  unfold bind. destruct (applyMySQLBinlogEvent _ e p) as [[[]|er|] p1]; try done. apply IH.
Qed.

Definition last_index (es : list Entry.t) : Z := default 0 (Entry.Index <$> last es).

Lemma last_index_cons e e' es : last_index (e :: e' :: es) = last_index (e' :: es).
Proof. reflexivity. Qed.

Lemma apply_rest clock es bs : Forall2 follows es bs -> forall s p u gno last g,
  runs s bs -> prog p s (gtid_text u gno) last g -> UUID.ok u -> 0 <= gno < 2 ^ 63 - 1 -> last <> gtid_text u gno ->
  let g' := MysqlGTIDSet.AddSet (single u gno) g in
  exists p', apply_events clock es p = (Ok tt, p') /\
    prog p' EventParserNone (gtid_text u gno) (gtid_text u gno) g' /\
    (store p' = store p \/ progress_in (store p') (last_index es) g').
Proof.
  induction 1 as [|e b es bs (raw & h & Hc & Hn) Hes IH]; intros s p u gno last g Hr Hp Hu Hgno Hne g'.
  { inversion Hr. }
  cbn [apply_events]. inversion Hr as [s0 b0 Hnext|s0 s1 b0 bs0 Hnext Hin Hr']; subst.
  - apply Forall2_nil_inv_r in Hes as ->.
    destruct (apply_end (clock (Entry.Index e)) e raw h b p s u gno last g) as (p' & E & Hp' & Hst); [done..|].
    rewrite (bind_ok _ _ _ _ _ E). exists p'. done.
  - destruct (apply_inside (clock (Entry.Index e)) e raw h b p s s1 (gtid_text u gno) last g)
      as (p1 & E & Hp1 & Hst1); [done..|].
    rewrite (bind_ok _ _ _ _ _ E). destruct (IH s1 p1 u gno last g) as (p' & E' & Hp' & Hst'); [done..|].
    exists p'. split; [done|]. split; [done|]. rewrite <- Hst1.
    destruct Hes; [inversion Hr'|]. by rewrite last_index_cons.
Qed.

Lemma apply_part clock es1 : forall es2 bs s p cur last g,
  Forall2 follows (es1 ++ es2) bs -> es2 <> [] -> runs s bs -> s <> EventParserNone -> prog p s cur last g ->
  exists s' p', s' <> EventParserNone /\ apply_events clock es1 p = (Ok tt, p') /\ prog p' s' cur last g /\
    store p' = store p.
Proof.
  induction es1 as [|e es1 IH]; intros es2 bs s p cur last g Hes Hne Hr Hs Hp; [by exists s, p|].
  cbn [app] in Hes. inversion Hes as [|e0 b es0 bs' (raw & h & Hc & Hn) Hes']; subst.
  inversion Hr as [s0 b0 Hnext|s0 s1 b0 bs0 Hnext Hin Hr']; subst.
  { apply Forall2_nil_inv_r in Hes'. by destruct es1. }
  destruct (apply_inside (clock (Entry.Index e)) e raw h b p s s1 cur last g) as (p1 & E & Hp1 & Hst1); [done..|].
  destruct (IH es2 bs' s1 p1 cur last g) as (s' & p' & Hs' & E' & Hp' & Hst'); [done..|].
  exists s', p'. cbn [apply_events]. rewrite (bind_ok _ _ _ _ _ E). split; [done|]. split; [done|]. split; [done|congruence].
Qed.

Lemma apply_trx clock tr p cur last g :
  is_trx tr -> prog p EventParserNone cur last g -> last <> trx_text tr ->
  exists p', apply_events clock (trx_entries tr) p = (Ok tt, p') /\
    prog p' EventParserNone (trx_text tr) (trx_text tr) (trx_add g tr) /\
    (store p' = store p \/ progress_in (store p') (last_index (trx_entries tr)) (trx_add g tr)).
Proof.
  intros [(e & es & bs & -> & Hg & Hgr & Hes) Hu Hgno] Hp Hne.
  destruct (apply_gtid (clock (Entry.Index e)) e _ _ p cur last g Hg Hu Hp) as (p1 & E & Hp1 & Hst1).
  pose proof (group_runs bs Hgr) as Hr.
  destruct (apply_rest clock es bs Hes EventParserGtid p1 (trx_sid tr) (trx_gno tr) last g) as (p' & E' & Hp' & Hst');
    [done..|].
  exists p'. cbn [apply_events]. rewrite (bind_ok _ _ _ _ _ E). split; [done|]. split; [done|]. rewrite <- Hst1.
  destruct Hes; [inversion Hr|]. by rewrite last_index_cons.
Qed.

(** A transaction that has begun changes neither the set nor the store. *)
Lemma apply_begun clock part p cur last g :
  begun part -> prog p EventParserNone cur last g ->
  exists s' cur' p', apply_events clock part p = (Ok tt, p') /\ prog p' s' cur' last g /\ store p' = store p /\
    (s' = EventParserNone <-> part = []).
Proof.
  intros [->|(tr & rest & [(e & es & bs & Ht & Hg & Hgr & Hes) Hu Hgno] & Hne & E)] Hp.
  { by exists EventParserNone, cur, p. }
  destruct part as [|e' es1]; [by exists EventParserNone, cur, p|].
  rewrite Ht in E. cbn [app] in E. injection E as -> E. rewrite <- E in Hes.
  destruct (apply_gtid (clock (Entry.Index e)) e _ _ p cur last g Hg Hu Hp) as (p1 & E1 & Hp1 & Hst1).
  destruct (apply_part clock es1 rest bs EventParserGtid p1 (trx_text tr) last g)
    as (s' & p' & Hs' & E' & Hp' & Hst'); [done..|by apply group_runs|done|done|].
  exists s', (trx_text tr), p'. cbn [apply_events]. rewrite (bind_ok _ _ _ _ _ E1).
  split; [done|]. split; [done|]. split; [congruence|]. by split.
Qed.

Definition entries_of (ts : list trx) : list Entry.t := concat (map trx_entries ts).
Definition last_text (last : string) (ts : list trx) : string := foldl (fun _ t => trx_text t) last ts.

(** The store holds what it held, or the set after some of the transactions. *)
Definition progress_after (m m' : MetaStore.t) (g : MysqlGTIDSet.t) (ts : list trx) : Prop :=
  m' = m \/ exists ts1 ts2, ts = ts1 ++ ts2 /\ ts1 <> [] /\
    progress_in m' (last_index (entries_of ts1)) (foldl trx_add g ts1).

Lemma last_index_app es1 es2 : es2 <> [] -> last_index (es1 ++ es2) = last_index es2.
Proof. intros Hne. unfold last_index. rewrite last_app. destruct (last es2) eqn:E; [done|]. by apply last_None in E. Qed.

Lemma entries_ne ts : Forall is_trx ts -> ts <> [] -> entries_of ts <> [].
Proof.
  intros [|tr ts' [(e & es & bs & E & _) _ _] _] Hne; [done|]. unfold entries_of. cbn. by rewrite E.
Qed.

Lemma apply_trxs clock ts : forall p cur last g,
  Forall is_trx ts -> prog p EventParserNone cur last g -> chained last ts ->
  exists cur' p', apply_events clock (entries_of ts) p = (Ok tt, p') /\
    prog p' EventParserNone cur' (last_text last ts) (foldl trx_add g ts) /\
    progress_after (store p) (store p') g ts.
Proof.
  induction ts as [|tr ts IH]; intros p cur last g Hts Hp Hch.
  { exists cur, p. split; [done|]. split; [done|]. by left. }
  apply Forall_cons in Hts as [Ht Hts]. destruct Hch as [Hne Hch].
  destruct (apply_trx clock tr p cur last g Ht Hp Hne) as (p1 & E1 & Hp1 & Hst1).
  destruct (IH p1 (trx_text tr) (trx_text tr) (trx_add g tr) Hts Hp1 Hch) as (cur' & p' & E & Hp' & Hst).
  exists cur', p'. split; [|split; [done|]].
  { change (entries_of (tr :: ts)) with (trx_entries tr ++ entries_of ts). by rewrite (apply_events_app _ _ _ _ _ E1). }
  destruct Hst as [Hst|(ts1 & ts2 & -> & Hne1 & Hin)].
  - rewrite Hst. destruct Hst1 as [->|Hin]; [by left|]. right. exists [tr], ts. split; [done|]. split; [done|].
    unfold entries_of. cbn. by rewrite app_nil_r.
  - right. exists (tr :: ts1), ts2. split; [done|]. split; [done|].
    change (entries_of (tr :: ts1)) with (trx_entries tr ++ entries_of ts1). rewrite last_index_app; [done|].
    apply entries_ne; [|done]. by apply Forall_app in Hts as [? _].
Qed.

Lemma trx_binlog tr : is_trx tr -> Forall (fun e => IsBinlogEvent e = true) (trx_entries tr).
Proof.
  intros [(e & es & bs & -> & (raw & h & ev & Hc & _) & _ & Hes) _ _]. apply Forall_cons. split; [apply Hc|].
  induction Hes as [|e' b es bs (raw' & h' & Hc' & _) _ IH]; constructor; [apply Hc'|done].
Qed.

Lemma entries_binlog ts part :
  Forall is_trx ts -> begun part -> Forall (fun e => IsBinlogEvent e = true) (entries_of ts ++ part).
Proof.
  intros Hts Hp. apply Forall_app. split.
  - induction Hts as [|tr ts Ht Hts IH]; [constructor|]. apply Forall_app. split; [by apply trx_binlog|done].
  - destruct Hp as [->|(tr & rest & Ht & _ & E)]; [constructor|].
    apply trx_binlog in Ht. rewrite <- E in Ht. by apply Forall_app in Ht as [? _].
Qed.

(** The set after the transactions has theirs and those it had. *)
Lemma foldl_trx ts : forall g, gtids_ok g -> Forall is_trx ts ->
  gtids_ok (foldl trx_add g ts) /\
  forall v x, UUID.ok v ->
    gmem v x (foldl trx_add g ts) <-> gmem v x g \/ exists tr, tr ∈ ts /\ v = trx_sid tr /\ x = trx_gno tr.
Proof.
  induction ts as [|tr ts IH]; intros g Hg Hts; cbn [foldl].
  { split; [done|]. intros v x _. split; [by left|]. intros [?|(tr & Hin & _)]; [done|by apply elem_of_nil in Hin]. }
  apply Forall_cons in Hts as [[_ Hu Hgno] Hts].
  destruct (AddSet_single g (trx_sid tr) (trx_gno tr) Hg Hu Hgno) as [Hok Hmem].
  destruct (IH (trx_add g tr) Hok Hts) as [Hok' Hmem']. split; [done|]. intros v x Hv.
  rewrite Hmem' by done. unfold trx_add at 1. rewrite Hmem by done. setoid_rewrite elem_of_cons. split.
  - intros [[?|[-> ->]]|(tr' & Hin & ?)]; [by left|right; exists tr; auto|right; exists tr'; auto].
  - intros [?|(tr' & [->|Hin] & ? & ?)]; [by left; left|left; right; auto|right; exists tr'; auto].
Qed.

Lemma apply_dml clock es bs : forall p cur last g,
  Forall in_dml bs -> prog p EventParserDML cur last g -> Forall2 follows es bs ->
  exists p', apply_events clock es p = (Ok tt, p') /\ prog p' EventParserDML cur last g /\ store p' = store p.
Proof.
  intros p cur last g Hbs Hp Hes. revert p Hp. induction Hes as [|e b es bs (raw & h & Hc & Hn) Hes IH]; intros p Hp.
  { by exists p. }
  apply Forall_cons in Hbs as [Hb Hbs].
  destruct (apply_inside (clock (Entry.Index e)) e raw h b p EventParserDML EventParserDML _ _ _ Hc Hn Hp)
    as (p1 & E & Hp1 & Hst1); [by destruct Hb as [-> | ->]|done|].
  destruct (IH Hbs p1 Hp1) as (p' & E' & Hp' & Hst'). exists p'. cbn [apply_events].
  rewrite (bind_ok _ _ _ _ _ E). split; [done|]. split; [done|congruence].
Qed.

(** A transaction that ends with the query [COMMIT], as one on tables without
    transactions does: the parser takes it for a statement. *)
Lemma commit_is_statement h : EventHeader.EventType h = QUERY_EVENT -> forall body e,
  QueryEvent.Decode body = Some e -> ToUpper (QueryEvent.Query e) = StringToBytes "COMMIT" ->
  TransactionBoundaryParser.GetEventBoundaryType h body = Ok EventBoundaryTypeStatement.
Proof.
  intros Ht body e Hd Hq. unfold TransactionBoundaryParser.GetEventBoundaryType. rewrite Ht. cbn.
  by rewrite Hd, Hq.
Qed.

(** A transaction that ends with the query [COMMIT] is not recorded: the
    parser stays inside of it, the GTID event of the next transaction is an error
    that resets the parser, and the executed set is what it was before. *)
Theorem commit_query_loses_gtid clock e1 e2 es e3 e4 bs u gno u2 gno2 p cur last g :
  prog p EventParserNone cur last g -> UUID.ok u -> UUID.ok u2 ->
  gtid_event e1 u gno -> follows e2 EventBoundaryTypeBeginTrx -> Forall in_dml bs -> Forall2 follows es bs ->
  follows e3 EventBoundaryTypeStatement -> gtid_event e4 u2 gno2 ->
  exists p', apply_events clock (e1 :: e2 :: es ++ [e3] ++ [e4]) p = (Ok tt, p') /\
    prog p' EventParserNone (gtid_text u2 gno2) last g /\ store p' = store p.
Proof.
  intros Hp Hu Hu2 H1 (raw & h & Hc & Hn) Hbs Hes H3 H4. cbn [apply_events].
  destruct (apply_gtid (clock (Entry.Index e1)) e1 u gno p cur last g H1 Hu Hp) as (p1 & E1 & Hp1 & Hst1).
  rewrite (bind_ok _ _ _ _ _ E1).
  destruct (apply_inside (clock (Entry.Index e2)) e2 raw h _ p1 EventParserGtid EventParserDML _ _ _ Hc Hn Hp1)
    as (p2 & E2 & Hp2 & Hst2); [done..|]. rewrite (bind_ok _ _ _ _ _ E2).
  edestruct (apply_dml clock (es ++ [e3]) (bs ++ [EventBoundaryTypeStatement]) p2) as (p3 & E3 & Hp3 & Hst3);
    [|exact Hp2| |].
  { apply Forall_app. split; [done|]. constructor; [by left|done]. }
  { apply Forall2_app; [done|]. by repeat constructor. }
  rewrite (app_assoc es [e3] [e4]), (apply_events_app _ _ _ _ _ E3). cbn [apply_events].
  destruct (apply_gtid_inside (clock (Entry.Index e4)) e4 u2 gno2 p3 _ _ _ _ H4 Hu2 Hp3) as (p4 & E4 & Hp4 & Hst4); [done|].
  rewrite (bind_ok _ _ _ _ _ E4). exists p4. split; [done|]. split; [done|congruence].
Qed.

(** * On the server *)

Section server.
Context `{Json HardState.t} `{Json ConfState.t} `{Json RaftCluster.t} `{Json Member.t}.
Context `{Json Attributes.t} `{Json SyncerArgs.t} `{Json MasterInfo.t} `{Json MasterGtidPurged.t}.
Context (ConfChange_Unmarshal : bytes -> option ConfChange.t).

Local Abbreviation apply := (KingbusServer.apply ConfChange_Unmarshal).

(** The entries of binlog events, applied by the server. *)
Lemma apply_binlog clock es : forall s b p',
  Forall (fun e => IsBinlogEvent e = true) es ->
  apply_events clock es (KingbusServer.binlogProgress s) = (Ok tt, p') ->
  exists s', apply clock es b s = (Ok b, s') /\ KingbusServer.binlogProgress s' = p' /\
    KingbusServer.cluster s' = KingbusServer.cluster s /\ KingbusServer.raft s' = KingbusServer.raft s /\
    (es <> [] -> KingbusServer.appliedIndex s' = last_index es).
Proof.
  induction es as [|e es IH]; intros s b p' Hes He.
  { injection He as <-. by exists s. }
  apply Forall_cons in Hes as [Hb Hes]. cbn [apply_events] in He. unfold bind in He.
  destruct (applyMySQLBinlogEvent _ e (KingbusServer.binlogProgress s)) as [[[]|er|] p1] eqn:E1; try done.
  cbn [KingbusServer.apply]. unfold KingbusServer.apply_entry. unfold IsBinlogEvent in Hb.
  apply andb_prop in Hb as [Hty Hd]. rewrite Hty. unfold KingbusServer.applyEntryNormal.
  destruct (Entry.data e) as [|d ds]; [done|]. rewrite Hd. unfold KingbusServer.on_progress, zoom, bind. rewrite E1.
  unfold KingbusServer.emit, modify, ret. rewrite orb_false_r.
  match goal with |- context [apply clock es b ?s1] =>
    destruct (IH s1 b p' Hes He) as (s' & E & Hp & Hc & Hr & Hi); exists s' end.
  split; [exact E|]. split; [done|]. split; [done|]. split; [done|]. intros _.
  destruct es as [|e' es]; [|by rewrite last_index_cons, Hi].
  cbn in E. by injection E as <-.
Qed.

(** C9: The executed GTID set holds a transaction exactly from the entry that
    ends it on: after the entries of some transactions and the beginning of
    another one, the set has the transactions that it had and these, nothing of
    the one that has begun, its text is kept next to it, and the store holds what it
    held before or the set after some of these transactions with the index of the
    last entry of the last of them. *)
Theorem transactions_recorded clock ts part s cur last g :
  Forall is_trx ts -> begun part -> gtids_ok g ->
  prog (KingbusServer.binlogProgress s) EventParserNone cur last g -> chained last ts ->
  exists s', apply clock (entries_of ts ++ part) false s = (Ok false, s') /\
    let p := KingbusServer.binlogProgress s' in
    gtids_ok (executedGtidSet p) /\
    (forall v x, UUID.ok v -> gmem v x (executedGtidSet p) <->
       gmem v x g \/ exists tr, tr ∈ ts /\ v = trx_sid tr /\ x = trx_gno tr) /\
    ExecutedGtidSetStr p = MysqlGTIDSet.String (executedGtidSet p) /\
    (TransactionBoundaryParser.IsInsideTransaction (trxBoundaryParser p) = true -> part <> []) /\
    progress_after (KingbusServer.store s) (KingbusServer.store s') g ts.
Proof.
  intros Hts Hpart Hg Hp Hch.
  destruct (apply_trxs clock ts _ _ _ _ Hts Hp Hch) as (cur1 & p1 & E1 & Hp1 & Hst1).
  destruct (apply_begun clock part p1 _ _ _ Hpart Hp1) as (s2 & cur2 & p2 & E2 & Hp2 & Hst2 & Hin).
  destruct (apply_binlog clock (entries_of ts ++ part) s false p2) as (s' & E & <- & _).
  { by apply entries_binlog. }
  { by rewrite (apply_events_app _ _ _ _ _ E1). }
  destruct Hp2 as [Hs _ _ Hex Htext _]. destruct (foldl_trx ts g Hg Hts) as [Hok Hmem].
  exists s'. split; [done|]. cbv zeta. unfold ExecutedGtidSetStr. rewrite Hs, Htext, Hex.
  split; [done|]. split; [done|]. split; [done|]. split.
  - intros Hi ->. by rewrite (proj2 Hin eq_refl) in Hi.
  - unfold KingbusServer.store at 2. by rewrite Hst2.
Qed.

(** The progress that a store gives a server when it starts. *)
Lemma newBinlogProgress_in m i g :
  store_up m -> progress_in m i g -> gtids_ok g -> blen (MysqlGTIDSet.Encode g) < 2 ^ 62 ->
  exists p, newBinlogProgress m = (Ok p, m) /\ prog p EventParserNone "" "" g /\ store p = m.
Proof.
  intros Hup [_ Hin] Hg Hsz. eexists. unfold newBinlogProgress.
  erewrite GetGtidSet_value; [|apply Hup|exact Hin|by apply Encode_value].
  split; [reflexivity|]. by split; [split|].
Qed.

Lemma chained_app last ts1 ts2 : chained last (ts1 ++ ts2) -> Forall is_trx ts2 -> chained "" ts2.
Proof.
  intros Hch Hts. assert (exists l, chained l ts2) as [l Hl].
  { revert last Hch. induction ts1 as [|tr ts1 IH]; intros last Hch; [by exists last|]. eapply IH, Hch. }
  destruct Hts as [|tr ts [_ Hu Hgno] Hts]; [done|]. destruct Hl as [_ Hl]. split; [|done].
  destruct (set_text_some (single (trx_sid tr) (trx_gno tr))) as (c & r & E); [by apply single_ok|].
  unfold trx_text. by rewrite gtid_text_single, E.
Qed.

(** C3: A restart loses no transaction: the store after any of these runs gives a
    new server the set after some first transactions together with the index of
    their last entry, and applying the entries that come after it leads to the set
    that the old server had. *)
Theorem restart_recovers clock clock' ts part s cur last g i :
  Forall is_trx ts -> begun part -> gtids_ok g ->
  prog (KingbusServer.binlogProgress s) EventParserNone cur last g -> chained last ts ->
  progress_in (KingbusServer.store s) i g ->
  (forall ts1 ts2, ts = ts1 ++ ts2 -> blen (MysqlGTIDSet.Encode (foldl trx_add g ts1)) < 2 ^ 62) ->
  exists s', apply clock (entries_of ts ++ part) false s = (Ok false, s') /\
  exists ts1 ts2 p, ts = ts1 ++ ts2 /\
    newBinlogProgress (KingbusServer.store s') = (Ok p, KingbusServer.store s') /\
    MetaStore.Get (StringToBytes AppliedIndexKey) (KingbusServer.store s') =
      (Ok (Some (be_bytes 8 (match ts1 with [] => i | _ => last_index (entries_of ts1) end))), KingbusServer.store s') /\
    forall r, KingbusServer.binlogProgress r = p ->
      exists r', apply clock' (entries_of ts2 ++ part) false r = (Ok false, r') /\
        executedGtidSet (KingbusServer.binlogProgress r') = executedGtidSet (KingbusServer.binlogProgress s').
Proof.
  intros Hts Hpart Hg Hp Hch Hin Hsz.
  destruct (apply_trxs clock ts _ _ _ _ Hts Hp Hch) as (cur1 & p1 & E1 & Hp1 & Hst1).
  destruct (apply_begun clock part p1 _ _ _ Hpart Hp1) as (s2 & cur2 & p2 & E2 & Hp2 & Hst2 & _).
  destruct (apply_binlog clock (entries_of ts ++ part) s false p2) as (s' & E & Hs' & _).
  { by apply entries_binlog. }
  { by rewrite (apply_events_app _ _ _ _ _ E1). }
  exists s'. split; [done|].
  assert (exists ts1 ts2, ts = ts1 ++ ts2 /\ progress_in (store p2)
    (match ts1 with [] => i | _ => last_index (entries_of ts1) end) (foldl trx_add g ts1)) as (ts1 & ts2 & -> & Hin2).
  { rewrite Hst2. destruct Hst1 as [-> |(ts1 & ts2 & -> & Hne & Hin1)]; [by exists [], ts|].
    exists ts1, ts2. split; [done|]. by destruct ts1. }
  apply Forall_app in Hts as [Hts1 Hts2].
  destruct (newBinlogProgress_in (store p2) _ _ (prog_up _ _ _ _ _ Hp2) Hin2) as (p & Ep & Hpp & Hsp);
    [by apply foldl_trx|by eapply Hsz|].
  exists ts1, ts2, p. split; [done|]. unfold KingbusServer.store. rewrite Hs'. split; [done|]. split.
  { rewrite Get_open; [|apply Hp2|done]. change (BytesToString (StringToBytes AppliedIndexKey)) with AppliedIndexKey.
    by rewrite (proj1 Hin2). }
  intros r Hr. rewrite <- Hr in Hpp.
  destruct (apply_trxs clock' ts2 _ _ _ _ Hts2 Hpp) as (cur3 & p3 & E3 & Hp3 & _); [by eapply chained_app|].
  destruct (apply_begun clock' part p3 _ _ _ Hpart Hp3) as (s4 & cur4 & p4 & E4 & Hp4 & _).
  destruct (apply_binlog clock' (entries_of ts2 ++ part) r false p4) as (r' & E' & Hr' & _).
  { by apply entries_binlog. }
  { by rewrite (apply_events_app _ _ _ _ _ E3). }
  exists r'. split; [done|]. rewrite Hr', (prog_executed _ _ _ _ _ Hp4), (prog_executed _ _ _ _ _ Hp2).
  by rewrite foldl_app.
Qed.

(** * Each entry once *)

Lemma apply_entry_index now e s b s' :
  KingbusServer.apply_entry ConfChange_Unmarshal now e s = (Ok b, s') ->
  KingbusServer.appliedIndex s' = Entry.Index e /\ KingbusServer.term s' = Entry.Term e.
Proof.
  unfold KingbusServer.apply_entry.
  destruct (Entry.Type_ e =? Entry.EntryNormal).
  { unfold bind. destruct (KingbusServer.applyEntryNormal now e s) as [[]]; [|done..]. by injection 1 as <- <-. }
  destruct (Entry.Type_ e =? Entry.EntryConfChange); [|done].
  unfold bind, must. destruct (ConfChange_Unmarshal (Entry.data e)) as [cc|]; [|done]. unfold ret at 1.
  destruct (KingbusServer.applyConfChange cc s) as [[]]; [|done..]. by injection 1 as <- <-.
Qed.

Lemma apply_index clock es : forall s b b' s',
  apply clock es b s = (Ok b', s') -> es <> [] ->
  KingbusServer.appliedIndex s' = last_index es.
Proof.
  induction es as [|e es IH]; intros s b b' s' E Hne; [done|]. cbn [KingbusServer.apply] in E. unfold bind in E.
  destruct (KingbusServer.apply_entry _ _ e s) as [[b1| |] s1] eqn:E1; try done.
  apply apply_entry_index in E1 as [E1 _]. destruct es as [|e' es].
  - cbn in E. by injection E as _ <-.
  - rewrite last_index_cons. eapply IH; [exact E|done].
Qed.

(** Entries with consecutive indexes from [i] on. *)
Definition numbered (i : Z) (es : list Entry.t) : Prop :=
  forall k e, es !! k = Some e -> Entry.Index e = i + Z.of_nat k.

Lemma numbered_cons i e es : numbered i (e :: es) -> Entry.Index e = i /\ numbered (i + 1) es.
Proof.
  intros Hn. split; [rewrite (Hn 0%nat e eq_refl); lia|]. intros k e' He. rewrite (Hn (S k) e' He). lia.
Qed.

Lemma filter_all {A} (P : A -> Prop) `{forall x, Decision (P x)} l : Forall P l -> filter P l = l.
Proof. induction 1; [done|]. rewrite filter_cons_True by done. by f_equal. Qed.

Lemma numbered_filter a : forall es i, numbered i es -> i <= a + 1 ->
  filter (fun e => a < Entry.Index e) es = drop (Z.to_nat (a + 1 - i)) es.
Proof.
  induction es as [|e es IH]; intros i Hn Hi; [by rewrite drop_nil|].
  pose proof Hn as [He Hn']%numbered_cons. rewrite filter_cons. case_decide as Hlt.
  - replace (a + 1 - i) with 0 by lia. rewrite drop_0. f_equal.
    apply filter_all, Forall_lookup. intros k e' Hk. rewrite (Hn' k e' Hk). lia.
  - rewrite (IH (i + 1)) by (done || lia). replace (Z.to_nat (a + 1 - i)) with (S (Z.to_nat (a + 1 - (i + 1)))) by lia. done.
Qed.

Lemma numbered_last i es : numbered i es -> es <> [] -> last_index es = i + blen es - 1.
Proof.
  intros Hn Hne. unfold last_index. destruct (last es) as [e|] eqn:El; [|by apply last_None in El].
  cbn. rewrite last_lookup in El. rewrite (Hn _ _ El). unfold blen.
  destruct es; [done|]. cbn [length pred] in *. lia.
Qed.

(** C6: Committed entries are applied once each and in order: of a batch, whose
    entries are numbered from [i] on, exactly those after the applied index are
    applied, the rest is skipped, and when this ends the applied index is the last
    index of the batch or what it was; a batch that would leave out an index ends the
    process. *)
Theorem committed_applied_once clock es i s :
  let a := KingbusServer.appliedIndex s in
  es <> [] -> numbered i es -> 0 <= i -> 0 <= a < 2 ^ 64 - 1 ->
  if a + 1 <? i then KingbusServer.applyEntries ConfChange_Unmarshal clock es s = (Panic, s)
  else
    let todo := filter (fun e => a < Entry.Index e) es in
    KingbusServer.applyEntries ConfChange_Unmarshal clock es s =
      (let! stop := apply clock todo false in if stop then KingbusServer.emit KingbusServer.Stop else ret tt) s /\
    forall s', KingbusServer.applyEntries ConfChange_Unmarshal clock es s = (Ok tt, s') ->
      KingbusServer.appliedIndex s' = Z.max a (i + blen es - 1).
Proof.
  intros a Hne Hn Hi Ha. unfold KingbusServer.applyEntries. destruct es as [|e es]; [done|].
  pose proof Hn as [He _]%numbered_cons. rewrite bind_gets, He. fold a.
  rewrite (u64_small (a + 1)) by (unfold is_u64; lia).
  destruct (Z.ltb_spec (a + 1) i) as [Hgap|Hgap]; [done|].
  rewrite (u64_small (a + 1 - i)) by (unfold is_u64; lia).
  pose proof (numbered_filter a (e :: es) i Hn Hgap) as Hf. rewrite Hf.
  pose proof (numbered_last i (e :: es) Hn Hne) as Hl.
  destruct (Z.ltb_spec (a + 1 - i) (blen (e :: es))) as [Hlt|Hge].
  - destruct (drop (Z.to_nat (a + 1 - i)) (e :: es)) as [|e' es'] eqn:Ed.
    { apply (f_equal length) in Ed. rewrite length_drop in Ed. unfold blen in Hlt. cbn [length] in *. lia. }
    split; [done|]. intros s' E. unfold bind in E.
    destruct (apply clock (e' :: es') false s) as [[b| |] s1] eqn:E1; try done.
    apply apply_index in E1; [|done].
    assert (last_index (e' :: es') = last_index (e :: es)) as El.
    { rewrite <- Ed. rewrite <- (take_drop (Z.to_nat (a + 1 - i)) (e :: es)) at 2.
      rewrite last_index_app; [done|]. by rewrite Ed. }
    rewrite El, Hl in E1. destruct b; injection E as <-; cbn [KingbusServer.appliedIndex]; lia.
  - rewrite drop_ge by (unfold blen in Hge; lia). split; [done|]. intros s' [= <-]. fold a. lia.
Qed.

End server.

(** * A sample log *)

Definition sample_raw (ty : Z) (body : bytes) : bytes :=
  le_bytes 4 0 ++ [ty] ++ le_bytes 4 1 ++ le_bytes 4 (23 + blen body) ++ le_bytes 4 0 ++ le_bytes 2 0 ++ body ++ zeros 4.
Definition sample_header (ty size : Z) : EventHeader.t := EventHeader.mk 0 ty 1 size 0 0.
Definition sample_entry (i ty : Z) (body : bytes) : Entry.t :=
  let ev := BinlogEvent.mk ty 0 0 0 (Some (sample_raw ty body)) None in
  Entry.mk 1 i Entry.EntryNormal (Some (match EncodeBinlogEvent ev with Ok d => d | _ => [] end)) None.
Definition gtid_body (sid : bytes) (gno : Z) : bytes := [1] ++ sid ++ le_bytes 8 gno.
Definition query_body (q : string) : bytes := zeros 14 ++ StringToBytes q.
Definition sample_trx (i gno : Z) : trx :=
  Trx [sample_entry i GTID_EVENT (gtid_body sid1 gno); sample_entry (i + 1) QUERY_EVENT (query_body "BEGIN");
       sample_entry (i + 2) XID_EVENT (zeros 8)] sid1 gno.

(** The entry carries its event, by evaluation. *)
Definition carries_b (e : Entry.t) (raw : bytes) (h : EventHeader.t) (b : EventBoundaryType) : bool :=
  IsBinlogEvent e &&
  match DecodeBinlogEvent e with
  | Ok ev => (BinlogEvent.Type_ ev =? EventHeader.EventType h) && (BinlogEvent.DividedCount ev =? 0) &&
             bool_decide (BinlogEvent.Data ev = Some raw)
  | _ => false
  end && (0 <=? EventHeader.EventType h) && (EventHeader.EventType h <? 256) &&
  match EventHeader.Decode raw with
  | Ok h' => bool_decide (h' = h)
  | _ => false
  end && (EventHeader.EventSize h =? blen raw) && (23 <=? blen raw) &&
  match TransactionBoundaryParser.GetEventBoundaryType h (event_body raw) with
  | Ok b' => bool_decide (b' = b)
  | _ => false
  end.

Lemma carries_by_computation e raw h b : carries_b e raw h b = true -> carries e raw h b.
Proof.
  unfold carries_b. rewrite !andb_true_iff. intros [[[[[[[He Hd] Ht1] Ht2] Hh] Hs] Hc] Hb].
  destruct (DecodeBinlogEvent e) as [ev|er|] eqn:Ed; try done. rewrite !andb_true_iff in Hd. destruct Hd as [[Hd1 Hd2] Hd3].
  destruct (EventHeader.Decode raw) as [h'|er|] eqn:Eh; try done. apply bool_decide_eq_true in Hh as ->.
  destruct (TransactionBoundaryParser.GetEventBoundaryType h (event_body raw)) as [b'|er|] eqn:Eb; try done.
  apply bool_decide_eq_true in Hb as ->, Hd3. apply Z.eqb_eq in Hd1, Hd2.
  split; [done| |unfold is_u8; lia|split; [done|lia|lia|done]].
  destruct ev as [ty fl cnt seq d x]. cbn in *. subst. eauto.
Qed.

Lemma sample_trx_ok i gno : i = 1 \/ i = 4 \/ i = 7 \/ i = 8 -> gno = 5 \/ gno = 6 -> is_trx (sample_trx i gno).
Proof.
  intros Hi Hg. split; [|apply sids_ok|cbn [sample_trx trx_gno]; lia].
  eexists _, _, [EventBoundaryTypeBeginTrx; EventBoundaryTypeEndTrx]. split; [reflexivity|]. split; [|split].
  - exists (sample_raw GTID_EVENT (gtid_body sid1 gno)), (sample_header GTID_EVENT 48), (GTIDEvent.mk 1 sid1 gno 0 0).
    split; [apply carries_by_computation|]; by destruct Hi as [->|[->|[->| ->]]], Hg as [->| ->]; vm_compute.
  - apply (group_dml [EventBoundaryTypeGtid] []); [by right|done|by left].
  - constructor; [|constructor; [|constructor]].
    + exists (sample_raw QUERY_EVENT (query_body "BEGIN")), (sample_header QUERY_EVENT 42).
      split; [apply carries_by_computation|done]; by destruct Hi as [->|[->|[->| ->]]], Hg as [->| ->]; vm_compute.
    + exists (sample_raw XID_EVENT (zeros 8)), (sample_header XID_EVENT 31).
      split; [apply carries_by_computation|done]; by destruct Hi as [->|[->|[->| ->]]], Hg as [->| ->]; vm_compute.
Qed.

Definition sample_progress : BinlogProgress.t :=
  BinlogProgress.mk "" "" "" 0 "" (at_state EventParserNone) 0 0 ∅
    (MetaStore.mk (<[AppliedIndexKey := be_bytes 8 0]>
      {[path_Join MySQLFlavor ExecutedGtidSetKey := MysqlGTIDSet.Encode ∅]}) false []).

Definition sample_server : KingbusServer.t :=
  KingbusServer.mk 1 sample_cluster sample_progress (RaftConf.mk {[1; 2; 3]} ∅ false) 0 0 [].

Lemma sample_prog : prog sample_progress EventParserNone "" "" ∅.
Proof. by split. Qed.

Lemma sample_trxs_ok : Forall is_trx [sample_trx 1 5].
Proof. constructor; [apply sample_trx_ok; lia|constructor]. Qed.

Lemma sample_begun : begun (take 2 (trx_entries (sample_trx 4 6))).
Proof.
  right. exists (sample_trx 4 6), (drop 2 (trx_entries (sample_trx 4 6))).
  split; [apply sample_trx_ok; lia|]. split; [done|by rewrite take_drop].
Qed.

(** JSON by counting, for the samples. *)
#[local] Instance hard_state_json : Json HardState.t := code_json _.
#[local] Instance conf_state_json : Json ConfState.t := code_json _.
#[local] Instance cluster_json : Json RaftCluster.t := code_json _.
#[local] Instance member_json : Json Member.t := code_json _.
#[local] Instance attributes_json : Json Attributes.t := code_json _.
#[local] Instance syncer_args_json : Json SyncerArgs.t := code_json _.
#[local] Instance master_info_json : Json MasterInfo.t := code_json _.
#[local] Instance gtid_purged_json : Json MasterGtidPurged.t := code_json _.

Lemma transactions_recorded_witness :
  exists s', KingbusServer.apply (fun _ => None) (fun _ => 0)
      (entries_of [sample_trx 1 5] ++ take 2 (trx_entries (sample_trx 4 6))) false sample_server = (Ok false, s') /\
    forall v x, UUID.ok v -> gmem v x (executedGtidSet (KingbusServer.binlogProgress s')) <->
      gmem v x ∅ \/ exists tr, tr ∈ [sample_trx 1 5] /\ v = trx_sid tr /\ x = trx_gno tr.
Proof.
  destruct (transactions_recorded (fun _ => None) (fun _ => 0) [sample_trx 1 5]
    (take 2 (trx_entries (sample_trx 4 6))) sample_server "" "" ∅) as (s' & E & _ & Hmem & _).
  - exact sample_trxs_ok.
  - exact sample_begun.
  - exact gtids_ok_empty.
  - exact sample_prog.
  - by split.
  - exact (ex_intro _ s' (conj E Hmem)).
Defined.

Lemma restart_recovers_witness :
  exists s', KingbusServer.apply (fun _ => None) (fun _ => 0)
      (entries_of [sample_trx 1 5] ++ take 2 (trx_entries (sample_trx 4 6))) false sample_server = (Ok false, s') /\
    exists p, newBinlogProgress (KingbusServer.store s') = (Ok p, KingbusServer.store s').
Proof.
  destruct (restart_recovers (fun _ => None) (fun _ => 0) (fun _ => 7) [sample_trx 1 5]
    (take 2 (trx_entries (sample_trx 4 6))) sample_server "" "" ∅ 0) as (s' & E & ts1 & ts2 & p & _ & Ep & _).
  - exact sample_trxs_ok.
  - exact sample_begun.
  - exact gtids_ok_empty.
  - exact sample_prog.
  - by split.
  - by split.
  - intros [|t1 [|t2 ts1]] ts2 Ets; [..|by injection Ets]; [|injection Ets as <- _]; vm_compute; reflexivity.
  - exact (ex_intro _ s' (conj E (ex_intro _ p Ep))).
Defined.

Lemma sample_applied :
  (KingbusServer.applyEntries (fun _ => None) (fun _ => 0) (trx_entries (sample_trx 1 5)) sample_server).1 = Ok tt.
Proof. vm_compute. reflexivity. Qed.

Lemma committed_applied_once_witness :
  exists s', KingbusServer.applyEntries (fun _ => None) (fun _ => 0) (trx_entries (sample_trx 1 5)) sample_server = (Ok tt, s') /\
    KingbusServer.appliedIndex s' = 3.
Proof.
  pose proof sample_applied as E1.
  destruct (KingbusServer.applyEntries (fun _ => None) (fun _ => 0) (trx_entries (sample_trx 1 5)) sample_server) as [r s'] eqn:E.
  cbn [fst] in E1. subst r. refine (ex_intro _ s' (conj eq_refl _)).
  refine (proj2 (committed_applied_once (fun _ => None) (fun _ => 0) (trx_entries (sample_trx 1 5)) 1 sample_server _ _ _ _) s' E).
  - discriminate.
  - intros [|[|[|k]]] e He; [..|discriminate He]; by injection He as <-.
  - lia.
  - cbn [KingbusServer.appliedIndex sample_server]. lia.
Defined.

Definition large_size : Z := 16777316.
Definition large_event : SrcEvent :=
  let h := EventHeader.mk 0 WRITE_ROWS_EVENTv2 1 large_size 0 0 in
  mkSrcEvent h ((le_bytes 4 0 ++ [WRITE_ROWS_EVENTv2] ++ le_bytes 4 1 ++ le_bytes 4 large_size ++ le_bytes 4 0 ++ le_bytes 2 0)
    ++ zeros (large_size - 19)).

Lemma large_event_len : blen (RawData large_event) = large_size.
Proof. unfold large_event. cbn [RawData]. rewrite blen_app, blen_zeros by (unfold large_size; lia). reflexivity. Qed.

Lemma large_event_ends_process_witness :
  exists ev evs, proposeBinlogEvent true large_event = Ok (ev :: evs) /\
    forall e, DecodeBinlogEvent e = Ok ev -> (applyMySQLBinlogEvent 0 e sample_progress).1 = Panic.
Proof.
  apply (large_event_ends_process true 0 large_event (EventHeader.mk 0 WRITE_ROWS_EVENTv2 1 large_size 0 0)).
  - symmetry. apply large_event_len.
  - rewrite large_event_len. mp. unfold large_size. lia.
  - rewrite <- (header_take _ 19); [|lia|rewrite large_event_len; unfold large_size; lia].
    unfold large_event. cbn [RawData]. rewrite take_app_length'; [|reflexivity]. vm_compute. reflexivity.
  - symmetry. apply large_event_len.
Defined.
