(* ===== verification/LeaderChange.v ===== *)
(** Logs with changes of the leader: the syncer of a leader can stop in the
    middle of a transaction; the one of the next leader first commits the purged
    GTIDs of its master, which resets the progress of every node, and then the
    whole transaction again. *)
From S2P Require Import Prelude.
From S2P Require Import Names.
From S2P Require Import Text.
From S2P Require Import Wire.
From S2P Require Import Events.
From S2P Require Import TrxParser.
From S2P Require Import Gtid.
From S2P Require Import GtidCodec.
From S2P Require Import Storage.
From S2P Require Import MetaStore.
From S2P Require Import MetaTheorems.
From S2P Require Import Packets.
From S2P Require Import Progress.
From S2P Require Import Membership.
From S2P Require Import Config.
From S2P Require Import Apply.
From S2P Require Import ApplyTheorems.
From stdpp Require Import sorting list strings.
Local Open Scope string_scope.
Local Open Scope list_scope.
Local Open Scope Z_scope.
Local Open Scope go_scope.

Import BinlogProgress.

(** * The store *)

(** The purged GTIDs that the store gives. *)
Definition purged_in (m : MetaStore.t) (pg : MysqlGTIDSet.t) : Prop :=
  match MetaStore.bucket m !! purged_key with
  | None => pg = ∅
  | Some v => gtids_value v pg
  end.

Record meta_inv (pg : MysqlGTIDSet.t) (m : MetaStore.t) : Prop := {
  inv_up : store_up m;
  inv_purged : purged_in m pg;
  inv_meta : exists pgs fdes files, meta_ok m pgs fdes files }.

(** A key outside of the indexed ones. *)
Definition plain_key (k : string) : Prop :=
  str_HasPrefix k PgePrefix = false /\ str_HasPrefix k FdePrefix = false /\ str_HasPrefix k NextBinlogPrefix = false.

Lemma meta_ok_plain k v m pgs fdes files :
  plain_key k -> meta_ok m pgs fdes files -> meta_ok (MetaStore.mk (<[k := v]> (MetaStore.bucket m)) false []) pgs fdes files.
Proof.
  intros (K1 & K2 & K3) [Hc (pge & Hp & Hv) Hfd Hfi]. split; [done| | |].
  - exists pge. split; [|done]. by apply indexed_insert_other.
  - by apply indexed_insert_other.
  - by apply indexed_insert_other.
Qed.

Lemma insert_plain k v m pg :
  plain_key k -> k <> purged_key -> meta_inv pg m ->
  meta_inv pg (MetaStore.mk (<[k := v]> (MetaStore.bucket m)) false []).
Proof.
  intros Hk Hne [Hup Hpg (pgs & fdes & files & Hm)]. split; [done| |].
  - unfold purged_in. cbn [MetaStore.bucket]. by rewrite lookup_insert_ne.
  - exists pgs, fdes, files. by apply meta_ok_plain.
Qed.

Lemma insert_fde i v m pg :
  is_u64 i -> meta_inv pg m -> meta_inv pg (MetaStore.mk (<[index_key FdePrefix i := v]> (MetaStore.bucket m)) false []).
Proof.
  intros Hi [Hup Hpg (pgs & fdes & files & [Hc (pge & Hp & Hv) Hfd Hfi])]. split; [done| |].
  - unfold purged_in. cbn [MetaStore.bucket]. by rewrite lookup_insert_ne.
  - exists pgs, (<[i := v]> fdes), files. split; [done| | |].
    + exists pge. split; [|done]. by apply indexed_insert_other.
    + by apply indexed_insert.
    + by apply indexed_insert_other.
Qed.

Lemma insert_file i v m pg :
  is_u64 i -> meta_inv pg m ->
  meta_inv pg (MetaStore.mk (<[index_key NextBinlogPrefix i := v]> (MetaStore.bucket m)) false []).
Proof.
  intros Hi [Hup Hpg (pgs & fdes & files & [Hc (pge & Hp & Hv) Hfd Hfi])]. split; [done| |].
  - unfold purged_in. cbn [MetaStore.bucket]. by rewrite lookup_insert_ne.
  - exists pgs, fdes, (<[i := v]> files). split; [done| | |].
    + exists pge. split; [|done]. by apply indexed_insert_other.
    + by apply indexed_insert_other.
    + by apply indexed_insert.
Qed.

Lemma Set_inv key value m pg :
  meta_inv pg m -> key <> [] -> plain_key (BytesToString key) -> BytesToString key <> purged_key ->
  exists m', MetaStore.Set_ key value m = (Ok tt, m') /\ meta_inv pg m'.
Proof.
  intros Hm Hk Hpl Hne. destruct (inv_up _ _ Hm) as [Hc Hf]. rewrite Set_open by done.
  eexists. split; [reflexivity|]. by apply insert_plain.
Qed.

Lemma SetBinlogProgress_inv i g m pg :
  meta_inv pg m -> exists m', MetaStore.SetBinlogProgress i g m = (Ok tt, m') /\ meta_inv pg m'.
Proof.
  intros Hm. destruct (inv_up _ _ Hm) as [Hc Hf].
  unfold MetaStore.SetBinlogProgress, MetaStore.Update, MetaStore.Put. rewrite Hc, Hf.
  change (String.eqb (path_Join MySQLFlavor ExecutedGtidSetKey) "") with false.
  change (String.eqb AppliedIndexKey "") with false. cbv iota beta. eexists. split; [reflexivity|].
  pose proof (insert_plain (path_Join MySQLFlavor ExecutedGtidSetKey) (MysqlGTIDSet.Encode g) m pg ltac:(done) ltac:(done) Hm) as Hm1.
  exact (insert_plain AppliedIndexKey (be_bytes 8 i) _ pg ltac:(done) ltac:(done) Hm1).
Qed.

(** * Events *)

Lemma save_progress_inv now i p r p' pg :
  meta_inv pg (store p) -> save_progress now i p = (r, p') -> meta_inv pg (store p').
Proof.
  intros Hm. unfold save_progress, bind, gets, modify, on_store, zoom, throw, ret, id.
  destruct (_ && _ && _); [|by injection 1 as <- <-].
  destruct (MysqlGTIDSet.Update _ _) as [g|]; [|by injection 1 as <- <-].
  destruct (_ || _); [|by injection 1 as <- <-].
  cbn [store set_executed set_lastSaveGtid set_executedStr].
  destruct (SetBinlogProgress_inv i g (store p) pg Hm) as (m' & -> & Hm'). by injection 1 as <- <-.
Qed.

Lemma updateProcess_inv now i raw h b p r p' pg :
  whole_event raw h b -> meta_inv pg (store p) ->
  updateProcess now i raw p = (r, p') -> meta_inv pg (store p').
Proof.
  intros Hw Hm. rewrite (updateProcess_step _ _ _ _ _ _ Hw).
  destruct (TransactionBoundaryParser.next_state _ b) as [s' []]; [by injection 1 as <- <-|].
  by apply save_progress_inv.
Qed.

(** The entries of a transaction write nothing but the progress. *)
Definition trx_entry (e : Entry.t) : Prop :=
  (exists b, follows e b) \/ exists u gno, UUID.ok u /\ gtid_event e u gno.

Lemma trx_entry_inv now e p r p' pg :
  trx_entry e -> meta_inv pg (store p) -> applyMySQLBinlogEvent now e p = (r, p') -> meta_inv pg (store p').
Proof.
  intros He Hm.
  assert (exists raw h b, carries e raw h b /\ forall p1,
    store ((if needApply (EventHeader.EventType h)
      then fatal_on_err (applyBinlogEvent raw (EventHeader.EventType h) (Entry.Index e)) else ret tt) p1).2 = store p1)
    as (raw & h & b & Hc & Hrest).
  { destruct He as [(b & raw & h & Hc & Hn)|(u & gno & Hu & raw & h & ev & Hc & Ht & Hd & HS & HG)];
      exists raw, h; eexists; (split; [exact Hc|]); intros p1.
    - by rewrite Hn.
    - rewrite Ht. change (needApply GTID_EVENT) with true. cbv iota. unfold fatal_on_err.
      by rewrite (applyBinlogEvent_gtid raw ev _ u gno p1) by (done || apply Hc). }
  rewrite (apply_carried now e raw h b p Hc). unfold bind, fatal_on_err at 1.
  destruct (updateProcess now (Entry.Index e) raw p) as [[[]|er|] p1] eqn:E;
    pose proof (updateProcess_inv _ _ _ _ _ _ _ _ pg (carries_whole _ _ _ _ Hc) Hm E) as Hm1;
    [|by injection 1 as <- <-..].
  specialize (Hrest p1). intros E2. rewrite E2 in Hrest. cbn in Hrest. by rewrite Hrest.
Qed.

Lemma trx_entries_inv clock es pg : forall p r p',
  Forall trx_entry es -> meta_inv pg (store p) -> apply_events clock es p = (r, p') -> meta_inv pg (store p').
Proof.
  induction es as [|e es IH]; intros p r p' Hes Hm; cbn [apply_events]; [by injection 1 as <- <-|].
  apply Forall_cons in Hes as [He Hes]. unfold bind.
  destruct (applyMySQLBinlogEvent (clock (Entry.Index e)) e p) as [[[]|er|] p1] eqn:E1;
    pose proof (trx_entry_inv _ _ _ _ _ pg He Hm E1) as Hm1; [|by injection 1 as <- <-..].
  by apply IH.
Qed.

Lemma trx_all_entries tr : is_trx tr -> Forall trx_entry (trx_entries tr).
Proof.
  intros [(e & es & bs & -> & Hg & _ & Hes) Hu _]. constructor; [right; eauto|].
  induction Hes as [|e' b es bs Hf _ IH]; constructor; [left; eauto|done].
Qed.

Lemma begun_all_entries part : begun part -> Forall trx_entry part.
Proof.
  intros [->|(tr & rest & Ht & _ & E)]; [constructor|]. apply trx_all_entries in Ht. rewrite <- E in Ht.
  by apply Forall_app in Ht as [? _].
Qed.

(** An event between transactions: the start of a binlog file, its end, a
    heartbeat and the like. *)
Definition quiet (e : Entry.t) : Prop :=
  is_u64 (Entry.Index e) /\ exists raw h, carries e raw h EventBoundaryTypeIgnore /\
    (needApply (EventHeader.EventType h) = false \/
     EventHeader.EventType h = FORMAT_DESCRIPTION_EVENT \/
     (EventHeader.EventType h = ROTATE_EVENT /\ exists ev, RotateEvent.Decode (event_body raw) = Some ev) \/
     (EventHeader.EventType h = PREVIOUS_GTIDS_EVENT /\
        exists gs, MysqlGTIDSet.DecodeMysqlGTIDSet (event_body raw) = Ok gs /\ gtids_ok gs /\
          blen (MysqlGTIDSet.Encode gs) < 2 ^ 62)).

Lemma SetPreviousGtidSet_inv i gs m pg :
  meta_inv pg m -> is_u64 i -> gtids_ok gs -> blen (MysqlGTIDSet.Encode gs) < 2 ^ 62 ->
  exists m', MetaStore.SetPreviousGtidSet i gs m = (Ok tt, m') /\ meta_inv pg m'.
Proof.
  intros [[Hc Hf] Hpg (pgs & fdes & files & Hm)] Hi Hg Hb.
  destruct (SetPreviousGtidSet_ok m pgs fdes files i gs Hm Hf Hi Hg Hb) as (m' & E & Hf' & Hkeep & Hm').
  exists m'. split; [done|]. assert (exists pgs1, meta_ok m' pgs1 fdes files) as (pgs1 & Hm1).
  { destruct Hm' as [[_ ?]|[_ ?]]; eauto. }
  split; [split; [apply Hm1|done]| |by exists pgs1, fdes, files].
  unfold purged_in. by rewrite Hkeep.
Qed.

(** What a quiet event writes. *)
Lemma applyBinlogEvent_quiet raw ty i p st cur last g pg :
  23 <= blen raw -> is_u64 i -> prog p st cur last g -> meta_inv pg (store p) ->
  ty = FORMAT_DESCRIPTION_EVENT \/
  (ty = ROTATE_EVENT /\ exists ev, RotateEvent.Decode (event_body raw) = Some ev) \/
  (ty = PREVIOUS_GTIDS_EVENT /\ exists gs, MysqlGTIDSet.DecodeMysqlGTIDSet (event_body raw) = Ok gs /\ gtids_ok gs /\
     blen (MysqlGTIDSet.Encode gs) < 2 ^ 62) ->
  exists p', applyBinlogEvent raw ty i p = (Ok tt, p') /\ prog p' st cur last g /\ meta_inv pg (store p').
Proof.
  intros Hl Hi [Hs Hcur Hlast Hg Htext Hup] Hm Hty. destruct (slice_body raw Hl) as [E1 E2].
  unfold applyBinlogEvent, on_store, zoom.
  destruct Hty as [->|[(-> & ev & Hd)|(-> & gs & Hd & Hok & Hb)]].
  - change (FORMAT_DESCRIPTION_EVENT =? FORMAT_DESCRIPTION_EVENT) with true. cbv iota beta.
    rewrite Set_open by (apply Hup || by destruct i). rewrite bytes_string.
    eexists. split; [reflexivity|]. split; [by split|]. by apply insert_fde.
  - change (ROTATE_EVENT =? FORMAT_DESCRIPTION_EVENT) with false. change (ROTATE_EVENT =? GTID_EVENT) with false.
    change (ROTATE_EVENT =? ROTATE_EVENT) with true. cbv iota.
    rewrite E1, bind_must, E2, bind_must, Hd, bind_must. unfold bind.
    rewrite Set_open by (apply Hup || by destruct i). rewrite bytes_string.
    eexists. split; [reflexivity|]. split; [by split|]. by apply insert_file.
  - change (PREVIOUS_GTIDS_EVENT =? FORMAT_DESCRIPTION_EVENT) with false.
    change (PREVIOUS_GTIDS_EVENT =? GTID_EVENT) with false. change (PREVIOUS_GTIDS_EVENT =? ROTATE_EVENT) with false.
    change (PREVIOUS_GTIDS_EVENT =? PREVIOUS_GTIDS_EVENT) with true. cbv iota.
    rewrite E1, bind_must, E2, bind_must. unfold bind, lift. rewrite Hd.
    destruct (SetPreviousGtidSet_inv i gs (store p) pg Hm Hi Hok Hb) as (m' & -> & Hm').
    eexists. split; [reflexivity|]. split; [|done]. split; try done. apply Hm'.
Qed.

Lemma apply_quiet now e p cur last g pg :
  quiet e -> prog p EventParserNone cur last g -> cur = "" \/ cur = last -> meta_inv pg (store p) ->
  exists p', applyMySQLBinlogEvent now e p = (Ok tt, p') /\ prog p' EventParserNone cur last g /\ meta_inv pg (store p').
Proof.
  intros (Hi & raw & h & Hc & Hty) [Hs Hcur Hlast Hg Htext Hup] Hcl Hm.
  rewrite (apply_carried now e _ _ _ p Hc). unfold bind at 1, fatal_on_err at 1.
  rewrite (updateProcess_step _ _ _ _ _ _ (carries_whole _ _ _ _ Hc)), Hs.
  cbn [TransactionBoundaryParser.currentState at_state TransactionBoundaryParser.next_state].
  rewrite save_again by (cbn [set_parser set_lastFilePosition currentGtid lastSaveGtid]; by rewrite Hcur, Hlast).
  set (p1 := set_parser _ _). assert (prog p1 EventParserNone cur last g) as Hp1 by (by split).
  destruct (needApply (EventHeader.EventType h)) eqn:Hn; [|by exists p1].
  destruct Hty as [?|Hty]; [done|].
  destruct (applyBinlogEvent_quiet raw (EventHeader.EventType h) (Entry.Index e) p1 EventParserNone cur last g pg)
    as (p' & E & Hp' & Hm'); [apply Hc|done|done|done|done|].
  exists p'. unfold fatal_on_err. by rewrite E.
Qed.

(** * The purged GTIDs of the master *)

Lemma slice_payload {A} (x : A) l : slice (x :: l) 1 (blen (x :: l)) = Some l.
Proof. apply (slice_suffix [x] l); by rewrite ?blen_cons; unfold blen; cbn; lia. Qed.

(** The text of a master that has purged nothing, or transactions of one server. *)
Definition purged_text (o : option UUIDSet.t) : string :=
  match o with None => "" | Some set => UUIDSet.String set end.
Definition purged_ok (o : option UUIDSet.t) : Prop :=
  match o with None => True | Some set => uuid_set_ok set end.
Definition adopt (o : option UUIDSet.t) (g : MysqlGTIDSet.t) : MysqlGTIDSet.t :=
  match o with None => g | Some set => MysqlGTIDSet.AddSet set g end.
(** The purged set of the node takes a server that it does not have. *)
Definition adopt_missing (o : option UUIDSet.t) (pg : MysqlGTIDSet.t) : MysqlGTIDSet.t :=
  match o with
  | None => pg
  | Some set => match pg !! UUID.String (UUIDSet.SID set) with Some _ => pg | None => MysqlGTIDSet.AddSet set pg end
  end.

Lemma adopt_ok o g : purged_ok o -> gtids_ok g ->
  gtids_ok (adopt o g) /\
  forall v x, UUID.ok v -> gmem v x (adopt o g) <->
    gmem v x g \/ exists set, o = Some set /\ v = UUIDSet.SID set /\ mem x (UUIDSet.Intervals set).
Proof.
  intros Ho Hg. destruct o as [set|]; cbn [adopt].
  - destruct (AddSet_ok set g Hg Ho) as [Hok Hmem]. split; [done|]. intros v x Hv. rewrite Hmem by done. split.
    + intros [?|[? ?]]; [by left|right; eauto].
    + intros [?|(set' & [= <-] & ?)]; [by left|by right].
  - split; [done|]. intros v x _. split; [by left|]. by intros [?|(set & ? & _)].
Qed.

Lemma adopt_missing_ok o pg : purged_ok o -> gtids_ok pg -> gtids_ok (adopt_missing o pg).
Proof.
  intros Ho Hg. destruct o as [set|]; [|done]. unfold adopt_missing. destruct (pg !! _); [done|]. by apply AddSet_ok.
Qed.

Lemma purged_text_parse o : purged_ok o ->
  MysqlGTIDSet.ParseMysqlGTIDSet (purged_text o) = Some (adopt o ∅).
Proof.
  intros Ho. destruct o as [set|]; [|done]. cbn [purged_text adopt purged_ok] in *.
  destruct (set_text_some set Ho) as (c & r & E). unfold MysqlGTIDSet.ParseMysqlGTIDSet.
  rewrite E. cbn [String.eqb]. rewrite <- E.
  exact (parse_sets_text [set] ∅ (Forall_cons_2 _ _ _ Ho (Forall_nil_2 _)) ltac:(done)).
Qed.

Lemma add_missing_adopt o pg : add_missing (adopt o ∅) pg = adopt_missing o pg.
Proof.
  destruct o as [set|]; unfold add_missing, adopt, adopt_missing; [|by rewrite map_to_list_empty].
  unfold MysqlGTIDSet.AddSet at 2. rewrite lookup_empty, insert_empty, map_to_list_singleton. done.
Qed.

Lemma GetGtidSet_purged m pg : meta_inv pg m -> MetaStore.GetGtidSet MySQLFlavor GtidPurgedKey m = (Ok pg, m).
Proof.
  intros [[Hc _] Hpg _]. unfold purged_in in Hpg. destruct (MetaStore.bucket m !! purged_key) as [v|] eqn:E.
  - by apply (GetGtidSet_value m _ _ v pg).
  - unfold MetaStore.GetGtidSet, bind. rewrite Get_open by done. rewrite bytes_string.
    change (path_Join MySQLFlavor GtidPurgedKey) with purged_key. by rewrite E, Hpg.
Qed.

Lemma SetGtidSet_purged m pg pg' :
  meta_inv pg m -> gtids_ok pg' -> blen (MysqlGTIDSet.Encode pg') < 2 ^ 62 ->
  exists m', MetaStore.SetGtidSet MySQLFlavor GtidPurgedKey pg' m = (Ok tt, m') /\ meta_inv pg' m'.
Proof.
  intros [[Hc Hf] Hpg (pgs & fdes & files & Hm)] Hok Hb. unfold MetaStore.SetGtidSet. rewrite Set_open by done.
  rewrite bytes_string. eexists. split; [reflexivity|]. split; [done| |].
  - unfold purged_in. cbn [MetaStore.bucket]. change (path_Join MySQLFlavor GtidPurgedKey) with purged_key.
    rewrite lookup_insert_eq. by apply Encode_value.
  - exists pgs, fdes, files. by apply meta_ok_plain.
Qed.

(** A reset leaves the parser outside of every transaction, whatever it was in. *)
Lemma reset_inv o p st cur last g pg :
  purged_ok o -> prog p st cur last g -> meta_inv pg (store p) ->
  exists p', reset (purged_text o) p = (Ok tt, p') /\ prog p' EventParserNone "" last (adopt o g) /\
    meta_inv pg (store p').
Proof.
  intros Ho [Hs Hcur Hlast Hg Htext Hup] Hm. unfold reset, bind, modify at 1.
  destruct o as [set|]; cbn [purged_text adopt purged_ok] in *.
  - destruct (set_text_some set Ho) as (c & r & E). rewrite E. cbn [String.eqb]. rewrite <- E.
    unfold gets. cbn [executedGtidSet]. unfold MysqlGTIDSet.Update. rewrite ParseUUIDSet_String, Hg by done.
    cbn [mbind option_bind]. unfold modify, on_store, zoom. cbn [store set_executed].
    destruct (Set_inv (StringToBytes (path_Join MySQLFlavor ExecutedGtidSetKey))
      (MysqlGTIDSet.Encode (MysqlGTIDSet.AddSet set g)) (store p) pg) as (m' & Em & Hm'); [done..|].
    unfold MetaStore.SetGtidSet. rewrite Em. eexists. split; [reflexivity|]. split; [split; try done|done]. apply Hm'.
  - eexists. split; [reflexivity|]. split; [split; try done; cbn; by rewrite Hg|done].
Qed.

(** Nor does it take the text of a set with transactions of several servers. *)
Lemma reset_several m l p :
  gtids_ok m -> MysqlGTIDSet.orders m l -> (2 <= size m)%nat ->
  reset (MysqlGTIDSet.sets_text l) p =
    (Err ErrGtidFormat, BinlogProgress.mk "" (lastSaveGtid p) "" 0 (executedGtidSetStr p)
       (TransactionBoundaryParser.mk EventParserNone) 0 0 (executedGtidSet p) (store p)).
Proof.
  intros Hm Hl Hsz. unfold reset, bind, modify at 1.
  destruct (String.eqb_spec (MysqlGTIDSet.sets_text l) "") as [El|_].
  { pose proof (parse_orders m l Hm Hl) as Hpa. rewrite El in Hpa. injection Hpa as <-.
    rewrite map_size_empty in Hsz. lia. }
  unfold gets. cbn [executedGtidSet]. by rewrite (update_refuses_several m l).
Qed.

Section log.
Context `{Json HardState.t} `{Json ConfState.t} `{Json RaftCluster.t} `{Json Member.t}.
Context `{Json Attributes.t} `{JsonLaws SyncerArgs.t} `{JsonLaws MasterInfo.t} `{JsonLaws MasterGtidPurged.t}.
Context (ConfChange_Unmarshal : bytes -> option ConfChange.t).

Local Abbreviation apply := (KingbusServer.apply ConfChange_Unmarshal).

Definition purged_entry (e : Entry.t) (gtids : string) : Prop :=
  Entry.Type_ e = Entry.EntryNormal /\
  Entry.data e = MasterGtidPurged.EncodeWithType (MasterGtidPurged.mk gtids).

Lemma apply_purged e o p st cur last g pg :
  purged_entry e (purged_text o) -> purged_ok o -> prog p st cur last g -> meta_inv pg (store p) -> gtids_ok pg ->
  blen (MysqlGTIDSet.Encode (adopt_missing o pg)) < 2 ^ 62 ->
  exists p', applyMasterGtidPurged e p = (Ok tt, p') /\ prog p' EventParserNone "" last (adopt o g) /\
    meta_inv (adopt_missing o pg) (store p').
Proof.
  intros [_ Hd] Ho Hp Hm Hpg Hb. unfold applyMasterGtidPurged. rewrite Hd.
  unfold MasterGtidPurged.EncodeWithType, encode_with_type. rewrite slice_payload, bind_must, json_roundtrip, bind_must.
  cbn [MasterGtidPurged.GtidPurged]. rewrite purged_text_parse, bind_must by done.
  unfold bind at 1, fatal_on_err at 1, on_store at 1, zoom at 1. rewrite (GetGtidSet_purged _ _ Hm).
  unfold bind at 1, fatal_on_err at 1, on_store at 1, zoom at 1. rewrite add_missing_adopt.
  change (store (set_store (store p) p)) with (store p).
  destruct (SetGtidSet_purged (store p) pg (adopt_missing o pg) Hm) as (m' & -> & Hm');
    [by apply adopt_missing_ok|done|].
  destruct (reset_inv o (set_store m' (set_store (store p) p)) st cur last g (adopt_missing o pg))
    as (p' & E & Hp' & Hm2); [done| |done|].
  - destruct Hp. split; try done. apply Hm'.
  - exists p'. unfold fatal_on_err. by rewrite E.
Qed.

(** * The server *)

Record standing (s : KingbusServer.t) (st : eventParserState) (cur last : string) (g pg : MysqlGTIDSet.t) : Prop := {
  standing_prog : prog (KingbusServer.binlogProgress s) st cur last g;
  standing_meta : meta_inv pg (KingbusServer.store s) }.

Lemma apply_app clock es1 es2 : forall b s b' s',
  apply clock es1 b s = (Ok b', s') -> apply clock (es1 ++ es2) b s = apply clock es2 b' s'.
Proof.
  induction es1 as [|e es1 IH]; intros b s b' s' E; [by injection E as <- <-|].
  cbn [KingbusServer.apply app] in *. unfold bind in *.
  destruct (KingbusServer.apply_entry _ _ e s) as [[r| |] s1]; [|done..]. by apply IH.
Qed.

(** The entry of a new term of raft, the arguments of a syncer and what it
    finds out about its master. *)
Definition internal (e : Entry.t) : Prop :=
  Entry.Type_ e = Entry.EntryNormal /\
  (Entry.data e = [] \/ (exists a, Entry.data e = SyncerArgs.EncodeWithType a) \/
   exists a, Entry.data e = MasterInfo.EncodeMasterInfo a).

(** A value that the server sets in the store. *)
Lemma server_set key value s st cur last g pg :
  standing s st cur last g pg -> key <> [] -> plain_key (BytesToString key) -> BytesToString key <> purged_key ->
  exists s', fatal_on_err (KingbusServer.on_store (MetaStore.Set_ key value)) s = (Ok tt, s') /\
    standing s' st cur last g pg.
Proof.
  intros [[Hs Hcur Hlast Hg Htext Hup] Hm] Hk Hpl Hne.
  destruct (Set_inv key value (KingbusServer.store s) pg Hm Hk Hpl Hne) as (m' & E & Hm').
  unfold fatal_on_err, KingbusServer.on_store, zoom. rewrite E. eexists. split; [reflexivity|].
  split; [split; try done|done]. apply Hm'.
Qed.

Lemma payload_encoded {A} `{JsonLaws A} ty (a : A) e s :
  Entry.data e = encode_with_type ty a -> KingbusServer.payload e s = (Ok (json_Marshal a, a), s).
Proof.
  intros Hd. unfold KingbusServer.payload. rewrite Hd. unfold encode_with_type.
  by rewrite slice_payload, bind_must, json_roundtrip, bind_must.
Qed.

Lemma apply_normal clock e s b s1 :
  Entry.Type_ e = Entry.EntryNormal -> KingbusServer.applyEntryNormal (clock (Entry.Index e)) e s = (Ok tt, s1) ->
  exists s', apply clock [e] b s = (Ok b, s') /\ KingbusServer.binlogProgress s' = KingbusServer.binlogProgress s1.
Proof.
  intros Ht E1. cbn [KingbusServer.apply]. unfold bind at 1, KingbusServer.apply_entry. rewrite Ht.
  change (Entry.EntryNormal =? Entry.EntryNormal) with true. cbv iota. unfold bind at 1. rewrite E1.
  unfold bind, modify, ret. rewrite orb_false_r. eexists. by split; [reflexivity|].
Qed.

Lemma standing_eq s s' st cur last g pg :
  KingbusServer.binlogProgress s' = KingbusServer.binlogProgress s -> standing s st cur last g pg ->
  standing s' st cur last g pg.
Proof. intros E [Hp Hm]. unfold KingbusServer.store in Hm. split; unfold KingbusServer.store; by rewrite E. Qed.

Lemma apply_internal clock e s b st cur last g pg :
  internal e -> standing s st cur last g pg ->
  exists s', apply clock [e] b s = (Ok b, s') /\ standing s' st cur last g pg.
Proof.
  intros [Ht Hd] Hst.
  assert (exists s', KingbusServer.applyEntryNormal (clock (Entry.Index e)) e s = (Ok tt, s') /\
    standing s' st cur last g pg) as (s1 & E1 & Hp & Hm).
  { unfold KingbusServer.applyEntryNormal. destruct Hd as [->|[[a Hd]|[a Hd]]]; [by exists s|..];
      rewrite Hd; unfold SyncerArgs.EncodeWithType, MasterInfo.EncodeMasterInfo, encode_with_type in *.
    - change (SyncerArgsType =? MySQLBinlogEventType) with false. change (SyncerArgsType =? NodeAttributesType) with false.
      change (SyncerArgsType =? SyncerArgsType) with true. cbv iota.
      unfold KingbusServer.applySyncerArgs. rewrite (bind_ok _ _ _ _ _ (payload_encoded _ a e s Hd)). by apply server_set.
    - change (MasterInfoType =? MySQLBinlogEventType) with false. change (MasterInfoType =? NodeAttributesType) with false.
      change (MasterInfoType =? SyncerArgsType) with false. change (MasterInfoType =? MasterInfoType) with true. cbv iota.
      unfold KingbusServer.applyMasterInfo. rewrite (bind_ok _ _ _ _ _ (payload_encoded _ a e s Hd)). by apply server_set. }
  destruct (apply_normal clock e s b s1 Ht E1) as (s' & E & Ep). exists s'. split; [done|]. by apply (standing_eq s1).
Qed.

Lemma apply_change clock e o s b st cur last g pg :
  purged_entry e (purged_text o) -> purged_ok o -> standing s st cur last g pg -> gtids_ok pg ->
  blen (MysqlGTIDSet.Encode (adopt_missing o pg)) < 2 ^ 62 ->
  exists s', apply clock [e] b s = (Ok b, s') /\ standing s' EventParserNone "" last (adopt o g) (adopt_missing o pg).
Proof.
  intros He Ho [Hp Hm] Hpg Hb.
  destruct (apply_purged e o _ _ _ _ _ _ He Ho Hp Hm Hpg Hb) as (p' & E & Hp' & Hm'). destruct He as [Ht Hd].
  destruct (apply_normal clock e s b (KingbusServer.set_progress p' s) Ht) as (s' & E' & Ep).
  - unfold KingbusServer.applyEntryNormal. rewrite Hd. unfold MasterGtidPurged.EncodeWithType, encode_with_type.
    change (MasterGtidPurgedType =? MySQLBinlogEventType) with false.
    change (MasterGtidPurgedType =? NodeAttributesType) with false.
    change (MasterGtidPurgedType =? SyncerArgsType) with false. change (MasterGtidPurgedType =? MasterInfoType) with false.
    change (MasterGtidPurgedType =? MasterGtidPurgedType) with true. cbv iota.
    unfold KingbusServer.on_progress, zoom. by rewrite E.
  - exists s'. split; [done|]. by apply (standing_eq (KingbusServer.set_progress p' s)).
Qed.

(** The entries of binlog events. *)
Lemma apply_standing clock es s b p' st cur last g pg :
  Forall (fun e => IsBinlogEvent e = true) es ->
  apply_events clock es (KingbusServer.binlogProgress s) = (Ok tt, p') -> prog p' st cur last g -> meta_inv pg (store p') ->
  exists s', apply clock es b s = (Ok b, s') /\ standing s' st cur last g pg.
Proof.
  intros Hb E Hp Hm. destruct (apply_binlog ConfChange_Unmarshal clock es s b p' Hb E) as (s' & E' & Ep & _).
  exists s'. split; [done|]. split; unfold KingbusServer.store; by rewrite Ep.
Qed.

(** * Logs *)

(** A log in pieces: whole transactions, events between them, entries of
    the nodes themselves, and changes of the leader, where a transaction is left in
    the middle and the purged GTIDs of the master come before the next event. *)
Inductive piece : Type :=
  | Whole (tr : trx)
  | Quiet (e : Entry.t)
  | Internal (e : Entry.t)
  | Change (part mid : list Entry.t) (e : Entry.t) (purged : option UUIDSet.t).

Definition piece_entries (p : piece) : list Entry.t :=
  match p with
  | Whole tr => trx_entries tr
  | Quiet e | Internal e => [e]
  | Change part mid e _ => part ++ mid ++ [e]
  end.
Definition log_entries (ps : list piece) : list Entry.t := concat (map piece_entries ps).

Definition last_after (last : string) (p : piece) : string :=
  match p with Whole tr => trx_text tr | _ => last end.
Definition gtids_after (g : MysqlGTIDSet.t) (p : piece) : MysqlGTIDSet.t :=
  match p with Whole tr => trx_add g tr | Change _ _ _ o => adopt o g | _ => g end.
Definition purged_after (pg : MysqlGTIDSet.t) (p : piece) : MysqlGTIDSet.t :=
  match p with Change _ _ _ o => adopt_missing o pg | _ => pg end.

Definition piece_ok (last : string) (pg : MysqlGTIDSet.t) (p : piece) : Prop :=
  match p with
  | Whole tr => is_trx tr /\ last <> trx_text tr
  | Quiet e => quiet e
  | Internal e => internal e
  | Change part mid e o =>
      begun part /\ Forall internal mid /\ purged_entry e (purged_text o) /\ purged_ok o /\
      blen (MysqlGTIDSet.Encode (adopt_missing o pg)) < 2 ^ 62
  end.

Fixpoint log_ok (last : string) (pg : MysqlGTIDSet.t) (ps : list piece) : Prop :=
  match ps with
  | [] => True
  | p :: ps' => piece_ok last pg p /\ log_ok (last_after last p) (purged_after pg p) ps'
  end.

Lemma purged_after_ok last pg p : piece_ok last pg p -> gtids_ok pg -> gtids_ok (purged_after pg p).
Proof. intros Hp Hpg. destruct p; try done. apply adopt_missing_ok; [apply Hp|done]. Qed.

Lemma apply_internals clock es : forall s b st cur last g pg,
  Forall internal es -> standing s st cur last g pg ->
  exists s', apply clock es b s = (Ok b, s') /\ standing s' st cur last g pg.
Proof.
  induction es as [|e es IH]; intros s b st cur last g pg Hes Hs; [by exists s|].
  apply Forall_cons in Hes as [He Hes]. destruct (apply_internal clock e s b st cur last g pg He Hs) as (s1 & E1 & Hs1).
  destruct (IH s1 b st cur last g pg Hes Hs1) as (s' & E & Hs'). exists s'. split; [|done].
  change (e :: es) with ([e] ++ es). by rewrite (apply_app _ _ _ _ _ _ _ E1).
Qed.

Lemma apply_begun_standing clock part s b cur last g pg :
  begun part -> standing s EventParserNone cur last g pg ->
  exists s' st' cur', apply clock part b s = (Ok b, s') /\ standing s' st' cur' last g pg.
Proof.
  intros Hb [Hp Hm]. destruct (apply_begun clock part _ _ _ _ Hb Hp) as (st' & cur' & p' & E & Hp' & Hst & _).
  destruct (apply_standing clock part s b p' st' cur' last g pg) as (s' & E' & Hs'); [|done|done|by rewrite Hst|eauto].
  apply (entries_binlog [] part); [constructor|done].
Qed.

Lemma apply_piece clock p s b cur last g pg :
  piece_ok last pg p -> gtids_ok pg -> standing s EventParserNone cur last g pg -> cur = "" \/ cur = last ->
  exists s' cur', apply clock (piece_entries p) b s = (Ok b, s') /\
    standing s' EventParserNone cur' (last_after last p) (gtids_after g p) (purged_after pg p) /\
    (cur' = "" \/ cur' = last_after last p).
Proof.
  intros Hp Hpg Hs Hcl. destruct p as [tr|e|e|part mid e o]; cbn [piece_entries last_after gtids_after purged_after piece_ok] in *.
  - destruct Hp as [Ht Hne]. destruct Hs as [Hp Hm].
    destruct (apply_trx clock tr _ _ _ _ Ht Hp Hne) as (p' & E & Hp' & _).
    pose proof (trx_entries_inv clock _ pg _ _ _ (trx_all_entries tr Ht) Hm E) as Hm'.
    destruct (apply_standing clock _ s b p' _ _ _ _ pg (trx_binlog tr Ht) E Hp' Hm') as (s' & E' & Hs'). eauto 6.
  - destruct Hs as [Hpr Hm]. destruct (apply_quiet (clock (Entry.Index e)) e _ _ _ _ pg Hp Hpr Hcl Hm) as (p' & E & Hp' & Hm').
    destruct (apply_standing clock [e] s b p' EventParserNone cur last g pg) as (s' & E' & Hs'); [| |done|done|eauto 6].
    + constructor; [|constructor]. destruct Hp as (_ & raw & h & Hc & _). apply Hc.
    + cbn [apply_events]. by rewrite (bind_ok _ _ _ _ _ E).
  - destruct (apply_internal clock e s b _ _ _ _ _ Hp Hs) as (s' & E & Hs'). eauto 6.
  - destruct Hp as (Hb & Hmid & He & Ho & Hsz).
    destruct (apply_begun_standing clock part s b _ _ _ _ Hb Hs) as (s1 & st1 & cur1 & E1 & Hs1).
    destruct (apply_internals clock mid s1 b _ _ _ _ _ Hmid Hs1) as (s2 & E2 & Hs2).
    destruct (apply_change clock e o s2 b _ _ _ _ _ He Ho Hs2 Hpg Hsz) as (s3 & E3 & Hs3).
    exists s3, "". rewrite (apply_app _ _ _ _ _ _ _ E1), (apply_app _ _ _ _ _ _ _ E2). auto.
Qed.

Lemma apply_pieces clock ps : forall s b cur last g pg,
  log_ok last pg ps -> gtids_ok pg -> standing s EventParserNone cur last g pg -> cur = "" \/ cur = last ->
  exists s' cur', apply clock (log_entries ps) b s = (Ok b, s') /\
    standing s' EventParserNone cur' (foldl last_after last ps) (foldl gtids_after g ps) (foldl purged_after pg ps) /\
    (cur' = "" \/ cur' = foldl last_after last ps).
Proof.
  induction ps as [|p ps IH]; intros s b cur last g pg Hps Hpg Hs Hcl; [by exists s, cur|].
  destruct Hps as [Hp Hps]. destruct (apply_piece clock p s b cur last g pg Hp Hpg Hs Hcl) as (s1 & cur1 & E1 & Hs1 & Hcl1).
  destruct (IH s1 b cur1 _ _ _ Hps (purged_after_ok _ _ _ Hp Hpg) Hs1 Hcl1) as (s' & cur' & E & Hs' & Hcl').
  exists s', cur'. split; [|done]. change (log_entries (p :: ps)) with (piece_entries p ++ log_entries ps).
  by rewrite (apply_app _ _ _ _ _ _ _ E1).
Qed.

(** The transactions that a piece adds to the executed ones. *)
Definition piece_has (p : piece) (v : bytes) (x : Z) : Prop :=
  match p with
  | Whole tr => v = trx_sid tr /\ x = trx_gno tr
  | Change _ _ _ (Some set) => v = UUIDSet.SID set /\ mem x (UUIDSet.Intervals set)
  | _ => False
  end.

Lemma gtids_after_has last pg p g : gtids_ok g -> piece_ok last pg p ->
  gtids_ok (gtids_after g p) /\ forall v x, UUID.ok v -> gmem v x (gtids_after g p) <-> gmem v x g \/ piece_has p v x.
Proof.
  intros Hg Hp. destruct p as [tr|e|e|part mid e [set|]]; cbn [gtids_after adopt piece_has]; [|split; [done|tauto]..| |split; [done|tauto]].
  - destruct Hp as [[_ Hu Hgno] _]. by apply AddSet_single.
  - destruct Hp as (_ & _ & _ & Ho & _). by apply AddSet_ok.
Qed.

Lemma foldl_gtids ps : forall last pg g, gtids_ok g -> log_ok last pg ps ->
  gtids_ok (foldl gtids_after g ps) /\
  forall v x, UUID.ok v -> gmem v x (foldl gtids_after g ps) <-> gmem v x g \/ exists p, p ∈ ps /\ piece_has p v x.
Proof.
  induction ps as [|p ps IH]; intros last pg g Hg Hps; cbn [foldl].
  { split; [done|]. intros v x _. split; [by left|]. intros [?|(p & Hin & _)]; [done|by apply elem_of_nil in Hin]. }
  destruct Hps as [Hp Hps]. destruct (gtids_after_has last pg p g Hg Hp) as [Hok Hmem].
  destruct (IH _ _ _ Hok Hps) as [Hok' Hmem']. split; [done|]. intros v x Hv. rewrite Hmem', Hmem by done.
  setoid_rewrite elem_of_cons. split.
  - intros [[?|?]|(p' & Hin & ?)]; eauto.
  - intros [?|(p' & [->|Hin] & ?)]; eauto.
Qed.

(** C7: A change of the leader loses no transaction and records none too early:
    for every log of whole transactions, events between them, entries of the
    nodes, and changes of the leader that leave a transaction in the middle and
    reset the progress with the purged GTIDs of the master, followed by the beginning
    of another transaction, the executed set has what it had, the
    transactions that are whole in the log and the purged ones, and nothing else; the
    node records as purged what its masters had purged of servers it did not have. *)
Theorem leader_changes_recorded clock ps part s cur last g pg :
  log_ok last pg ps -> begun part -> gtids_ok g -> gtids_ok pg ->
  standing s EventParserNone cur last g pg -> cur = "" \/ cur = last ->
  exists s', apply clock (log_entries ps ++ part) false s = (Ok false, s') /\
    let p := KingbusServer.binlogProgress s' in
    gtids_ok (executedGtidSet p) /\
    (forall v x, UUID.ok v -> gmem v x (executedGtidSet p) <->
       gmem v x g \/ exists q, q ∈ ps /\ piece_has q v x) /\
    ExecutedGtidSetStr p = MysqlGTIDSet.String (executedGtidSet p) /\
    MetaStore.GetGtidSet MySQLFlavor GtidPurgedKey (store p) = (Ok (foldl purged_after pg ps), store p).
Proof.
  intros Hps Hpart Hg Hpg Hs Hcl.
  destruct (apply_pieces clock ps s false cur last g pg Hps Hpg Hs Hcl) as (s1 & cur1 & E1 & Hs1 & _).
  destruct (apply_begun_standing clock part s1 false _ _ _ _ Hpart Hs1) as (s' & st' & cur' & E & [Hp Hm]).
  exists s'. split; [by rewrite (apply_app _ _ _ _ _ _ _ E1)|]. cbv zeta.
  destruct (foldl_gtids ps last pg g Hg Hps) as [Hok Hmem]. destruct Hp as [_ _ _ Hex Htext _].
  unfold ExecutedGtidSetStr. rewrite Htext, Hex. split; [done|]. split; [done|]. split; [done|].
  by apply GetGtidSet_purged.
Qed.

(** When the master has purged transactions of two or more servers, the entry
    with its purged GTIDs would end the process of every node that applies it, at any
    point of a log. *)
Theorem several_purged_end_process clock e m l s b st cur last g pg :
  gtids_ok m -> MysqlGTIDSet.orders m l -> (2 <= size m)%nat ->
  purged_entry e (MysqlGTIDSet.sets_text l) -> standing s st cur last g pg ->
  (apply clock [e] b s).1 = Panic.
Proof.
  intros Hm Hl Hsz [Ht Hd] [Hp Hi]. unfold KingbusServer.store in Hi.
  assert ((applyMasterGtidPurged e (KingbusServer.binlogProgress s)).1 = Panic) as E.
  { unfold applyMasterGtidPurged. rewrite Hd. unfold MasterGtidPurged.EncodeWithType, encode_with_type.
    rewrite slice_payload, bind_must, json_roundtrip, bind_must. cbn [MasterGtidPurged.GtidPurged].
    rewrite (parse_orders m l), bind_must by done.
    unfold bind at 1, fatal_on_err at 1, on_store at 1, zoom at 1. rewrite (GetGtidSet_purged _ _ Hi).
    unfold bind at 1, fatal_on_err at 1, on_store at 1, zoom at 1. unfold MetaStore.SetGtidSet.
    rewrite Set_open by (apply Hi || done). unfold fatal_on_err. by rewrite (reset_several m l). }
  cbn [KingbusServer.apply]. unfold bind at 1, KingbusServer.apply_entry. rewrite Ht.
  change (Entry.EntryNormal =? Entry.EntryNormal) with true. cbv iota. unfold bind at 1.
  unfold KingbusServer.applyEntryNormal. rewrite Hd. unfold MasterGtidPurged.EncodeWithType, encode_with_type.
  unfold KingbusServer.on_progress, zoom.
  change (MasterGtidPurgedType =? MySQLBinlogEventType) with false.
  change (MasterGtidPurgedType =? NodeAttributesType) with false.
  change (MasterGtidPurgedType =? SyncerArgsType) with false. change (MasterGtidPurgedType =? MasterInfoType) with false.
  change (MasterGtidPurgedType =? MasterGtidPurgedType) with true. cbv iota beta.
  destruct (applyMasterGtidPurged e (KingbusServer.binlogProgress s)) as [r p']. cbn in E. by rewrite E.
Qed.

End log.

(** * A sample: the second transaction is left after two of its entries and
    comes again after the change *)

#[local] Instance hard_state_json : Json HardState.t := code_json _.
#[local] Instance conf_state_json : Json ConfState.t := code_json _.
#[local] Instance cluster_json : Json RaftCluster.t := code_json _.
#[local] Instance member_json : Json Member.t := code_json _.
#[local] Instance attributes_json : Json Attributes.t := code_json _.
#[local] Instance syncer_args_json : Json SyncerArgs.t := code_json _.
#[local] Instance syncer_args_laws : JsonLaws SyncerArgs.t := code_json_laws _.
#[local] Instance master_info_json : Json MasterInfo.t := code_json _.
#[local] Instance master_info_laws : JsonLaws MasterInfo.t := code_json_laws _.
#[local] Instance gtid_purged_json : Json MasterGtidPurged.t := code_json _.
#[local] Instance gtid_purged_laws : JsonLaws MasterGtidPurged.t := code_json_laws _.

Definition sample_purged (gtids : string) : Entry.t :=
  Entry.mk 2 7 Entry.EntryNormal (Some (MasterGtidPurged.EncodeWithType (MasterGtidPurged.mk gtids))) None.
Definition sample_set : UUIDSet.t := single sid2 3.
Definition sample_log : list piece :=
  [Whole (sample_trx 1 5);
   Change (take 2 (trx_entries (sample_trx 4 6))) [Entry.mk 2 6 Entry.EntryNormal None None]
     (sample_purged (UUIDSet.String sample_set)) (Some sample_set);
   Whole (sample_trx 8 6);
   Quiet (sample_entry 11 FORMAT_DESCRIPTION_EVENT (zeros 4))].

Lemma sample_log_ok : log_ok "" ∅ sample_log.
Proof.
  split; [|split; [|split; [|split; [|done]]]].
  - split; [apply sample_trx_ok; lia|done].
  - split; [exact sample_begun|]. split; [constructor; [|constructor]; split; [done|by left]|].
    split; [done|]. split; [apply single_ok; [apply sids_ok|lia]|]. vm_compute. reflexivity.
  - split; [apply sample_trx_ok; lia|]. vm_compute. discriminate.
  - split; [cbn; unfold is_u64; lia|].
    exists (sample_raw FORMAT_DESCRIPTION_EVENT (zeros 4)), (sample_header FORMAT_DESCRIPTION_EVENT 27).
    split; [apply carries_by_computation; by vm_compute|by right; left].
Qed.

Lemma sample_standing : standing sample_server EventParserNone "" "" ∅ ∅.
Proof.
  split; [exact sample_prog|]. split; [done|done|]. exists ∅, ∅, ∅.
  split; [done|exists ∅; split; [|apply map_Forall2_empty]|..]; unfold KingbusServer.store, sample_server, sample_progress;
    cbn [KingbusServer.binlogProgress store MetaStore.bucket]; indexed_tac.
Qed.

Lemma leader_changes_recorded_witness :
  exists s', KingbusServer.apply (fun _ => None) (fun _ => 0) (log_entries sample_log) false sample_server = (Ok false, s') /\
    gmem sid1 6 (executedGtidSet (KingbusServer.binlogProgress s')).
Proof.
  destruct (leader_changes_recorded (fun _ => None) (fun _ => 0) sample_log [] sample_server "" "" ∅ ∅)
    as (s' & E & _ & Hmem & _).
  - exact sample_log_ok.
  - by left.
  - exact gtids_ok_empty.
  - exact gtids_ok_empty.
  - exact sample_standing.
  - by left.
  - exists s'. split; [by rewrite app_nil_r in E|]. apply Hmem; [apply sids_ok|]. right.
    exists (Whole (sample_trx 8 6)). split; [|split; reflexivity].
    unfold sample_log. do 2 right. left.
Defined.

Lemma several_purged_end_process_witness :
  (KingbusServer.apply (fun _ => None) (fun _ => 0) [sample_purged (MysqlGTIDSet.String sample_gtids)] false sample_server).1
    = Panic.
Proof.
  apply (several_purged_end_process (fun _ => None) (fun _ => 0) (sample_purged (MysqlGTIDSet.String sample_gtids))
    sample_gtids (map_to_list sample_gtids).*2 sample_server false EventParserNone "" "" ∅ ∅).
  - exact sample_gtids_ok.
  - apply Permutation_refl.
  - vm_compute. lia.
  - by split.
  - exact sample_standing.
Defined.

(** The purged GTIDs of the master must come before its events: an entry with
    them after the first event of a transaction drops its GTID, and the
    transaction is not recorded although all of its events are in the log. *)
Lemma late_reset_loses_transaction :
  let tr := trx_entries (sample_trx 8 6) in
  let r := KingbusServer.apply (fun _ => None) (fun _ => 0) (take 1 tr ++ [sample_purged ""] ++ drop 1 tr) false sample_server in
  r.1 = Ok false /\ bool_decide (executedGtidSet (KingbusServer.binlogProgress r.2) = ∅) = true /\
  TransactionBoundaryParser.IsNotInsideTransaction (trxBoundaryParser (KingbusServer.binlogProgress r.2)) = true.
Proof. vm_compute. split; [reflexivity|]. split; reflexivity. Qed.
