(* ===== verification/Syncer.v ===== *)
(** The syncer (server/binlog_syncer.go) and the part of server/server.go that
    starts and stops it: the questions to the master, what is committed before the
    first event, and the GTID set that replication starts with. *)
From S2P Require Import Prelude.
From S2P Require Import Text.
From S2P Require Import Wire.
From S2P Require Import Gtid.
From S2P Require Import GtidCodec.
From S2P Require Import MetaStore.
From S2P Require Import MetaTheorems.
From S2P Require Import Packets.
From S2P Require Import TrxParser.
From S2P Require Import Progress.
From S2P Require Import Config.
From S2P Require Import Apply.
From S2P Require Import ApplyTheorems.
From S2P Require Import LeaderChange.
From stdpp Require Import list strings.
Local Open Scope string_scope.
Local Open Scope list_scope.
Local Open Scope Z_scope.
Local Open Scope go_scope.

(** * Results of the MySQL client *)

(** The value at row 0 and column 0 of a [gomysql.Result]: [None] when there is
    no such row or column. *)
Inductive value : Type := VInt (n : Z) | VText (s : string) | VNil.

Module Result.
Definition t : Type := option value.

Definition GetString (r : t) : res string :=
  match r with
  | None => Err ErrFormat
  | Some (VText s) => Ok s
  | Some (VInt n) => Ok (fmt_d n)
  | Some VNil => Ok ""
  end.

Definition GetUint (r : t) : res Z :=
  match r with
  | None => Err ErrFormat
  | Some (VInt n) => Ok (u64 n)
  | Some (VText s) => match ParseUint s with (n, None) => Ok n | _ => Err ErrFormat end
  | Some VNil => Ok 0
  end.

Definition GetInt (r : t) : res Z := match GetUint r with Ok n => Ok (i64 n) | r => r end.
End Result.

(** * The syncer *)

Module Syncer.

(** [conn] tells whether there is a connection for queries, [done] whether the
    context is cancelled; [streaming] is the set that [StartSyncGTID] was called with
    and [closed] whether the replication was closed. [dataC] has room for ten values;
    a start puts two into it. [calls] counts the calls of the client. *)
Record t : Type := mk {
  started : bool; cfg : SyncerConfig.t; conn : bool; done : bool; dataC : list bytes;
  streaming : option MysqlGTIDSet.t; closed : bool; calls : nat }.

Definition NewSyncer (cfg : SyncerConfig.t) : t := mk false cfg false false [] None false 0.

Definition set_conn (b : bool) (s : t) : t := mk (started s) (cfg s) b (done s) (dataC s) (streaming s) (closed s) (calls s).
Definition send_data (d : bytes) (s : t) : t :=
  mk (started s) (cfg s) (conn s) (done s) (dataC s ++ [d]) (streaming s) (closed s) (calls s).
Definition set_streaming (g : MysqlGTIDSet.t) (s : t) : t :=
  mk (started s) (cfg s) (conn s) (done s) (dataC s) (Some g) (closed s) (calls s).
Definition set_started (b : bool) (s : t) : t := mk b (cfg s) (conn s) (done s) (dataC s) (streaming s) (closed s) (calls s).
Definition count : St t nat := fun s =>
  (Ok (calls s), mk (started s) (cfg s) (conn s) (done s) (dataC s) (streaming s) (closed s) (S (calls s))).

Section Syncer.
Context `{Json MasterInfo.t} `{Json MasterGtidPurged.t}.
(** [client.Connect], [conn.Execute] and [StartSyncGTID] of the vendored
    packages; the first two get the number of the call. *)
Context (connect : nat -> option error) (execute : nat -> string -> res Result.t) (startSync : MysqlGTIDSet.t -> option error).

Definition Connect : St t unit :=
  let! n := count in
  match connect n with Some e => throw e | None => modify (set_conn true) end.

(** The loop of [Execute]; [r] holds the results of the last round. *)
Fixpoint execute_loop (n : nat) (cmd : string) (r : res Result.t) : St t Result.t :=
  match n with
  | O => lift r
  | S n' =>
      let! c := gets conn in
      (if c then ret tt else Connect) ;!
      let! k := count in
      match execute k cmd with
      | Err ErrBadConn => modify (set_conn false) ;! execute_loop n' cmd (Err ErrBadConn)
      | r => lift r
      end
  end.

Definition Execute (cmd : string) : St t Result.t := execute_loop 3 cmd (Ok None).

Definition getMasterGtidPurged : St t string :=
  let! r := Execute "SELECT @@gtid_purged" in lift (Result.GetString r).

Definition proposeMasterGtidPurged (gtidPurged : string) : St t unit :=
  modify (send_data (MasterGtidPurged.EncodeWithType (MasterGtidPurged.mk gtidPurged))).

(** [x, _ := res.GetString(0, 0)] *)
Definition text_of (r : Result.t) : string := match Result.GetString r with Ok s => s | _ => "" end.

Definition preCheck : St t unit :=
  let! r := Execute "SELECT @@gtid_mode" in
  if negb (String.eqb (text_of r) "ON") then throw ErrUnsupport else
  let! r := Execute "SELECT @@binlog_format;" in
  if negb (String.eqb (text_of r) "ROW") then throw ErrUnsupport else ret tt.

Definition GetMasterInfo : St t unit :=
  let! r := Execute "SELECT @@GLOBAL.SERVER_ID;" in
  let! serverID := lift (Result.GetInt r) in
  let! r := Execute "SELECT @@GLOBAL.SERVER_UUID;" in
  let! serverUUID := lift (Result.GetString r) in
  let! r := Execute "SELECT VERSION();" in
  let! version := lift (Result.GetString r) in
  modify (send_data (MasterInfo.EncodeMasterInfo (MasterInfo.mk (i32 serverID) serverUUID version))).

(** [Start] up to the goroutine that reads the events. *)
Definition Start (gset : MysqlGTIDSet.t) : St t unit :=
  preCheck ;!
  GetMasterInfo ;!
  match startSync gset with
  | Some e => throw e
  | None => modify (set_streaming gset) ;! modify (set_started true)
  end.

(** Closing a connection that is not there panics. *)
Definition Stop : St t unit :=
  let! b := gets started in
  if negb b then ret tt else
  modify (fun s => mk false (cfg s) (conn s) true (dataC s) (streaming s) (closed s) (calls s)) ;!
  let! c := gets conn in
  if negb c then panic else
  modify (fun s => mk (started s) (cfg s) false (done s) (dataC s) (streaming s) true (calls s)).

End Syncer.
End Syncer.

(** * Starting and stopping it *)

Module Sub.

(** Of the server: the progress, the indexes that the raft node knows, and
    the syncer. [proposing] counts the calls of [StartProposeBinlog]. *)
Record t : Type := mk {
  binlogProgress : BinlogProgress.t; appliedIndex : Z; committedIndex : Z; syncer : option Syncer.t; proposing : nat }.

Definition set_progress (p : BinlogProgress.t) (s : t) : t :=
  mk p (appliedIndex s) (committedIndex s) (syncer s) (proposing s).
Definition set_syncer (y : option Syncer.t) (s : t) : t :=
  mk (binlogProgress s) (appliedIndex s) (committedIndex s) y (proposing s).

Definition on_progress {A} (m : St BinlogProgress.t A) : St t A := zoom binlogProgress set_progress m.

(** A call on a new syncer that the server does not know yet. *)
Definition on_new {A} (y : Syncer.t) (m : St Syncer.t A) : St t (A * Syncer.t) := fun s =>
  match m y with
  | (Ok a, y) => (Ok (a, y), s)
  | (Err e, _) => (Err e, s)
  | (Panic, _) => (Panic, s)
  end.

(** [s.syncer.Start(...)] and the like; there is one. *)
Definition on_syncer {A} (m : St Syncer.t A) : St t A := fun s =>
  match syncer s with
  | None => (Panic, s)
  | Some y => let '(r, y) := m y in (r, set_syncer (Some y) s)
  end.

Definition IsSyncerStarted (s : t) : bool := match syncer s with Some y => Syncer.started y | None => false end.

Section Sub.
Context `{Json MasterInfo.t} `{Json MasterGtidPurged.t}.
Context (connect : nat -> option error) (execute : nat -> string -> res Result.t) (startSync : MysqlGTIDSet.t -> option error).
(** What the goroutines of raft and of the apply loop do to the server in the
    100ms of a [time.Sleep]. *)
Context (sleep : t -> t).

(** [for s.getAppliedIndex() < s.getCommittedIndex() { time.Sleep(...) }],
    [fuel] rounds of it. *)
Fixpoint wait_applied (fuel : nat) : St t unit :=
  let! s := gets id in
  if appliedIndex s <? committedIndex s
  then match fuel with O => panic | S fuel' => modify sleep ;! wait_applied fuel' end
  else ret tt.

Definition startSyncerServer (fuel : nat) (args : SyncerArgs.t) : St t unit :=
  let! syncerCfg := lift (NewSyncerConfig args) in
  let y := Syncer.NewSyncer syncerCfg in
  wait_applied fuel ;!
  let! r := on_new y (Syncer.getMasterGtidPurged connect execute) in
  let '(gtidPurged, y) := r in
  on_progress (BinlogProgress.reset gtidPurged) ;!
  let! r := on_new y (Syncer.proposeMasterGtidPurged gtidPurged) in
  let '(_, y) := r in
  modify (set_syncer (Some y)) ;!
  let! gset := gets (fun s => BinlogProgress.ExecutedGtidSetClone (binlogProgress s)) in
  on_syncer (Syncer.Start connect execute startSync gset).

(** [StartServer(SyncerServerType, args)]: every error of the start becomes
    [ErrArgs]. *)
Definition StartServer (fuel : nat) (args : option SyncerArgs.t) : St t unit := fun s =>
  if IsSyncerStarted s then (Err ErrStarted, s) else
  match args with
  | None => (Err ErrArgs, s)
  | Some args =>
      match startSyncerServer fuel args s with
      | (Ok _, s) =>
          (Ok tt, mk (binlogProgress s) (appliedIndex s) (committedIndex s) (syncer s) (S (proposing s)))
      | (Err _, s) => (Err ErrArgs, s)
      | (Panic, s) => (Panic, s)
      end
  end.

(** [StopServer(SyncerServerType)] *)
Definition StopServer : St t unit :=
  let! b := gets IsSyncerStarted in
  if b then on_syncer Syncer.Stop else ret tt.
End Sub.
End Sub.

(** * What a start does *)

Section start.
Context `{Json MasterInfo.t} `{Json MasterGtidPurged.t}.
Context (connect : nat -> option error) (execute : nat -> string -> res Result.t) (startSync : MysqlGTIDSet.t -> option error).
Context (sleep : Sub.t -> Sub.t).

Local Abbreviation StartServer := (Sub.StartServer connect execute startSync sleep).

(** A call of the client leaves the rest of the syncer as it was. *)
Definition asked (y y' : Syncer.t) : Prop :=
  Syncer.started y' = Syncer.started y /\ Syncer.cfg y' = Syncer.cfg y /\ Syncer.done y' = Syncer.done y /\
  Syncer.dataC y' = Syncer.dataC y /\ Syncer.streaming y' = Syncer.streaming y /\ Syncer.closed y' = Syncer.closed y.

Lemma asked_trans y1 y2 y3 : asked y1 y2 -> asked y2 y3 -> asked y1 y3.
Proof. unfold asked. intros (? & ? & ? & ? & ? & ?) (? & ? & ? & ? & ? & ?). repeat split; congruence. Qed.

(** The connections can be made; a query gets the same answer each time. *)
Definition reachable : Prop := forall k, connect k = None.
Definition says (cmd : string) (v : value) : Prop := forall k, execute k cmd = Ok (Some v).

Lemma Execute_says cmd v y : reachable -> says cmd v ->
  exists y', Syncer.Execute connect execute cmd y = (Ok (Some v), y') /\ asked y y' /\ Syncer.conn y' = true.
Proof.
  intros Hc Hs. unfold Syncer.Execute. cbn [Syncer.execute_loop]. unfold bind at 1, gets.
  destruct (Syncer.conn y) eqn:Ec.
  - unfold bind, ret, Syncer.count. rewrite Hs. eexists. split; [reflexivity|]. done.
  - unfold Syncer.Connect, bind, Syncer.count. rewrite Hc. unfold modify. rewrite Hs.
    eexists. split; [reflexivity|]. done.
Qed.

(** The driver reports a broken connection with an error of its own, for which
    there is no second try, and the connection is kept. *)
Lemma Execute_bad_connection cmd y :
  Syncer.conn y = true -> execute (Syncer.calls y) cmd = Err ErrDriverBadConn ->
  exists y', Syncer.Execute connect execute cmd y = (Err ErrDriverBadConn, y') /\ Syncer.conn y' = true.
Proof.
  intros Hc He. unfold Syncer.Execute. cbn [Syncer.execute_loop]. unfold bind at 1, gets. rewrite Hc.
  unfold bind, ret, Syncer.count. rewrite He. eexists. by split; [reflexivity|].
Qed.

(** A MySQL server with GTIDs, the row format and the purged set [o]. *)
Record master (o : option UUIDSet.t) (id : Z) (uuid version : string) : Prop := {
  master_purged : says "SELECT @@gtid_purged" (VText (purged_text o));
  master_mode : says "SELECT @@gtid_mode" (VText "ON");
  master_format : says "SELECT @@binlog_format;" (VText "ROW");
  master_id : says "SELECT @@GLOBAL.SERVER_ID;" (VInt id);
  master_uuid : says "SELECT @@GLOBAL.SERVER_UUID;" (VText uuid);
  master_version : says "SELECT VERSION();" (VText version) }.

Lemma preCheck_ok y : reachable -> says "SELECT @@gtid_mode" (VText "ON") -> says "SELECT @@binlog_format;" (VText "ROW") ->
  exists y', Syncer.preCheck connect execute y = (Ok tt, y') /\ asked y y'.
Proof.
  intros Hc Hm Hf. unfold Syncer.preCheck.
  destruct (Execute_says _ _ y Hc Hm) as (y1 & E1 & A1 & _). rewrite (bind_ok _ _ _ _ _ E1).
  destruct (Execute_says _ _ y1 Hc Hf) as (y2 & E2 & A2 & _). cbn -[bind Syncer.Execute]. rewrite (bind_ok _ _ _ _ _ E2).
  exists y2. split; [done|]. by eapply asked_trans.
Qed.

Definition info_entry (id : Z) (uuid version : string) : bytes :=
  MasterInfo.EncodeMasterInfo (MasterInfo.mk (i32 (i64 (u64 id))) uuid version).
Definition purged_data (o : option UUIDSet.t) : bytes :=
  MasterGtidPurged.EncodeWithType (MasterGtidPurged.mk (purged_text o)).

Lemma GetMasterInfo_ok y o id uuid version : reachable -> master o id uuid version ->
  exists y', Syncer.GetMasterInfo connect execute y = (Ok tt, Syncer.send_data (info_entry id uuid version) y') /\ asked y y'.
Proof.
  intros Hc [_ _ _ Hi Hu Hv]. unfold Syncer.GetMasterInfo.
  destruct (Execute_says _ _ y Hc Hi) as (y1 & E1 & A1 & _). rewrite (bind_ok _ _ _ _ _ E1). unfold bind at 1, lift at 1. cbn.
  destruct (Execute_says _ _ y1 Hc Hu) as (y2 & E2 & A2 & _). rewrite (bind_ok _ _ _ _ _ E2). unfold bind at 1, lift at 1. cbn.
  destruct (Execute_says _ _ y2 Hc Hv) as (y3 & E3 & A3 & _). rewrite (bind_ok _ _ _ _ _ E3). unfold bind at 1, lift at 1. cbn.
  exists y3. split; [done|]. eauto using asked_trans.
Qed.

Lemma Start_ok y g o id uuid version : reachable -> master o id uuid version -> startSync g = None ->
  exists y', Syncer.Start connect execute startSync g y = (Ok tt, y') /\ Syncer.started y' = true /\
    Syncer.dataC y' = Syncer.dataC y ++ [info_entry id uuid version] /\ Syncer.streaming y' = Some g /\
    Syncer.cfg y' = Syncer.cfg y /\ Syncer.done y' = Syncer.done y.
Proof.
  intros Hc Hm Hs. unfold Syncer.Start.
  destruct (preCheck_ok y Hc (master_mode _ _ _ _ Hm) (master_format _ _ _ _ Hm)) as (y1 & E1 & A1).
  rewrite (bind_ok _ _ _ _ _ E1).
  destruct (GetMasterInfo_ok y1 o id uuid version Hc Hm) as (y2 & E2 & A2). rewrite (bind_ok _ _ _ _ _ E2), Hs.
  destruct (asked_trans _ _ _ A1 A2) as (? & ? & ? & Hd & ? & ?).
  eexists. split; [reflexivity|]. cbn. by rewrite Hd.
Qed.

(** The loop before a start ends as soon as everything that is committed is applied. *)
Definition caught_up (s : Sub.t) : Prop := Sub.committedIndex s <= Sub.appliedIndex s.
Definition slept (n : nat) (s : Sub.t) : Sub.t := Nat.iter n sleep s.

Lemma wait_applied_ok n : forall fuel s,
  caught_up (slept n s) -> (forall k, (k < n)%nat -> ~ caught_up (slept k s)) -> (n <= fuel)%nat ->
  Sub.wait_applied sleep fuel s = (Ok tt, slept n s).
Proof.
  induction n as [|n IH]; intros fuel s Hc Hk Hf.
  - unfold caught_up, slept in Hc. cbn in Hc. destruct fuel; cbn [Sub.wait_applied]; unfold bind at 1, gets, id;
      by rewrite (proj2 (Z.ltb_ge _ _)) by lia.
  - destruct fuel as [|fuel]; [lia|]. cbn [Sub.wait_applied]. unfold bind at 1, gets, id.
    pose proof (Hk 0%nat ltac:(lia)) as H0'. unfold caught_up, slept in H0'. cbn in H0'.
    rewrite (proj2 (Z.ltb_lt _ _)) by lia. unfold bind at 1, modify.
    unfold slept in *. rewrite Nat.iter_succ_r in Hc |- *. apply IH; [done| |lia].
    intros k Hlt. rewrite <- Nat.iter_succ_r. apply Hk. lia.
Qed.

Lemma getMasterGtidPurged_ok y t : reachable -> says "SELECT @@gtid_purged" (VText t) ->
  exists y', Syncer.getMasterGtidPurged connect execute y = (Ok t, y') /\ asked y y'.
Proof.
  intros Hc Hs. unfold Syncer.getMasterGtidPurged. destruct (Execute_says _ _ y Hc Hs) as (y' & E & A & _).
  rewrite (bind_ok _ _ _ _ _ E). by exists y'.
Qed.


(** When the master has purged transactions of two or more servers no syncer is
    started: the reset refuses the text, and nothing is sent to be committed. *)
Theorem several_purged_refused fuel n args cfg s st cur last g m l :
  let s1 := slept n s in
  NewSyncerConfig args = Ok cfg -> Sub.IsSyncerStarted s = false ->
  caught_up s1 -> (forall k, (k < n)%nat -> ~ caught_up (slept k s)) -> (n <= fuel)%nat ->
  prog (Sub.binlogProgress s1) st cur last g -> reachable ->
  gtids_ok m -> MysqlGTIDSet.orders m l -> (2 <= size m)%nat ->
  says "SELECT @@gtid_purged" (VText (MysqlGTIDSet.sets_text l)) ->
  exists s', StartServer fuel (Some args) s = (Err ErrArgs, s') /\ Sub.syncer s' = Sub.syncer s1 /\
    Sub.proposing s' = Sub.proposing s1 /\ prog (Sub.binlogProgress s') EventParserNone "" last g.
Proof.
  intros s1 Hcfg Hst Hc Hk Hf [Hs Hcur Hlast Hex Htext Hup] Hr Hm Hl Hsz Hsay. unfold Sub.StartServer. rewrite Hst.
  unfold Sub.startSyncerServer, bind at 1, lift. rewrite Hcfg.
  rewrite (bind_ok _ _ _ _ _ (wait_applied_ok n fuel s Hc Hk Hf)). fold s1.
  destruct (getMasterGtidPurged_ok (Syncer.NewSyncer cfg) _ Hr Hsay) as (y1 & E1 & A1).
  unfold bind at 1, Sub.on_new at 1. rewrite E1. unfold bind at 1, Sub.on_progress, zoom.
  rewrite (reset_several m l) by done. eexists. split; [reflexivity|]. done.
Qed.
End start.

(** * A sample start: two rounds of waiting, a master that has purged one
    transaction *)

#[local] Instance info_json : Json MasterInfo.t := code_json _.
#[local] Instance purged_json : Json MasterGtidPurged.t := code_json _.

Definition sample_args : SyncerArgs.t := SyncerArgs.mk 7 "u" "10.0.0.1:3306" "repl" "secret" false.
Definition sample_config : SyncerConfig.t :=
  match NewSyncerConfig sample_args with
  | Ok c => c
  | _ => SyncerConfig.mk 0 "" "" "" 0 "" "" "" false false false false 0 0 0 false 0
  end.
Definition sample_master (purged : string) (k : nat) (cmd : string) : res Result.t :=
  if String.eqb cmd "SELECT @@gtid_purged" then Ok (Some (VText purged))
  else if String.eqb cmd "SELECT @@gtid_mode" then Ok (Some (VText "ON"))
  else if String.eqb cmd "SELECT @@binlog_format;" then Ok (Some (VText "ROW"))
  else if String.eqb cmd "SELECT @@GLOBAL.SERVER_ID;" then Ok (Some (VInt 3))
  else if String.eqb cmd "SELECT @@GLOBAL.SERVER_UUID;" then Ok (Some (VText "u-3"))
  else if String.eqb cmd "SELECT VERSION();" then Ok (Some (VText "5.7"))
  else Err ErrFormat.
Definition sample_sleep (s : Sub.t) : Sub.t :=
  Sub.mk (Sub.binlogProgress s) (Sub.appliedIndex s + 1) (Sub.committedIndex s) (Sub.syncer s) (Sub.proposing s).
Definition sample_sub : Sub.t := Sub.mk sample_progress 3 5 None 0.

Lemma sample_waits k : (k < 2)%nat -> ~ caught_up (slept sample_sleep k sample_sub).
Proof. intros Hk. destruct k as [|[|]]; [| |lia]; unfold caught_up; cbn; lia. Qed.


Lemma several_purged_refused_witness :
  exists s', Sub.StartServer (fun _ => None) (sample_master (MysqlGTIDSet.String sample_gtids)) (fun _ => None) sample_sleep 9
      (Some sample_args) sample_sub = (Err ErrArgs, s') /\ Sub.syncer s' = None.
Proof.
  destruct (several_purged_refused (fun _ => None) (sample_master (MysqlGTIDSet.String sample_gtids)) (fun _ => None)
    sample_sleep 9 2 sample_args sample_config sample_sub EventParserNone "" "" ∅ sample_gtids (map_to_list sample_gtids).*2)
    as (s' & E & Hs & _).
  - vm_compute. reflexivity.
  - reflexivity.
  - unfold caught_up. cbn. lia.
  - exact sample_waits.
  - lia.
  - exact sample_prog.
  - intros k. reflexivity.
  - exact sample_gtids_ok.
  - apply Permutation_refl.
  - vm_compute. lia.
  - intros k. reflexivity.
  - exists s'. split; [exact E|exact Hs].
Defined.
