(* ===== verification/Pipeline.v ===== *)
(** From the master to raft: the goroutine of [Syncer.Start], which puts the
    events of the master into a channel, the goroutine of [StartProposeBinlog], which
    proposes them, and the goroutine of raft, which tells who leads and stops the
    syncer, with all of their interleavings. *)
From S2P Require Import Prelude.
From S2P Require Import Wire.
From S2P Require Import Events.
From S2P Require Import Packets.
From stdpp Require Import list relations.
Local Open Scope list_scope.
Local Open Scope Z_scope.
Local Open Scope go_scope.

Definition ProposeMaxRetryCount : nat := Z.to_nat 1000.
(** The room of [binlogEventC]. *)
Definition binlogEventC_cap : nat := Z.to_nat 1000.

(** * States *)

(** Where the goroutine of [Start] is: at the test of its loop, in [GetEvent],
    in [proposeBinlogEvent] with the events that it still has to send, in the deferred
    [Stop], at its end. *)
Inductive reader : Type :=
  | RLoop
  | RGet
  | RSend (parts : list BinlogEvent.t)
  | RStop
  | REnd.

(** Where the goroutine of [StartProposeBinlog] is: before [s.IsLeader()] in
    the test of its loop, before [s.IsSyncerStarted()], in the [select], before the test
    of the loop of [ProposeWithRetry], in [raftNode.Propose], at its end. *)
Inductive proposer : Type :=
  | PLead
  | PStarted
  | PSelect
  | PRetry (data : bytes) (retryCount : nat)
  | PPropose (data : bytes) (retryCount : nat)
  | PEnd.

(** [stream] holds the events that the master sends, [done] tells whether
    the context of the syncer is cancelled. *)
Record syncer : Type := Syn {
  stream : list SrcEvent; reading : reader; eventC : list BinlogEvent.t; dataC : list bytes;
  started : bool; done : bool }.

(** What [IsLeader] returns; the goroutine of raft sets it and calls
    [updateLeadership] afterwards, [updating] is true in between. *)
Record leader : Type := Led { isLeader : bool; updating : bool }.

(** [proposed] holds what raft has appended; [gaveUp] tells whether a value was
    dropped after an error that goes to [errorc]. *)
Record proposing : Type := Prp { at_ : proposer; proposed : list bytes; gaveUp : bool }.

Record t : Type := mk { syn : syncer; led : leader; prp : proposing }.

(** * Steps *)

(** The goroutine of [Syncer.Start]. [GetEvent] returns an event, or an error
    when the connection or the context ends. *)
Inductive read_step : syncer -> syncer -> Prop :=
  | read_loop evs c d b :
      read_step (Syn evs RLoop c d true b) (Syn evs RGet c d true b)
  | read_stopped evs c d b :
      read_step (Syn evs RLoop c d false b) (Syn evs RStop c d false b)
  | read_heartbeat e evs c d a b :
      EventHeader.EventType (Header e) = HEARTBEAT_EVENT ->
      read_step (Syn (e :: evs) RGet c d a b) (Syn evs RLoop c d a b)
  | read_event e evs c d a b parts :
      EventHeader.EventType (Header e) <> HEARTBEAT_EVENT -> proposeBinlogEvent true e = Ok parts ->
      read_step (Syn (e :: evs) RGet c d a b) (Syn evs (RSend parts) c d a b)
  | read_error evs c d a b :
      read_step (Syn evs RGet c d a b) (Syn evs RStop c d a b)
  | read_send p ps evs c d a b :
      (length c < binlogEventC_cap)%nat ->
      read_step (Syn evs (RSend (p :: ps)) c d a b) (Syn evs (RSend ps) (c ++ [p]) d a b)
  | read_drop p ps evs c d a :
      read_step (Syn evs (RSend (p :: ps)) c d a true) (Syn evs (RSend ps) c d a true)
  | read_sent evs c d a b :
      read_step (Syn evs (RSend []) c d a b) (Syn evs RLoop c d a b)
  | read_end evs c d b :
      read_step (Syn evs RStop c d false b) (Syn evs REnd c d false b).

(** [Stop], called by the deferred function above, by [updateLeadership] or
    for a request: [started] is cleared first, then the context is cancelled. *)
Inductive stop_step : syncer -> syncer -> Prop :=
  | stop_started evs r c d b : stop_step (Syn evs r c d true b) (Syn evs r c d false b)
  | stop_cancel evs r c d : stop_step (Syn evs r c d false false) (Syn evs r c d false true).

(** The goroutine of raft. [updateLeadership] stops a syncer that is started
    on a node that does not lead before it returns. *)
Inductive lead_step : syncer -> leader -> leader -> Prop :=
  | lead_set y a b : lead_step y (Led a false) (Led b true)
  | lead_updated y a : a = true \/ started y = false -> lead_step y (Led a true) (Led a false).

(** The goroutine of [StartProposeBinlog]. A [select] takes any case that is
    ready. [Propose] returns nil when the value is appended and an error when it is not,
    except that a cancelled context can hide that it is. *)
Inductive propose_step : syncer -> leader -> proposing -> syncer -> proposing -> Prop :=
  | propose_leads y l m g :
      isLeader l = true -> propose_step y l (Prp PLead m g) y (Prp PStarted m g)
  | propose_not_leader y l m g :
      isLeader l = false -> propose_step y l (Prp PLead m g) y (Prp PEnd m g)
  | propose_started y l m g :
      started y = true -> propose_step y l (Prp PStarted m g) y (Prp PSelect m g)
  | propose_stopped y l m g :
      started y = false -> propose_step y l (Prp PStarted m g) y (Prp PEnd m g)
  | propose_done y l m g :
      done y = true -> propose_step y l (Prp PSelect m g) y (Prp PEnd m g)
  | propose_event e v evs r c d a b l m g :
      EncodeBinlogEvent e = Ok v ->
      propose_step (Syn evs r (e :: c) d a b) l (Prp PSelect m g) (Syn evs r c d a b) (Prp (PRetry v 0) m g)
  | propose_bad_event e er evs r c d a b l m g :
      EncodeBinlogEvent e = Err er ->
      propose_step (Syn evs r (e :: c) d a b) l (Prp PSelect m g) (Syn evs r c d a b) (Prp PEnd m true)
  | propose_data v evs r c d a b l m g :
      propose_step (Syn evs r c (v :: d) a b) l (Prp PSelect m g) (Syn evs r c d a b) (Prp (PRetry v 0) m g)
  | propose_try y l v n m g :
      (n < ProposeMaxRetryCount)%nat -> isLeader l = true ->
      propose_step y l (Prp (PRetry v n) m g) y (Prp (PPropose v n) m g)
  | propose_lost_lead y l v n m g :
      isLeader l = false -> propose_step y l (Prp (PRetry v n) m g) y (Prp PLead m g)
  | propose_ok y l v n m g :
      propose_step y l (Prp (PPropose v n) m g) y (Prp PLead (m ++ [v]) g)
  | propose_again y l v n m g :
      (S n < ProposeMaxRetryCount)%nat ->
      propose_step y l (Prp (PPropose v n) m g) y (Prp (PRetry v (S n)) m g)
  | propose_give_up y l v n m g :
      (ProposeMaxRetryCount <= S n)%nat ->
      propose_step y l (Prp (PPropose v n) m g) y (Prp PLead m true)
  | propose_hidden y l v n m g :
      done y = true -> (S n < ProposeMaxRetryCount)%nat ->
      propose_step y l (Prp (PPropose v n) m g) y (Prp (PRetry v (S n)) (m ++ [v]) g)
  | propose_hidden_last y l v n m g :
      done y = true -> (ProposeMaxRetryCount <= S n)%nat ->
      propose_step y l (Prp (PPropose v n) m g) y (Prp PLead (m ++ [v]) true).

Inductive step : t -> t -> Prop :=
  | step_read y y' l p : read_step y y' -> step (mk y l p) (mk y' l p)
  | step_stop y y' l p : stop_step y y' -> step (mk y l p) (mk y' l p)
  | step_lead y l l' p : lead_step y l l' -> step (mk y l p) (mk y l' p)
  | step_propose y l p y' p' : propose_step y l p y' p' -> step (mk y l p) (mk y' l p').

(** A syncer that has just been started: [data] are the purged GTIDs and the
    information about the master. *)
Definition start (evs : list SrcEvent) (data : list bytes) (l : leader) : t :=
  mk (Syn evs RLoop [] data true false) l (Prp PLead [] false).

Create HintDb pipeline.
#[export] Hint Constructors read_step stop_step lead_step propose_step step : pipeline.

(** * What is proposed *)

(** [l] takes the elements of [a] and of [b], each in their order. *)
Inductive merge {A} : list A -> list A -> list A -> Prop :=
  | merge_nil : merge [] [] []
  | merge_left x a b l : merge a b l -> merge (x :: a) b (x :: l)
  | merge_right x a b l : merge a b l -> merge a (x :: b) (x :: l).
#[export] Hint Constructors merge : pipeline.

Lemma merge_app {A} (a1 b1 l1 a2 b2 l2 : list A) :
  merge a1 b1 l1 -> merge a2 b2 l2 -> merge (a1 ++ a2) (b1 ++ b2) (l1 ++ l2).
Proof. induction 1; intros H2; cbn [app]; eauto with pipeline. Qed.

Lemma merge_snoc_left {A} (a b l : list A) x : merge a b l -> merge (a ++ [x]) b (l ++ [x]).
Proof. intros Hm. rewrite <- (app_nil_r b). apply merge_app; eauto with pipeline. Qed.

Lemma merge_snoc_right {A} (a b l : list A) x : merge a b l -> merge a (b ++ [x]) (l ++ [x]).
Proof. intros Hm. rewrite <- (app_nil_r a). apply merge_app; eauto with pipeline. Qed.

(** The value that is proposed for an event of the master. *)
Definition event_part (e : SrcEvent) : BinlogEvent.t :=
  match proposeBinlogEvent true e with Ok [p] => p | _ => BinlogEvent.mk 0 0 0 0 None None end.
Definition event_value (p : BinlogEvent.t) : bytes := match EncodeBinlogEvent p with Ok v => v | _ => [] end.

Definition is_heartbeat (e : SrcEvent) : bool := EventHeader.EventType (Header e) =? HEARTBEAT_EVENT.
Definition parts_of (evs : list SrcEvent) : list BinlogEvent.t := map event_part (filter (fun e => is_heartbeat e = false) evs).
Definition values_of (evs : list SrcEvent) : list bytes := map event_value (parts_of evs).

(** An event that is not divided. *)
Definition undivided (e : SrcEvent) : Prop := exists p, proposeBinlogEvent true e = Ok [p].

Definition sending (r : reader) : list BinlogEvent.t := match r with RSend ps => ps | _ => [] end.

(** Taken from the channel, in it, and still to come are the events of the
    master; a syncer that was stopped can have dropped the last one. *)
Definition reads (all : list SrcEvent) (te : list bytes) (y : syncer) : Prop :=
  Forall undivided (stream y) /\
  ((length (sending (reading y)) <= 1)%nat /\
   te ++ map event_value (eventC y ++ sending (reading y) ++ parts_of (stream y)) = values_of all \/
   started y = false /\ (reading y = RSend [] \/ reading y = RLoop \/ reading y = RStop \/ reading y = REnd) /\
   te ++ map event_value (eventC y) `prefix_of` values_of all).

Lemma reads_prefix all te y : reads all te y -> te `prefix_of` values_of all.
Proof.
  intros [_ [[_ <-]|(_ & _ & Hp)]]; [by apply prefix_app_r|].
  etrans; [|exact Hp]. by apply prefix_app_r.
Qed.

Lemma parts_heartbeat e evs : is_heartbeat e = true -> parts_of (e :: evs) = parts_of evs.
Proof. intros He. unfold parts_of. by rewrite filter_cons, decide_False by (by rewrite He). Qed.

Lemma parts_event e evs : is_heartbeat e = false -> parts_of (e :: evs) = event_part e :: parts_of evs.
Proof. intros He. unfold parts_of. by rewrite filter_cons, decide_True by done. Qed.

Lemma read_step_reads all te y y' :
  read_step y y' -> (done y = true -> started y = false) -> reads all te y -> reads all te y'.
Proof.
  intros Hs Hd [Hu Hr]. destruct Hs as [evs c d b|evs c d b|e evs c d a b He|e evs c d a b parts He Hp|evs c d a b|
    p ps evs c d a b Hc|p ps evs c d a|evs c d a b|evs c d b]; unfold reads in *; cbn [stream reading eventC started sending] in *.
  - split; [done|]. destruct Hr as [Hr|(? & _)]; [by left|done].
  - split; [done|]. destruct Hr as [Hr|(? & _ & ?)]; [by left|right; auto 9].
  - apply Forall_cons in Hu as [_ Hu]. split; [done|]. destruct Hr as [Hr|(? & [?|[?|[?|?]]] & ?)]; [|done..].
    left. rewrite parts_heartbeat in Hr by (by apply Z.eqb_eq). done.
  - apply Forall_cons in Hu as [[p Hu1] Hu]. split; [done|]. destruct Hr as [Hr|(? & [?|[?|[?|?]]] & ?)]; [|done..].
    left. rewrite parts_event in Hr by (by apply Z.eqb_neq). unfold event_part in Hr. rewrite Hp in Hu1. injection Hu1 as ->.
    rewrite Hp in Hr. split; [cbn; lia|apply Hr].
  - split; [done|]. destruct Hr as [Hr|(? & [?|[?|[?|?]]] & ?)]; [by left|done..].
  - split; [done|]. destruct Hr as [[Hl Hr]|(? & [?|[?|[?|?]]] & ?)]; [|done..]. cbn [length] in Hl.
    left. split; [lia|]. by rewrite <- app_assoc.
  - split; [done|]. destruct Hr as [[Hl Hr]|(? & [?|[?|[?|?]]] & ?)]; [|done..]. cbn [length] in Hl.
    destruct ps; [|cbn in Hl; lia]. right. split; [by apply Hd|]. split; [by left|]. rewrite <- Hr, map_app, app_assoc.
    by apply prefix_app_r.
  - split; [done|]. destruct Hr as [Hr|(? & _ & ?)]; [by left|right; auto 9].
  - split; [done|]. destruct Hr as [Hr|(? & _ & ?)]; [by left|right; auto 9].
Qed.

Lemma stop_step_reads all te y y' : stop_step y y' -> reads all te y -> reads all te y'.
Proof.
  intros Hs [Hu Hr]. destruct Hs; unfold reads in *; cbn [stream reading eventC started] in *; (split; [done|]);
    destruct Hr as [?|(? & ? & ?)]; auto.
Qed.

(** [m] but for the last value, which is missing or repeated. *)
Definition but_last (m l : list bytes) : Prop := exists m' x k, m = m' ++ [x] /\ l = m' ++ replicate k x.

(** It can only be repeated when the syncer was stopped. *)
Definition but_last_of (y : syncer) (m l : list bytes) : Prop :=
  exists m' x k, m = m' ++ [x] /\ l = m' ++ replicate k x /\ (k = 0%nat \/ done y = true).

(** Of the values [m] that were taken from the channels all are proposed, but
    for the one that is being proposed; when the last one is missing or repeated, the
    loop ends at its next test. *)
Definition holds (m : list bytes) (y : syncer) (l : leader) (p : proposing) : Prop :=
  match at_ p with
  | PRetry v _ | PPropose v _ =>
      exists m' k, m = m' ++ [v] /\ proposed p = m' ++ replicate k v /\ (k = 0%nat \/ done y = true)
  | PSelect => proposed p = m
  | PStarted => proposed p = m \/ but_last_of y m (proposed p) /\ started y = false
  | PLead => proposed p = m \/ but_last_of y m (proposed p) /\ (started y = false \/ isLeader l = false /\ updating l = true)
  | PEnd => proposed p = m \/ but_last_of y m (proposed p)
  end.

(** Past the first test, the node leads, or its syncer is stopped or about to be. *)
Definition leads (y : syncer) (l : leader) (p : proposing) : Prop :=
  at_ p = PLead \/ at_ p = PEnd \/ isLeader l = true \/ updating l = true \/ started y = false.

Record inv (all : list SrcEvent) (data : list bytes) (s : t) (te td m : list bytes) : Prop := {
  inv_reads : reads all te (syn s);
  inv_data : td ++ dataC (syn s) = data;
  inv_merge : merge te td m;
  inv_done : done (syn s) = true -> started (syn s) = false;
  inv_holds : gaveUp (prp s) = true \/ holds m (syn s) (led s) (prp s) /\ leads (syn s) (led s) (prp s) }.

Lemma holds_mono m y y' l p :
  (started y = false -> started y' = false) -> (done y = true -> done y' = true) ->
  holds m y l p /\ leads y l p -> holds m y' l p /\ leads y' l p.
Proof.
  unfold holds, leads. intros Hs Hd [Hh Hl]. split; [|tauto].
  assert (but_last_of y m (proposed p) -> but_last_of y' m (proposed p)) as Hb.
  { intros (m' & x & k & ? & ? & [?|?]); exists m', x, k; auto. }
  destruct (at_ p); [tauto|tauto|done| | |tauto].
  - destruct Hh as (m' & k & ? & ? & [?|?]); exists m', k; auto.
  - destruct Hh as (m' & k & ? & ? & [?|?]); exists m', k; auto.
Qed.

Lemma inv_read all data y y' l p te td m :
  read_step y y' -> inv all data (mk y l p) te td m -> inv all data (mk y' l p) te td m.
Proof.
  intros Hs [Hr Hd Hm Hdn Hh]. cbn [syn led prp] in *. pose proof (read_step_reads all te y y' Hs Hdn Hr) as Hr'.
  assert (started y' = started y /\ done y' = done y /\ dataC y' = dataC y) as (E1 & E2 & E3) by (by destruct Hs).
  split; cbn [syn led prp]; [done|by rewrite E3|done|by rewrite E1, E2|].
  destruct Hh as [?|Hh]; [by left|right]. apply (holds_mono _ y); [by rewrite E1|by rewrite E2|done].
Qed.

Lemma inv_stop all data y y' l p te td m :
  stop_step y y' -> inv all data (mk y l p) te td m -> inv all data (mk y' l p) te td m.
Proof.
  intros Hs [Hr Hd Hm Hdn Hh]. cbn [syn led prp] in *. pose proof (stop_step_reads all te y y' Hs Hr) as Hr'.
  assert (started y' = false /\ dataC y' = dataC y /\ (done y = true -> done y' = true)) as (E1 & E2 & E3) by (by destruct Hs).
  split; cbn [syn led prp]; [done|by rewrite E2|done|done|].
  destruct Hh as [?|Hh]; [by left|right]. by apply (holds_mono _ y).
Qed.

Lemma inv_lead all data y l l' p te td m :
  lead_step y l l' -> inv all data (mk y l p) te td m -> inv all data (mk y l' p) te td m.
Proof.
  intros Hs [Hr Hd Hm Hdn Hh]. split; [done..|]. destruct Hh as [?|[Hh Hl]]; [by left|right]. cbn [syn led prp] in *.
  unfold holds, leads in *. destruct Hs as [y a b|y a Ha]; cbn [isLeader updating] in *; (split; [|intuition congruence]);
    destruct (at_ p); intuition congruence.
Qed.

Lemma but_last_app m v k : but_last (m ++ [v]) (m ++ replicate k v).
Proof. exists m, v, k. done. Qed.

Lemma but_last_of_app y m v k : k = 0%nat \/ done y = true -> but_last_of y (m ++ [v]) (m ++ replicate k v).
Proof. exists m, v, k. done. Qed.

Lemma but_last_of_last y m l : but_last_of y m l -> but_last m l.
Proof. intros (m' & x & k & -> & -> & _). apply but_last_app. Qed.

Lemma propose_more (m : list bytes) v k : (m ++ replicate k v) ++ [v] = m ++ replicate (S k) v.
Proof. rewrite <- app_assoc. f_equal. by rewrite <- (replicate_cons_app k v). Qed.

(** Taking a value from a channel. *)
Lemma reads_take all te e evs r c d a b :
  reads all te (Syn evs r (e :: c) d a b) -> reads all (te ++ [event_value e]) (Syn evs r c d a b).
Proof.
  intros [Hu Hr]. split; [done|]. cbn [stream reading eventC started] in *.
  destruct Hr as [[Hl Hr]|(Ha & Hrd & Hr)]; [left|right]; (split; [done|]);
    [|split; [done|]]; rewrite <- app_assoc; exact Hr.
Qed.

Lemma inv_event all data e v evs r c d a b l m0 te td m :
  EncodeBinlogEvent e = Ok v ->
  inv all data (mk (Syn evs r (e :: c) d a b) l (Prp PSelect m0 false)) te td m ->
  inv all data (mk (Syn evs r c d a b) l (Prp (PRetry v 0) m0 false)) (te ++ [v]) td (m ++ [v]).
Proof.
  intros He [Hr Hd Hm Hdn Hh]. cbn [syn led prp] in *. split; cbn [syn led prp]; [|done|by apply merge_snoc_left|done|].
  - apply reads_take in Hr. unfold event_value in Hr. by rewrite He in Hr.
  - destruct Hh as [?|[Hh Hl]]; [done|right]. split; [|destruct Hl as [?|[?|?]]; unfold leads; done || tauto].
    exists m, 0%nat. split; [done|]. split; [|by left]. cbn. by rewrite app_nil_r.
Qed.

Lemma inv_value all data v evs r c d a b l m0 te td m :
  inv all data (mk (Syn evs r c (v :: d) a b) l (Prp PSelect m0 false)) te td m ->
  inv all data (mk (Syn evs r c d a b) l (Prp (PRetry v 0) m0 false)) te (td ++ [v]) (m ++ [v]).
Proof.
  intros [Hr Hd Hm Hdn Hh]. cbn [syn led prp] in *.
  split; cbn [syn led prp]; [done|by rewrite <- app_assoc|by apply merge_snoc_right|done|].
  destruct Hh as [?|[Hh Hl]]; [done|right]. split; [|destruct Hl as [?|[?|?]]; unfold leads; done || tauto].
  exists m, 0%nat. split; [done|]. split; [|by left]. cbn. by rewrite app_nil_r.
Qed.

(** Once a value is given up nothing is claimed. *)
Lemma inv_gave_up all data y l pc m0 te td m :
  reads all te y -> td ++ dataC y = data -> merge te td m -> (done y = true -> started y = false) ->
  inv all data (mk y l (Prp pc m0 true)) te td m.
Proof. intros ? ? ? ?. split; [done..|by left]. Qed.

Lemma inv_proposer all data y l p p' te td m :
  inv all data (mk y l p) te td m -> gaveUp p = false ->
  (holds m y l p /\ leads y l p -> holds m y l p' /\ leads y l p') -> inv all data (mk y l p') te td m.
Proof. intros [Hr Hd Hm Hdn Hh] Hg Hp. split; [done..|]. right. apply Hp. destruct Hh as [Hh|?]; [|done]. cbn in Hh. congruence. Qed.

Lemma inv_propose_gave_up all data y l p y' p' te td m :
  propose_step y l p y' p' -> gaveUp p' = true -> inv all data (mk y l p) te td m ->
  exists te' td' m', inv all data (mk y' l p') te' td' m'.
Proof.
  intros Hs Hg [Hr Hd Hm Hdn _]. cbn [syn] in *.
  destruct Hs; cbn [gaveUp] in Hg; try subst g; try (exists te, td, m; by apply inv_gave_up).
  - exists (te ++ [event_value e]), td, (m ++ [event_value e]).
    apply inv_gave_up; [by apply reads_take in Hr|done|by apply merge_snoc_left|done].
  - exists (te ++ [event_value e]), td, (m ++ [event_value e]).
    apply inv_gave_up; [by apply reads_take in Hr|done|by apply merge_snoc_left|done].
  - exists te, (td ++ [v]), (m ++ [v]). apply inv_gave_up; [done| |by apply merge_snoc_right|done].
    by rewrite <- app_assoc.
Qed.

(** The steps that leave the channels alone. *)
Lemma propose_holds y l p p' m :
  propose_step y l p y p' -> gaveUp p' = false -> (done y = true -> started y = false) ->
  match at_ p' with PRetry _ 0 => False | _ => True end ->
  holds m y l p /\ leads y l p -> holds m y l p' /\ leads y l p'.
Proof.
  intros Hs Hg Hdn Hat [Hh Hl]. unfold holds, leads in *.
  inversion Hs; subst; cbn [at_ proposed gaveUp] in *; try done; try discriminate.
  - split; [|tauto]. destruct Hh as [?|[? [?|[? ?]]]]; [by left|by right|congruence].
  - split; [|tauto]. destruct Hh as [?|[? _]]; [by left|by right].
  - split; [|destruct Hl as [?|[?|?]]; done || tauto]. destruct Hh as [?|[_ ?]]; [done|congruence].
  - split; [|tauto]. destruct Hh as [?|[? _]]; [by left|by right].
  - split; [by left|tauto].
  - split; [done|]. destruct Hl as [?|[?|?]]; done || tauto.
  - destruct Hh as (m' & k & -> & -> & Hk). split; [|tauto]. right. split; [by apply but_last_of_app|].
    destruct Hl as [?|[?|[?|[?|?]]]]; try done; [congruence|by right|by left].
  - destruct Hh as (m' & k & -> & -> & Hk). split; [|tauto].
    destruct Hk as [->|Hk]; [left; cbn; by rewrite app_nil_r|right]. rewrite propose_more. split; [apply but_last_of_app; by right|].
    left. by apply Hdn.
  - destruct Hh as (m' & k & -> & -> & Hk). split; [|destruct Hl as [?|[?|?]]; done || tauto]. by exists m', k.
  - destruct Hh as (m' & k & -> & -> & Hk). split; [|destruct Hl as [?|[?|?]]; done || tauto].
    exists m', (S k). rewrite propose_more. auto.
Qed.

Lemma inv_propose all data y l p y' p' te td m :
  propose_step y l p y' p' -> inv all data (mk y l p) te td m ->
  exists te' td' m', inv all data (mk y' l p') te' td' m'.
Proof.
  intros Hs Hi. destruct (gaveUp p') eqn:Hg; [by eapply inv_propose_gave_up|].
  pose proof (inv_done _ _ _ _ _ _ Hi) as Hdn.
  assert (gaveUp p = false) as Hg0 by (destruct Hs; done).
  destruct Hs as [ | | | | |e v evs r c d a b l m0 g He| |v evs r c d a b l m0 g| | | | | | | ] eqn:E;
    try (exists te, td, m; apply (inv_proposer _ _ _ _ _ _ _ _ _ Hi Hg0); by apply propose_holds).
  - cbn in Hg. subst g. do 3 eexists. by eapply inv_event.
  - done.
  - cbn in Hg. subst g. do 3 eexists. by eapply inv_value.
Qed.

Lemma inv_step all data s s' te td m :
  step s s' -> inv all data s te td m -> exists te' td' m', inv all data s' te' td' m'.
Proof.
  intros Hs Hi. destruct Hs as [y y' l p H|y y' l p H|y l l' p H|y l p y' p' H].
  - exists te, td, m. by eapply inv_read.
  - exists te, td, m. by eapply inv_stop.
  - exists te, td, m. by eapply inv_lead.
  - by eapply inv_propose.
Qed.

Lemma inv_start evs data l : Forall undivided evs -> inv evs data (start evs data l) [] [] [].
Proof.
  intros Hu. split; cbn [syn led prp start]; [|done|constructor|done|].
  - split; [done|]. left. split; [cbn; lia|done].
  - right. split; [by left|by left].
Qed.

Lemma inv_reachable evs data l s : Forall undivided evs -> rtc step (start evs data l) s ->
  exists te td m, inv evs data s te td m.
Proof.
  intros Hu. apply (rtc_ind_r (fun s => exists te td m, inv evs data s te td m)).
  - do 3 eexists. by apply inv_start.
  - intros s1 s2 _ Hs (te & td & m & Hi). by eapply inv_step.
Qed.


Lemma merge_unsnoc {A} (a b l : list A) x : merge a b (l ++ [x]) ->
  exists a' b', a' `prefix_of` a /\ b' `prefix_of` b /\ merge a' b' l.
Proof.
  revert a b. induction l as [|y l IH]; intros a b Hm; cbn [app] in Hm.
  - exists [], []. split_and!; [apply prefix_nil..|constructor].
  - inversion Hm as [|? a1 ? ? Hm1|? ? b1 ? Hm1]; subst; destruct (IH _ _ Hm1) as (a' & b' & Ha & Hb & Hm').
    + exists (y :: a'), b'. split_and!; [by apply prefix_cons|done|by constructor].
    + exists a', (y :: b'). split_and!; [done|by apply prefix_cons|by constructor].
Qed.

(** As long as the syncer is not stopped nothing is repeated. *)
Lemma proposals_exact evs data l s :
  Forall undivided evs -> rtc step (start evs data l) s -> gaveUp (prp s) = false -> done (syn s) = false ->
  exists te td, te `prefix_of` values_of evs /\ td `prefix_of` data /\ merge te td (proposed (prp s)).
Proof.
  intros Hu Hr Hg Hdn. destruct (inv_reachable evs data l s Hu Hr) as (te & td & m & [Hrd Hd Hm _ Hh]).
  assert (te `prefix_of` values_of evs) as Hte by (by eapply reads_prefix).
  assert (td `prefix_of` data) as Htd by (rewrite <- Hd; by apply prefix_app_r).
  assert (proposed (prp s) = m \/ exists x, m = proposed (prp s) ++ [x]) as [->|[x ->]].
  - destruct Hh as [?|[Hh _]]; [congruence|]. unfold holds in Hh.
    assert (but_last_of (syn s) m (proposed (prp s)) -> exists x, m = proposed (prp s) ++ [x]) as Hb.
    { intros (m' & x & k & -> & -> & [->|?]); [|congruence]. exists x. cbn. by rewrite app_nil_r. }
    destruct (at_ (prp s)); [tauto|tauto|by left| | |tauto].
    + destruct Hh as (m' & k & -> & -> & [->|?]); [|congruence]. right. eexists. cbn. by rewrite app_nil_r.
    + destruct Hh as (m' & k & -> & -> & [->|?]); [|congruence]. right. eexists. cbn. by rewrite app_nil_r.
  - by exists te, td.
  - destruct (merge_unsnoc _ _ _ _ Hm) as (te' & td' & H1 & H2 & H3). exists te', td'. split_and!; [by etrans..|done].
Qed.

(** * Every order is possible *)

Definition encodable (p : BinlogEvent.t) : Prop := exists v, EncodeBinlogEvent p = Ok v.

Ltac one := eapply rtc_l; [|].

(** While the node leads, a value that is at the front of a channel is proposed. *)
Lemma run_propose y y' b m v g :
  started y = true ->
  propose_step y (Led true b) (Prp PSelect m g) y' (Prp (PRetry v 0) m g) ->
  rtc step (mk y (Led true b) (Prp PLead m g)) (mk y' (Led true b) (Prp PLead (m ++ [v]) g)).
Proof.
  intros Hs Hp. one; [by apply step_propose, propose_leads|]. one; [by apply step_propose, propose_started|].
  one; [by apply step_propose, Hp|]. one; [apply step_propose, propose_try; [apply Nat2Z.inj_lt; vm_compute|]; done|].
  apply rtc_once, step_propose, propose_ok.
Qed.

(** The next event of the master comes into the channel. *)
Lemma run_read evs data l p a rest :
  Forall undivided evs -> parts_of evs = a :: rest ->
  exists evs', parts_of evs' = rest /\ Forall undivided evs' /\
    rtc step (mk (Syn evs RLoop [] data true false) l p) (mk (Syn evs' RLoop [a] data true false) l p).
Proof.
  induction 1 as [|e evs [q Hq] Hu IH]; intros Hp; [done|].
  destruct (is_heartbeat e) eqn:Hh.
  - rewrite parts_heartbeat in Hp by done. destruct (IH Hp) as (evs' & ? & ? & Hr). exists evs'. split; [done|]. split; [done|].
    one; [apply step_read, read_loop|]. one; [|exact Hr]. apply step_read, read_heartbeat. by apply Z.eqb_eq.
  - rewrite parts_event in Hp by done. injection Hp as <- <-. exists evs. split; [done|]. split; [done|].
    unfold event_part. rewrite Hq. one; [apply step_read, read_loop|].
    one; [apply step_read, read_event; [by apply Z.eqb_neq|exact Hq]|].
    one; [apply step_read, read_send; apply Nat2Z.inj_lt; by vm_compute|]. apply rtc_once, step_read, read_sent.
Qed.

Lemma run_merge te data m : merge te data m -> forall evs prev b,
  te = values_of evs -> Forall undivided evs -> Forall encodable (parts_of evs) ->
  exists s, rtc step (mk (Syn evs RLoop [] data true false) (Led true b) (Prp PLead prev false)) s /\
    proposed (prp s) = prev ++ m /\ gaveUp (prp s) = false /\ done (syn s) = false.
Proof.
  induction 1 as [|x a d l _ IH|x a d l _ IH]; intros evs dn b Hte Hu He.
  - eexists. split; [reflexivity|]. by rewrite app_nil_r.
  - unfold values_of in Hte. destruct (parts_of evs) as [|q rest] eqn:Hp; [done|]. cbn in Hte. injection Hte as -> Ha.
    destruct (run_read evs d (Led true b) (Prp PLead dn false) q rest Hu Hp) as (evs' & Hp' & Hu' & Hr).
    apply Forall_cons in He as [[v Hv] He]. unfold event_value. rewrite Hv.
    destruct (IH evs' (dn ++ [v]) b) as (s & Hs & Hm & Hg); [unfold values_of; by rewrite Hp'|done|by rewrite Hp'|].
    exists s. split; [|by rewrite Hm, <- app_assoc]. etrans; [exact Hr|]. etrans; [|exact Hs].
    apply run_propose; [done|]. by apply propose_event.
  - destruct (IH evs (dn ++ [x]) b Hte Hu He) as (s & Hs & Hm & Hg).
    exists s. split; [|by rewrite Hm, <- app_assoc]. etrans; [|exact Hs]. apply run_propose; [done|]. apply propose_data.
Qed.

(** While the node leads everything is proposed, and in any order of the two
    channels: each way to put the purged GTIDs and the information about the master
    among the events of the master is the outcome of some run. *)
Theorem every_order_proposed evs data m b :
  Forall undivided evs -> Forall encodable (parts_of evs) -> merge (values_of evs) data m ->
  exists s, rtc step (start evs data (Led true b)) s /\ proposed (prp s) = m /\ gaveUp (prp s) = false.
Proof. intros Hu He Hm. destruct (run_merge _ _ _ Hm evs [] b eq_refl Hu He) as (s & Hs & Hp & Hg & _). by exists s. Qed.

(** * A sample: the purged GTIDs come after the first event *)

Definition sample_src (ty : Z) : SrcEvent := mkSrcEvent (EventHeader.mk 0 ty 1 23 0 0) (zeros 23).
Definition sample_stream : list SrcEvent := [sample_src HEARTBEAT_EVENT; sample_src GTID_EVENT; sample_src QUERY_EVENT].
Definition sample_order : list bytes :=
  match values_of sample_stream with [a; b] => [a; [5]; b; [4]] | _ => [] end.

Definition undivided_b (e : SrcEvent) : bool := match proposeBinlogEvent true e with Ok [_] => true | _ => false end.
Definition encodable_b (p : BinlogEvent.t) : bool := match EncodeBinlogEvent p with Ok _ => true | _ => false end.

Lemma sample_undivided : Forall undivided sample_stream.
Proof.
  assert (forallb undivided_b sample_stream = true) as Hb by (vm_compute; reflexivity).
  apply Forall_forall. intros e He%list_elem_of_In. rewrite forallb_forall in Hb. apply Hb in He. unfold undivided_b in He.
  unfold undivided. destruct (proposeBinlogEvent true e) as [[|p [|]]| |]; eauto; done.
Qed.

Lemma sample_encodable : Forall encodable (parts_of sample_stream).
Proof.
  assert (forallb encodable_b (parts_of sample_stream) = true) as Hb by (vm_compute; reflexivity).
  apply Forall_forall. intros p Hp%list_elem_of_In. rewrite forallb_forall in Hb. apply Hb in Hp. unfold encodable_b in Hp.
  unfold encodable. destruct (EncodeBinlogEvent p); eauto; done.
Qed.

Lemma sample_merge : merge (values_of sample_stream) [[5]; [4]] sample_order.
Proof.
  unfold sample_order. assert (exists a b, values_of sample_stream = [a; b]) as (a & b & ->).
  { assert (length (values_of sample_stream) = 2%nat) as Hl by (vm_compute; reflexivity).
    destruct (values_of sample_stream) as [|a [|b []]]; try discriminate Hl. by exists a, b. }
  eauto 9 with pipeline.
Qed.

Lemma every_order_proposed_witness :
  exists s, rtc step (start sample_stream [[5]; [4]] (Led true false)) s /\ proposed (prp s) = sample_order /\
    gaveUp (prp s) = false.
Proof.
  apply (every_order_proposed sample_stream [[5]; [4]] sample_order false);
    [exact sample_undivided|exact sample_encodable|exact sample_merge].
Defined.

