(* ===== verification/ConfTheorems.v ===== *)
(** What holds when configuration changes are applied: the members in memory,
    in the store and in the raft library stay the same, removed members stay out,
    and what a crash between the two writes of a change does. *)
From S2P Require Import Prelude.
From S2P Require Import Names.
From S2P Require Import Text.
From S2P Require Import Wire.
From S2P Require Import Events.
From S2P Require Import Gtid.
From S2P Require Import Storage.
From S2P Require Import MetaStore.
From S2P Require Import MetaTheorems.
From S2P Require Import Progress.
From S2P Require Import Membership.
From S2P Require Import Config.
From S2P Require Import Apply.
From stdpp Require Import sorting list strings.
Local Open Scope string_scope.
Local Open Scope list_scope.
Local Open Scope Z_scope.
Local Open Scope go_scope.

Section conf.
Context `{Json HardState.t} `{Json ConfState.t} `{JsonLaws RaftCluster.t} `{Json Member.t}.

Local Abbreviation in_store := (stored (M := MetaStore.t) (ok := store_up)).

(** The cluster is in the store, and the voters of the raft library are its
    members. *)
Record server_ok (s : KingbusServer.t) : Prop := {
  server_stored : in_store (KingbusServer.cluster s, KingbusServer.store s);
  server_running : RaftConf.done (KingbusServer.raft s) = false;
  server_learners : RaftConf.learnerPrs (KingbusServer.raft s) = ∅;
  server_voters : RaftConf.prs (KingbusServer.raft s) = dom (RaftCluster.MembersMap (KingbusServer.cluster s)) }.

(** The store holds the configuration of the raft library. *)
Definition conf_saved (s : KingbusServer.t) : Prop :=
  MetaStore.Get (StringToBytes ConfStateKey) (KingbusServer.store s) =
    (Ok (Some (json_Marshal (RaftConf.conf_state (KingbusServer.raft s)))), KingbusServer.store s).

Lemma on_cluster_ok {A} (m : St (RaftCluster.t * MetaStore.t) A) s r c' st' :
  m (KingbusServer.cluster s, KingbusServer.store s) = (r, (c', st')) ->
  KingbusServer.on_cluster m s = (r, KingbusServer.set_store st' (KingbusServer.set_cluster c' s)).
Proof. intros E. unfold KingbusServer.on_cluster, zoom. by rewrite E. Qed.

Lemma saveConfState_ok s : server_ok s -> exists s',
  KingbusServer.saveConfState (RaftConf.conf_state (KingbusServer.raft s)) s = (Ok tt, s') /\
  KingbusServer.cluster s' = KingbusServer.cluster s /\ KingbusServer.raft s' = KingbusServer.raft s /\
  server_ok s' /\ conf_saved s'.
Proof.
  intros [(Hc & Hup & Hget) Hd Hl Hv].
  destruct (meta_set_get_law (KingbusServer.store s) (StringToBytes ConfStateKey)
    (json_Marshal (RaftConf.conf_state (KingbusServer.raft s)))) as (st' & Hset & Hup' & Hget' & Hother);
    [exact Hup|done|apply StringToBytes_ok|].
  exists (KingbusServer.set_store st' s). split.
  { unfold KingbusServer.saveConfState, fatal_on_err, KingbusServer.on_store, zoom.
    cbn [meta_Set meta_store] in Hset. by rewrite Hset. }
  split; [done|]. split; [done|]. split; [|exact Hget'].
  split; [|done..]. split; [done|]. split; [exact Hup'|].
  cbn [fst snd] in *. change (KingbusServer.store (KingbusServer.set_store st' s)) with st'.
  change (KingbusServer.cluster (KingbusServer.set_store st' s)) with (KingbusServer.cluster s).
  specialize (Hother (StringToBytes RaftClusterKey) ltac:(done) (StringToBytes_ok _) ltac:(done)).
  pose proof (meta_get_pure st' (StringToBytes RaftClusterKey) Hup' ltac:(done)) as Hpure.
  destruct (meta_Get (StringToBytes RaftClusterKey) st') as [r m]. cbn [fst snd] in *. subst.
  by rewrite Hget.
Qed.

(** * One change *)

(** What a valid change does to the cluster. *)
Definition apply_change (cc : ConfChange.t) (c : RaftCluster.t) : RaftCluster.t :=
  let id := ConfChange.NodeID cc in
  match ConfChange.Type_ cc, json_Unmarshal (A := Member.t) (ConfChange.Context_ cc) with
  | ConfChangeAddNode, Some m => RaftCluster.set_MembersMap (<[id := m]> (RaftCluster.MembersMap c)) c
  | ConfChangeRemoveNode, _ =>
      RaftCluster.set_RemovedMap (<[id := true]> (RaftCluster.RemovedMap c))
        (RaftCluster.set_MembersMap (delete id (RaftCluster.MembersMap c)) c)
  | ConfChangeUpdateNode, Some m =>
      match RaftCluster.MembersMap c !! id with
      | Some m0 => RaftCluster.set_MembersMap
          (<[id := Member.set_RaftAttributes (Member.PeerURLs m) m0]> (RaftCluster.MembersMap c)) c
      | None => c
      end
  | _, _ => c
  end.

(** The change names a node, and the member in its context is this node. *)
Definition change_fits (cc : ConfChange.t) : Prop :=
  ConfChange.NodeID cc <> None_id /\
  match ConfChange.Type_ cc with
  | ConfChangeAddNode | ConfChangeUpdateNode =>
      exists m : Member.t, json_Unmarshal (ConfChange.Context_ cc) = Some m /\ Member.ID m = ConfChange.NodeID cc
  | ConfChangeRemoveNode => True
  | _ => False
  end.

Definition is_remove (cc : ConfChange.t) : bool :=
  match ConfChange.Type_ cc with ConfChangeRemoveNode => true | _ => false end.

Definition valid (cc : ConfChange.t) (c : RaftCluster.t) : res unit :=
  RaftCluster.validate (RaftCluster.MembersMap c) (RaftCluster.RemovedMap c) cc.

Lemma conf_member_ok cc (m : Member.t) s :
  json_Unmarshal (ConfChange.Context_ cc) = Some m -> Member.ID m = ConfChange.NodeID cc ->
  KingbusServer.conf_member cc s = (Ok m, s).
Proof.
  intros Hm Hid. unfold KingbusServer.conf_member, bind, must. rewrite Hm. unfold ret at 1.
  by rewrite Hid, Z.eqb_refl.
Qed.

Lemma apart_filter (m : Member.t) ms (P : Member.t -> Prop) `{forall x, Decision (P x)} : apart m ms -> apart m (filter P ms).
Proof. intros Ha u m' Hu [_ Hm']%list_elem_of_filter. by apply Ha. Qed.

Lemma change_members_ok cc s :
  in_store (KingbusServer.cluster s, KingbusServer.store s) -> change_fits cc -> valid cc (KingbusServer.cluster s) = Ok tt ->
  exists s', KingbusServer.change_members cc s =
      (Ok (is_remove cc && (ConfChange.NodeID cc =? KingbusServer.id s)), s') /\
    KingbusServer.cluster s' = apply_change cc (KingbusServer.cluster s) /\
    KingbusServer.raft s' = KingbusServer.raft s /\ in_store (KingbusServer.cluster s', KingbusServer.store s').
Proof.
  intros Hs [Hn Hf] Hv. apply validate_ok in Hv as [Hr Hv]; [|apply Hs].
  unfold KingbusServer.change_members, apply_change, is_remove. destruct (ConfChange.Type_ cc); try done.
  - destruct Hf as (m & Hm & Hid). destruct Hv as [Hnone (m1 & Hm1 & Ha)]. rewrite Hm in Hm1. injection Hm1 as <-.
    rewrite (bind_ok _ _ _ _ _ (conf_member_ok cc m s Hm Hid)). rewrite <- Hid in *. rewrite Hm.
    destruct (AddMember_stored m _ Hs Hr (apart_filter _ _ _ Ha)) as (st' & E & Hst). cbv zeta in E.
    rewrite (bind_ok _ _ _ _ _ (on_cluster_ok _ _ _ _ _ E)), bind_gets.
    destruct (_ =? _); eexists; (split; [reflexivity|]); done.
  - destruct (RemoveMember_stored (ConfChange.NodeID cc) _ Hs) as (st' & E & Hst). cbv zeta in E.
    rewrite (bind_ok _ _ _ _ _ (on_cluster_ok _ _ _ _ _ E)), bind_gets. cbn [andb].
    change (KingbusServer.id (KingbusServer.set_store _ _)) with (KingbusServer.id s).
    destruct (_ =? _); eexists; (split; [reflexivity|]); done.
  - destruct Hf as (m & Hm & Hid). destruct Hv as [[m0 Hm0] (m1 & Hm1 & Ha)]. rewrite Hm in Hm1. injection Hm1 as <-.
    rewrite (bind_ok _ _ _ _ _ (conf_member_ok cc m s Hm Hid)). rewrite <- Hid in *. rewrite Hm, Hm0.
    destruct (UpdateRaftAttributes_stored (Member.ID m) (Member.PeerURLs m) m0 _ Hs Hm0) as (st' & E & Hst); [done|].
    cbv zeta in E. rewrite (bind_ok _ _ _ _ _ (on_cluster_ok _ _ _ _ _ E)), bind_gets.
    destruct (_ =? _); eexists; (split; [reflexivity|]); done.
Qed.

(** The raft library follows. *)
Lemma raft_change_ok cc c r :
  cluster_ok c -> change_fits cc -> valid cc c = Ok tt ->
  RaftConf.done r = false -> RaftConf.learnerPrs r = ∅ -> RaftConf.prs r = dom (RaftCluster.MembersMap c) ->
  exists r', RaftConf.ApplyConfChange cc r = (Ok (RaftConf.conf_state r'), r') /\
    RaftConf.done r' = false /\ RaftConf.learnerPrs r' = ∅ /\
    RaftConf.prs r' = dom (RaftCluster.MembersMap (apply_change cc c)).
Proof.
  intros Hc [Hn Hf] Hv Hd Hl Hp. apply validate_ok in Hv as [Hr Hv]; [|done].
  unfold RaftConf.ApplyConfChange, apply_change. rewrite Hd, (proj2 (Z.eqb_neq _ _) Hn).
  destruct (ConfChange.Type_ cc); try done.
  - destruct Hf as (m & Hm & Hid). destruct Hv as [Hnone _]. rewrite Hm. eexists. split; [reflexivity|].
    unfold RaftConf.addNodeOrLearnerNode. rewrite Hp, Hl.
    rewrite bool_decide_eq_false_2 by (by apply not_elem_of_dom). rewrite bool_decide_eq_false_2 by done.
    cbn. by rewrite dom_insert_L.
  - eexists. split; [reflexivity|]. cbn. rewrite Hl, Hp, dom_delete_L. split; [done|]. split; [set_solver|done].
  - destruct Hf as (m & Hm & Hid). destruct Hv as [[m0 Hm0] _]. rewrite Hm, Hm0. eexists. split; [reflexivity|].
    split; [done|]. split; [done|]. cbn. rewrite dom_insert_lookup_L; eauto.
Qed.

Lemma valid_no_panic cc c : change_fits cc -> valid cc c <> Panic.
Proof.
  intros [_ Hf]. unfold valid, RaftCluster.validate. destruct (default false _); [done|].
  destruct (ConfChange.Type_ cc); try done; try destruct Hf as (m & Hm & _);
    destruct (RaftCluster.MembersMap c !! ConfChange.NodeID cc); try done.
  - pose proof (check_urls_spec (RaftCluster.values (RaftCluster.MembersMap c)) (ConfChange.Context_ cc)) as Hs.
    rewrite Hm in Hs. by destruct Hs as [[-> _]|[-> _]].
  - pose proof (check_urls_spec (filter (fun m => Member.ID m <> ConfChange.NodeID cc)
      (RaftCluster.values (RaftCluster.MembersMap c))) (ConfChange.Context_ cc)) as Hs.
    rewrite Hm in Hs. by destruct Hs as [[-> _]|[-> _]].
Qed.

Lemma Validate_ok cc s : in_store (KingbusServer.cluster s, KingbusServer.store s) ->
  KingbusServer.on_cluster (RaftCluster.ValidateConfigurationChange cc) s = (valid cc (KingbusServer.cluster s), s).
Proof.
  intros Hs. rewrite (on_cluster_ok _ _ _ _ _ (ValidateConfigurationChange_stored cc _ Hs)).
  unfold KingbusServer.set_store, KingbusServer.set_cluster, KingbusServer.store. by destruct s as [? ? []].
Qed.

Lemma refused_ok cc e s : server_ok s -> valid cc (KingbusServer.cluster s) = Err e ->
  exists s', KingbusServer.applyConfChange cc s = (Ok (false, Some e), s') /\
    KingbusServer.cluster s' = KingbusServer.cluster s /\ KingbusServer.raft s' = KingbusServer.raft s /\
    server_ok s' /\ conf_saved s'.
Proof.
  intros Hs Hv. unfold KingbusServer.applyConfChange. rewrite Validate_ok, Hv by apply Hs.
  unfold bind at 1, KingbusServer.raft_ApplyConfChange, zoom, RaftConf.ApplyConfChange.
  rewrite (server_running _ Hs). cbn [KingbusServer.set_NodeID ConfChange.NodeID]. rewrite Z.eqb_refl.
  destruct (saveConfState_ok s Hs) as (s' & E & Hc & Hr & Hok & Hsv). exists s'. split; [|done].
  assert (KingbusServer.set_raft (KingbusServer.raft s) s = s) as -> by (by destruct s).
  by rewrite (bind_ok _ _ _ _ _ E).
Qed.

Lemma accepted_ok cc s : server_ok s -> change_fits cc -> valid cc (KingbusServer.cluster s) = Ok tt ->
  exists s', KingbusServer.applyConfChange cc s =
      (Ok (is_remove cc && (ConfChange.NodeID cc =? KingbusServer.id s), None), s') /\
    KingbusServer.cluster s' = apply_change cc (KingbusServer.cluster s) /\ server_ok s' /\ conf_saved s'.
Proof.
  intros Hs Hf Hv. unfold KingbusServer.applyConfChange. rewrite Validate_ok, Hv by apply Hs.
  destruct Hs as [Hst Hd Hl Hp].
  destruct (raft_change_ok cc (KingbusServer.cluster s) (KingbusServer.raft s)) as (r' & E1 & Hd' & Hl' & Hp');
    [apply Hst|done..|].
  unfold bind at 1, KingbusServer.raft_ApplyConfChange, zoom. rewrite E1.
  destruct (change_members_ok cc (KingbusServer.set_raft r' s)) as (s2 & E2 & Hc2 & Hr2 & Hst2); [done..|].
  rewrite (bind_ok _ _ _ _ _ E2).
  change (KingbusServer.raft (KingbusServer.set_raft r' s)) with r' in Hr2. rewrite <- Hr2.
  destruct (saveConfState_ok s2) as (s' & E3 & Hc3 & Hr3 & Hok & Hsv).
  { split; [done|by rewrite Hr2..|by rewrite Hr2, Hp', Hc2]. }
  rewrite (bind_ok _ _ _ _ _ E3). exists s'. split; [done|]. split; [by rewrite Hc3, Hc2|done].
Qed.

(** C18: A configuration change that is refused changes neither the cluster nor
    the raft library; one that is accepted adds, removes or updates its member.
    In both cases the members in memory, in the store and in the raft library are
    the same afterwards, no two of them share a peer URL, none of them has been
    removed before, and the configuration of the raft library is stored. *)
Theorem conf_change_applied cc s :
  server_ok s -> change_fits cc ->
  (exists e s', valid cc (KingbusServer.cluster s) = Err e /\
     KingbusServer.applyConfChange cc s = (Ok (false, Some e), s') /\
     KingbusServer.cluster s' = KingbusServer.cluster s /\ KingbusServer.raft s' = KingbusServer.raft s /\
     server_ok s' /\ conf_saved s') \/
  (exists s', valid cc (KingbusServer.cluster s) = Ok tt /\
     KingbusServer.applyConfChange cc s =
       (Ok (is_remove cc && (ConfChange.NodeID cc =? KingbusServer.id s), None), s') /\
     KingbusServer.cluster s' = apply_change cc (KingbusServer.cluster s) /\ server_ok s' /\ conf_saved s').
Proof.
  intros Hs Hf. destruct (valid cc (KingbusServer.cluster s)) as [[]|e|] eqn:Hv.
  - right. destruct (accepted_ok cc s Hs Hf Hv) as (s' & ?). eauto.
  - left. destruct (refused_ok cc e s Hs Hv) as (s' & ?). eauto.
  - by destruct (valid_no_panic cc (KingbusServer.cluster s) Hf).
Qed.

(** * Any number of changes *)

Fixpoint apply_changes (ccs : list ConfChange.t) : St KingbusServer.t unit :=
  match ccs with
  | [] => ret tt
  | cc :: ccs' => KingbusServer.applyConfChange cc ;! apply_changes ccs'
  end.

Lemma removed_after cc c id :
  RaftCluster.RemovedMap c !! id = Some true -> RaftCluster.RemovedMap (apply_change cc c) !! id = Some true.
Proof.
  intros Hr. unfold apply_change.
  destruct (ConfChange.Type_ cc), (json_Unmarshal (ConfChange.Context_ cc)) as [m|]; try done;
    try by destruct (RaftCluster.MembersMap c !! ConfChange.NodeID cc).
  all: cbn; destruct (decide (ConfChange.NodeID cc = id)) as [->|]; [by rewrite lookup_insert_eq|by rewrite lookup_insert_ne].
Qed.

(** C19: A member that was removed never comes back: whatever changes are
    proposed and committed after that, its id stays in the removed ones, is neither a
    member nor a voter, and every change that names it is refused with
    [ErrIDRemoved]. *)
Theorem removed_stays_out ccs : forall s id,
  server_ok s -> Forall change_fits ccs -> RaftCluster.RemovedMap (KingbusServer.cluster s) !! id = Some true ->
  exists s', apply_changes ccs s = (Ok tt, s') /\ server_ok s' /\
    RaftCluster.IsIDRemoved id (KingbusServer.cluster s') = true /\
    RaftCluster.Member id (KingbusServer.cluster s') = None /\ (id ∉ RaftConf.prs (KingbusServer.raft s')) /\
    (forall cc, ConfChange.NodeID cc = id -> valid cc (KingbusServer.cluster s') = Err ErrIDRemoved).
Proof.
  induction ccs as [|cc ccs IH]; intros s id Hs Hf Hr.
  - exists s. split; [done|]. split; [done|]. unfold RaftCluster.IsIDRemoved, valid, RaftCluster.validate.
    rewrite Hr. split; [done|].
    assert (RaftCluster.MembersMap (KingbusServer.cluster s) !! id = None) as Hn.
    { apply eq_None_not_Some. intros Hm. destruct Hs as [(Hc & _) _ _ _]. pose proof (ok_removed _ Hc id Hm) as E. cbn in E. congruence. }
    split; [unfold RaftCluster.Member; by rewrite Hn|]. split; [rewrite (server_voters _ Hs); by apply not_elem_of_dom|].
    intros cc ->. by rewrite Hr.
  - apply Forall_cons in Hf as [Hf Hfs]. cbn [apply_changes].
    destruct (valid cc (KingbusServer.cluster s)) as [[]|e|] eqn:Hv.
    + destruct (accepted_ok cc s Hs Hf Hv) as (s1 & E & Hc & Hok & _). rewrite (bind_ok _ _ _ _ _ E).
      apply IH; [done..|]. rewrite Hc. by apply removed_after.
    + destruct (refused_ok cc e s Hs Hv) as (s1 & E & Hc & _ & Hok & _). rewrite (bind_ok _ _ _ _ _ E).
      apply IH; [done..|]. by rewrite Hc.
    + by destruct (valid_no_panic cc (KingbusServer.cluster s) Hf).
Qed.

(** * A crash between the two writes of a change *)

Lemma nodes_elem id (x : gset Z) : id ∈ RaftConf.nodes x <-> id ∈ x.
Proof. unfold RaftConf.nodes. rewrite merge_sort_Permutation. apply elem_of_elements. Qed.

Lemma saveConfState_up c s : store_up (KingbusServer.store s) -> exists s',
  KingbusServer.saveConfState c s = (Ok tt, s') /\
  KingbusServer.cluster s' = KingbusServer.cluster s /\ KingbusServer.raft s' = KingbusServer.raft s.
Proof.
  intros [Hc Hf]. eexists. unfold KingbusServer.saveConfState, fatal_on_err, KingbusServer.on_store, zoom.
  rewrite Set_open by done. by split.
Qed.

(** The store after [AddMember]: the new cluster, and the old configuration. *)
Lemma AddMember_up m s : store_up (KingbusServer.store s) ->
  let c' := RaftCluster.set_MembersMap (<[Member.ID m := m]> (RaftCluster.MembersMap (KingbusServer.cluster s)))
    (KingbusServer.cluster s) in
  exists st', RaftCluster.AddMember m (KingbusServer.cluster s, KingbusServer.store s) = (Ok tt, (c', st')) /\
    store_up st' /\ RaftCluster.GetRaftClusterFromStorage st' = (Ok c', st') /\
    MetaStore.Get (StringToBytes ConfStateKey) st' =
      ((MetaStore.Get (StringToBytes ConfStateKey) (KingbusServer.store s)).1, st').
Proof.
  intros Hup c'. destruct (meta_set_get_law (KingbusServer.store s) (StringToBytes RaftClusterKey) (json_Marshal c'))
    as (st' & Hset & Hup' & Hget & Hother); [exact Hup|done|apply StringToBytes_ok|].
  exists st'. split; [|split; [exact Hup'|split]].
  - unfold RaftCluster.AddMember, bind, RaftCluster.update, modify, fatal_on_err, RaftCluster.SaveToStorage.
    cbn [fst snd]. fold c'. by rewrite Hset.
  - unfold RaftCluster.GetRaftClusterFromStorage. by rewrite Hget, json_roundtrip.
  - specialize (Hother (StringToBytes ConfStateKey) ltac:(done) (StringToBytes_ok _) ltac:(done)).
    pose proof (meta_get_pure st' (StringToBytes ConfStateKey) Hup' ltac:(done)) as Hpure.
    change (meta_Get (StringToBytes ConfStateKey)) with (MetaStore.Get (StringToBytes ConfStateKey)) in *.
    destruct (MetaStore.Get (StringToBytes ConfStateKey) st') as [x y]. cbn [fst snd] in *. by subst.
Qed.

(** Adding a member is not atomic: when the process ends after the cluster
    is stored and before the configuration of the raft library is, the server that
    starts from this store refuses the same entry with [ErrIDExists], and from then
    on the node is a member of the cluster that the raft library does not know. *)
Theorem add_member_crash_forgets_node `{!JsonLaws ConfState.t} cc (m : Member.t) s s1 r :
  server_ok s -> conf_saved s -> change_fits cc -> ConfChange.Type_ cc = ConfChangeAddNode ->
  valid cc (KingbusServer.cluster s) = Ok tt -> json_Unmarshal (ConfChange.Context_ cc) = Some m ->
  KingbusServer.on_cluster (RaftCluster.AddMember m) s = (Ok tt, s1) ->
  KingbusServer.store r = KingbusServer.store s1 ->
  RaftCluster.GetRaftClusterFromStorage (KingbusServer.store r) = (Ok (KingbusServer.cluster r), KingbusServer.store r) ->
  conf_saved r -> RaftConf.done (KingbusServer.raft r) = false ->
  exists r', KingbusServer.applyConfChange cc r = (Ok (false, Some ErrIDExists), r') /\
    is_Some (RaftCluster.MembersMap (KingbusServer.cluster r') !! ConfChange.NodeID cc) /\
    (ConfChange.NodeID cc ∉ ConfState.Nodes (RaftConf.conf_state (KingbusServer.raft r'))).
Proof.
  intros Hs Hsv [Hn Hf] Hty Hv Hm Ha Hst Hget Hsvr Hdr. rewrite Hty in Hf. destruct Hf as (m' & Hm' & Hid).
  rewrite Hm in Hm'. injection Hm' as <-. apply validate_ok in Hv as [Hr Hv]; [|apply (server_stored _ Hs)].
  rewrite Hty in Hv. destruct Hv as [Hnone _].
  destruct (AddMember_up m s (proj1 (proj2 (server_stored _ Hs)))) as (st' & E & Hup' & Hget' & Hconf).
  rewrite (on_cluster_ok _ _ _ _ _ E) in Ha. injection Ha as <-.
  change (KingbusServer.store (KingbusServer.set_store st' _)) with st' in Hst. rewrite Hst in *.
  rewrite Hget' in Hget. injection Hget as Hc.
  unfold conf_saved in Hsv, Hsvr. rewrite Hst, Hconf, Hsv in Hsvr. cbn [fst] in Hsvr. injection Hsvr as Hj.
  apply (f_equal (json_Unmarshal (A := ConfState.t))) in Hj. rewrite !json_roundtrip in Hj. injection Hj as Hj1 Hj2.
  unfold KingbusServer.applyConfChange.
  assert (KingbusServer.on_cluster (RaftCluster.ValidateConfigurationChange cc) r = (Err ErrIDExists, r)) as ->.
  { unfold KingbusServer.on_cluster, zoom. rewrite Hst. unfold RaftCluster.ValidateConfigurationChange, bind, zoom.
    cbn [fst snd]. unfold RaftCluster.membersFromStore. rewrite Hget'. cbn [fst snd].
    unfold lift, RaftCluster.validate. cbn. rewrite Hr, Hty. cbn. rewrite <- Hid, lookup_insert_eq. cbn.
    unfold KingbusServer.set_store, KingbusServer.set_cluster, KingbusServer.store in *. rewrite <- Hst.
    by destruct r as [? ? []]. }
  unfold bind at 1, KingbusServer.raft_ApplyConfChange, zoom, RaftConf.ApplyConfChange. rewrite Hdr.
  cbn [KingbusServer.set_NodeID ConfChange.NodeID]. rewrite Z.eqb_refl.
  destruct (saveConfState_up (RaftConf.conf_state (KingbusServer.raft r)) (KingbusServer.set_raft (KingbusServer.raft r) r))
    as (r' & E' & Hc' & Hr'); [change (store_up (KingbusServer.store r)); by rewrite Hst|].
  rewrite (bind_ok _ _ _ _ _ E'). exists r'. split; [done|]. rewrite Hc', Hr'. cbn. split.
  - rewrite <- Hc, <- Hid. cbn. rewrite lookup_insert_eq. eauto.
  - rewrite <- Hj1, nodes_elem, (server_voters _ Hs). by apply not_elem_of_dom.
Qed.
End conf.

(** * A sample server *)

#[local] Instance hard_state_json : Json HardState.t := code_json _.
#[local] Instance conf_state_json : Json ConfState.t := code_json _.
#[local] Instance cluster_json : Json RaftCluster.t := code_json _.
#[local] Instance member_json : Json Member.t := code_json _.
#[local] Instance cluster_laws : JsonLaws RaftCluster.t := code_json_laws _.
#[local] Instance member_laws : JsonLaws Member.t := code_json_laws _.
#[local] Instance conf_state_laws : JsonLaws ConfState.t := code_json_laws _.

(** [sample_cluster] after the member 4 was removed. *)
Definition conf_cluster : RaftCluster.t := RaftCluster.set_RemovedMap {[4 := true]} sample_cluster.
Definition conf_raft : RaftConf.t := RaftConf.mk (dom (RaftCluster.MembersMap conf_cluster)) ∅ false.

Definition server_with (st : MetaStore.t) (c : RaftCluster.t) : KingbusServer.t :=
  KingbusServer.mk 1 c (BinlogProgress.mk "" "" "" 0 "" (TrxParser.at_state TrxParser.EventParserNone) 0 0 ∅ st)
    conf_raft 0 0 [].
Definition conf_store : MetaStore.t := MetaStore.mk
  (<[ConfStateKey := json_Marshal (RaftConf.conf_state conf_raft)]> {[RaftClusterKey := json_Marshal conf_cluster]}) false [].
Definition conf_server : KingbusServer.t := server_with conf_store conf_cluster.

Lemma conf_cluster_ok : cluster_ok conf_cluster.
Proof.
  destruct sample_cluster_ok as [Hids _ _ Hurls]. split; [done| |intros id; cbn|done].
  - by apply map_Forall_singleton.
  - unfold conf_cluster, sample_cluster, RaftCluster.NewClusterFromMembers.
    cbn [RaftCluster.set_RemovedMap RaftCluster.MembersMap RaftCluster.RemovedMap foldl].
    intros [m Hm]. apply lookup_singleton_ne. intros <-. by vm_compute in Hm.
Qed.

Lemma conf_server_ok : server_ok conf_server.
Proof.
  split; [|done..]. split; [exact conf_cluster_ok|]. split; [done|].
  cbn [meta_Get meta_store]. rewrite Get_open by done.
  change (BytesToString (StringToBytes RaftClusterKey)) with RaftClusterKey.
  unfold conf_server, server_with, KingbusServer.store, conf_store. cbn [fst snd MetaStore.bucket BinlogProgress.store
    KingbusServer.binlogProgress KingbusServer.cluster]. by rewrite lookup_insert_ne, lookup_singleton_eq by done.
Qed.

Lemma conf_server_saved : conf_saved conf_server.
Proof.
  unfold conf_saved. rewrite Get_open by done. change (BytesToString (StringToBytes ConfStateKey)) with ConfStateKey.
  unfold conf_server, server_with, KingbusServer.store, conf_store. cbn [MetaStore.bucket BinlogProgress.store
    KingbusServer.binlogProgress KingbusServer.raft]. by rewrite lookup_insert_eq.
Qed.

(** A change that adds, and one that removes. *)
Definition add_change (m : Member.t) : ConfChange.t := ConfChange.mk 1 ConfChangeAddNode (Member.ID m) (json_Marshal m).
Definition remove_change (id : Z) : ConfChange.t := ConfChange.mk 2 ConfChangeRemoveNode id [].

Lemma add_change_fits m : Member.ID m <> None_id -> change_fits (add_change m).
Proof. intros Hm. split; [done|]. exists m. split; [apply json_roundtrip|done]. Qed.

Lemma conf_change_applied_witness :
  exists s', KingbusServer.applyConfChange (remove_change 2) conf_server = (Ok (false, None), s') /\
    KingbusServer.cluster s' = apply_change (remove_change 2) conf_cluster.
Proof.
  destruct (conf_change_applied (remove_change 2) conf_server conf_server_ok ltac:(by split))
    as [(e & s' & Hv & _)|(s' & _ & E & Hc & _)]; [by vm_compute in Hv|].
  exists s'. split; [exact E|exact Hc].
Defined.

Lemma removed_stays_out_witness :
  exists s', apply_changes [add_change (sample_member 4 "http://n4" ""); remove_change 1] conf_server = (Ok tt, s') /\
    RaftCluster.Member 4 (KingbusServer.cluster s') = None.
Proof.
  destruct (removed_stays_out [add_change (sample_member 4 "http://n4" ""); remove_change 1] conf_server 4 conf_server_ok)
    as (s' & E & _ & _ & Hm & _).
  - constructor; [by apply add_change_fits|constructor; [by split|constructor]].
  - reflexivity.
  - exists s'. split; [exact E|exact Hm].
Defined.

Lemma add_member_crash_forgets_node_witness :
  exists r r', KingbusServer.applyConfChange (add_change (sample_member 5 "http://n5" "")) r = (Ok (false, Some ErrIDExists), r') /\
    (5 ∉ ConfState.Nodes (RaftConf.conf_state (KingbusServer.raft r'))).
Proof.
  destruct (AddMember_up (sample_member 5 "http://n5" "") conf_server) as (st' & E & Hup & Hget & Hconf); [done|].
  set (c' := RaftCluster.set_MembersMap _ _) in *. exists (server_with st' c').
  destruct (add_member_crash_forgets_node (add_change (sample_member 5 "http://n5" "")) (sample_member 5 "http://n5" "")
    conf_server (KingbusServer.set_store st' (KingbusServer.set_cluster c' conf_server)) (server_with st' c'))
    as (r' & Er & _ & Hn).
  - exact conf_server_ok.
  - exact conf_server_saved.
  - by apply add_change_fits.
  - reflexivity.
  - vm_compute. reflexivity.
  - apply json_roundtrip.
  - exact (on_cluster_ok _ _ _ _ _ E).
  - reflexivity.
  - exact Hget.
  - unfold conf_saved. change (KingbusServer.store (server_with st' c')) with st'. rewrite Hconf.
    by rewrite conf_server_saved.
  - reflexivity.
  - exists r'. exact (conj Er Hn).
Defined.
