(* ===== verification/Admin.v ===== *)
(** Changes of the members on request: server/util.go and of server/server.go
    [AddMember], [RemoveMember], [UpdateMember], [mayRemoveMember], [configure] and
    [Process], with the answer that a request gets when its change is applied. *)
From S2P Require Import Prelude.
From S2P Require Import Names.
From S2P Require Import Wire.
From S2P Require Import Storage.
From S2P Require Import MetaStore.
From S2P Require Import MetaTheorems.
From S2P Require Import Membership.
From S2P Require Import Config.
From S2P Require Import Apply.
From S2P Require Import ConfTheorems.
From stdpp Require Import sorting list strings.
Local Open Scope string_scope.
Local Open Scope list_scope.
Local Open Scope Z_scope.
Local Open Scope go_scope.

(** * Connections *)

(** [transport.ActiveSince], in nanoseconds; [None] is the zero time of a member
    without a connection. *)
Class Transport : Type := ActiveSince : Z -> option Z.

Definition isConnectedSince `{Transport} (since remote : Z) : bool :=
  match ActiveSince remote with None => false | Some t => t <? since end.

Definition numConnectedSince `{Transport} (since self : Z) (members : list Member.t) : Z :=
  foldl (fun connectedNum m =>
           if (Member.ID m =? self) || isConnectedSince since (Member.ID m) then connectedNum + 1 else connectedNum)
    0 members.

Definition isConnectedToQuorumSince `{Transport} (since self : Z) (members : list Member.t) : bool :=
  Z.quot (blen members) 2 + 1 <=? numConnectedSince since self members.

Definition isConnectedFullySince `{Transport} (since self : Z) (members : list Member.t) : bool :=
  numConnectedSince since self members =? blen members.

(** The loop of [longestConnected]. *)
Fixpoint longest_loop `{Transport} (membs : list Z) (longest : Z) (oldest : option Z) : Z :=
  match membs with
  | [] => longest
  | id :: membs' =>
      match ActiveSince id with
      | None => longest_loop membs' longest oldest
      | Some tm =>
          let '(longest, old) := match oldest with None => (id, tm) | Some o => (longest, o) end in
          if tm <? old then longest_loop membs' id (Some tm) else longest_loop membs' longest (Some old)
      end
  end.

Definition longestConnected `{Transport} (membs : list Z) : Z * bool :=
  let longest := longest_loop membs 0 None in
  if longest =? 0 then (longest, false) else (longest, true).

(** * Requests *)

Definition HealthInterval : Z := 5 * 10 ^ 9.

Module Admin.

(** What ends the [select] of [configure]: a response of the apply loop for some
    change, the context, or the stop of the server. *)
Inductive wake : Type :=
  | Triggered (id : Z) (membs : list Member.t) (err : option error)
  | CtxDone (err : error)
  | Stopping.

(** Waiting for the response to change [id]; [None] while there is none. *)
Fixpoint await (id : Z) (ws : list wake) : option (res (list Member.t)) :=
  match ws with
  | [] => None
  | Triggered i membs err :: ws' =>
      if i =? id then Some match err with None => Ok membs | Some e => Err e end else await id ws'
  | CtxDone e :: _ => Some (Err e)
  | Stopping :: _ => Some (Err ErrServerStopping)
  end.

(** [next] is the answer of the generator of ids, [proposed] the error of
    [ProposeConfChange]. The first result is the change that is proposed. *)
Definition configure (next : Z) (proposed : option error) (cc : ConfChange.t) (ws : list wake)
    : ConfChange.t * option (res (list Member.t)) :=
  (ConfChange.mk next (ConfChange.Type_ cc) (ConfChange.NodeID cc) (ConfChange.Context_ cc),
   match proposed with Some e => Some (Err e) | None => await next ws end).

Section Admin.
Context `{Transport} `{Json Member.t}.
(** [Cfg.RaftNodeCfg.StrictReconfigCheck] *)
Context (StrictReconfigCheck : bool).

(** The change of a request, or the error that refuses it. *)
Definition add_change (now : Z) (memb : Member.t) (s : KingbusServer.t) : res ConfChange.t :=
  let cluster := KingbusServer.cluster s in
  if StrictReconfigCheck && negb (RaftCluster.IsReadyToAddNewMember cluster) then Err ErrNotEnoughStartedMembers
  else if StrictReconfigCheck &&
          negb (isConnectedFullySince (now - HealthInterval) (KingbusServer.id s) (RaftCluster.Members cluster))
  then Err ErrUnhealthy
  else Ok (ConfChange.mk 0 ConfChangeAddNode (Member.ID memb) (json_Marshal memb)).

Definition mayRemoveMember (now id : Z) (s : KingbusServer.t) : res unit :=
  let cluster := KingbusServer.cluster s in
  if negb StrictReconfigCheck then Ok tt
  else if negb (RaftCluster.IsReadyToRemoveMember id cluster) then Err ErrNotEnoughStartedMembers
  else if negb (id =? KingbusServer.id s) && bool_decide (ActiveSince id = None) then Ok tt
  else
    let m := RaftCluster.Members cluster in
    let active := numConnectedSince (now - HealthInterval) (KingbusServer.id s) m in
    if active - 1 <? 1 + Z.quot (blen m - 1) 2 then Err ErrUnhealthy else Ok tt.

(** A request gets its answer from [configure]; one that is refused proposes
    nothing. *)
Definition request (change : res ConfChange.t) (next : Z) (proposed : option error) (ws : list wake)
    : option ConfChange.t * option (res (list Member.t)) :=
  match change with
  | Ok cc => let '(cc, r) := configure next proposed cc ws in (Some cc, r)
  | Err e => (None, Some (Err e))
  | Panic => (None, Some Panic)
  end.

Definition AddMember (now : Z) (memb : Member.t) (s : KingbusServer.t) := request (add_change now memb s).

Definition RemoveMember (now id : Z) (s : KingbusServer.t) :=
  request (match mayRemoveMember now id s with
           | Ok _ => Ok (ConfChange.mk 0 ConfChangeRemoveNode id [])
           | Err e => Err e
           | Panic => Panic
           end).

Definition UpdateMember (memb : Member.t) :=
  request (Ok (ConfChange.mk 0 ConfChangeUpdateNode (Member.ID memb) (json_Marshal memb))).

(** [Process] hands the messages of members that were not removed to raft; the
    sender is [from]. *)
Definition Process (from : Z) (step : res unit) (s : KingbusServer.t) : res unit :=
  if RaftCluster.IsIDRemoved from (KingbusServer.cluster s) then Err ErrRemovedSender else step.

End Admin.
End Admin.

(** * The quorum after a removal *)

Section quorum.
Context `{Transport}.

(** The members that are this node or have been connected for the interval. *)
Definition active (now self : Z) (m : Member.t) : bool :=
  (Member.ID m =? self) || isConnectedSince (now - HealthInterval) (Member.ID m).
Definition count_active (now self : Z) (l : list Member.t) : Z :=
  Z.of_nat (length (filter (fun m => active now self m = true) l)).

Lemma numConnectedSince_count now self l :
  numConnectedSince (now - HealthInterval) self l = count_active now self l.
Proof.
  unfold numConnectedSince, count_active. rewrite <- (Z.add_0_l (Z.of_nat _)). generalize 0 as n.
  induction l as [|m l IH]; intros n; cbn [foldl]; [cbn; lia|]. rewrite IH, filter_cons. fold (active now self m).
  destruct (active now self m); [rewrite decide_True by done; cbn [length]; lia|by rewrite decide_False].
Qed.

Lemma count_active_perm now self l k : l ≡ₚ k -> count_active now self l = count_active now self k.
Proof. intros Hp. unfold count_active. by rewrite Hp. Qed.

(** Leaving out one member takes one from the count at most. *)
Lemma count_active_without now self id (ms : gmap Z Member.t) m :
  ms !! id = Some m ->
  count_active now self (RaftCluster.values ms) - 1 <= count_active now self (RaftCluster.values (delete id ms)).
Proof.
  intros Hm. rewrite (count_active_perm now self (RaftCluster.values ms) (m :: RaftCluster.values (delete id ms))).
  - unfold count_active. rewrite filter_cons. destruct (decide _); cbn [length]; lia.
  - unfold RaftCluster.values. rewrite <- (insert_delete_id ms id m Hm) at 1.
    rewrite map_to_list_insert by apply lookup_delete_eq. done.
Qed.

Lemma Members_values c : RaftCluster.Members c ≡ₚ RaftCluster.values (RaftCluster.MembersMap c).
Proof.
  unfold RaftCluster.Members. rewrite merge_sort_Permutation.
  rewrite <- (list_fmap_id (RaftCluster.values _)) at 2. apply reflexive_eq, list_fmap_ext. by intros _ [] _.
Qed.

(** C28: Removing a member keeps the cluster able to decide: when the strict check
    lets a member be removed, the started members are a majority of those that are left,
    and unless the removed one is another node without a connection, so are the members
    that this node has been connected to for five seconds, itself included. *)
Theorem removal_keeps_active_quorum now id s m :
  let ms := RaftCluster.MembersMap (KingbusServer.cluster s) in
  cluster_ok (KingbusServer.cluster s) -> ms !! id = Some m ->
  Admin.mayRemoveMember true now id s = Ok tt ->
  2 * started (delete id ms) > members (delete id ms) /\
  (id <> KingbusServer.id s /\ ActiveSince id = None \/
   2 * count_active now (KingbusServer.id s) (RaftCluster.values (delete id ms)) > members (delete id ms)).
Proof.
  intros ms Hc Hm. unfold Admin.mayRemoveMember. cbn [negb].
  destruct (RaftCluster.IsReadyToRemoveMember id _) eqn:Er; [|done]. cbn [negb].
  intros Hok. split; [by apply (ready_to_remove id _ Hc)|].
  destruct (negb (id =? KingbusServer.id s) && bool_decide (ActiveSince id = None)) eqn:Ed.
  { apply andb_prop in Ed as [E1 E2]. apply negb_true_iff, Z.eqb_neq in E1. apply bool_decide_eq_true in E2. by left. }
  right. rewrite numConnectedSince_count in Hok. rewrite (count_active_perm _ _ _ _ (Members_values _)) in Hok. fold ms in Hok.
  destruct (_ <? _) eqn:El in Hok; [done|]. apply Z.ltb_ge in El.
  pose proof (count_active_without now (KingbusServer.id s) id ms m Hm) as Hw.
  unfold blen in El. rewrite (Permutation_length (Members_values _)), values_length in El. fold ms in El.
  unfold members.
  rewrite (map_size_delete_Some id ms) by (by eexists).
  assert (size ms <> 0%nat) as Hz by (intros Hz%map_size_empty_inv; by rewrite Hz in Hm).
  rewrite Z.quot_div_nonneg in El by lia. Z.div_mod_to_equations. lia.
Qed.
End quorum.

(** * The answer to a request *)

(** The responses that the apply loop has given. *)
Definition wakes_of (calls : list KingbusServer.call) : list Admin.wake :=
  omap (fun c => match c with KingbusServer.Trigger id membs err => Some (Admin.Triggered id membs err) | _ => None end) calls.

Lemma await_app id ws ws' : Forall (fun w => match w with Admin.Triggered i _ _ => i <> id | _ => False end) ws ->
  Admin.await id (ws ++ ws') = Admin.await id ws'.
Proof.
  induction 1 as [|w ws Hw _ IH]; [done|]. destruct w; try done. cbn [app Admin.await].
  by rewrite (proj2 (Z.eqb_neq _ _) Hw).
Qed.

Section answer.
Context `{Json HardState.t} `{Json ConfState.t} `{JsonLaws RaftCluster.t} `{JsonLaws Member.t} `{Transport}.
Context `{Json Attributes.t} `{Json SyncerArgs.t} `{Json MasterInfo.t} `{Json MasterGtidPurged.t}.
(** [raftpb.ConfChange.Marshal], which raft calls for a proposal, and [Unmarshal]. *)
Context (ConfChange_Marshal : ConfChange.t -> bytes) (ConfChange_Unmarshal : bytes -> option ConfChange.t).

(** Only the apply loop itself answers requests. *)
Lemma on_cluster_calls {A} (m : St (RaftCluster.t * MetaStore.t) A) s :
  KingbusServer.calls (KingbusServer.on_cluster m s).2 = KingbusServer.calls s.
Proof. unfold KingbusServer.on_cluster, zoom. by destruct (m _) as [r [c st]]. Qed.

Lemma saveConfState_calls cs s : KingbusServer.calls (KingbusServer.saveConfState cs s).2 = KingbusServer.calls s.
Proof.
  unfold KingbusServer.saveConfState, fatal_on_err, KingbusServer.on_store, zoom.
  by destruct (MetaStore.Set_ _ _ _) as [[]].
Qed.

Lemma raft_change_calls cc s : KingbusServer.calls (KingbusServer.raft_ApplyConfChange cc s).2 = KingbusServer.calls s.
Proof. unfold KingbusServer.raft_ApplyConfChange, zoom. by destruct (RaftConf.ApplyConfChange cc _). Qed.

Lemma emit_wakes c s : match c with KingbusServer.Trigger _ _ _ => False | _ => True end ->
  wakes_of (KingbusServer.calls (KingbusServer.emit c s).2) = wakes_of (KingbusServer.calls s).
Proof. intros Hc. cbn. unfold wakes_of. rewrite omap_app. destruct c; try done; cbn; by rewrite app_nil_r. Qed.

Definition same_wakes {A} (m : St KingbusServer.t A) : Prop :=
  forall s, wakes_of (KingbusServer.calls (m s).2) = wakes_of (KingbusServer.calls s).

Lemma same_wakes_bind {A B} (m : St KingbusServer.t A) (f : A -> St KingbusServer.t B) :
  same_wakes m -> (forall a, same_wakes (f a)) -> same_wakes (bind m f).
Proof.
  intros Hm Hf s. unfold bind. specialize (Hm s). destruct (m s) as [[a|e|] s1]; cbn in *; [|done..].
  by rewrite (Hf a s1).
Qed.

Lemma same_wakes_calls {A} (m : St KingbusServer.t A) :
  (forall s, KingbusServer.calls (m s).2 = KingbusServer.calls s) -> same_wakes m.
Proof. intros Hm s. by rewrite Hm. Qed.

Lemma change_members_wakes cc : same_wakes (KingbusServer.change_members cc).
Proof.
  unfold KingbusServer.change_members, KingbusServer.conf_member.
  destruct (ConfChange.Type_ cc); repeat (apply same_wakes_bind; [|intros ?]);
    try (apply same_wakes_calls; intros s; by destruct (json_Unmarshal _));
    try (apply same_wakes_calls; intros s; apply on_cluster_calls); try done;
    try (destruct (_ =? _); try done; try by (intros s; apply emit_wakes));
    repeat (apply same_wakes_bind; [|intros ?]); try done; intros s; by apply emit_wakes.
Qed.

Lemma applyConfChange_wakes cc : same_wakes (KingbusServer.applyConfChange cc).
Proof.
  intros s. unfold KingbusServer.applyConfChange.
  pose proof (on_cluster_calls (RaftCluster.ValidateConfigurationChange cc) s) as Hc.
  destruct (KingbusServer.on_cluster _ s) as [[u|e|] s1]; cbn in Hc; rewrite <- Hc; [| |done];
    apply same_wakes_bind; try (apply same_wakes_calls, raft_change_calls); intros cs.
  - apply same_wakes_bind; [apply change_members_wakes|]. intros b.
    apply same_wakes_bind; [apply same_wakes_calls, saveConfState_calls|done].
  - apply same_wakes_bind; [apply same_wakes_calls, saveConfState_calls|done].
Qed.

(** The members after a change, or the error that refuses it. *)
Definition outcome (cc : ConfChange.t) (s : KingbusServer.t) : res (list Member.t) :=
  match valid cc (KingbusServer.cluster s) with
  | Ok _ => Ok (RaftCluster.Members (apply_change cc (KingbusServer.cluster s)))
  | Err e => Err e
  | Panic => Panic
  end.

Lemma change_answered now e cc s :
  server_ok s -> change_fits cc -> Entry.Type_ e = Entry.EntryConfChange -> ConfChange_Unmarshal (Entry.data e) = Some cc ->
  exists stop s', KingbusServer.apply_entry ConfChange_Unmarshal now e s = (Ok stop, s') /\ server_ok s' /\
    KingbusServer.cluster s' = (match valid cc (KingbusServer.cluster s) with
      Ok _ => apply_change cc (KingbusServer.cluster s) | _ => KingbusServer.cluster s end) /\
    exists membs err, wakes_of (KingbusServer.calls s') =
        wakes_of (KingbusServer.calls s) ++ [Admin.Triggered (ConfChange.ID cc) membs err] /\
      outcome cc s = match err with None => Ok membs | Some er => Err er end.
Proof.
  intros Hs Hf Ht Hd. unfold KingbusServer.apply_entry. rewrite Ht.
  change (Entry.EntryConfChange =? Entry.EntryNormal) with false.
  change (Entry.EntryConfChange =? Entry.EntryConfChange) with true. cbv iota. rewrite Hd, bind_must.
  pose proof (applyConfChange_wakes cc s) as Hw. unfold outcome.
  destruct (valid cc (KingbusServer.cluster s)) as [[]|er|] eqn:Hv; [| |by apply valid_no_panic in Hv].
  - destruct (accepted_ok cc s Hs Hf Hv) as (s1 & E & Hc & Hok & _). rewrite E in Hw. unfold bind at 1. rewrite E.
    do 2 eexists. split; [reflexivity|]. split; [destruct Hok; by split|]. split; [exact Hc|].
    cbn [KingbusServer.calls]. unfold wakes_of at 1. rewrite omap_app. cbn in Hw |- *. do 2 eexists.
    split; [f_equal; exact Hw|]. cbn. by rewrite Hc.
  - destruct (refused_ok cc er s Hs Hv) as (s1 & E & Hc & _ & Hok & _). rewrite E in Hw. unfold bind at 1. rewrite E.
    do 2 eexists. split; [reflexivity|]. split; [destruct Hok; by split|]. split; [exact Hc|].
    cbn [KingbusServer.calls]. unfold wakes_of at 1. rewrite omap_app. cbn in Hw |- *. do 2 eexists.
    split; [f_equal; exact Hw|done].
Qed.

Lemma add_change_cases strict now memb s :
  (exists er, Admin.add_change strict now memb s = Err er /\ strict = true) \/
  Admin.add_change strict now memb s = Ok (ConfChange.mk 0 ConfChangeAddNode (Member.ID memb) (json_Marshal memb)).
Proof. unfold Admin.add_change. destruct strict; cbn [andb]; [|by right]. repeat destruct (negb _); eauto. Qed.

Definition answers_other (id : Z) (s : KingbusServer.t) : Prop :=
  Forall (fun w => match w with Admin.Triggered i _ _ => i <> id | _ => False end) (wakes_of (KingbusServer.calls s)).

(** C29: A request to add a member that passes the checks proposes the member,
    and when the entry is applied, in whatever state the server is by then, the request
    returns what became of it: the members with the new one, or the reason for which the
    change was refused, in which case the members are as before. *)
Theorem add_member_answered strict now now' next memb s s1 e :
  server_ok s1 -> Member.ID memb <> None_id -> answers_other next s1 ->
  (forall cc, ConfChange_Unmarshal (ConfChange_Marshal cc) = Some cc) ->
  match (Admin.AddMember strict now memb s next None []).1 with
  | None => exists er, (Admin.AddMember strict now memb s next None []).2 = Some (Err er) /\ strict = true
  | Some cc => Entry.Type_ e = Entry.EntryConfChange -> Entry.data e = ConfChange_Marshal cc ->
      exists stop s', KingbusServer.apply_entry ConfChange_Unmarshal now' e s1 = (Ok stop, s') /\ server_ok s' /\
      let c := KingbusServer.cluster s1 in
      (exists er, valid cc c = Err er /\ KingbusServer.cluster s' = c /\
         (Admin.AddMember strict now memb s next None (wakes_of (KingbusServer.calls s'))).2 = Some (Err er)) \/
      (RaftCluster.MembersMap (KingbusServer.cluster s') = <[Member.ID memb := memb]> (RaftCluster.MembersMap c) /\
         (Admin.AddMember strict now memb s next None (wakes_of (KingbusServer.calls s'))).2 =
           Some (Ok (RaftCluster.Members (KingbusServer.cluster s'))))
  end.
Proof.
  intros Hs Hid Ho Hm. unfold Admin.AddMember.
  destruct (add_change_cases strict now memb s) as [(er & -> & ->)| ->]; [by exists er|].
  cbn [Admin.request fst Admin.configure ConfChange.Type_ ConfChange.NodeID ConfChange.Context_].
  set (cc := ConfChange.mk next ConfChangeAddNode (Member.ID memb) (json_Marshal memb)). intros Ht Hd.
  assert (change_fits cc) as Hf by (split; [done|]; exists memb; split; [apply json_roundtrip|done]).
  destruct (change_answered now' e cc s1 Hs Hf Ht) as (stop & s' & E & Hok & Hc & membs & err & Hw & Hout).
  { by rewrite Hd. }
  exists stop, s'. split; [done|]. split; [done|]. cbn [snd]. rewrite Hw, await_app by done. cbn [Admin.await].
  change (ConfChange.ID cc) with next. rewrite Z.eqb_refl. unfold outcome in Hout.
  destruct (valid cc (KingbusServer.cluster s1)) as [[]|er|] eqn:Hv; [right|left|by apply valid_no_panic in Hv].
  - rewrite Hc. destruct err; [done|]. injection Hout as <-. split; [|done].
    unfold apply_change. cbn. by rewrite json_roundtrip.
  - exists er. destruct err; [|done]. by injection Hout as ->.
Qed.
End answer.

(** * A request on the sample server *)

#[local] Existing Instance hard_state_json.
#[local] Existing Instance conf_state_json.
#[local] Existing Instance cluster_json.
#[local] Existing Instance member_json.
#[local] Existing Instance cluster_laws.
#[local] Existing Instance member_laws.
#[local] Instance attributes_json : Json Attributes.t := code_json _.
#[local] Instance syncer_args_json : Json SyncerArgs.t := code_json _.
#[local] Instance master_info_json : Json MasterInfo.t := code_json _.
#[local] Instance gtid_purged_json : Json MasterGtidPurged.t := code_json _.

(** Every member has been connected since the start of the clock. *)
#[local] Instance all_connected : Transport := fun _ => Some 0.

(** A codec of changes: the fields as a tuple. *)
Definition type_code (ty : ConfChangeType) : Z + Z :=
  match ty with
  | ConfChangeAddNode => inl 0
  | ConfChangeRemoveNode => inl 1
  | ConfChangeUpdateNode => inl 2
  | ConfChangeAddLearnerNode => inl 3
  | ConfChangeType_other n => inr n
  end.
Definition code_type (c : Z + Z) : ConfChangeType :=
  match c with
  | inl 0 => ConfChangeAddNode
  | inl 1 => ConfChangeRemoveNode
  | inl 2 => ConfChangeUpdateNode
  | inl _ => ConfChangeAddLearnerNode
  | inr n => ConfChangeType_other n
  end.
#[local] Instance tuple_json : Json (Z * (Z + Z) * Z * list Z) := code_json _.
#[local] Instance tuple_laws : JsonLaws (Z * (Z + Z) * Z * list Z) := code_json_laws _.
Definition sample_marshal (cc : ConfChange.t) : bytes :=
  json_Marshal (ConfChange.ID cc, type_code (ConfChange.Type_ cc), ConfChange.NodeID cc, ConfChange.Context_ cc).
Definition sample_unmarshal (b : bytes) : option ConfChange.t :=
  (fun '(id, ty, node, ctx) => ConfChange.mk id (code_type ty) node ctx) <$> json_Unmarshal b.

Lemma sample_marshal_law cc : sample_unmarshal (sample_marshal cc) = Some cc.
Proof.
  unfold sample_unmarshal, sample_marshal. rewrite json_roundtrip. by destruct cc as [i [] n c].
Qed.

Lemma removal_keeps_active_quorum_witness :
  2 * started (delete 3 (RaftCluster.MembersMap conf_cluster)) > 2.
Proof.
  destruct (removal_keeps_active_quorum 6000000000 3 conf_server (sample_member 3 "http://n3" ""))
    as [Hq _]; [exact conf_cluster_ok|reflexivity|vm_compute; reflexivity|exact Hq].
Defined.

(** The entry of the change that adds the member 5. *)
Definition sample_entry : Entry.t :=
  Entry.mk 1 9 Entry.EntryConfChange (Some (sample_marshal
    (ConfChange.mk 77 ConfChangeAddNode 5 (json_Marshal (sample_member 5 "http://n5" ""))))) None.

Lemma add_member_answered_witness :
  exists stop s', KingbusServer.apply_entry sample_unmarshal 0
      sample_entry conf_server = (Ok stop, s') /\
    Admin.AddMember false 0 (sample_member 5 "http://n5" "") conf_server 77 None (wakes_of (KingbusServer.calls s')) =
      (Some (ConfChange.mk 77 ConfChangeAddNode 5 (json_Marshal (sample_member 5 "http://n5" ""))),
       Some (Ok (RaftCluster.Members (KingbusServer.cluster s')))).
Proof.
  pose proof (add_member_answered sample_marshal sample_unmarshal false 0 0 77 (sample_member 5 "http://n5" "") conf_server
    conf_server sample_entry
    conf_server_ok ltac:(done) ltac:(constructor) sample_marshal_law) as H.
  cbn [Admin.AddMember Admin.request Admin.add_change andb Admin.configure fst] in H.
  destruct (H eq_refl eq_refl) as (stop & s' & E & _ & [(er & Hv & _)|[_ Ha]]); [by vm_compute in Hv|].
  exists stop, s'. split; [exact E|]. apply injective_projections; [reflexivity|exact Ha].
Defined.
