(* ===== verification/Boot.v ===== *)
(** The start of a server: [starRaft], [startEtcdRaftNode], [restartEtcdNode] and
    [NewKingbusServer] of server/server.go, with [StartNode] and [RestartNode] of the
    vendored raft library as far as they decide whether and with which configuration
    a node comes up. *)
From S2P Require Import Prelude.
From S2P Require Import Names.
From S2P Require Import Wire.
From S2P Require Import Text.
From S2P Require Import Disk.
From S2P Require Import IndexFile.
From S2P Require Import Segments.
From S2P Require Import Storage.
From S2P Require Import LogStore.
From S2P Require Import Recovery.
From S2P Require Import RaftNode.
From S2P Require Import Samples.
From S2P Require Import StorageTheorems.
From S2P Require Import Events.
From S2P Require Import TrxParser.
From S2P Require Import Gtid.
From S2P Require Import GtidCodec.
From S2P Require Import MetaStore.
From S2P Require Import MetaTheorems.
From S2P Require Import Progress.
From S2P Require Import Membership.
From S2P Require Import Config.
From S2P Require Import NodeConfig.
From S2P Require Import Apply.
From S2P Require Import ConfTheorems.
From stdpp Require Import sorting list strings.
Local Open Scope string_scope.
Local Open Scope list_scope.
Local Open Scope Z_scope.
Local Open Scope go_scope.

(** * The raft library at its start *)

Module EtcdRaft.

Module Config.
Record t : Type := mk { ID : Z; ElectionTick : Z; HeartbeatTick : Z; Applied : Z; MaxInflightMsgs : Z }.

(** The storage and the logger are given, and reads do not use leases. *)
Definition validate (c : t) : bool :=
  negb (ID c =? None_id) && (0 <? HeartbeatTick c) && (HeartbeatTick c <? ElectionTick c) && (0 <? MaxInflightMsgs c).
End Config.

Module Peer.
Record t : Type := mk { ID : Z; Context_ : bytes }.
End Peer.

(** The voters and learners, the term, the pointers into the log, the index of
    its last entry in the storage, and the entries that are not in the storage yet. *)
Record t : Type := mk {
  conf : RaftConf.t; Term : Z; Vote : Z; committed : Z; applied : Z; stable : Z; unstable : list Entry.t }.

Definition lastIndex (r : t) : Z := stable r + blen (unstable r).

Section start.
Context `{Settings} `{Json HardState.t} `{Json ConfState.t} (ConfChange_Marshal : ConfChange.t -> bytes).
Abbreviation storage := (DiskStorage.t MetaStore.t * FS)%type.

Definition loadState (hs : HardState.t) (r : t) : res t :=
  if (HardState.Commit hs <? committed r) || (lastIndex r <? HardState.Commit hs) then Panic
  else Ok (mk (conf r) (HardState.Term hs) (HardState.Vote hs) (HardState.Commit hs) (applied r) (stable r) (unstable r)).

Definition appliedTo (i : Z) (r : t) : res t :=
  if i =? 0 then Ok r
  else if (committed r <? i) || (i <? applied r) then Panic
  else Ok (mk (conf r) (Term r) (Vote r) (committed r) i (stable r) (unstable r)).

Definition newRaft (c : Config.t) : St storage t :=
  if negb (Config.validate c) then panic else
  let! firstIndex := obj DiskStorage.FirstIndex in
  let! lastIndex := obj DiskStorage.LastIndex in
  let! x := fatal_on_err (DiskStorage.on_meta MetaStore.InitialState) in
  let peers : gset Z := list_to_set (ConfState.Nodes x.2) in
  let learners : gset Z := list_to_set (ConfState.Learners x.2) in
  if negb (bool_decide (peers ∩ learners = ∅)) then panic else
  let r := mk (RaftConf.mk peers learners false) 0 0 (u64 (firstIndex - 1)) (u64 (firstIndex - 1)) lastIndex [] in
  let! r := lift (if bool_decide (x.1 = HardState.empty) then Ok r else loadState x.1 r) in
  lift (if 0 <? Config.Applied c then appliedTo (Config.Applied c) r else Ok r).

(** The entry that adds a peer of the initial configuration. *)
Definition peer_entry (index : Z) (p : Peer.t) : Entry.t :=
  Entry.mk 1 index Entry.EntryConfChange
    (Some (ConfChange_Marshal (ConfChange.mk 0 ConfChangeAddNode (Peer.ID p) (Peer.Context_ p)))) None.

Fixpoint peer_entries (index : Z) (peers : list Peer.t) : list Entry.t :=
  match peers with
  | [] => []
  | p :: peers => peer_entry (index + 1) p :: peer_entries (index + 1) peers
  end.

(** [becomeFollower(1, None)] sets the term. *)
Definition StartNode (c : Config.t) (peers : list Peer.t) : St storage t :=
  let! r := newRaft c in
  let entries := unstable r ++ peer_entries (lastIndex r) peers in
  ret (mk (foldl (fun k p => RaftConf.addNodeOrLearnerNode (Peer.ID p) false k) (conf r) peers) 1
         (if Term r =? 1 then Vote r else 0)
         (stable r + blen entries) (applied r) (stable r) entries).

Definition RestartNode (c : Config.t) : St storage t := newRaft c.

End start.
End EtcdRaft.

(** * The server at its start *)

Definition maxInflightMsgs : Z := 512.

Module Boot.

(** What [starRaft] sets: the id of the node, its cluster, the raft library and
    the applied index, with the peers that the transport gets. *)
Record t : Type := mk {
  id : Z;
  cluster : RaftCluster.t;
  raft : EtcdRaft.t;
  appliedIndex : Z;
  remotes : list (Z * list string);
  peers : list (Z * list string) }.

Section boot.
Context `{Settings} `{Json HardState.t} `{Json ConfState.t} `{Json RaftCluster.t} `{Json Member.t}.
Context (ConfChange_Marshal : ConfChange.t -> bytes).
(** [netutil.URLStringsEqual], and the answer of a peer to a request for its
    members. *)
Context (URLStringsEqual : list string -> list string -> bool) (http_members : string -> option (list Member.t * Z)).
Abbreviation storage := (DiskStorage.t MetaStore.t * FS)%type.

(** A heartbeat of zero panics. *)
Definition election_tick (cfg : RaftNodeConfig.t) : res Z :=
  if RaftNodeConfig.HeartbeatMs cfg =? 0 then Panic
  else Ok (Z.quot (RaftNodeConfig.ElectionTimeoutMs cfg) (RaftNodeConfig.HeartbeatMs cfg)).

(** Every id of [ids] is one of a member of [cl]. *)
Definition startEtcdRaftNode (cfg : RaftNodeConfig.t) (cl : RaftCluster.t) (ids : list Z) : St storage (Z * EtcdRaft.t) :=
  let! member := lift (RaftCluster.MemberByName (RaftNodeConfig.Name cfg) cl) in
  let! peers := must (mapM (fun id => (fun m => EtcdRaft.Peer.mk id (json_Marshal m)) <$> RaftCluster.Member id cl) ids) in
  let! member := must member in
  let! tick := lift (election_tick cfg) in
  let! n := EtcdRaft.StartNode ConfChange_Marshal
              (EtcdRaft.Config.mk (Member.ID member) tick 1 0 maxInflightMsgs) peers in
  ret (Member.ID member, n).

Definition restartEtcdNode (cfg : RaftNodeConfig.t) : St storage (Z * EtcdRaft.t * RaftCluster.t) :=
  let! cl := fatal_on_err (DiskStorage.on_meta RaftCluster.GetRaftClusterFromStorage) in
  let! member := lift (RaftCluster.MemberByName (RaftNodeConfig.Name cfg) cl) in
  let! member := must member in
  let! tick := lift (election_tick cfg) in
  let! n := EtcdRaft.RestartNode
              (EtcdRaft.Config.mk (Member.ID member) tick 1 (RaftNodeConfig.AppliedIndex cfg) maxInflightMsgs) in
  ret (Member.ID member, n, cl).

(** utils/file_utils.go: a file is created and removed. *)
Definition IsDirWriteable : St FS unit :=
  syscall (modify (insert ".touch" [])) ;! Remove ".touch".

(** The [err] of [starRaft] is set: the deferred function closes the store. *)
Definition deferred {A} (m : St storage A) : St storage A := fun s =>
  match m s with
  | (Err e, s) => (DiskStorage.Close ;! throw e) s
  | r => r
  end.

Definition exist_log : St storage bool := fun s => let '(b, fs) := ExistLog s.2 in (Ok b, (s.1, fs)).

(** The three ways to start, [remotes] included. *)
Definition join_existing (cfg : RaftNodeConfig.t) : St storage (Z * EtcdRaft.t * RaftCluster.t * list Member.t) :=
  deferred (lift (RaftNodeConfig.VerifyJoinExisting cfg)) ;!
  let! cl := deferred (lift (RaftCluster.NewClusterFromURLsMap (RaftNodeConfig.InitialPeerURLsMap cfg))) in
  let remotePeerURLs := RaftCluster.GetRemotePeerURLs cl (RaftNodeConfig.Name cfg) in
  match RaftCluster.GetClusterFromRemotePeers http_members remotePeerURLs with
  | Ok existingCluster =>
      let! cl := deferred (lift (match RaftCluster.ValidateClusterAndAssignIDs URLStringsEqual cl existingCluster with
                                 | Err _ => Err ErrPeerURLs | r => r end)) in
      let cl := RaftCluster.SetID (RaftCluster.GetID existingCluster) cl in
      let! x := startEtcdRaftNode cfg cl [] in
      ret (x.1, x.2, cl, RaftCluster.Members existingCluster)
  | Err _ => throw ErrFetchCluster
  | Panic => panic
  end.

Definition new_cluster (cfg : RaftNodeConfig.t) : St storage (Z * EtcdRaft.t * RaftCluster.t * list Member.t) :=
  deferred (lift (RaftNodeConfig.VerifyBootstrap URLStringsEqual cfg)) ;!
  let! cl := deferred (lift (RaftCluster.NewClusterFromURLsMap (RaftNodeConfig.InitialPeerURLsMap cfg))) in
  let! m := lift (RaftCluster.MemberByName (RaftNodeConfig.Name cfg) cl) in
  let! b := lift (RaftCluster.IsMemberBootstrapped http_members cl (RaftNodeConfig.Name cfg)) in
  if b then match m with Some _ => throw ErrBootstrapped | None => panic end else
  let! x := startEtcdRaftNode cfg cl (RaftCluster.MemberIDs cl) in
  ret (x.1, x.2, cl, []).

Definition restart (cfg : RaftNodeConfig.t) : St storage (Z * EtcdRaft.t * RaftCluster.t * list Member.t * Z) :=
  deferred (fun s => match on_fs IsDirWriteable s with (Err _, s) => (Err ErrNotWriteable, s) | r => r end) ;!
  let! appliedIndex := RaftNode.MustGetAppliedIndex in
  let! x := restartEtcdNode (RaftNodeConfig.set_AppliedIndex appliedIndex cfg) in
  ret (x.1.1, x.1.2, x.2, [], appliedIndex).

(** The peers of the transport: a member and its URLs, the node itself left out. *)
Definition others (id : Z) (ms : list Member.t) : list (Z * list string) :=
  map (fun m => (Member.ID m, Member.PeerURLs m)) (filter (fun m => Member.ID m <> id) ms).

(** [starRaft] once the storage is open; [tr] is the outcome of starting the
    transport. *)
Definition start_raft (tr : res unit) (cfg : RaftNodeConfig.t) : St storage t :=
  let! logExist := exist_log in
  let! x := (if logExist then restart cfg
             else if RaftNodeConfig.NewCluster cfg then let! x := new_cluster cfg in ret (x, 0)
             else let! x := join_existing cfg in ret (x, 0)) in
  let '(id, n, cl, rms, applied) := x in
  deferred (lift tr) ;!
  ret (mk id cl n applied (others id rms) (others id (RaftCluster.Members cl))).

(** [prt] is the outcome of [NewRoundTripper], [m] the opened metadata store;
    the storage is part of the result. *)
Definition starRaft (prt tr : res unit) (cfg : RaftNodeConfig.t) (m : MetaStore.t) : St FS (t * DiskStorage.t MetaStore.t) :=
  lift prt ;!
  let! store := fatal_on_err (DiskStorage.NewDiskStorage (RaftNodeConfig.ReserveDataSize cfg) m) in
  fun fs => match start_raft tr cfg (store, fs) with
  | (Ok b, (store, fs)) => (Ok (b, store), fs)
  | (Err e, (_, fs)) => (Err e, fs)
  | (Panic, (_, fs)) => (Panic, fs)
  end.

(** [listener] is the outcome of opening the listeners of the peers. The peers
    that the transport was given are the first calls of the server. *)
Definition NewKingbusServer (prt tr listener : res unit) (cfg : KingbusServerConfig.t) (m : MetaStore.t)
    : St FS (KingbusServer.t * DiskStorage.t MetaStore.t) :=
  let! x := starRaft prt tr (KingbusServerConfig.RaftNodeCfg cfg) m in
  let '(b, store) := x in
  lift listener ;!
  (if negb (blen (KingbusServerConfig.AdminURLs cfg) =? 1) then throw ErrArgs else ret tt) ;!
  let '(r, meta) := BinlogProgress.newBinlogProgress (DiskStorage.meta store) in
  let! p := lift r in
  (if String.eqb (KingbusServerConfig.MetricsAddr cfg) "" then throw ErrArgs else ret tt) ;!
  ret (KingbusServer.mk (id b) (cluster b) p (EtcdRaft.conf (raft b)) (appliedIndex b) 0
         (map (fun '(i, urls) => KingbusServer.AddPeer i urls) (peers b)),
       DiskStorage.mk (DiskStorage.Segments store) (DiskStorage.ReserveSegmentCount store)
         (DiskStorage.purgeStarted store) (DiskStorage.purging store) meta).

End boot.
End Boot.

(** * Restarting *)

Section restart.
Context `{Settings} `{JsonLaws HardState.t} `{JsonLaws ConfState.t} `{JsonLaws RaftCluster.t} `{Json Member.t}.
Hypothesis size_ok : 0 < SegmentSize <= 2 ^ 32.
Abbreviation storage := (DiskStorage.t MetaStore.t * FS)%type.

(** The index that a start takes for the applied one. *)
Definition applied_in (m : MetaStore.t) (i : Z) : Prop :=
  is_u64 i /\ MetaStore.bucket m !! MetaStore.AppliedIndexKey = Some (be_bytes 8 i) \/
  i = 0 /\ MetaStore.bucket m !! MetaStore.AppliedIndexKey = None.

Lemma MustGetAppliedIndex_ok (ds : DiskStorage.t MetaStore.t) fs i :
  store_up (DiskStorage.meta ds) -> applied_in (DiskStorage.meta ds) i ->
  RaftNode.MustGetAppliedIndex (ds, fs) = (Ok i, (ds, fs)).
Proof.
  intros [Hc Hf] Hi. unfold RaftNode.MustGetAppliedIndex.
  assert (fatal_on_err (rs_Get (S := storage) RaftNode.AppliedIndexKey) (ds, fs) =
    (Ok (MetaStore.bucket (DiskStorage.meta ds) !! MetaStore.AppliedIndexKey), (ds, fs))) as E.
  { unfold fatal_on_err. cbn [rs_Get disk_raft_storage meta_Get meta_store]. unfold DiskStorage.on_meta, zoom. cbn [fst].
    rewrite Get_open by done. by destruct ds. }
  rewrite (bind_ok _ _ _ _ _ E). destruct Hi as [[Hu ->]|[-> ->]]; [|done]. cbn [default from_option].
  assert (blen (be_bytes 8 i) = 8) as Hl by reflexivity.
  cbn [id]. rewrite Hl. change (8 =? 0) with false. cbv iota. unfold slice. rewrite Hl.
  change ((0 <=? 0) && (0 <=? 8) && (8 <=? 8)) with true. cbv iota. change (drop (Z.to_nat 0) (be_bytes 8 i)) with (be_bytes 8 i).
  change (Z.to_nat (8 - 0)) with 8%nat. rewrite firstn_all2 by reflexivity.
  unfold bind, must, ret. by rewrite be_val_bytes_small.
Qed.

Lemma on_meta_ok {A} (k : St MetaStore.t A) (ds : DiskStorage.t MetaStore.t) (fs : FS) r :
  k (DiskStorage.meta ds) = (r, DiskStorage.meta ds) -> DiskStorage.on_meta k (ds, fs) = (r, (ds, fs)).
Proof. intros E. unfold DiskStorage.on_meta, zoom. cbn [fst]. rewrite E. by destruct ds. Qed.

(** The raft state in a store. *)
Definition raft_in (m : MetaStore.t) (hs : HardState.t) (cs : ConfState.t) : Prop :=
  MetaStore.bucket m !! HardStateKey = Some (json_Marshal hs) /\
  MetaStore.bucket m !! ConfStateKey = Some (json_Marshal cs).

Lemma InitialState_ok m hs cs : store_up m -> raft_in m hs cs -> MetaStore.InitialState m = (Ok (hs, cs), m).
Proof.
  intros [Hc _] [Hh Hcs]. unfold MetaStore.InitialState.
  rewrite (bind_ok _ _ _ _ _ (Get_open m (StringToBytes HardStateKey) Hc ltac:(discriminate))).
  rewrite bytes_string, Hh. unfold MetaStore.decode_or, lift. rewrite json_roundtrip. unfold bind at 1.
  rewrite (bind_ok _ _ _ _ _ (Get_open m (StringToBytes ConfStateKey) Hc ltac:(discriminate))).
  rewrite bytes_string, Hcs. unfold bind. by rewrite json_roundtrip.
Qed.

(** The pointers that a start finds fit each other and the log. *)
Record pointers_ok (base : Z) (es : list Entry.t) (hs : HardState.t) (i : Z) : Prop := {
  pt_commit : base - 1 <= HardState.Commit hs <= base + blen es - 1;
  pt_applied : i = 0 \/ base - 1 <= i <= HardState.Commit hs }.

Lemma nodes_set (x : gset Z) : list_to_set (RaftConf.nodes x) = x.
Proof. apply set_eq. intros n. by rewrite elem_of_list_to_set, nodes_elem. Qed.

Lemma RestartNode_ok base es (ds : DiskStorage.t MetaStore.t) fs hs (k : RaftConf.t) id tick i :
  stores base es (ds, fs) -> es <> [] -> store_up (DiskStorage.meta ds) ->
  raft_in (DiskStorage.meta ds) hs (RaftConf.conf_state k) ->
  RaftConf.learnerPrs k = ∅ -> RaftConf.done k = false ->
  hs <> HardState.empty -> 0 <= i -> pointers_ok base es hs i -> id <> None_id -> 1 < tick ->
  exists r, EtcdRaft.RestartNode (EtcdRaft.Config.mk id tick 1 i maxInflightMsgs) (ds, fs) = (Ok r, (ds, fs)) /\
    EtcdRaft.conf r = k /\ EtcdRaft.Term r = HardState.Term hs /\ EtcdRaft.Vote r = HardState.Vote hs /\
    EtcdRaft.committed r = HardState.Commit hs /\ EtcdRaft.applied r = (if i =? 0 then base - 1 else i) /\
    EtcdRaft.lastIndex r = base + blen es - 1.
Proof.
  intros Hst Hne Hup Hraft Hl Hd Hhs Hi [Hco Hap] Hid Ht.
  destruct (keeps_bounds _ _ _ (stores_keeps _ _ _ Hst) Hne) as [Hb1 Hb2].
  assert (0 < blen es) by (destruct es; [done|]; rewrite blen_cons; pose proof (blen_nonneg es); lia).
  unfold EtcdRaft.RestartNode, EtcdRaft.newRaft, EtcdRaft.Config.validate. cbn [EtcdRaft.Config.ID
    EtcdRaft.Config.HeartbeatTick EtcdRaft.Config.ElectionTick EtcdRaft.Config.MaxInflightMsgs EtcdRaft.Config.Applied].
  rewrite (proj2 (Z.eqb_neq _ _) Hid), (proj2 (Z.ltb_lt 1 tick) Ht). cbn [negb andb Z.ltb].
  change (0 <? 1) with true. change (0 <? maxInflightMsgs) with true. cbn [negb andb].
  rewrite (bind_ok (obj DiskStorage.FirstIndex) _ _ _ _ eq_refl), (bind_ok (obj DiskStorage.LastIndex) _ _ _ _ eq_refl).
  cbn [fst]. rewrite (stores_first _ _ _ Hst Hne : DiskStorage.FirstIndex ds = base),
    (stores_last _ _ _ Hst : DiskStorage.LastIndex ds = _).
  replace (match es with [] => 0 | _ => base + blen es - 1 end) with (base + blen es - 1) by (by destruct es).
  assert (fatal_on_err (DiskStorage.on_meta MetaStore.InitialState) (ds, fs) = (Ok (hs, RaftConf.conf_state k), (ds, fs)))
    as E by (unfold fatal_on_err; rewrite (on_meta_ok _ _ _ _ (InitialState_ok _ _ _ Hup Hraft)); done).
  rewrite (bind_ok _ _ _ _ _ E). cbn [fst snd RaftConf.conf_state ConfState.Nodes ConfState.Learners].
  rewrite !nodes_set, Hl. rewrite (bool_decide_true (_ ∩ ∅ = ∅)) by set_solver. cbn [negb].
  rewrite (bool_decide_false _ Hhs). unfold EtcdRaft.loadState, EtcdRaft.lastIndex.
  cbn [EtcdRaft.committed EtcdRaft.stable EtcdRaft.unstable].
  assert (u64 (base - 1) = base - 1) as Hu by (unfold u64; rewrite Z.mod_small; lia).
  rewrite Hu, blen_nil, Z.add_0_r. rewrite (proj2 (Z.ltb_ge _ (base - 1))), (proj2 (Z.ltb_ge (base + blen es - 1) _)) by lia.
  cbn [orb]. unfold lift at 1, bind. cbn [EtcdRaft.conf EtcdRaft.applied EtcdRaft.stable EtcdRaft.unstable].
  assert (RaftConf.mk (RaftConf.prs k) ∅ false = k) as Hk by (destruct k; cbn in *; by subst).
  rewrite Hk. destruct (Z.eqb_spec i 0) as [->|Hi0].
  - cbn. eexists. split; [reflexivity|]. repeat (split; [done|]). cbn. unfold EtcdRaft.lastIndex. cbn. rewrite blen_nil. lia.
  - rewrite (proj2 (Z.ltb_lt 0 i)) by lia. unfold EtcdRaft.appliedTo.
    cbn [EtcdRaft.committed EtcdRaft.applied EtcdRaft.conf EtcdRaft.Term EtcdRaft.Vote EtcdRaft.stable EtcdRaft.unstable].
    rewrite (proj2 (Z.eqb_neq _ _) Hi0), (proj2 (Z.ltb_ge _ i)), (proj2 (Z.ltb_ge i _)) by lia. cbn.
    eexists. split; [reflexivity|]. repeat (split; [done|]). unfold EtcdRaft.lastIndex. cbn. rewrite blen_nil. lia.
Qed.

(** What a process leaves behind that stops at any point between two calls of
    the storage: the state [s] of the server with its store, the hard state and the applied
    index in it, and the log [es] from [base] on in the directory [fs]. *)
Record stopped (s : KingbusServer.t) (hs : HardState.t) (i base : Z) (es : list Entry.t) (sd : storage) : Prop := {
  st_server : server_ok s;
  st_conf : conf_saved s;
  st_recover : MetaStore.bucket (KingbusServer.store s) !! BytesToString NeedRecoverKey = Some bytes_true;
  st_hard : MetaStore.bucket (KingbusServer.store s) !! HardStateKey = Some (json_Marshal hs);
  st_voted : hs <> HardState.empty;
  st_applied : applied_in (KingbusServer.store s) i;
  st_log : stores base es sd;
  st_entries : es <> [];
  st_quiet : DiskStorage.purging sd.1 = [];
  st_touch : files sd.2 !! ".touch" = None;
  st_pointers : pointers_ok base es hs i }.

(** The configuration names the member [me] of the cluster and can be used. *)
Record config_fits (cfg : KingbusServerConfig.t) (c : RaftCluster.t) (me : Member.t) : Prop := {
  cf_name : RaftCluster.MemberByName (RaftNodeConfig.Name (KingbusServerConfig.RaftNodeCfg cfg)) c = Ok (Some me);
  cf_id : Member.ID me <> None_id;
  cf_beat : RaftNodeConfig.HeartbeatMs (KingbusServerConfig.RaftNodeCfg cfg) <> 0;
  cf_tick : 1 < Z.quot (RaftNodeConfig.ElectionTimeoutMs (KingbusServerConfig.RaftNodeCfg cfg))
                  (RaftNodeConfig.HeartbeatMs (KingbusServerConfig.RaftNodeCfg cfg));
  cf_admin : blen (KingbusServerConfig.AdminURLs cfg) = 1;
  cf_metrics : KingbusServerConfig.MetricsAddr cfg <> "" }.

Lemma open_store s : store_up (KingbusServer.store s) ->
  MetaStore.bucket (KingbusServer.store s) !! BytesToString NeedRecoverKey = Some bytes_true ->
  meta_Get NeedRecoverKey (KingbusServer.store s) = (Ok (Some bytes_true), KingbusServer.store s) /\
  meta_Set NeedRecoverKey bytes_true (KingbusServer.store s) = (Ok tt, KingbusServer.store s).
Proof.
  intros [Hc Hf] Hn. cbn [meta_Get meta_Set meta_store]. rewrite Get_open, Set_open, Hn by done. split; [done|].
  f_equal. rewrite insert_id by done. destruct (KingbusServer.store s); cbn in *. by subst.
Qed.

Lemma IsDirWriteable_ok d : d !! ".touch" = None -> Boot.IsDirWriteable (quiet d) = (Ok tt, quiet d).
Proof.
  intros Hd. unfold Boot.IsDirWriteable, Remove, with_file. cbn -[lookup insert delete].
  rewrite lookup_insert_eq. cbn -[lookup insert delete]. by rewrite delete_insert_id.
Qed.

Lemma restartEtcdNode_ok s hs i base es sd cfg me fs (ds : DiskStorage.t MetaStore.t) :
  stopped s hs i base es sd -> config_fits cfg (KingbusServer.cluster s) me ->
  stores base es (ds, fs) -> DiskStorage.meta ds = KingbusServer.store s ->
  exists r, Boot.restartEtcdNode (RaftNodeConfig.set_AppliedIndex i (KingbusServerConfig.RaftNodeCfg cfg)) (ds, fs) =
      (Ok (Member.ID me, r, KingbusServer.cluster s), (ds, fs)) /\
    EtcdRaft.conf r = KingbusServer.raft s /\ EtcdRaft.committed r = HardState.Commit hs.
Proof.
  intros Hs Hcf Hst Hm. pose proof (server_stored _ (st_server _ _ _ _ _ _ Hs)) as (Hok & Hup & Hget).
  cbn [fst snd] in *. destruct (RestartNode_ok base es ds fs hs (KingbusServer.raft s) (Member.ID me)
    (Z.quot (RaftNodeConfig.ElectionTimeoutMs (KingbusServerConfig.RaftNodeCfg cfg))
       (RaftNodeConfig.HeartbeatMs (KingbusServerConfig.RaftNodeCfg cfg))) i) as (r & E5 & Hk & _ & _ & Hco & _);
    [done|apply Hs|by rewrite Hm| |apply Hs|apply Hs|apply Hs| |apply Hs|apply Hcf|apply Hcf|].
  { rewrite Hm. split; [apply Hs|]. pose proof (st_conf _ _ _ _ _ _ Hs) as Hsv. unfold conf_saved in Hsv.
    rewrite Get_open, bytes_string in Hsv by (try done; apply Hup). by injection Hsv. }
  { destruct (st_applied _ _ _ _ _ _ Hs) as [[Hu _]|[-> _]]; [unfold is_u64 in Hu; lia|lia]. }
  exists r. split; [|done]. unfold Boot.restartEtcdNode, Boot.election_tick. cbn [RaftNodeConfig.set_AppliedIndex
    RaftNodeConfig.Name RaftNodeConfig.HeartbeatMs RaftNodeConfig.ElectionTimeoutMs RaftNodeConfig.AppliedIndex].
  assert (DiskStorage.on_meta RaftCluster.GetRaftClusterFromStorage (ds, fs) = (Ok (KingbusServer.cluster s), (ds, fs))) as E4.
  { apply on_meta_ok. rewrite Hm. unfold RaftCluster.GetRaftClusterFromStorage. by rewrite Hget, json_roundtrip. }
  erewrite bind_ok by (unfold fatal_on_err; rewrite E4; reflexivity).
  rewrite (cf_name _ _ _ Hcf), (proj2 (Z.eqb_neq _ _) (cf_beat _ _ _ Hcf)).
  unfold lift. erewrite bind_ok by reflexivity. rewrite bind_must. erewrite bind_ok by reflexivity.
  rewrite (bind_ok _ _ _ _ _ E5). reflexivity.
Qed.

Lemma restart_ok mar eq http s hs i base es sd cfg me fs (ds : DiskStorage.t MetaStore.t) :
  stopped s hs i base es sd -> config_fits cfg (KingbusServer.cluster s) me ->
  stores base es (ds, fs) -> DiskStorage.meta ds = KingbusServer.store s -> DiskStorage.purging ds = [] ->
  files fs !! ".touch" = None ->
  exists r, Boot.start_raft mar eq http (Ok tt) (KingbusServerConfig.RaftNodeCfg cfg) (ds, fs) =
    (Ok (Boot.mk (Member.ID me) (KingbusServer.cluster s) r i []
       (Boot.others (Member.ID me) (RaftCluster.Members (KingbusServer.cluster s)))), (ds, fs)) /\
    EtcdRaft.conf r = KingbusServer.raft s /\ EtcdRaft.committed r = HardState.Commit hs.
Proof.
  intros Hs Hcf Hst Hm Hp Ht. pose proof (server_stored _ (st_server _ _ _ _ _ _ Hs)) as (Hok & Hup & Hget).
  cbn [fst snd] in *.
  destruct (stores_parts _ _ _ Hst (st_entries _ _ _ _ _ _ Hs) Hp) as (d & qs & q & Efs & Hr & _ & Hc & Hqe & _).
  cbn [snd] in Efs. subst fs. cbn [files] in Ht.
  assert (Boot.exist_log (ds, quiet d) = (Ok true, (ds, quiet d))) as E1.
  { unfold Boot.exist_log. cbn [snd fst]. by rewrite (dir_exist_log _ _ _ _ _ (crashed_dir _ _ _ _ _ Hr Hqe Hc)). }
  assert (RaftNode.MustGetAppliedIndex (ds, quiet d) = (Ok i, (ds, quiet d))) as E3.
  { apply MustGetAppliedIndex_ok; rewrite Hm; [done|apply Hs]. }
  destruct (restartEtcdNode_ok s hs i base es sd cfg me (quiet d) ds Hs Hcf Hst Hm) as (r & E4 & Hk & Hco).
  exists r. split; [|done]. unfold Boot.start_raft. rewrite (bind_ok _ _ _ _ _ E1). cbv iota.
  erewrite bind_ok; cycle 1.
  { unfold Boot.restart. erewrite bind_ok; cycle 1.
    { unfold Boot.deferred, on_fs, zoom. cbn [fst snd]. rewrite (IsDirWriteable_ok d Ht). reflexivity. }
    cbn [fst]. rewrite (bind_ok _ _ _ _ _ E3). rewrite (bind_ok _ _ _ _ _ E4). reflexivity. }
  reflexivity.
Qed.


(** * Stops that can not be recovered from *)

(** The node has written its log and stopped before its first entry was applied:
    the cluster is not in the store, and the next start ends the process. *)
Theorem bootstrap_crash_panics mar eq http tr cfg base es d (ds : DiskStorage.t MetaStore.t) i :
  stores base es (ds, quiet d) -> es <> [] -> DiskStorage.purging ds = [] -> d !! ".touch" = None ->
  store_up (DiskStorage.meta ds) -> applied_in (DiskStorage.meta ds) i ->
  MetaStore.bucket (DiskStorage.meta ds) !! RaftClusterKey = None ->
  Boot.start_raft mar eq http tr cfg (ds, quiet d) = (Panic, (ds, quiet d)).
Proof.
  intros Hst Hne Hp Ht Hup Hi Hcl.
  destruct (stores_parts _ _ _ Hst Hne Hp) as (d' & qs & q & [= <-] & Hr & _ & Hc & Hqe & _).
  unfold Boot.start_raft. erewrite bind_ok; cycle 1.
  { unfold Boot.exist_log. cbn [snd fst]. rewrite (dir_exist_log _ _ _ _ _ (crashed_dir _ _ _ _ _ Hr Hqe Hc)). reflexivity. }
  apply bind_panic. unfold Boot.restart. erewrite bind_ok; cycle 1.
  { unfold Boot.deferred, on_fs, zoom. cbn [fst snd]. rewrite (IsDirWriteable_ok d Ht). reflexivity. }
  cbn [fst]. rewrite (bind_ok _ _ _ _ _ (MustGetAppliedIndex_ok ds (quiet d) i Hup Hi)).
  apply bind_panic, bind_panic. unfold fatal_on_err.
  assert (DiskStorage.on_meta RaftCluster.GetRaftClusterFromStorage (ds, quiet d) = (Err ErrKeyNotFound, (ds, quiet d))) as ->;
    [|done].
  apply on_meta_ok. unfold RaftCluster.GetRaftClusterFromStorage. cbn [meta_Get meta_store].
  rewrite Get_open by (try done; apply Hup). change (BytesToString (StringToBytes RaftClusterKey)) with RaftClusterKey.
  by rewrite Hcl.
Qed.

(** The hard state of a [Ready] is saved before its entries. When the process
    stops in between and an entry of the same [Ready] is committed, the raft library
    refuses the hard state at every start. *)
Theorem commit_ahead_panics base es (ds : DiskStorage.t MetaStore.t) fs hs (cs : ConfState.t) sd1 c :
  stores base es (ds, fs) -> es <> [] -> store_up (DiskStorage.meta ds) ->
  MetaStore.bucket (DiskStorage.meta ds) !! ConfStateKey = Some (json_Marshal cs) ->
  base + blen es - 1 < HardState.Commit hs ->
  rs_SaveHardState hs (ds, fs) = (Ok tt, sd1) ->
  EtcdRaft.RestartNode c sd1 = (Panic, sd1).
Proof.
  intros Hst Hne [Hc Hf] Hcs Hco. cbn [rs_SaveHardState disk_raft_storage meta_SaveHardState meta_store].
  unfold DiskStorage.on_meta, zoom. cbn [fst snd]. unfold MetaStore.SaveHardState.
  rewrite Set_open, bytes_string by done. intros [= <-].
  set (m1 := MetaStore.mk _ _ _). set (ds1 := DiskStorage.mk _ _ _ _ m1).
  destruct (keeps_bounds _ _ _ (stores_keeps _ _ _ Hst) Hne) as [Hb1 Hb2]. pose proof (blen_nonneg es).
  unfold EtcdRaft.RestartNode, EtcdRaft.newRaft. destruct (negb _); [done|].
  rewrite (bind_ok (obj DiskStorage.FirstIndex) _ _ _ _ eq_refl), (bind_ok (obj DiskStorage.LastIndex) _ _ _ _ eq_refl).
  cbn [fst]. change (DiskStorage.LastIndex ds1) with (DiskStorage.LastIndex ds).
  rewrite (stores_last _ _ _ Hst : DiskStorage.LastIndex ds = _).
  replace (match es with [] => 0 | _ => base + blen es - 1 end) with (base + blen es - 1) by (by destruct es).
  assert (MetaStore.InitialState m1 = (Ok (hs, cs), m1)) as EI.
  { apply InitialState_ok; [done|]. split; cbn [MetaStore.bucket m1]; [by rewrite lookup_insert_eq|by rewrite lookup_insert_ne]. }
  erewrite bind_ok by (unfold fatal_on_err; rewrite (on_meta_ok _ ds1 fs _ EI); reflexivity). cbn [fst snd].
  destruct (negb _); [done|]. rewrite (bool_decide_false (hs = _)) by (intros ->; cbn in Hco; lia).
  unfold EtcdRaft.loadState, EtcdRaft.lastIndex. cbn [EtcdRaft.committed EtcdRaft.stable EtcdRaft.unstable].
  rewrite blen_nil, Z.add_0_r, (proj2 (Z.ltb_lt _ _) Hco), orb_true_r. done.
Qed.
End restart.

(** * A sample node *)

#[local] Existing Instance hard_state_json.
#[local] Existing Instance conf_state_json.
#[local] Existing Instance cluster_json.
#[local] Existing Instance member_json.
#[local] Existing Instance cluster_laws.
#[local] Existing Instance member_laws.
#[local] Existing Instance conf_state_laws.
#[local] Instance hard_state_laws : JsonLaws HardState.t := code_json_laws _.

Lemma stores_any_meta {M M' : Type} (base : Z) es (s : DiskStorage.t M * FS) reserve (m : M') :
  stores base es s ->
  stores base es (DiskStorage.mk (DiskStorage.Segments s.1) reserve false (DiskStorage.purging s.1) m, s.2).
Proof. intros (d & ps & dead & Hs & [] & H1). exists d, ps, dead. split; [done|]. split; [by split|done]. Qed.

(** The log of [s3], and a store in which two of its three entries are committed
    and one is applied. *)
Definition boot_hard : HardState.t := HardState.mk 2 1 2.
Definition boot_store : MetaStore.t := MetaStore.mk
  (<[BytesToString NeedRecoverKey := bytes_true]> (<[HardStateKey := json_Marshal boot_hard]>
     (<[MetaStore.AppliedIndexKey := be_bytes 8 1]> (MetaStore.bucket conf_store)))) false [].
Definition boot_server : KingbusServer.t := server_with boot_store conf_cluster.
Definition boot_storage : DiskStorage.t MetaStore.t * FS :=
  (DiskStorage.mk (DiskStorage.Segments s3.1) 4 false (DiskStorage.purging s3.1) boot_store, s3.2).
Definition boot_cfg : KingbusServerConfig.t := KingbusServerConfig.mk
  (RaftNodeConfig.mk "n1" 0 ["http://n1"] ∅ MaxRequestBytes 100 1000 true true "/data" 4 true)
  ["http://admin"] "metrics" "" "".

Lemma boot_server_ok : server_ok boot_server.
Proof.
  split; [|done..]. split; [exact conf_cluster_ok|]. split; [done|]. cbn [meta_Get meta_store fst snd].
  rewrite Get_open by done. change (BytesToString (StringToBytes RaftClusterKey)) with RaftClusterKey.
  change (KingbusServer.store boot_server) with boot_store. unfold boot_store, conf_store. cbn [MetaStore.bucket].
  by rewrite !lookup_insert_ne, lookup_singleton_eq by done.
Qed.

Lemma boot_stopped : stopped boot_server boot_hard 1 1 [e1; e2; e3] boot_storage.
Proof.
  split.
  - exact boot_server_ok.
  - unfold conf_saved. rewrite Get_open by done. change (BytesToString (StringToBytes ConfStateKey)) with ConfStateKey.
    change (KingbusServer.store boot_server) with boot_store. unfold boot_store, conf_store. cbn [MetaStore.bucket].
    by rewrite !lookup_insert_ne, lookup_insert_eq by done.
  - change (KingbusServer.store boot_server) with boot_store. unfold boot_store. cbn [MetaStore.bucket].
    by rewrite lookup_insert_eq.
  - change (KingbusServer.store boot_server) with boot_store. unfold boot_store. cbn [MetaStore.bucket].
    by rewrite lookup_insert_ne, lookup_insert_eq by done.
  - done.
  - left. split; [unfold is_u64; lia|]. change (KingbusServer.store boot_server) with boot_store. unfold boot_store.
    cbn [MetaStore.bucket]. by rewrite !lookup_insert_ne, lookup_insert_eq by done.
  - apply stores_any_meta, s3_stores.
  - done.
  - exact s3_purging.
  - vm_compute. reflexivity.
  - split; [cbn; len|right; cbn; lia].
Qed.

Lemma boot_fits : config_fits boot_cfg conf_cluster (sample_member 1 "http://n1" "n1").
Proof. by split. Qed.

Definition boot_progress : BinlogProgress.t :=
  BinlogProgress.mk "" "" "" 0 "" (TransactionBoundaryParser.mk EventParserNone) 0 0 ∅ boot_store.

Lemma boot_progress_ok : BinlogProgress.newBinlogProgress boot_store = (Ok boot_progress, boot_store).
Proof.
  unfold BinlogProgress.newBinlogProgress, MetaStore.GetGtidSet.
  rewrite (bind_ok _ _ _ _ _ (Get_open boot_store (StringToBytes (path_Join MySQLFlavor ExecutedGtidSetKey)) eq_refl ltac:(vm_compute; discriminate))). rewrite bytes_string.
  unfold boot_store at 1, conf_store. cbn [MetaStore.bucket]. rewrite !lookup_insert_ne, lookup_singleton_ne by done.
  reflexivity.
Qed.


(** The [Ready] with the entry 4, which is committed: its hard state is saved. *)
Lemma commit_ahead_panics_witness :
  exists sd1, rs_SaveHardState (S := DiskStorage.t MetaStore.t * FS) (HardState.mk 3 1 4) boot_storage = (Ok tt, sd1) /\
    EtcdRaft.RestartNode (EtcdRaft.Config.mk 1 10 1 1 maxInflightMsgs) sd1 = (Panic, sd1).
Proof.
  eexists. split; [reflexivity|].
  apply (commit_ahead_panics 1 [e1; e2; e3] boot_storage.1 boot_storage.2 (HardState.mk 3 1 4) (RaftConf.conf_state conf_raft)).
  - exact (stores_any_meta 1 [e1; e2; e3] s3 4 boot_store s3_stores).
  - discriminate.
  - split; reflexivity.
  - unfold boot_storage, boot_store, conf_store. cbn [fst DiskStorage.meta MetaStore.bucket].
    rewrite !lookup_insert_ne, lookup_insert_eq by done. reflexivity.
  - vm_compute. reflexivity.
  - reflexivity.
Defined.
