(* ===== verification/Bootstrap.v ===== *)
(** What holds when a new cluster is started: every node computes the same
    cluster from the configuration, the raft library begins with its members as voters, and
    applying the first entries stores the cluster. Then, what the changes of the
    members do that are applied a second time after a restart. *)
From S2P Require Import Prelude.
From S2P Require Import Names.
From S2P Require Import Wire.
From S2P Require Import Text.
From S2P Require Import Disk.
From S2P Require Import IndexFile.
From S2P Require Import Segments.
From S2P Require Import Storage.
From S2P Require Import Samples.
From S2P Require Import Events.
From S2P Require Import MetaStore.
From S2P Require Import MetaTheorems.
From S2P Require Import Progress.
From S2P Require Import Membership.
From S2P Require Import Config.
From S2P Require Import NodeConfig.
From S2P Require Import Apply.
From S2P Require Import ConfTheorems.
From S2P Require Import Admin.
From S2P Require Import Boot.
From stdpp Require Import sorting list strings.
Local Open Scope string_scope.
Local Open Scope list_scope.
Local Open Scope Z_scope.
Local Open Scope go_scope.

(** * The cluster of a configuration *)

Lemma clone_same m : Member.Clone m = m.
Proof. by destruct m. Qed.

Lemma new_member_urls name urls u : u ∈ Member.PeerURLs (Member.NewMember name urls [] None) <-> u ∈ urls.
Proof. cbn. by rewrite merge_sort_Permutation. Qed.

(** When no URL is given twice, each belongs to one name. *)
Lemma urls_apart (m : URLsMap.t) n n' us us' u :
  NoDup (URLsMap.all_urls m) -> m !! n = Some us -> m !! n' = Some us' -> u ∈ us -> u ∈ us' -> n = n'.
Proof.
  intros Hnd Hn Hn' Hu Hu'. destruct (decide (n = n')) as [|Hne]; [done|]. exfalso.
  assert (map_to_list m ≡ₚ (n, us) :: (n', us') :: map_to_list (delete n' (delete n m))) as Hp.
  { rewrite <- (map_to_list_insert (delete n' (delete n m)) n' us') by apply lookup_delete_eq.
    rewrite insert_delete_id by (by rewrite lookup_delete_ne).
    rewrite <- (map_to_list_insert (delete n m) n us) by apply lookup_delete_eq. by rewrite insert_delete_id. }
  unfold URLsMap.all_urls in Hnd.
  assert (concat (map snd (map_to_list m)) ≡ₚ us ++ us' ++ concat (map snd (map_to_list (delete n' (delete n m))))) as Hc.
  { change (map snd (map_to_list m)) with (snd <$> map_to_list m). rewrite Hp. done. }
  rewrite Hc in Hnd. apply NoDup_app in Hnd as (_ & Hd & _). apply (Hd u Hu). apply elem_of_app. by left.
Qed.

Section new.
Context (urlsmap : URLsMap.t) (c : RaftCluster.t).
Hypothesis Hc : RaftCluster.NewClusterFromURLsMap urlsmap = Ok c.

Lemma new_cluster_ok : NoDup (URLsMap.all_urls urlsmap) -> cluster_ok c.
Proof.
  intros Hnd. destruct (new_cluster_members _ _ Hc) as (Hr & Hm & _). split.
  - intros id m (name & urls & _ & _ & ->)%Hm. done.
  - rewrite Hr. apply map_Forall_empty.
  - intros id _. by rewrite Hr.
  - intros i j mi mj u (n & us & Hn & -> & ->)%Hm (n' & us' & Hn' & -> & ->)%Hm Hu Hu'.
    rewrite new_member_urls in Hu, Hu'. pose proof (urls_apart _ _ _ _ _ _ Hnd Hn Hn' Hu Hu') as <-.
    rewrite Hn in Hn'. by injection Hn' as <-.
Qed.

Lemma new_member_by_name name urls : urlsmap !! name = Some urls ->
  RaftCluster.MemberByName name c = Ok (Some (Member.NewMember name urls [] None)).
Proof.
  intros Hn. destruct (new_cluster_members _ _ Hc) as (_ & Hm & _). set (m := Member.NewMember name urls [] None).
  unfold RaftCluster.MemberByName. set (P := fun x => Member.Name x = name).
  assert (forall x, x ∈ filter P (RaftCluster.values (RaftCluster.MembersMap c)) <-> x = m) as Hf.
  { intros x. rewrite list_elem_of_filter. unfold RaftCluster.values. rewrite list_elem_of_fmap. split.
    - intros (HP & [id y] & -> & Hin%elem_of_map_to_list). apply Hm in Hin as (n & us & Hu & -> & ->).
      unfold P in HP. cbn in HP. subst n. rewrite Hn in Hu. by injection Hu as <-.
    - intros ->. split; [done|]. exists (Member.ID m, m). split; [done|]. apply elem_of_map_to_list, Hm. eauto. }
  assert (NoDup (filter P (RaftCluster.values (RaftCluster.MembersMap c)))) as Hnd.
  { apply NoDup_filter. unfold RaftCluster.values. apply NoDup_fmap_2_strong; [|apply NoDup_map_to_list].
    intros [i x] [j y] Hi%elem_of_map_to_list Hj%elem_of_map_to_list. cbn. intros ->.
    apply Hm in Hi as (? & ? & _ & _ & ->), Hj as (? & ? & _ & _ & ->). done. }
  destruct (filter P _) as [|x [|y l]].
  - exfalso. by apply (not_elem_of_nil m), Hf.
  - rewrite (proj1 (Hf x) ltac:(left)). by rewrite clone_same.
  - exfalso. pose proof (proj1 (Hf x) ltac:(left)). pose proof (proj1 (Hf y) ltac:(right; left)). subst x y.
    apply NoDup_cons in Hnd as [Hin _]. apply Hin. left.
Qed.

Lemma member_ids id : id ∈ RaftCluster.MemberIDs c <-> is_Some (RaftCluster.MembersMap c !! id).
Proof.
  destruct (new_cluster_members _ _ Hc) as (_ & Hm & _).
  unfold RaftCluster.MemberIDs, RaftCluster.values. rewrite merge_sort_Permutation, list_elem_of_In, in_map_iff. split.
  - intros (x & <- & Hx). apply list_elem_of_In, list_elem_of_fmap in Hx as ([i y] & -> & Hin%elem_of_map_to_list).
    pose proof Hin as (? & ? & _ & _ & ->)%Hm. by eexists.
  - intros [m Hin]. pose proof Hin as (? & ? & _ & _ & E)%Hm. exists m. split; [done|].
    apply list_elem_of_In, list_elem_of_fmap. exists (id, m). split; [done|]. by apply elem_of_map_to_list.
Qed.
End new.

(** * The raft library *)

Lemma add_nodes (peers : list EtcdRaft.Peer.t) : forall x : gset Z,
  foldl (fun k p => RaftConf.addNodeOrLearnerNode (EtcdRaft.Peer.ID p) false k) (RaftConf.mk x ∅ false) peers =
    RaftConf.mk (x ∪ list_to_set (map EtcdRaft.Peer.ID peers)) ∅ false.
Proof.
  induction peers as [|p peers IH]; intros x; cbn [foldl map]; [f_equal; set_solver|].
  unfold RaftConf.addNodeOrLearnerNode at 2. cbn [RaftConf.prs RaftConf.learnerPrs RaftConf.done].
  rewrite (bool_decide_false (_ ∈ ∅)) by set_solver.
  destruct (bool_decide_reflect (EtcdRaft.Peer.ID p ∈ x)); rewrite IH; clear IH; f_equal; set_solver.
Qed.

(** The peers of the members with these ids. *)
Lemma peers_of `{Json Member.t} c ids : Forall (fun id => is_Some (RaftCluster.MembersMap c !! id)) ids ->
  exists peers, mapM (fun id => (fun m => EtcdRaft.Peer.mk id (json_Marshal m)) <$> RaftCluster.Member id c) ids = Some peers /\
    map EtcdRaft.Peer.ID peers = ids /\
    Forall (fun p => exists m, RaftCluster.MembersMap c !! EtcdRaft.Peer.ID p = Some m /\
                               EtcdRaft.Peer.Context_ p = json_Marshal m) peers.
Proof.
  induction 1 as [|id ids [m Hm] _ (peers & E & Hids & Hp)]; [by exists []|].
  exists (EtcdRaft.Peer.mk id (json_Marshal m) :: peers). split.
  - apply mapM_Some. constructor; [|by apply mapM_Some]. unfold RaftCluster.Member. rewrite Hm. cbn. by rewrite clone_same.
  - split; [cbn; by rewrite Hids|]. constructor; [by exists m|done].
Qed.

(** * The first entries *)

Section first.
Context `{JsonLaws HardState.t} `{JsonLaws ConfState.t} `{JsonLaws RaftCluster.t} `{JsonLaws Member.t}.

Definition peer_change (p : EtcdRaft.Peer.t) : ConfChange.t :=
  ConfChange.mk 0 ConfChangeAddNode (EtcdRaft.Peer.ID p) (EtcdRaft.Peer.Context_ p).

(** A server that has its cluster and its voters, and a store without them. *)
Record unsaved (s : KingbusServer.t) : Prop := {
  us_cluster : cluster_ok (KingbusServer.cluster s);
  us_up : store_up (KingbusServer.store s);
  us_none : MetaStore.bucket (KingbusServer.store s) !! RaftClusterKey = None;
  us_running : RaftConf.done (KingbusServer.raft s) = false;
  us_learners : RaftConf.learnerPrs (KingbusServer.raft s) = ∅;
  us_voters : RaftConf.prs (KingbusServer.raft s) = dom (RaftCluster.MembersMap (KingbusServer.cluster s)) }.

Definition peer_of (c : RaftCluster.t) (p : EtcdRaft.Peer.t) : Prop :=
  EtcdRaft.Peer.ID p <> None_id /\ exists m, RaftCluster.MembersMap c !! EtcdRaft.Peer.ID p = Some m /\
    EtcdRaft.Peer.Context_ p = json_Marshal m.

Lemma none_among (l : list string) : existsb (fun u => bool_decide (u ∈ [])) l = false.
Proof. induction l as [|u l IH]; [done|]. cbn [existsb]. by rewrite bool_decide_false by apply not_elem_of_nil. Qed.

Lemma first_change p s : unsaved s -> peer_of (KingbusServer.cluster s) p ->
  exists s', KingbusServer.applyConfChange (peer_change p) s = (Ok (false, None), s') /\
    KingbusServer.cluster s' = KingbusServer.cluster s /\ server_ok s' /\ conf_saved s'.
Proof.
  intros [Hc Hup Hnone Hd Hl Hv] [Hid (m & Hm & Hctx)]. pose proof (ok_ids _ Hc _ _ Hm) as Hmid. cbn in Hmid.
  unfold KingbusServer.applyConfChange.
  assert (RaftCluster.GetRaftClusterFromStorage (KingbusServer.store s) = (Err ErrKeyNotFound, KingbusServer.store s)) as Eg.
  { unfold RaftCluster.GetRaftClusterFromStorage. cbn [meta_Get meta_store]. rewrite Get_open by (try done; apply Hup).
    change (BytesToString (StringToBytes RaftClusterKey)) with RaftClusterKey. by rewrite Hnone. }
  assert (KingbusServer.on_cluster (RaftCluster.ValidateConfigurationChange (peer_change p)) s = (Ok tt, s)) as Ev.
  { erewrite on_cluster_ok with (c' := KingbusServer.cluster s) (st' := KingbusServer.store s) (r := Ok tt).
    - unfold KingbusServer.set_store, KingbusServer.set_cluster, KingbusServer.store. by destruct s as [? ? []].
    - unfold RaftCluster.ValidateConfigurationChange, zoom, RaftCluster.membersFromStore, bind. cbn [fst snd].
      rewrite Eg. unfold lift, RaftCluster.validate, RaftCluster.check_urls. cbn [fst snd peer_change ConfChange.NodeID
        ConfChange.Type_ ConfChange.Context_]. rewrite !lookup_empty, Hctx, json_roundtrip. cbn [default from_option id].
      unfold RaftCluster.values. rewrite map_to_list_empty. cbn [fmap list_fmap map concat].
      by rewrite none_among. }
  rewrite Ev. unfold bind at 1, KingbusServer.raft_ApplyConfChange, zoom, RaftConf.ApplyConfChange.
  rewrite Hd. cbn [peer_change ConfChange.NodeID ConfChange.Type_]. rewrite (proj2 (Z.eqb_neq _ _) Hid).
  assert (RaftConf.addNodeOrLearnerNode (EtcdRaft.Peer.ID p) false (KingbusServer.raft s) = KingbusServer.raft s) as ->.
  { unfold RaftConf.addNodeOrLearnerNode. rewrite bool_decide_true; [done|]. rewrite Hv. apply elem_of_dom. by eexists. }
  assert (KingbusServer.set_raft (KingbusServer.raft s) s = s) as -> by (by destruct s).
  assert (RaftCluster.set_MembersMap (<[Member.ID m := m]> (RaftCluster.MembersMap (KingbusServer.cluster s)))
    (KingbusServer.cluster s) = KingbusServer.cluster s) as Hsame.
  { rewrite insert_id by (by rewrite Hmid). by destruct (KingbusServer.cluster s). }
  destruct (SaveToStorage_stored (ok := store_up) (KingbusServer.cluster s) (KingbusServer.store s) Hc Hup) as (st' & Es & Hst).
  assert (RaftCluster.AddMember m (KingbusServer.cluster s, KingbusServer.store s) = (Ok tt, (KingbusServer.cluster s, st'))) as Ea.
  { unfold RaftCluster.AddMember, bind, RaftCluster.update, modify, fatal_on_err. cbn [fst snd]. by rewrite Hsame, Es. }
  assert (exists s2, KingbusServer.change_members (peer_change p) s = (Ok false, s2) /\
    KingbusServer.cluster s2 = KingbusServer.cluster s /\ KingbusServer.raft s2 = KingbusServer.raft s /\
    KingbusServer.store s2 = st') as (s2 & E2 & Hc2 & Hr2 & Hst2).
  { unfold KingbusServer.change_members. cbn [peer_change ConfChange.Type_].
    rewrite (bind_ok _ _ _ _ _ (conf_member_ok (peer_change p) m s ltac:(cbn; by rewrite Hctx, json_roundtrip) Hmid)).
    rewrite (bind_ok _ _ _ _ _ (on_cluster_ok _ _ _ _ _ Ea)), bind_gets.
    destruct (_ =? _); eexists; (split; [reflexivity|]); done. }
  rewrite (bind_ok _ _ _ _ _ E2).
  destruct (saveConfState_ok s2) as (s3 & E3 & Hc3 & Hr3 & Hok & Hsv).
  { split; [by rewrite Hc2, Hst2|by rewrite Hr2..|by rewrite Hr2, Hc2]. }
  rewrite Hr2 in E3. rewrite (bind_ok _ _ _ _ _ E3). exists s3. by rewrite Hc3, Hc2.
Qed.

Context `{Json Attributes.t} `{Json SyncerArgs.t} `{Json MasterInfo.t} `{Json MasterGtidPurged.t}.
Context (ConfChange_Marshal : ConfChange.t -> bytes) (ConfChange_Unmarshal : bytes -> option ConfChange.t).
Hypothesis marshal_law : forall cc, ConfChange_Unmarshal (ConfChange_Marshal cc) = Some cc.

Lemma server_same s s' : KingbusServer.cluster s' = KingbusServer.cluster s -> KingbusServer.raft s' = KingbusServer.raft s ->
  KingbusServer.store s' = KingbusServer.store s -> server_ok s -> conf_saved s -> server_ok s' /\ conf_saved s'.
Proof. intros Hc Hr Hs [] Hsv. split; [split|]; unfold conf_saved in *; by rewrite ?Hc, ?Hr, ?Hs. Qed.

(** An entry with a change, once it is known what the change does. *)
Lemma peer_entry_applied now index p s r s1 :
  KingbusServer.applyConfChange (peer_change p) s = (Ok r, s1) -> server_ok s1 -> conf_saved s1 ->
  exists s', KingbusServer.apply_entry ConfChange_Unmarshal now (EtcdRaft.peer_entry ConfChange_Marshal index p) s = (Ok r.1, s') /\
    KingbusServer.cluster s' = KingbusServer.cluster s1 /\ server_ok s' /\ conf_saved s' /\
    KingbusServer.appliedIndex s' = index.
Proof.
  intros E Hok Hsv. unfold KingbusServer.apply_entry, EtcdRaft.peer_entry. cbn [Entry.Type_ Entry.Index Entry.Term].
  change (Entry.EntryConfChange =? Entry.EntryNormal) with false.
  change (Entry.EntryConfChange =? Entry.EntryConfChange) with true. cbv iota.
  cbn [Entry.data Entry.Data default from_option id]. fold (peer_change p). rewrite marshal_law, bind_must.
  rewrite (bind_ok _ _ _ _ _ E). eexists. split; [reflexivity|]. split; [done|].
  destruct (server_same s1 (KingbusServer.mk (KingbusServer.id s1) (KingbusServer.cluster s1) (KingbusServer.binlogProgress s1)
    (KingbusServer.raft s1) index 1 (KingbusServer.calls s1 ++
      [KingbusServer.Trigger 0 (RaftCluster.Members (KingbusServer.cluster s1)) r.2]))) as [Hok' Hsv']; done.
Qed.

(** A member that is in the store is refused when it is added again. *)
Lemma known_refused p s : server_ok s -> peer_of (KingbusServer.cluster s) p ->
  valid (peer_change p) (KingbusServer.cluster s) = Err ErrIDExists.
Proof.
  intros [(Hc & _) _ _ _] [_ (m & Hm & _)]. unfold valid, RaftCluster.validate. cbn [peer_change ConfChange.NodeID ConfChange.Type_].
  cbn [fst] in Hc. rewrite (ok_removed _ Hc _ ltac:(by eexists)). cbn. by rewrite Hm.
Qed.

Lemma peers_applied clock peers : forall index s,
  Forall (peer_of (KingbusServer.cluster s)) peers -> server_ok s -> conf_saved s -> KingbusServer.appliedIndex s = index ->
  exists s', KingbusServer.apply ConfChange_Unmarshal clock (EtcdRaft.peer_entries ConfChange_Marshal index peers) false s =
      (Ok false, s') /\
    KingbusServer.cluster s' = KingbusServer.cluster s /\ server_ok s' /\ conf_saved s' /\
    KingbusServer.appliedIndex s' = index + blen peers.
Proof.
  induction peers as [|p peers IH]; intros index s Hp Hok Hsv Hi.
  { exists s. rewrite blen_nil, Z.add_0_r. done. }
  apply Forall_cons in Hp as [Hp Hps]. cbn [EtcdRaft.peer_entries KingbusServer.apply].
  destruct (refused_ok (peer_change p) ErrIDExists s Hok (known_refused p s Hok Hp)) as (s1 & E1 & Hc1 & _ & Hok1 & Hsv1).
  destruct (peer_entry_applied (clock (Entry.Index (EtcdRaft.peer_entry ConfChange_Marshal (index + 1) p))) (index + 1)
    p s _ s1 E1 Hok1 Hsv1) as (s2 & E2 & Hc2 & Hok2 & Hsv2 & Hi2).
  rewrite (bind_ok _ _ _ _ _ E2). cbn [fst orb].
  destruct (IH (index + 1) s2) as (s3 & E3 & Hc3 & Hok3 & Hsv3 & Hi3); [by rewrite Hc2, Hc1|done..|].
  exists s3. split; [exact E3|]. split; [by rewrite Hc3, Hc2, Hc1|]. split; [done|]. split; [done|].
  rewrite Hi3, blen_cons. lia.
Qed.

Lemma bootstrap_applied clock peers s : peers <> [] ->
  Forall (peer_of (KingbusServer.cluster s)) peers -> unsaved s -> KingbusServer.appliedIndex s = 0 ->
  exists s', KingbusServer.applyAll ConfChange_Unmarshal clock (EtcdRaft.peer_entries ConfChange_Marshal 0 peers) s = (Ok tt, s') /\
    KingbusServer.cluster s' = KingbusServer.cluster s /\ server_ok s' /\ conf_saved s' /\
    KingbusServer.appliedIndex s' = blen peers.
Proof.
  intros Hne Hp Hun Hi. destruct peers as [|p peers]; [done|]. apply Forall_cons in Hp as [Hp Hps].
  destruct (first_change p s Hun Hp) as (s1 & E1 & Hc1 & Hok1 & Hsv1).
  destruct (peer_entry_applied (clock (Entry.Index (EtcdRaft.peer_entry ConfChange_Marshal 1 p))) 1
    p s _ s1 E1 Hok1 Hsv1) as (s2 & E2 & Hc2 & Hok2 & Hsv2 & Hi2).
  destruct (peers_applied clock peers 1 s2) as (s3 & E3 & Hc3 & Hok3 & Hsv3 & Hi3); [by rewrite Hc2, Hc1|done..|].
  assert (KingbusServer.apply ConfChange_Unmarshal clock (EtcdRaft.peer_entries ConfChange_Marshal 0 (p :: peers)) false s =
    (Ok false, s3)) as E.
  { cbn [EtcdRaft.peer_entries KingbusServer.apply]. change (0 + 1) with 1. by rewrite (bind_ok _ _ _ _ _ E2). }
  change (EtcdRaft.peer_entries ConfChange_Marshal 0 (p :: peers))
    with (EtcdRaft.peer_entry ConfChange_Marshal 1 p :: EtcdRaft.peer_entries ConfChange_Marshal 1 peers) in *.
  assert (KingbusServer.applyEntries ConfChange_Unmarshal clock (EtcdRaft.peer_entry ConfChange_Marshal 1 p ::
    EtcdRaft.peer_entries ConfChange_Marshal 1 peers) s = (Ok tt, s3)) as EE.
  { unfold KingbusServer.applyEntries. rewrite bind_gets, Hi.
    change (Entry.Index (EtcdRaft.peer_entry ConfChange_Marshal 1 p)) with 1.
    change (u64 (0 + 1) <? 1) with false. change (u64 (0 + 1 - 1)) with 0. cbv iota zeta.
    rewrite (proj2 (Z.ltb_lt 0 _)) by (rewrite blen_cons; pose proof (blen_nonneg
      (EtcdRaft.peer_entries ConfChange_Marshal 1 peers)); lia). change (Z.to_nat 0) with 0%nat. cbn [drop].
    by rewrite (bind_ok _ _ _ _ _ E). }
  unfold KingbusServer.applyAll. rewrite (bind_ok _ _ _ _ _ EE). eexists. split; [reflexivity|].
  cbn. rewrite Hi3, blen_cons, Hc3, Hc2, Hc1. split; [done|].
  destruct (server_same s3 (KingbusServer.mk (KingbusServer.id s3) (KingbusServer.cluster s3) (KingbusServer.binlogProgress s3)
    (KingbusServer.raft s3) (KingbusServer.appliedIndex s3) (KingbusServer.term s3) (KingbusServer.calls s3 ++ [KingbusServer.Notify])))
    as [Hok' Hsv']; [done..|]. rewrite Hi3, Hc3, Hc2, Hc1 in *. done.
Qed.

Context `{Settings}.
Abbreviation storage := (DiskStorage.t MetaStore.t * FS)%type.

(** A directory without a log, and a store that no node has used. *)
Record fresh (sd : storage) : Prop := {
  fr_segments : DiskStorage.Segments sd.1 = [];
  fr_log : ExistLog sd.2 = (false, sd.2);
  fr_up : store_up (DiskStorage.meta sd.1);
  fr_hard : MetaStore.bucket (DiskStorage.meta sd.1) !! HardStateKey = None;
  fr_conf : MetaStore.bucket (DiskStorage.meta sd.1) !! ConfStateKey = None;
  fr_cluster : MetaStore.bucket (DiskStorage.meta sd.1) !! RaftClusterKey = None }.

Lemma InitialState_none m : store_up m -> MetaStore.bucket m !! HardStateKey = None ->
  MetaStore.bucket m !! ConfStateKey = None -> MetaStore.InitialState m = (Ok (HardState.empty, ConfState.empty), m).
Proof.
  intros [Hc _] Hh Hcs. unfold MetaStore.InitialState.
  rewrite (bind_ok _ _ _ _ _ (Get_open m (StringToBytes HardStateKey) Hc ltac:(discriminate))).
  rewrite bytes_string, Hh. unfold MetaStore.decode_or, lift, bind at 1.
  rewrite (bind_ok _ _ _ _ _ (Get_open m (StringToBytes ConfStateKey) Hc ltac:(discriminate))).
  by rewrite bytes_string, Hcs.
Qed.

Lemma StartNode_fresh sd id tick peers : fresh sd -> id <> None_id -> 1 < tick ->
  EtcdRaft.StartNode ConfChange_Marshal (EtcdRaft.Config.mk id tick 1 0 maxInflightMsgs) peers sd =
    (Ok (EtcdRaft.mk (RaftConf.mk (list_to_set (map EtcdRaft.Peer.ID peers)) ∅ false) 1 0
           (blen (EtcdRaft.peer_entries ConfChange_Marshal 0 peers)) 0 0 (EtcdRaft.peer_entries ConfChange_Marshal 0 peers)), sd).
Proof.
  intros Hf Hid Ht. destruct sd as [ds fs]. unfold EtcdRaft.StartNode.
  assert (EtcdRaft.newRaft (EtcdRaft.Config.mk id tick 1 0 maxInflightMsgs) (ds, fs) =
    (Ok (EtcdRaft.mk (RaftConf.mk ∅ ∅ false) 0 0 0 0 0 []), (ds, fs))) as E.
  { unfold EtcdRaft.newRaft, EtcdRaft.Config.validate. cbn [EtcdRaft.Config.ID EtcdRaft.Config.HeartbeatTick
      EtcdRaft.Config.ElectionTick EtcdRaft.Config.MaxInflightMsgs EtcdRaft.Config.Applied].
    rewrite (proj2 (Z.eqb_neq _ _) Hid), (proj2 (Z.ltb_lt 1 tick) Ht).
    change (0 <? 1) with true. change (0 <? maxInflightMsgs) with true. cbn [negb andb].
    rewrite (bind_ok (obj DiskStorage.FirstIndex) _ _ _ _ eq_refl), (bind_ok (obj DiskStorage.LastIndex) _ _ _ _ eq_refl).
    cbn [fst]. unfold DiskStorage.FirstIndex, DiskStorage.LastIndex. rewrite (fr_segments _ Hf : DiskStorage.Segments ds = []).
    cbn [rev].
    pose proof (InitialState_none _ (fr_up _ Hf) (fr_hard _ Hf) (fr_conf _ Hf)) as EI. cbn [fst] in EI.
    erewrite bind_ok by (unfold fatal_on_err; rewrite (on_meta_ok _ ds fs _ EI); reflexivity).
    reflexivity. }
  rewrite (bind_ok _ _ _ _ _ E). unfold ret. cbn [EtcdRaft.conf EtcdRaft.Term EtcdRaft.Vote EtcdRaft.stable EtcdRaft.unstable
    EtcdRaft.applied app]. unfold EtcdRaft.lastIndex. cbn [EtcdRaft.stable EtcdRaft.unstable].
  rewrite add_nodes. change (0 + blen (A := Entry.t) []) with 0. change (0 =? 1) with false. cbv iota.
  rewrite Z.add_0_l. do 4 f_equal. clear. set_solver.
Qed.

Lemma not_bootstrapped http c name m : RaftCluster.MemberByName name c = Ok (Some m) ->
  RaftCluster.IsMemberBootstrapped http c name = Ok false.
Proof.
  intros Hm. unfold RaftCluster.IsMemberBootstrapped. rewrite Hm.
  assert (RaftCluster.getClusterFromRemotePeers http (RaftCluster.getRemotePeerURLs c name) <> Panic) as Hp.
  { induction (RaftCluster.getRemotePeerURLs c name) as [|u us IH]; [done|]. cbn. by destruct (http u) as [[[|] ?]|]. }
  destruct (RaftCluster.getClusterFromRemotePeers _ _); [|done..]. by destruct (RaftCluster.Member _ _).
Qed.

(** How a node starts a new cluster. *)
Lemma bootstrap_starts eq http cfg c sd :
  fresh sd -> RaftNodeConfig.NewCluster cfg = true -> RaftNodeConfig.VerifyBootstrap eq cfg = Ok tt ->
  RaftCluster.NewClusterFromURLsMap (RaftNodeConfig.InitialPeerURLsMap cfg) = Ok c ->
  RaftNodeConfig.HeartbeatMs cfg <> 0 ->
  1 < Z.quot (RaftNodeConfig.ElectionTimeoutMs cfg) (RaftNodeConfig.HeartbeatMs cfg) ->
  exists me peers, cluster_ok c /\ RaftCluster.MembersMap c !! Member.ID me = Some me /\
    Member.Name me = RaftNodeConfig.Name cfg /\ map EtcdRaft.Peer.ID peers = RaftCluster.MemberIDs c /\ peers <> [] /\
    Forall (peer_of c) peers /\
    Boot.start_raft ConfChange_Marshal eq http (Ok tt) cfg sd =
      (Ok (Boot.mk (Member.ID me) c (EtcdRaft.mk (RaftConf.mk (dom (RaftCluster.MembersMap c)) ∅ false) 1 0
             (blen (EtcdRaft.peer_entries ConfChange_Marshal 0 peers)) 0 0 (EtcdRaft.peer_entries ConfChange_Marshal 0 peers))
           0 [] (Boot.others (Member.ID me) (RaftCluster.Members c))), sd).
Proof.
  intros Hf Hnew Hver Hc Hh Ht. pose proof Hver as (urls & Hname & _ & Hnd & _ & _)%VerifyBootstrap_spec.
  pose proof (new_cluster_ok _ _ Hc Hnd) as Hok. destruct (new_cluster_members _ _ Hc) as (_ & Hms & Hz).
  pose proof (new_member_by_name _ _ Hc _ _ Hname) as Hme. set (me := Member.NewMember _ urls [] None) in *.
  assert (RaftCluster.MembersMap c !! Member.ID me = Some me) as Hin by (apply Hms; eauto).
  destruct (peers_of c (RaftCluster.MemberIDs c)) as (peers & Ep & Hids & Hpeers).
  { apply Forall_forall. intros id Hid. by apply (member_ids _ _ Hc). }
  assert (list_to_set (map EtcdRaft.Peer.ID peers) = dom (RaftCluster.MembersMap c)) as Hdom.
  { rewrite Hids. apply set_eq. intros id. rewrite elem_of_list_to_set, (member_ids _ _ Hc). by rewrite elem_of_dom. }
  assert (Member.ID me <> None_id) as Hid by (intros E; rewrite E in Hin; by rewrite Hz in Hin).
  pose proof (StartNode_fresh sd (Member.ID me) _ peers Hf Hid Ht) as ES. rewrite Hdom in ES.
  match type of ES with _ = (Ok ?x, _) => set (r := x) in * end.
  assert (Boot.startEtcdRaftNode ConfChange_Marshal cfg c (RaftCluster.MemberIDs c) sd = (Ok (Member.ID me, r), sd)) as EN.
  { unfold Boot.startEtcdRaftNode, Boot.election_tick. rewrite Hme, Ep, (proj2 (Z.eqb_neq _ _) Hh).
    unfold lift. erewrite bind_ok by reflexivity. rewrite !bind_must. erewrite bind_ok by reflexivity.
    rewrite (bind_ok _ _ _ _ _ ES). reflexivity. }
  exists me, peers. split; [done|]. split; [done|]. split; [done|]. split; [done|]. split.
  { intros ->. assert (Member.ID me ∈ RaftCluster.MemberIDs c) as He by (by apply (member_ids _ _ Hc); eexists).
    rewrite <- Hids in He. by apply not_elem_of_nil in He. }
  split.
  { eapply Forall_impl; [exact Hpeers|]. intros p (m & Hm & Hctx). split; [|by exists m]. intros E. by rewrite E, Hz in Hm. }
  assert (Boot.new_cluster ConfChange_Marshal eq http cfg sd = (Ok (Member.ID me, r, c, []), sd)) as EB.
  { unfold Boot.new_cluster, Boot.deferred, lift. rewrite Hver, Hc. do 2 (erewrite bind_ok by reflexivity).
    rewrite Hme. erewrite bind_ok by reflexivity. rewrite (not_bootstrapped http c _ me Hme).
    erewrite bind_ok by reflexivity. cbv iota. rewrite (bind_ok _ _ _ _ _ EN). reflexivity. }
  fold r. unfold Boot.start_raft. erewrite bind_ok; cycle 1.
  { unfold Boot.exist_log. rewrite (fr_log _ Hf). by destruct sd. }
  cbv iota. rewrite Hnew. erewrite bind_ok by (rewrite (bind_ok _ _ _ _ _ EB); reflexivity).
  reflexivity.
Qed.

Lemma peer_entries_length peers : forall i, blen (EtcdRaft.peer_entries ConfChange_Marshal i peers) = blen peers.
Proof. induction peers as [|p peers IH]; intros i; [done|]. cbn [EtcdRaft.peer_entries]. by rewrite !blen_cons, IH. Qed.

Lemma member_ids_size c : blen (RaftCluster.MemberIDs c) = Z.of_nat (size (RaftCluster.MembersMap c)).
Proof.
  unfold blen, RaftCluster.MemberIDs. rewrite (Permutation_length (merge_sort_Permutation _ _)), length_map.
  by rewrite values_length.
Qed.

(** C14: A node that starts a new cluster computes the cluster of the configuration,
    with every configured node as a voter of the raft library and itself under its name,
    and begins with one committed entry for each member. When these entries are applied, in the
    order of the ids, the cluster and the configuration of the raft library are in the
    store, as they are in memory. *)
Theorem cluster_bootstraps eq http clock cfg c sd :
  fresh sd -> RaftNodeConfig.NewCluster cfg = true -> RaftNodeConfig.VerifyBootstrap eq cfg = Ok tt ->
  RaftCluster.NewClusterFromURLsMap (RaftNodeConfig.InitialPeerURLsMap cfg) = Ok c ->
  RaftNodeConfig.HeartbeatMs cfg <> 0 ->
  1 < Z.quot (RaftNodeConfig.ElectionTimeoutMs cfg) (RaftNodeConfig.HeartbeatMs cfg) ->
  exists b m, Boot.start_raft ConfChange_Marshal eq http (Ok tt) cfg sd = (Ok b, sd) /\
    Boot.cluster b = c /\ RaftCluster.MembersMap c !! Boot.id b = Some m /\ Member.Name m = RaftNodeConfig.Name cfg /\
    Boot.appliedIndex b = 0 /\ EtcdRaft.conf (Boot.raft b) = RaftConf.mk (dom (RaftCluster.MembersMap c)) ∅ false /\
    EtcdRaft.committed (Boot.raft b) = Z.of_nat (size (RaftCluster.MembersMap c)) /\
    forall s, KingbusServer.cluster s = c -> KingbusServer.store s = DiskStorage.meta sd.1 ->
      KingbusServer.raft s = EtcdRaft.conf (Boot.raft b) -> KingbusServer.appliedIndex s = 0 ->
      exists s', KingbusServer.applyAll ConfChange_Unmarshal clock (EtcdRaft.unstable (Boot.raft b)) s = (Ok tt, s') /\
        KingbusServer.cluster s' = c /\ server_ok s' /\ conf_saved s' /\
        KingbusServer.appliedIndex s' = EtcdRaft.committed (Boot.raft b).
Proof.
  intros Hf Hnew Hver Hc Hh Ht.
  destruct (bootstrap_starts eq http cfg c sd Hf Hnew Hver Hc Hh Ht) as (me & peers & Hok & Hin & Hname & Hids & Hne & Hpeers & E).
  eexists _, me. split; [exact E|]. repeat (split; [done|]). cbn [Boot.raft EtcdRaft.committed EtcdRaft.conf EtcdRaft.unstable].
  rewrite peer_entries_length. split.
  { rewrite <- member_ids_size, <- Hids. unfold blen. by rewrite length_map. }
  intros s Hsc Hss Hsr Hsi. destruct (bootstrap_applied clock peers s Hne) as (s' & E' & Hc' & Hok' & Hsv & Hi');
    [by rewrite Hsc| |done|].
  { split; [by rewrite Hsc|rewrite Hss; apply Hf|rewrite Hss; apply Hf|by rewrite Hsr|by rewrite Hsr|by rewrite Hsr, Hsc]. }
  exists s'. rewrite Hc'. done.
Qed.
End first.

(** * Changes that are applied again *)

(** The applied index is stored only with the progress of the replication, so
    that a restarted server applies the last changes a second time. *)
Section replay.
Context `{JsonLaws HardState.t} `{JsonLaws ConfState.t} `{JsonLaws RaftCluster.t} `{JsonLaws Member.t}.

(** Every change of the list is accepted, from the cluster [c] on. *)
Fixpoint all_accepted (ccs : list ConfChange.t) (c : RaftCluster.t) : Prop :=
  match ccs with
  | [] => True
  | cc :: ccs' => valid cc c = Ok tt /\ all_accepted ccs' (apply_change cc c)
  end.

(** The change has been made: a member that it adds is there or was removed
    since, one that it removes is out. *)
Definition settled (c : RaftCluster.t) (cc : ConfChange.t) : Prop :=
  match ConfChange.Type_ cc with
  | ConfChangeAddNode => is_Some (RaftCluster.MembersMap c !! ConfChange.NodeID cc) \/
                         RaftCluster.RemovedMap c !! ConfChange.NodeID cc = Some true
  | ConfChangeRemoveNode => RaftCluster.RemovedMap c !! ConfChange.NodeID cc = Some true
  | _ => True
  end.

(** What a change leaves of the members: who they are, and who was removed. *)
Definition same_ids (c c' : RaftCluster.t) : Prop :=
  dom (RaftCluster.MembersMap c') = dom (RaftCluster.MembersMap c) /\ RaftCluster.RemovedMap c' = RaftCluster.RemovedMap c.

Lemma settled_same c c' cc : same_ids c c' -> settled c cc -> settled c' cc.
Proof.
  intros [Hd Hr]. unfold settled. rewrite Hr. destruct (ConfChange.Type_ cc); try done.
  intros [Hm|Hm]; [left|by right]. by rewrite <- elem_of_dom, Hd, elem_of_dom.
Qed.

Lemma settled_after cc c cc' : settled c cc -> settled (apply_change cc' c) cc.
Proof.
  unfold settled, apply_change. intros Hs.
  destruct (ConfChange.Type_ cc'), (json_Unmarshal (ConfChange.Context_ cc')) as [m|]; try done;
    try (destruct (RaftCluster.MembersMap c !! ConfChange.NodeID cc') as [m0|] eqn:E0; [|done]); cbn;
    destruct (ConfChange.Type_ cc); try done; rewrite ?lookup_insert_is_Some, ?lookup_delete_is_Some;
    destruct (decide (ConfChange.NodeID cc' = ConfChange.NodeID cc)) as [->|Hne]; rewrite ?lookup_insert_eq;
    rewrite ?lookup_insert_ne by done; intuition.
Qed.

Lemma change_settles cc c : change_fits cc -> valid cc c = Ok tt -> settled (apply_change cc c) cc.
Proof.
  intros [_ Hf] Hv. unfold settled, apply_change. destruct (ConfChange.Type_ cc); try done.
  - destruct Hf as (m & -> & _). left. cbn. by rewrite lookup_insert_eq.
  - cbn. by rewrite lookup_insert_eq.
Qed.

(** A settled change keeps the ids when it is applied. *)
Lemma settled_keeps cc c : change_fits cc -> settled c cc -> valid cc c = Ok tt -> same_ids c (apply_change cc c).
Proof.
  intros [_ Hf] Hs. unfold valid, RaftCluster.validate, settled, same_ids, apply_change in *.
  destruct (ConfChange.Type_ cc); try done.
  - destruct Hs as [[m Hm]| ->]; [|done]. rewrite Hm. by destruct (default false _).
  - by rewrite Hs.
  - destruct Hf as (m & -> & _). destruct (default false _); [done|].
    destruct (RaftCluster.MembersMap c !! ConfChange.NodeID cc) as [m0|] eqn:E0; [|done]. intros _. cbn.
    split; [|done]. rewrite dom_insert_lookup_L; [done|by eexists].
Qed.

Lemma accepted_run ccs : forall s, server_ok s -> Forall change_fits ccs -> all_accepted ccs (KingbusServer.cluster s) ->
  exists s', apply_changes ccs s = (Ok tt, s') /\ server_ok s' /\
    (forall cc, settled (KingbusServer.cluster s) cc -> settled (KingbusServer.cluster s') cc) /\
    Forall (settled (KingbusServer.cluster s')) ccs.
Proof.
  induction ccs as [|cc ccs IH]; intros s Hs Hf Ha; [by exists s|].
  apply Forall_cons in Hf as [Hf Hfs]. destruct Ha as [Hv Ha].
  destruct (accepted_ok cc s Hs Hf Hv) as (s1 & E & Hc & Hok & _). rewrite <- Hc in Ha.
  destruct (IH s1 Hok Hfs Ha) as (s2 & E2 & Hok2 & Hkeep & Hset). exists s2. cbn [apply_changes].
  rewrite (bind_ok _ _ _ _ _ E). split; [done|]. split; [done|]. split.
  - intros cc' Hcc. apply Hkeep. rewrite Hc. by apply settled_after.
  - constructor; [|done]. apply Hkeep. rewrite Hc. by apply change_settles.
Qed.

(** One change, accepted or not. *)
Lemma change_run cc s : server_ok s -> change_fits cc ->
  exists r s', KingbusServer.applyConfChange cc s = (Ok r, s') /\ server_ok s' /\
    KingbusServer.cluster s' = match valid cc (KingbusServer.cluster s) with
      Ok _ => apply_change cc (KingbusServer.cluster s) | _ => KingbusServer.cluster s end.
Proof.
  intros Hs Hf. destruct (valid cc (KingbusServer.cluster s)) as [[]|e|] eqn:Hv; [| |by apply valid_no_panic in Hv].
  - destruct (accepted_ok cc s Hs Hf Hv) as (s1 & E & Hc & Hok & _). eauto.
  - destruct (refused_ok cc e s Hs Hv) as (s1 & E & Hc & _ & Hok & _). eauto.
Qed.

Lemma settled_run ccs : forall s, server_ok s -> Forall change_fits ccs -> Forall (settled (KingbusServer.cluster s)) ccs ->
  exists s', apply_changes ccs s = (Ok tt, s') /\ server_ok s' /\
    same_ids (KingbusServer.cluster s) (KingbusServer.cluster s').
Proof.
  induction ccs as [|cc ccs IH]; intros s Hs Hf Hset; [by exists s|].
  apply Forall_cons in Hf as [Hf Hfs]. apply Forall_cons in Hset as [Hset Hsets]. cbn [apply_changes].
  destruct (change_run cc s Hs Hf) as (r & s1 & E & Hok & Hc).
  assert (same_ids (KingbusServer.cluster s) (KingbusServer.cluster s1)) as Hsame.
  { rewrite Hc. destruct (valid cc (KingbusServer.cluster s)) as [[]| |] eqn:Hv; [by apply settled_keeps|done..]. }
  destruct (IH s1 Hok Hfs) as (s2 & E2 & Hok2 & Hsame2).
  { eapply Forall_impl; [exact Hsets|]. intros cc'. by apply settled_same. }
  exists s2. rewrite (bind_ok _ _ _ _ _ E). split; [done|]. split; [done|].
  destruct Hsame as [Hd1 Hr1], Hsame2 as [Hd2 Hr2]. split; [by rewrite Hd2, Hd1|by rewrite Hr2, Hr1].
Qed.

(** C27: When all changes of the members were accepted, applying any of the last ones
    a second time after a restart changes neither who the members are nor who was removed nor
    the voters of the raft library. *)
Theorem replay_keeps_members ccs s k :
  server_ok s -> Forall change_fits ccs -> all_accepted ccs (KingbusServer.cluster s) ->
  exists s' s'', apply_changes ccs s = (Ok tt, s') /\ apply_changes (drop k ccs) s' = (Ok tt, s'') /\ server_ok s'' /\
    dom (RaftCluster.MembersMap (KingbusServer.cluster s'')) = dom (RaftCluster.MembersMap (KingbusServer.cluster s')) /\
    RaftCluster.RemovedMap (KingbusServer.cluster s'') = RaftCluster.RemovedMap (KingbusServer.cluster s') /\
    RaftConf.prs (KingbusServer.raft s'') = RaftConf.prs (KingbusServer.raft s').
Proof.
  intros Hs Hf Ha. destruct (accepted_run ccs s Hs Hf Ha) as (s' & E & Hok & _ & Hset).
  destruct (settled_run (drop k ccs) s' Hok) as (s'' & E2 & Hok2 & Hd & Hr); [by apply Forall_drop..|].
  exists s', s''. split; [done|]. split; [done|]. split; [done|]. split; [done|]. split; [done|].
  by rewrite (server_voters _ Hok2), (server_voters _ Hok), Hd.
Qed.

Lemma change_other cc c id : ConfChange.NodeID cc <> id ->
  RaftCluster.MembersMap (apply_change cc c) !! id = RaftCluster.MembersMap c !! id.
Proof.
  intros Hne. unfold apply_change.
  destruct (ConfChange.Type_ cc), (json_Unmarshal (ConfChange.Context_ cc)) as [m|]; try done;
    try (destruct (RaftCluster.MembersMap c !! ConfChange.NodeID cc) eqn:E0; [|done]); cbn;
    by rewrite ?lookup_insert_ne, ?lookup_delete_ne by done.
Qed.

(** A change that was refused can be accepted when it is applied again: a member
    that was refused, because of a URL that it shares with one that was removed after it, is
    in the cluster of a restarted server, and in no other. *)
Theorem replay_admits_refused cc cc' s e :
  server_ok s -> change_fits cc -> change_fits cc' ->
  ConfChange.Type_ cc = ConfChangeAddNode -> ConfChange.NodeID cc' <> ConfChange.NodeID cc ->
  valid cc (KingbusServer.cluster s) = Err e -> valid cc' (KingbusServer.cluster s) = Ok tt ->
  valid cc (apply_change cc' (KingbusServer.cluster s)) = Ok tt ->
  exists s1 s2, apply_changes [cc; cc'] s = (Ok tt, s1) /\ apply_changes [cc; cc'] s1 = (Ok tt, s2) /\
    RaftCluster.MembersMap (KingbusServer.cluster s1) !! ConfChange.NodeID cc = None /\
    (ConfChange.NodeID cc ∈ RaftConf.prs (KingbusServer.raft s2)).
Proof.
  intros Hs Hf Hf' Hty Hne Hv Hv' Hva.
  destruct (change_run cc s Hs Hf) as (r1 & sa & Ea & Hoka & Hca). rewrite Hv in Hca.
  destruct (change_run cc' sa Hoka Hf') as (r2 & s1 & Eb & Hok1 & Hc1). rewrite Hca, Hv' in Hc1.
  destruct (change_run cc s1 Hok1 Hf) as (r3 & sc & Ec & Hokc & Hcc). rewrite Hc1, Hva in Hcc.
  destruct (change_run cc' sc Hokc Hf') as (r4 & s2 & Ed & Hok2 & Hc2).
  exists s1, s2. cbn [apply_changes].
  split; [by rewrite (bind_ok _ _ _ _ _ Ea), (bind_ok _ _ _ _ _ Eb)|].
  split; [by rewrite (bind_ok _ _ _ _ _ Ec), (bind_ok _ _ _ _ _ Ed)|]. split.
  - rewrite Hc1. unfold valid, RaftCluster.validate in Hva. rewrite Hty in Hva. destruct (default false _); [done|].
    by destruct (RaftCluster.MembersMap (apply_change cc' (KingbusServer.cluster s)) !! ConfChange.NodeID cc).
  - rewrite (server_voters _ Hok2), elem_of_dom, Hc2.
    assert (is_Some (RaftCluster.MembersMap (KingbusServer.cluster sc) !! ConfChange.NodeID cc)) as Hin.
    { rewrite Hcc. unfold apply_change at 1. destruct Hf as [_ Hf]. rewrite Hty in *. destruct Hf as (m & -> & _).
      cbn. by rewrite lookup_insert_eq. }
    destruct (valid cc' (KingbusServer.cluster sc)); [by rewrite change_other|done..].
Qed.
End replay.

(** * Samples *)

#[local] Existing Instance hard_state_json.
#[local] Existing Instance conf_state_json.
#[local] Existing Instance cluster_json.
#[local] Existing Instance member_json.
#[local] Existing Instance cluster_laws.
#[local] Existing Instance member_laws.
#[local] Existing Instance conf_state_laws.
#[local] Existing Instance hard_state_laws.
#[local] Instance attributes_json : Json Attributes.t := code_json _.
#[local] Instance syncer_args_json : Json SyncerArgs.t := code_json _.
#[local] Instance master_info_json : Json MasterInfo.t := code_json _.
#[local] Instance gtid_purged_json : Json MasterGtidPurged.t := code_json _.

Definition new_cfg : RaftNodeConfig.t := RaftNodeConfig.mk "n1" 0 ["http://h1:1"]
  {[ "n1" := ["http://h1:1"]; "n2" := ["http://h2:1"] ]} MaxRequestBytes 100 1000 true true "/data" 4 true.
Definition new_storage : DiskStorage.t MetaStore.t * FS := (DiskStorage.mk [] 4 false [] new_store, quiet ∅).

Lemma new_storage_fresh : fresh new_storage.
Proof. by split. Qed.

Lemma cluster_bootstraps_witness :
  exists b, Boot.start_raft sample_marshal (fun _ _ => true) (fun _ => None) (Ok tt) new_cfg new_storage = (Ok b, new_storage) /\
    EtcdRaft.committed (Boot.raft b) = Z.of_nat (size (RaftCluster.MembersMap (Boot.cluster b))).
Proof.
  destruct (RaftCluster.NewClusterFromURLsMap (RaftNodeConfig.InitialPeerURLsMap new_cfg)) as [c|e|] eqn:Ec;
    [|by vm_compute in Ec..].
  destruct (cluster_bootstraps sample_marshal sample_unmarshal sample_marshal_law (fun _ _ => true) (fun _ => None)
    (fun _ => 0) new_cfg c new_storage new_storage_fresh) as (b & m & E & Hb & _ & _ & _ & _ & Hco & _).
  - reflexivity.
  - vm_compute. reflexivity.
  - exact Ec.
  - discriminate.
  - vm_compute. reflexivity.
  - exists b. split; [exact E|]. rewrite Hb. exact Hco.
Defined.

Lemma replay_keeps_members_witness :
  exists s' s'', apply_changes [add_change (sample_member 5 "http://n5" ""); remove_change 2] conf_server = (Ok tt, s') /\
    apply_changes [add_change (sample_member 5 "http://n5" ""); remove_change 2] s' = (Ok tt, s'') /\
    dom (RaftCluster.MembersMap (KingbusServer.cluster s'')) = dom (RaftCluster.MembersMap (KingbusServer.cluster s')).
Proof.
  destruct (replay_keeps_members [add_change (sample_member 5 "http://n5" ""); remove_change 2] conf_server 0 conf_server_ok)
    as (s' & s'' & E & E' & _ & Hd & _).
  - constructor; [by apply add_change_fits|constructor; [by split|constructor]].
  - split; [vm_compute; reflexivity|]. split; [vm_compute; reflexivity|exact I].
  - exists s', s''. split; [exact E|]. split; [exact E'|exact Hd].
Defined.

(** The member 5 comes with the URL of the member 2, which is removed then. *)
Lemma replay_admits_refused_witness :
  exists s1 s2, apply_changes [add_change (sample_member 5 "http://n2" ""); remove_change 2] conf_server = (Ok tt, s1) /\
    apply_changes [add_change (sample_member 5 "http://n2" ""); remove_change 2] s1 = (Ok tt, s2) /\
    RaftCluster.MembersMap (KingbusServer.cluster s1) !! 5 = None /\ (5 ∈ RaftConf.prs (KingbusServer.raft s2)).
Proof.
  apply (replay_admits_refused (add_change (sample_member 5 "http://n2" "")) (remove_change 2) conf_server ErrPeerURLexists
    conf_server_ok).
  - by apply add_change_fits.
  - by split.
  - reflexivity.
  - discriminate.
  - vm_compute. reflexivity.
  - vm_compute. reflexivity.
  - vm_compute. reflexivity.
Defined.
