(* ===== verification/Join.v ===== *)
(** A node that joins an existing cluster: what the requests of
    raft/membership/cluster.go for the members get from the peers of raft/peer_handler.go, and which
    ids the node takes over when a peer answers them. *)
From S2P Require Import Prelude.
From S2P Require Import Names.
From S2P Require Import Wire.
From S2P Require Import Text.
From S2P Require Import Disk.
From S2P Require Import Segments.
From S2P Require Import Storage.
From S2P Require Import Samples.
From S2P Require Import Events.
From S2P Require Import MetaStore.
From S2P Require Import MetaTheorems.
From S2P Require Import Membership.
From S2P Require Import Config.
From S2P Require Import NodeConfig.
From S2P Require Import Apply.
From S2P Require Import ConfTheorems.
From S2P Require Import Admin.
From S2P Require Import Boot.
From S2P Require Import Bootstrap.
From Stdlib Require Import Ascii.
From stdpp Require Import sorting list strings.
Local Open Scope string_scope.
Local Open Scope list_scope.
Local Open Scope Z_scope.
Local Open Scope go_scope.

(** * The requests *)

(** The handlers of the mux of [SetPeerHandler]. *)
Inductive peer_handler : Type := NotFound | RaftHandler.

Definition RaftPrefix : string := "/raft".

(** [http.ServeMux]: the pattern [RaftPrefix] matches itself, [RaftPrefix + "/"] every
    path that starts with it, and ["/"] the rest. *)
Definition peer_mux (path : string) : peer_handler :=
  if String.eqb path RaftPrefix || String.prefix (RaftPrefix +:+ "/") path then RaftHandler else NotFound.

(** What [http.NotFound] writes. *)
Definition not_found_body : bytes := StringToBytes ("404 page not found" +:+ String "010"%char EmptyString).

(** The body of a response and its [X-Etcd-Cluster-ID] as a number, if it has one;
    [raft_response] is that of the transport. *)
Definition peer_response (raft_response : string -> bytes * option Z) (path : string) : bytes * option Z :=
  match peer_mux path with
  | NotFound => (not_found_body, None)
  | RaftHandler => raft_response path
  end.

(** The request for the members to the peer [u] and the decoding of the response;
    [up] tells whether the peer can be reached. *)
Definition get_members (Unmarshal : bytes -> option (list Member.t)) (raft_response : string -> bytes * option Z)
    (up : string -> bool) (u : string) : option (list Member.t * Z) :=
  if negb (up u) then None else
  let '(b, header) := peer_response raft_response "/members" in
  match Unmarshal b with
  | None => None
  | Some membs => match header with None => None | Some id => Some (membs, id) end
  end.

Section join.
Context `{Settings} `{Json HardState.t} `{Json ConfState.t} `{Json RaftCluster.t} `{Json Member.t}.
Context (ConfChange_Marshal : ConfChange.t -> bytes) (URLStringsEqual : list string -> list string -> bool).
Abbreviation storage := (DiskStorage.t MetaStore.t * FS)%type.

Lemma no_members (http : string -> option (list Member.t * Z)) urls :
  (forall u, http u = None) -> RaftCluster.GetClusterFromRemotePeers http urls = Err ErrFormat.
Proof. intros Hn. induction urls as [|u urls IH]; [done|]. cbn. by rewrite Hn. Qed.

(** C31: No node can join a running cluster: the members are asked of the peer URLs
    of the other nodes, whose listeners answer every path outside of raft with 404, so that a start
    of a node without a log in a cluster that exists ends with an error, whoever can be reached. *)
Theorem join_cannot_fetch Unmarshal raft_response up tr cfg c (sd : storage) :
  ExistLog sd.2 = (false, sd.2) -> RaftNodeConfig.NewCluster cfg = false ->
  RaftNodeConfig.VerifyJoinExisting cfg = Ok tt ->
  RaftCluster.NewClusterFromURLsMap (RaftNodeConfig.InitialPeerURLsMap cfg) = Ok c ->
  Boot.start_raft ConfChange_Marshal URLStringsEqual (get_members Unmarshal raft_response up) tr cfg sd =
    (Err ErrFetchCluster, sd).
Proof.
  intros Hlog Hnew Hver Hc. unfold Boot.start_raft. erewrite bind_ok; cycle 1.
  { unfold Boot.exist_log. rewrite Hlog. by destruct sd. }
  cbv iota. rewrite Hnew. unfold Boot.join_existing, Boot.deferred, lift. rewrite Hver, Hc.
  unfold bind. rewrite no_members; [done|]. intros u. unfold get_members. destruct (negb (up u)); [done|].
  change (peer_response raft_response "/members") with (not_found_body, @None Z).
  cbv iota beta. by destruct (Unmarshal not_found_body).
Qed.

(** * A peer that answers *)

Lemma assign_ids_spec ems : forall lms lms', length ems = length lms -> RaftCluster.assign_ids URLStringsEqual ems lms = Some lms' ->
  Forall2 (fun e m => Member.ID m = Member.ID e /\ URLStringsEqual (Member.PeerURLs e) (Member.PeerURLs m) = true) ems lms' /\
  Forall2 (fun l m => m = Member.mk (Member.ID m) (Member.PeerURLs l) (Member.Name l) (Member.AdminURLs l)) lms lms'.
Proof.
  induction ems as [|e ems IH]; intros [|l lms] lms' Hlen E; try done; cbn in E.
  { injection E as <-. by split. }
  destruct (URLStringsEqual _ _) eqn:Eu; [|done]. destruct (RaftCluster.assign_ids _ ems lms) as [ms|] eqn:Ea; [|done].
  injection E as <-. destruct (IH lms ms ltac:(cbn in Hlen; lia) Ea) as [Hi Hn]. split; constructor; done.
Qed.

(** The map that is made of a list of members with different ids. *)
Lemma fold_members (l : list Member.t) : forall (m0 : gmap Z Member.t) i m, NoDup (map Member.ID l) -> (forall x, x ∈ l -> m0 !! Member.ID x = None) ->
  foldl (fun m x => <[Member.ID x := x]> m) m0 l !! i = Some m <-> m0 !! i = Some m \/ m ∈ l /\ Member.ID m = i.
Proof.
  induction l as [|x l IH]; intros m0 i m Hnd H0'; cbn [foldl].
  { split; [by left|]. intros [?|[?%not_elem_of_nil _]]; done. }
  cbn in Hnd. apply NoDup_cons in Hnd as [Hx Hnd].
  assert (forall y, y ∈ l -> Member.ID y <> Member.ID x) as Hxy.
  { intros y Hy E. apply Hx. apply list_elem_of_fmap. by exists y. }
  rewrite IH; [|done|].
  - rewrite elem_of_cons. destruct (decide (Member.ID x = i)) as [<-|Hne].
    + rewrite lookup_insert_eq, (H0' x) by left. split.
      * intros [[= <-]|[Hm E]]; [right; split; [by left|done]|by destruct (Hxy m Hm)].
      * intros [?|[[->|Hm] E]]; [done|by left|by destruct (Hxy m Hm)].
    + rewrite lookup_insert_ne by done. split; [intros [?|[? ?]]; [by left|right; split; [by right|done]]|].
      intros [?|[[->|?] E]]; [by left|done|by right].
  - intros y Hy. rewrite lookup_insert_ne by (intros E; by apply (Hxy y Hy)). apply H0'. by right.
Qed.

Definition keyed (c : RaftCluster.t) : Prop := map_Forall (fun i m => Member.ID m = i) (RaftCluster.MembersMap c).

Lemma Members_elem c m : m ∈ RaftCluster.Members c <-> exists i, RaftCluster.MembersMap c !! i = Some m.
Proof.
  rewrite (Members_values c). split; [apply values_elem|]. intros [i Hi]. unfold RaftCluster.values.
  apply list_elem_of_fmap. exists (i, m). split; [done|]. by apply elem_of_map_to_list.
Qed.

Lemma values_NoDup c : keyed c -> NoDup (map Member.ID (RaftCluster.values (RaftCluster.MembersMap c))).
Proof.
  intros Hk. assert (map Member.ID (RaftCluster.values (RaftCluster.MembersMap c)) = (map_to_list (RaftCluster.MembersMap c)).*1) as ->;
    [|apply NoDup_fst_map_to_list].
  unfold RaftCluster.values. change (map Member.ID ?l) with (Member.ID <$> l). rewrite <- list_fmap_compose.
  apply list_fmap_ext. intros k [i m] Hi. apply list_elem_of_lookup_2, elem_of_map_to_list in Hi. cbn. by apply Hk in Hi.
Qed.

Lemma Members_NoDup c : keyed c -> NoDup (map Member.ID (RaftCluster.Members c)).
Proof. intros Hk. rewrite (Permutation_map Member.ID (Members_values c)). by apply values_NoDup. Qed.

(** The local members with the ids of the existing ones that have their URLs. *)
Lemma validated c ex cl : keyed ex -> RaftCluster.ValidateClusterAndAssignIDs URLStringsEqual c ex = Ok cl ->
  exists l, (forall i m, RaftCluster.MembersMap cl !! i = Some m <-> m ∈ l /\ Member.ID m = i) /\ NoDup (map Member.ID l) /\
    map Member.ID l ≡ₚ map Member.ID (RaftCluster.Members ex) /\ map Member.Name l ≡ₚ map Member.Name (RaftCluster.Members c) /\
    (forall m, m ∈ l -> exists e, e ∈ RaftCluster.Members ex /\ Member.ID m = Member.ID e /\
       URLStringsEqual (Member.PeerURLs e) (Member.PeerURLs m) = true).
Proof.
  intros Hk E. unfold RaftCluster.ValidateClusterAndAssignIDs, RaftCluster.sort_by_url in E.
  destruct (negb _) eqn:El; [done|]. apply negb_false_iff, Z.eqb_eq in El.
  destruct (_ && _); [done|]. destruct (_ && _); [done|].
  set (ems := merge_sort _ (RaftCluster.Members ex)) in E. set (lms := merge_sort _ (RaftCluster.Members c)) in E.
  assert (ems ≡ₚ RaftCluster.Members ex) as He by apply merge_sort_Permutation.
  assert (lms ≡ₚ RaftCluster.Members c) as Hl by apply merge_sort_Permutation.
  destruct (RaftCluster.assign_ids _ ems lms) as [l|] eqn:Ea; [|done]. injection E as <-.
  assert (length ems = length lms) as Hlen by (rewrite He, Hl; lia).
  destruct (assign_ids_spec ems lms l Hlen Ea) as [Hi Hn]. exists l.
  assert (map Member.ID l = map Member.ID ems) as Hids by (clear -Hi; induction Hi as [|e m ? ? [? _] ? IH]; cbn; congruence).
  assert (map Member.Name l = map Member.Name lms) as Hnames.
  { clear -Hn. induction Hn as [|e m ? ? E ? IH]; cbn; [done|]. by rewrite E, IH. }
  assert (map Member.ID l ≡ₚ map Member.ID (RaftCluster.Members ex)) as Hp.
  { rewrite Hids. by apply Permutation_map. }
  assert (NoDup (map Member.ID l)) as Hnd by (rewrite Hp; by apply Members_NoDup). split.
  { intros i m. cbn. rewrite fold_members; [|done|intros; apply lookup_empty]. rewrite lookup_empty. by split; [intros [?|?]|right]. }
  split; [done|]. split; [done|]. split; [rewrite Hnames; by apply Permutation_map|].
  intros m Hm. apply list_elem_of_lookup in Hm as [k Hm]. destruct (Forall2_lookup_r _ _ _ _ _ Hi Hm) as (e & Hek & Hid & Hu).
  exists e. split; [rewrite <- He; by eapply list_elem_of_lookup_2|done].
Qed.

Lemma joined_dom ex cl l : keyed ex ->
  (forall i m, RaftCluster.MembersMap cl !! i = Some m <-> m ∈ l /\ Member.ID m = i) ->
  map Member.ID l ≡ₚ map Member.ID (RaftCluster.Members ex) ->
  dom (RaftCluster.MembersMap cl) = dom (RaftCluster.MembersMap ex).
Proof.
  intros Hk Hlk Hids. apply set_eq. intros i. rewrite !elem_of_dom. transitivity (i ∈ map Member.ID l).
  - rewrite list_elem_of_fmap. split; [intros [m [Hm Hi]%Hlk]; by exists m|intros (m & -> & Hm); exists m; by apply Hlk].
  - rewrite Hids, list_elem_of_fmap. split.
    + intros (m & -> & [j Hm]%Members_elem). rewrite (Hk _ _ Hm). by exists m.
    + intros [m Hm]. exists m. split; [symmetry; by apply Hk|]. apply Members_elem. by exists i.
Qed.

(** A name that one member has locally is that of one member. *)
Lemma named_member c cl l :
  (forall i m, RaftCluster.MembersMap cl !! i = Some m <-> m ∈ l /\ Member.ID m = i) -> NoDup (map Member.ID l) ->
  map Member.Name l ≡ₚ map Member.Name (RaftCluster.Members c) ->
  forall name, (exists m, RaftCluster.MemberByName name c = Ok (Some m)) ->
  exists me, RaftCluster.MemberByName name cl = Ok (Some me) /\ me ∈ l /\ Member.Name me = name.
Proof.
  intros Hlk Hnd Hnames name [m0 Hm0].
  assert (forall l', length (filter (fun m => Member.Name m = name) l') = length (filter (fun n => n = name) (map Member.Name l'))) as Hcount.
  { induction l' as [|m l' IH]; [done|]. cbn [map]. rewrite !filter_cons. repeat case_decide; cbn; congruence. }
  assert (RaftCluster.values (RaftCluster.MembersMap cl) ≡ₚ l) as Hv.
  { apply NoDup_Permutation.
    - apply (NoDup_fmap_1 Member.ID). apply values_NoDup. intros i m Hm. by apply Hlk in Hm as [_ ?].
    - by apply (NoDup_fmap_1 Member.ID).
    - intros m. split.
      + intros [i Hi]%values_elem. by apply Hlk in Hi as [? _].
      + intros Hm. rewrite <- (Members_values cl). apply Members_elem. exists (Member.ID m). by apply Hlk. }
  assert (length (filter (fun m => Member.Name m = name) (RaftCluster.values (RaftCluster.MembersMap cl))) = 1%nat) as Hone.
  { rewrite Hv, Hcount, Hnames, <- Hcount. rewrite (Members_values c). unfold RaftCluster.MemberByName in Hm0.
    by destruct (filter _ _) as [|x [|y k]]. }
  unfold RaftCluster.MemberByName. destruct (filter _ (RaftCluster.values _)) as [|me [|? ?]] eqn:Ef; try done.
  assert (me ∈ filter (fun m => Member.Name m = name) (RaftCluster.values (RaftCluster.MembersMap cl))) as Hin by (rewrite Ef; left).
  apply list_elem_of_filter in Hin as [Hn Hin]. exists me. split; [by destruct me|]. split; [by rewrite <- Hv|done].
Qed.

(** C30: A node that gets the members from a peer joins under the id that the
    cluster has given it: its cluster has the id and the ids of the members of the existing one, each with
    the URLs of its member there, and the node is the member of its name. Its log and its
    configuration are empty, it waits for the leader. *)
Theorem node_joins http tr cfg c ex cl (sd : storage) :
  Bootstrap.fresh sd -> RaftNodeConfig.NewCluster cfg = false -> RaftNodeConfig.VerifyJoinExisting cfg = Ok tt ->
  RaftCluster.NewClusterFromURLsMap (RaftNodeConfig.InitialPeerURLsMap cfg) = Ok c ->
  RaftCluster.GetClusterFromRemotePeers http (RaftCluster.GetRemotePeerURLs c (RaftNodeConfig.Name cfg)) = Ok ex ->
  keyed ex -> RaftCluster.MembersMap ex !! None_id = None ->
  RaftCluster.ValidateClusterAndAssignIDs URLStringsEqual c ex = Ok cl ->
  RaftNodeConfig.HeartbeatMs cfg <> 0 ->
  1 < Z.quot (RaftNodeConfig.ElectionTimeoutMs cfg) (RaftNodeConfig.HeartbeatMs cfg) -> tr = Ok tt ->
  exists b me, Boot.start_raft ConfChange_Marshal URLStringsEqual http tr cfg sd = (Ok b, sd) /\
    RaftCluster.ID (Boot.cluster b) = RaftCluster.ID ex /\
    dom (RaftCluster.MembersMap (Boot.cluster b)) = dom (RaftCluster.MembersMap ex) /\
    (forall i m, RaftCluster.MembersMap (Boot.cluster b) !! i = Some m ->
       exists e, RaftCluster.MembersMap ex !! i = Some e /\ URLStringsEqual (Member.PeerURLs e) (Member.PeerURLs m) = true) /\
    RaftCluster.MembersMap (Boot.cluster b) !! Boot.id b = Some me /\ Member.Name me = RaftNodeConfig.Name cfg /\
    EtcdRaft.lastIndex (Boot.raft b) = 0 /\ RaftConf.prs (EtcdRaft.conf (Boot.raft b)) = ∅.
Proof.
  intros Hf Hnew Hver Hc Hex Hk Hz Hval Hh Ht ->.
  destruct (validated c ex cl Hk Hval) as (l & Hlk & Hnd & Hids & Hnames & Hall).
  destruct (named_member c cl l Hlk Hnd Hnames (RaftNodeConfig.Name cfg)) as (me & Hme & Hin & Hname).
  { unfold RaftNodeConfig.VerifyJoinExisting, RaftNodeConfig.hasLocalMember in Hver.
    destruct (RaftNodeConfig.InitialPeerURLsMap cfg !! RaftNodeConfig.Name cfg) as [urls|] eqn:Eu; [|done].
    eexists. by apply (new_member_by_name _ _ Hc). }
  assert (RaftCluster.MembersMap cl !! Member.ID me = Some me) as Hat by (by apply Hlk).
  pose proof (joined_dom ex cl l Hk Hlk Hids) as Hdom.
  assert (Member.ID me <> None_id) as Hid.
  { intros E. assert (is_Some (RaftCluster.MembersMap ex !! None_id)) as [? ?]; [|congruence].
    apply elem_of_dom. rewrite <- Hdom. apply elem_of_dom. rewrite <- E. by exists me. }
  set (cl' := RaftCluster.SetID (RaftCluster.GetID ex) cl).
  pose proof (StartNode_fresh ConfChange_Marshal sd (Member.ID me) _ [] Hf Hid Ht) as ES. cbn [map EtcdRaft.peer_entries] in ES.
  match type of ES with _ = (Ok ?x, _) => set (r := x) in * end.
  assert (Boot.startEtcdRaftNode ConfChange_Marshal cfg cl' [] sd = (Ok (Member.ID me, r), sd)) as EN.
  { unfold Boot.startEtcdRaftNode, Boot.election_tick.
    change (RaftCluster.MemberByName (RaftNodeConfig.Name cfg) cl') with (RaftCluster.MemberByName (RaftNodeConfig.Name cfg) cl).
    rewrite Hme, (proj2 (Z.eqb_neq _ _) Hh).
    unfold lift. erewrite bind_ok by reflexivity. cbn [mapM]. rewrite !bind_must. erewrite bind_ok by reflexivity.
    rewrite (bind_ok _ _ _ _ _ ES). reflexivity. }
  assert (Boot.join_existing ConfChange_Marshal URLStringsEqual http cfg sd = (Ok (Member.ID me, r, cl', RaftCluster.Members ex), sd)) as EB.
  { unfold Boot.join_existing, Boot.deferred, lift. rewrite Hver, Hc. do 2 (erewrite bind_ok by reflexivity). rewrite Hex, Hval.
    erewrite bind_ok by reflexivity. fold cl'. rewrite (bind_ok _ _ _ _ _ EN). reflexivity. }
  eexists (Boot.mk (Member.ID me) cl' r 0 _ _), me. split.
  { unfold Boot.start_raft. erewrite bind_ok; cycle 1.
    { unfold Boot.exist_log. rewrite (fr_log _ Hf). by destruct sd. }
    cbv iota. rewrite Hnew. erewrite bind_ok by (rewrite (bind_ok _ _ _ _ _ EB); reflexivity). reflexivity. }
  cbn [Boot.cluster Boot.id Boot.raft]. split; [done|]. split; [exact Hdom|]. split; [|by split; [|split]].
  intros i m [Hm <-]%Hlk. destruct (Hall m Hm) as (e & [j He]%Members_elem & Hide & Hu). exists e.
  split; [|exact Hu]. by rewrite Hide, (Hk _ _ He).
Qed.
End join.

(** * A node that joins *)

#[local] Existing Instance hard_state_json.
#[local] Existing Instance conf_state_json.
#[local] Existing Instance cluster_json.
#[local] Existing Instance member_json.

Definition join_cfg : RaftNodeConfig.t := RaftNodeConfig.mk "n1" 0 ["http://h1:1"]
  {[ "n1" := ["http://h1:1"]; "n2" := ["http://h2:1"] ]} MaxRequestBytes 100 1000 false true "/data" 4 true.
Definition join_answer (u : string) : option (list Member.t * Z) :=
  Some ([Member.mk 11 ["http://h1:1"] "" []; Member.mk 12 ["http://h2:1"] "n2" []], 77).
Definition same_urls (a b : list string) : bool := bool_decide (a = b).

Lemma join_sample : exists c ex cl,
  RaftCluster.NewClusterFromURLsMap (RaftNodeConfig.InitialPeerURLsMap join_cfg) = Ok c /\
  RaftCluster.GetClusterFromRemotePeers join_answer (RaftCluster.GetRemotePeerURLs c "n1") = Ok ex /\
  RaftCluster.ID ex = 77 /\ keyed ex /\ RaftCluster.MembersMap ex !! None_id = None /\
  RaftCluster.ValidateClusterAndAssignIDs same_urls c ex = Ok cl.
Proof.
  destruct (RaftCluster.NewClusterFromURLsMap (RaftNodeConfig.InitialPeerURLsMap join_cfg)) as [c| |] eqn:Ec; [|by vm_compute in Ec..].
  destruct (RaftCluster.GetClusterFromRemotePeers join_answer (RaftCluster.GetRemotePeerURLs c "n1")) as [ex| |] eqn:Ee;
    [|by vm_compute in Ec; injection Ec as <-; vm_compute in Ee..].
  destruct (RaftCluster.ValidateClusterAndAssignIDs same_urls c ex) as [cl| |] eqn:Ev;
    [|by vm_compute in Ec; injection Ec as <-; vm_compute in Ee; injection Ee as <-; vm_compute in Ev..].
  vm_compute in Ec. injection Ec as <-. vm_compute in Ee. injection Ee as <-.
  eexists _, _, _. split; [reflexivity|]. split; [reflexivity|]. split; [reflexivity|]. split; [|split; [reflexivity|exact Ev]].
  apply (bool_decide_unpack _). vm_compute. exact I.
Qed.

Lemma node_joins_witness : exists b me,
  Boot.start_raft sample_marshal same_urls join_answer (Ok tt) join_cfg new_storage = (Ok b, new_storage) /\
  RaftCluster.ID (Boot.cluster b) = 77 /\ RaftCluster.MembersMap (Boot.cluster b) !! Boot.id b = Some me /\ Member.Name me = "n1".
Proof.
  destruct join_sample as (c & ex & cl & Hc & He & Hid & Hk & Hz & Hv).
  destruct (node_joins sample_marshal same_urls join_answer (Ok tt) join_cfg c ex cl new_storage) as (b & me & Hs & Hi & _ & _ & Hme & Hn & _).
  - exact new_storage_fresh.
  - reflexivity.
  - vm_compute. reflexivity.
  - exact Hc.
  - exact He.
  - exact Hk.
  - exact Hz.
  - exact Hv.
  - discriminate.
  - reflexivity.
  - reflexivity.
  - exists b, me. split; [exact Hs|]. split; [rewrite Hi; exact Hid|]. exact (conj Hme Hn).
Defined.

Lemma join_cannot_fetch_witness :
  Boot.start_raft sample_marshal same_urls (get_members (fun _ => Some []) (fun _ => ([], None)) (fun _ => true)) (Ok tt)
    join_cfg new_storage = (Err ErrFetchCluster, new_storage).
Proof.
  destruct join_sample as (c & _ & _ & Hc & _).
  apply (join_cannot_fetch sample_marshal same_urls _ _ _ (Ok tt) join_cfg c new_storage).
  - reflexivity.
  - reflexivity.
  - vm_compute. reflexivity.
  - exact Hc.
Defined.
