(* ===== verification/BinlogServer.v ===== *)
(** The binlog server and the dump of a slave: server/binlog_server.go, and of
    mysql/command.go the registration of a slave and [handleBinlogDumpGtid]. *)
From S2P Require Import Prelude.
From S2P Require Import Names.
From S2P Require Import Text.
From S2P Require Import Wire.
From S2P Require Import Events.
From S2P Require Import Packets.
From S2P Require Import Gtid.
From S2P Require Import GtidCodec.
From S2P Require Import Storage.
From S2P Require Import MetaStore.
From S2P Require Import MetaTheorems.
From S2P Require Import Config.
From stdpp Require Import list strings.
Local Open Scope string_scope.
Local Open Scope list_scope.
Local Open Scope Z_scope.
Local Open Scope go_scope.

(** * Slaves *)

Inductive ReplicationState : Type := UNREGISTERED | REGISTERED.

(** [Conn] is the id of the connection; the time of the registration is left
    out. *)
Module Slave.
Record t : Type := mk {
  State : ReplicationState;
  ServerID : Z; UUID : string; HostName : string; Port : Z; Rank : Z; MasterID : Z;
  User : string; Password : string;
  HeartBeat : Z;
  Conn : Z }.

Definition set_HeartBeat (period : Z) (s : t) : t :=
  mk (State s) (ServerID s) (UUID s) (HostName s) (Port s) (Rank s) (MasterID s) (User s) (Password s) period (Conn s).
End Slave.

(** Whether the server runs, the slaves by their UUID, and the connections
    that were closed; closing one again does nothing. The slave that [UnregisterSlave] drops also gets the state
    [UNREGISTERED], which nothing reads afterwards. *)
Module Slaves.
Record t : Type := mk { started : bool; slaves : gmap string Slave.t; closed : gset Z }.

Definition NewBinlogServer : t := mk false ∅ ∅.

Definition Start : St t unit := modify (fun s => mk true (slaves s) (closed s)).

Definition RegisterSlave (slave : Slave.t) : St t unit :=
  if String.eqb (Slave.UUID slave) "" then throw ErrUUIDIsNull else
  modify (fun s => mk (started s) (<[Slave.UUID slave := slave]> (slaves s)) (closed s)).

Definition GetSlaves : St t (gmap string Slave.t) := gets slaves.

Definition Close (c : Z) (s : t) : t := mk (started s) (slaves s) ({[c]} ∪ closed s).

Definition UnregisterSlave (uuid : string) : St t unit :=
  let! m := gets slaves in
  match m !! uuid with
  | Some slave =>
      modify (Close (Slave.Conn slave)) ;!
      modify (fun s => mk (started s) (delete uuid (slaves s)) (closed s))
  | None => ret tt
  end.

(** [Stop] closes the connections of all slaves. *)
Definition Stop : St t unit :=
  let! b := gets started in
  if negb b then ret tt else
  modify (fun s => mk false (slaves s) (list_to_set (map Slave.Conn (map_to_list (slaves s)).*2) ∪ closed s)).
End Slaves.

(** * What the server answers from the store *)

(** [DumpBinlogAt] and the questions before it need the store and the text of
    the executed set, [kingbusInfo.ExecutedGtidSetStr()]. *)
Definition GetMySQLDumpAt : MysqlGTIDSet.t -> St MetaStore.t Z := MetaStore.GetPreviousGtidSet.

(** The loop over the sets of the slave. *)
Definition executed_contains (master slave : MysqlGTIDSet.t) : bool :=
  forallb (fun '(uid, slaveSet) => match master !! uid with
                                   | Some MasterSet => IntervalSlice.Contain (UUIDSet.Intervals MasterSet) (UUIDSet.Intervals slaveSet)
                                   | None => true
                                   end) (map_to_list slave).

(** The error of [GetGtidSet] is not looked at: the nil set next to it is not
    contained in anything. *)
Definition CheckGtidSet (executedGtidSetStr : string) (slave : MysqlGTIDSet.t) : St MetaStore.t unit :=
  match MysqlGTIDSet.ParseMysqlGTIDSet executedGtidSetStr with
  | None => throw ErrGtidFormat
  | Some master =>
      if negb (executed_contains master slave) then throw ErrSlaveNotContain else
      fun s => match MetaStore.GetGtidSet MySQLFlavor GtidPurgedKey s with
               | (Ok purgedGtidSet, s) =>
                   (if MysqlGTIDSet.Contain slave purgedGtidSet then Ok tt else Err ErrSlaveNotContain, s)
               | (Err _, s) => (Err ErrSlaveNotContain, s)
               | (Panic, s) => (Panic, s)
               end
  end.

(** An error of the store gives the nil event and no error. *)
Definition GetFde (preGtidEventIndex : Z) : St MetaStore.t bytes :=
  if preGtidEventIndex =? 0 then throw ErrArgs else
  fun s => match MetaStore.GetFde preGtidEventIndex s with
           | (Err _, s) => (Ok [], s)
           | r => r
           end.

Definition GetNextBinlogFile : Z -> St MetaStore.t string := MetaStore.GetNextBinlogFile.
Definition GetGtidSet : string -> string -> St MetaStore.t MysqlGTIDSet.t := MetaStore.GetGtidSet.

Definition GetMasterInfo `{Json MasterInfo.t} : St MetaStore.t MasterInfo.t :=
  let! buf := MetaStore.Get (StringToBytes MasterInfoKey) in
  lift (MetaStore.decode_or (MasterInfo.mk 0 "" "") buf).

(** * Dumping the log *)

(** storage.go [EntryReader]: [NewEntryReaderAt] gives the index to read at,
    [GetNext] the entry there and the next index. *)
Class EntryReader (S : Type) : Type := {
  rd_NewEntryReaderAt : Z -> St S Z;
  rd_GetNext : Z -> St S (Entry.t * Z) }.

Definition skipEvent (event : BinlogEvent.t) (slaveGtids : MysqlGTIDSet.t) (inExcludeGroup : bool) : res bool :=
  let eventType := u8 (BinlogEvent.Type_ event) in
  let data := default [] (BinlogEvent.Data event) in
  if eventType =? GTID_EVENT then
    match slice data EventHeader.EventHeaderSize (blen data) with
    | None => Panic
    | Some eventBody =>
        match slice eventBody 0 (blen eventBody - EventHeader.BinlogChecksumLength) with
        | None => Panic
        | Some eventBody =>
            match GTIDEvent.Decode eventBody with
            | None => Panic
            | Some gtidEvent =>
                match UUID.FromBytes (GTIDEvent.SID gtidEvent) with
                | None => Ok true
                | Some u =>
                    match MysqlGTIDSet.ParseMysqlGTIDSet (UUID.String u +:+ ":" +:+ fmt_d (GTIDEvent.GNO gtidEvent)) with
                    | None => Ok true
                    | Some currentGtidset => Ok (MysqlGTIDSet.Contain slaveGtids currentGtidset)
                    end
                end
            end
        end
    end
  else if eventType =? ROTATE_EVENT then Ok false
  else Ok inExcludeGroup.

(** The goroutine of [DumpBinlogAt]: the next index, whether it is in a group
    that the slave has, and the events that it has sent on [eventC]. *)
Module Dumper.
Record t : Type := mk { nextRaftIndex : Z; inExcludeGroup : bool; eventC : list BinlogEvent.t }.

(** The rest of a round once the entry is read. *)
Definition take_entry (slaveGtids : MysqlGTIDSet.t) (raftEntry : Entry.t) (next : Z) (d : t) : res t :=
  if negb (IsBinlogEvent raftEntry) then Ok (mk next (inExcludeGroup d) (eventC d)) else
  match DecodeBinlogEvent raftEntry with
  | Ok event =>
      match skipEvent event slaveGtids (inExcludeGroup d) with
      | Ok true => Ok (mk next true (eventC d))
      | Ok false => Ok (mk next false (eventC d ++ [event]))
      | Err e => Err e
      | Panic => Panic
      end
  | Err e => Err e
  | Panic => Panic
  end.

(** One round of the loop, [appliedIndex] being what the server says in it:
    the next entry when it is applied, or a wait for the broadcast. *)
Definition round {S} `{EntryReader S} (slaveGtids : MysqlGTIDSet.t) (appliedIndex : Z) : St (S * t) unit :=
  fun '(s, d) =>
    if nextRaftIndex d <=? appliedIndex then
      match rd_GetNext (nextRaftIndex d) s with
      | (Ok (raftEntry, next), s) =>
          match take_entry slaveGtids raftEntry next d with
          | Ok d => (Ok tt, (s, d))
          | Err e => (Err e, (s, d))
          | Panic => (Panic, (s, d))
          end
      | (Err e, s) => (Err e, (s, d))
      | (Panic, s) => (Panic, (s, d))
      end
    else (Ok tt, (s, d)).

(** [DumpBinlogAt] up to the start of the goroutine. *)
Definition DumpBinlogAt {S} `{EntryReader S} (startRaftIndex : Z) : St S t :=
  let! i := rd_NewEntryReaderAt startRaftIndex in ret (mk i false []).
End Dumper.

(** * A connection *)

(** The values of user variables that the commands below use. *)
Inductive value : Type := VString (s : string) | VInt (n : Z).

Definition SlaveUUID : string := "slave_uuid".
Definition MasterHeartbeatPeriod : string := "master_heartbeat_period".
Definition MasterBinlogChecksum : string := "master_binlog_checksum".

(** A connection with the slaves of the server and the store behind it. It is
    closed, and its context done, when its id is among the closed ones. *)
Module Conn.
Record t : Type := mk {
  BaseConn_ : BaseConn.t;
  capability : Z; connectionID : Z; status : Z; user : string; salt : bytes;
  userVariables : gmap string value;
  binlogServer : Slaves.t;
  store : MetaStore.t }.

Definition set_BaseConn (b : BaseConn.t) (c : t) : t :=
  mk b (capability c) (connectionID c) (status c) (user c) (salt c) (userVariables c) (binlogServer c) (store c).
Definition set_capability (n : Z) (c : t) : t :=
  mk (BaseConn_ c) n (connectionID c) (status c) (user c) (salt c) (userVariables c) (binlogServer c) (store c).
Definition set_userVariable (k : string) (v : value) (c : t) : t :=
  mk (BaseConn_ c) (capability c) (connectionID c) (status c) (user c) (salt c) (<[k := v]> (userVariables c)) (binlogServer c) (store c).
Definition set_binlogServer (s : Slaves.t) (c : t) : t :=
  mk (BaseConn_ c) (capability c) (connectionID c) (status c) (user c) (salt c) (userVariables c) s (store c).
Definition set_store (m : MetaStore.t) (c : t) : t :=
  mk (BaseConn_ c) (capability c) (connectionID c) (status c) (user c) (salt c) (userVariables c) (binlogServer c) m.

Definition on_base {A} (m : St BaseConn.t A) : St t A := zoom BaseConn_ set_BaseConn m.
Definition on_server {A} (m : St Slaves.t A) : St t A := zoom binlogServer set_binlogServer m.
Definition on_store {A} (m : St MetaStore.t A) : St t A := zoom store set_store m.

(** The comparison of a UUID with the variable, an [interface{}]. *)
Definition killZombieDumpThreads : St t unit :=
  let! c := gets id in
  match userVariables c !! SlaveUUID with
  | None => ret tt
  | Some (VInt _) => panic
  | Some (VString slaveUUID) =>
      if String.eqb slaveUUID "" then ret tt else
      let! slaves := on_server Slaves.GetSlaves in
      match slaves !! slaveUUID with
      | Some slave => if Slave.Conn slave =? connectionID c then ret tt else on_server (Slaves.UnregisterSlave slaveUUID)
      | None => ret tt
      end
  end.

(** The bytes of the command; each index or slice may panic. *)
Definition parse_register (uuid : string) (conn : Z) (data : bytes) : option Slave.t :=
  slice data 0 4 ≫= fun serverID =>
  let pos := 4 in
  index data pos ≫= fun hostNameLen =>
  let pos := pos + 1 in
  slice data pos (pos + hostNameLen) ≫= fun hostName =>
  let pos := pos + hostNameLen in
  index data pos ≫= fun userLen =>
  let pos := pos + 1 in
  slice data pos (pos + userLen) ≫= fun user =>
  let pos := pos + userLen in
  index data pos ≫= fun passwordLen =>
  let pos := pos + 1 in
  slice data pos (pos + passwordLen) ≫= fun password =>
  let pos := pos + passwordLen in
  slice data pos (pos + 2) ≫= fun port =>
  let pos := pos + 2 in
  slice data pos (pos + 4) ≫= fun rank =>
  let pos := pos + 4 in
  slice data pos (pos + 4) ≫= fun masterID =>
  Some (Slave.mk REGISTERED (i32 (le_val serverID)) uuid (BytesToString hostName)
    ((le_val port + 2 ^ 15) mod 2 ^ 16 - 2 ^ 15) (le_val rank) (le_val masterID)
    (BytesToString user) (BytesToString password) 0 conn).

Definition CLIENT_PROTOCOL_41 : Z := 512.

(** The connection has no [net.Conn] to write to once it is closed. *)
Definition closed (c : t) : bool := bool_decide (connectionID c ∈ Slaves.closed (binlogServer c)).
Definition WritePacket (data : bytes) : St t unit := fun c =>
  if closed c then (Panic, c) else on_base (BaseConn.WritePacket data) c.

(** [writeOK(nil)]. *)
Definition writeOK : St t unit :=
  let! c := gets id in
  WritePacket (zeros 4 ++ [0; 0; 0] ++
    (if 0 <? Z.land (capability c) CLIENT_PROTOCOL_41 then [u8 (status c); u8 (Z.shiftr (status c) 8); 0; 0] else [])).

Definition handleRegisterSlave (data : bytes) : St t unit :=
  let! c := gets id in
  let! s := must (parse_register
    (match userVariables c !! SlaveUUID with Some (VString u) => u | _ => "" end) (connectionID c) data) in
  killZombieDumpThreads ;!
  on_server (Slaves.RegisterSlave s) ;!
  writeOK.

(** The executed set of the slave and its server id. *)
Definition parseMysqlGtidDumpPacket (data : bytes) : res (MysqlGTIDSet.t * Z) :=
  match (slice data 0 2 ≫= fun flags =>
         slice data 2 6 ≫= fun slaveServerID =>
         slice data 6 10 ≫= fun size =>
         let pos := u32 (10 + le_val size) in
         slice data 10 pos ≫= fun binlogFileName =>
         slice data pos (pos + 8) ≫= fun binlogPos =>
         let pos := u32 (pos + 8) in
         slice data pos (pos + 4) ≫= fun dataSize =>
         let pos := u32 (pos + 4) in
         slice data pos (blen data) ≫= fun rest =>
         Some (le_val slaveServerID, rest)) with
  | None => Panic
  | Some (slaveServerID, rest) =>
      match MysqlGTIDSet.DecodeMysqlGTIDSet rest with
      | Ok gtids => Ok (gtids, slaveServerID)
      | Err e => Err e
      | Panic => Panic
      end
  end.

Definition sendFakeRotateEvent (serverID : Z) (fileName : string) : St t unit :=
  let! c := gets id in
  let needCrc32 := match userVariables c !! MasterBinlogChecksum with
                   | Some (VString v) => String.eqb v "crc32" | _ => false end in
  on_base (BaseConn.WriteEvent (buildFakeRotateEvent serverID (StringToBytes fileName) needCrc32) true).

(** [LastBinlogFile] and [LastFilePosition] of the server are arguments. *)
Definition sendHeartbeatEvent (binlogFile : string) (filePosition serverID : Z) : St t unit :=
  on_base (BaseConn.WriteEvent (buildHeartbeatEvent (StringToBytes binlogFile) serverID filePosition) true).

(** [handleBinlogDumpGtid] from the check of the set up to [DumpBinlogAt]: the
    raft index to dump from and the server id for heartbeats. *)
Definition start_dump (executedGtidSetStr : string) (slaveGtidExecuted : MysqlGTIDSet.t) : St t (Z * Z) :=
  on_store (CheckGtidSet executedGtidSetStr slaveGtidExecuted) ;!
  let! preGtidEventIndex := on_store (GetMySQLDumpAt slaveGtidExecuted) in
  let! fde := on_store (GetFde preGtidEventIndex) in
  let! idBytes := must (slice fde 5 9) in
  let masterServerID := le_val idBytes in
  let! fileName := on_store (GetNextBinlogFile preGtidEventIndex) in
  sendFakeRotateEvent masterServerID fileName ;!
  on_base (sendFormatDescriptionEvent fde) ;!
  ret (preGtidEventIndex, masterServerID).

(** The cases of the [select] in the loop. *)
Inductive input : Type :=
  | Event (event : BinlogEvent.t)
  | Error (e : error)
  | Done
  | Timer (binlogFile : string) (filePosition : Z).

Definition dump_case (masterServerID : Z) (i : input) : St t unit :=
  match i with
  | Event event => on_base (send_event event)
  | Error e => throw e
  | Done => throw ErrCanceled
  | Timer binlogFile filePosition => sendHeartbeatEvent binlogFile filePosition masterServerID
  end.

Fixpoint dump_cases (masterServerID : Z) (l : list input) : St t unit :=
  match l with
  | [] => ret tt
  | i :: l' => dump_case masterServerID i ;! dump_cases masterServerID l'
  end.

(** The deferred [UnregisterSlave] runs when the function returns or panics. *)
Definition deferred {A} (slaveUUID : string) (m : St t A) : St t A := fun c =>
  match m c with
  | (Ok a, c) => (Ok a, c)
  | (r, c) => (r, (on_server (Slaves.UnregisterSlave slaveUUID) c).2)
  end.

(** The whole function; [inputs] is what the [select] has given so far, with an
    error of [DumpBinlogAt] as the first one. *)
Definition handleBinlogDumpGtid (executedGtidSetStr : string) (data : bytes) (inputs : list input) : St t unit :=
  let! x := lift (parseMysqlGtidDumpPacket data) in
  let! c := gets id in
  match userVariables c !! SlaveUUID with
  | Some (VString slaveUUID) =>
      deferred slaveUUID (let! y := start_dump executedGtidSetStr x.1 in dump_cases y.2 inputs)
  | _ => panic
  end.
End Conn.

(** * Which transactions a slave gets *)

Lemma single_set_ok u gno : UUID.ok u -> 0 <= gno < 2 ^ 63 - 1 ->
  gtids_ok {[UUID.String u := single u gno]} /\
  MysqlGTIDSet.ParseMysqlGTIDSet (gtid_text u gno) = Some {[UUID.String u := single u gno]}.
Proof.
  intros Hu Hg. assert (gtids_ok {[UUID.String u := single u gno]}) as Hok.
  { apply map_Forall_singleton. split; [done|by apply single_ok]. }
  split; [done|]. rewrite gtid_text_single by done.
  change (UUIDSet.String (single u gno)) with (MysqlGTIDSet.sets_text [single u gno]).
  apply parse_orders; [done|]. unfold MysqlGTIDSet.orders. by rewrite map_to_list_singleton.
Qed.

(** A GTID event is skipped exactly when the slave has its transaction. *)
Lemma Contain_single s u gno : gtids_ok s -> UUID.ok u -> 0 <= gno < 2 ^ 63 - 1 ->
  MysqlGTIDSet.Contain s {[UUID.String u := single u gno]} = true <-> gmem u gno s.
Proof.
  intros Hs Hu Hg. destruct (single_set_ok u gno Hu Hg) as [Hok _].
  rewrite gtids_Contain_spec by done. split.
  - intros Hc. apply (Hc u gno Hu). exists (single u gno). split; [by rewrite lookup_singleton_eq|].
    cbn. apply mem_cons. left. cbn. lia.
  - intros Hm v x Hv (set & Hset & Hx). apply lookup_singleton_Some in Hset as [E <-].
    apply uuid_inj in E; [|done..]. subst v. cbn in Hx. apply mem_cons in Hx as [Hx|Hx]; [|by apply mem_nil in Hx].
    cbn in Hx. by replace x with gno by lia.
Qed.
