(* ===== verification/SubServers.v ===== *)
(** The two servers inside of a kingbus server, the syncer and the binlog server:
    [StartServer], [StopServer], [GetServerStatus], [updateLeadership], [SyncAdminURL] and
    the small methods of server/server.go, with the status types of
    config/server_config.go. *)
From S2P Require Import Prelude.
From S2P Require Import Names.
From S2P Require Import Text.
From S2P Require Import Wire.
From S2P Require Import Events.
From S2P Require Import TrxParser.
From S2P Require Import Gtid.
From S2P Require Import GtidCodec.
From S2P Require Import Storage.
From S2P Require Import MetaStore.
From S2P Require Import MetaTheorems.
From S2P Require Import Progress.
From S2P Require Import Membership.
From S2P Require Import Config.
From S2P Require Import Apply.
From S2P Require Import ApplyTheorems.
From S2P Require Import LeaderChange.
From S2P Require Import Syncer.
From S2P Require Import ConfTheorems.
From S2P Require Import BinlogServer.
From Stdlib Require Import Ascii.
From stdpp Require Import list strings.
Local Open Scope string_scope.
Local Open Scope list_scope.
Local Open Scope Z_scope.
Local Open Scope go_scope.

(** * Status *)

Definition ServerRunningStatus : string := "running".
Definition ServerStoppedStatus : string := "stopped".

Inductive SubServerType : Type := SyncerServerType | BinlogServerType.

(** The second argument of [StartServer]: nil, or a pointer of one of the two types. *)
Inductive server_args : Type :=
  | NoArgs
  | Syncer_args (args : SyncerArgs.t)
  | Binlog_args (args : BinlogServerConfig.t).

Module SyncerStatus.
Record t : Type := mk {
  Args : SyncerArgs.t; CurrentGtid : string; LastBinlogFile : string; LastFilePosition : Z;
  ExecutedGtidSet : string; PurgedGtidSet : string; Status : string }.
Definition zero : t := mk (SyncerArgs.mk 0 "" "" "" "" false) "" "" 0 "" "" "".
End SyncerStatus.

Module BinlogServerStatus.
Record t : Type := mk {
  Cfg : BinlogServerConfig.t; Slaves : list Slave.t; CurrentGtid : string; LastBinlogFile : string;
  LastFilePosition : Z; ExecutedGtidSet : string; PurgedGtidSet : string; Status : string }.
Definition zero : t := mk (BinlogServerConfig.mk "" "" "") [] "" "" 0 "" "" "".
End BinlogServerStatus.

Inductive server_status : Type :=
  | Syncer_status (st : SyncerStatus.t)
  | Binlog_status (st : BinlogServerStatus.t).

(** * The server *)

(** The binlog server of the node: its configuration and its slaves. *)
Module Master.
Record t : Type := mk { cfg : BinlogServerConfig.t; state : Slaves.t }.
End Master.

Module Node.

(** [adminAddr] is that of the admin server; [proposed] holds what [Propose] gave
    to the raft library. *)
Record t : Type := mk {
  server : KingbusServer.t;
  lead : Z;
  committedIndex : Z;
  syncer : option Syncer.t;
  proposing : nat;
  master : option Master.t;
  adminAddr : string;
  proposed : list bytes }.

Definition set_server (k : KingbusServer.t) (n : t) : t :=
  mk k (lead n) (committedIndex n) (syncer n) (proposing n) (master n) (adminAddr n) (proposed n).
Definition set_master (m : option Master.t) (n : t) : t :=
  mk (server n) (lead n) (committedIndex n) (syncer n) (proposing n) m (adminAddr n) (proposed n).

(** The part that the syncer is started and stopped in. *)
Definition sub (n : t) : Sub.t :=
  Sub.mk (KingbusServer.binlogProgress (server n)) (KingbusServer.appliedIndex (server n)) (committedIndex n) (syncer n)
    (proposing n).
Definition set_sub (s : Sub.t) (n : t) : t :=
  mk (KingbusServer.SetAppliedIndex (Sub.appliedIndex s) (KingbusServer.set_progress (Sub.binlogProgress s) (server n)))
    (lead n) (Sub.committedIndex s) (Sub.syncer s) (Sub.proposing s) (master n) (adminAddr n) (proposed n).
Definition on_sub {A} (m : St Sub.t A) : St t A := zoom sub set_sub m.

Definition store (n : t) : MetaStore.t := KingbusServer.store (server n).
Definition on_store {A} (m : St MetaStore.t A) : St t A :=
  zoom store (fun m n => set_server (KingbusServer.set_store m (server n)) n) m.

Definition ID (n : t) : Z := KingbusServer.id (server n).
Definition Leader (n : t) : Z := lead n.
Definition setLead (v : Z) (n : t) : t :=
  mk (server n) v (committedIndex n) (syncer n) (proposing n) (master n) (adminAddr n) (proposed n).
Definition IsLeader (n : t) : bool := ID n =? Leader n.
Definition CommittedIndex (n : t) : Z := committedIndex n.
Definition AppliedIndex (n : t) : Z := KingbusServer.appliedIndex (server n).
Definition LastBinlogFile (n : t) : string := BinlogProgress.LastBinlogFile (KingbusServer.binlogProgress (server n)).
Definition LastFilePosition (n : t) : Z := BinlogProgress.LastFilePosition (KingbusServer.binlogProgress (server n)).
Definition ExecutedGtidSetStr (n : t) : string := BinlogProgress.ExecutedGtidSetStr (KingbusServer.binlogProgress (server n)).
Definition CurrentGtidStr (n : t) : string := BinlogProgress.CurrentGtidStr (KingbusServer.binlogProgress (server n)).

(** [strings.Split] of a text gives at least one part. *)
Definition GetIP (n : t) : string :=
  match Split ":"%char (adminAddr n) with ip :: _ => ip | [] => "" end.

Definition IsSyncerStarted (n : t) : bool := Sub.IsSyncerStarted (sub n).
Definition IsBinlogServerStarted (n : t) : bool :=
  match master n with Some m => Slaves.started (Master.state m) | None => false end.

(** [UpdateCommittedIndex] of the handler that [runRaft] makes. *)
Definition UpdateCommittedIndex (ci : Z) (n : t) : t :=
  if CommittedIndex n <? ci
  then mk (server n) (lead n) ci (syncer n) (proposing n) (master n) (adminAddr n) (proposed n)
  else n.

Section Node.
Context `{Json MasterInfo.t} `{Json MasterGtidPurged.t} `{Json SyncerArgs.t} `{Json Attributes.t}.
(** The MySQL client and the other goroutines, as for the syncer. *)
Context (connect : nat -> option error) (execute : nat -> string -> res Result.t) (startSync : MysqlGTIDSet.t -> option error).
Context (sleep : Sub.t -> Sub.t).
(** [net.Listen] of an address, and [Propose] of the raft library. *)
Context (listen : string -> option error) (raft_Propose : bytes -> option error).

Definition Propose (data : bytes) : St t unit := fun n =>
  if blen data =? 0 then (Ok tt, n) else
  match raft_Propose data with
  | Some e => (Err e, n)
  | None => (Ok tt, mk (server n) (lead n) (committedIndex n) (syncer n) (proposing n) (master n) (adminAddr n)
                     (proposed n ++ [data]))
  end.

(** [NewBinlogServer] fails when the address can not be listened on. *)
Definition startMasterServer (args : BinlogServerConfig.t) : St t unit := fun n =>
  match listen (BinlogServerConfig.Addr args) with
  | Some e => (Err e, n)
  | None => (Ok tt, set_master (Some (Master.mk args (Slaves.Start Slaves.NewBinlogServer).2)) n)
  end.

Definition StartServer (fuel : nat) (svrType : SubServerType) (args : server_args) : St t unit :=
  match svrType with
  | SyncerServerType =>
      on_sub (Sub.StartServer connect execute startSync sleep fuel
                (match args with Syncer_args a => Some a | _ => None end))
  | BinlogServerType => fun n =>
      if IsBinlogServerStarted n then (Err ErrStarted, n) else
      match args with
      | Binlog_args a => match startMasterServer a n with (Err _, n) => (Err ErrArgs, n) | r => r end
      | _ => (Err ErrArgs, n)
      end
  end.

Definition StopServer (svrType : SubServerType) : St t unit :=
  match svrType with
  | SyncerServerType => on_sub Sub.StopServer
  | BinlogServerType => fun n =>
      match master n with
      | Some m =>
          if Slaves.started (Master.state m)
          then let '(r, st) := Slaves.Stop (Master.state m) in (r, set_master (Some (Master.mk (Master.cfg m) st)) n)
          else (Ok tt, n)
      | None => (Ok tt, n)
      end
  end.

(** The text of the purged GTIDs; an error ends the process. *)
Definition purged_text : St t string :=
  let! purgedGtids := fatal_on_err (on_store (MetaStore.GetGtidSet MySQLFlavor GtidPurgedKey)) in
  ret (MysqlGTIDSet.String purgedGtids).

Definition GetServerStatus (svrType : SubServerType) : St t server_status := fun n =>
  match svrType with
  | SyncerServerType =>
      match syncer n with
      | Some y =>
          if Syncer.started y then
            let cfg := Syncer.cfg y in
            (let! purged := purged_text in
             ret (Syncer_status (SyncerStatus.mk
               (SyncerArgs.mk 0 "" (SyncerConfig.Host cfg +:+ ":" +:+ fmt_d (SyncerConfig.Port cfg)) (SyncerConfig.User cfg)
                  (SyncerConfig.Password cfg) (SyncerConfig.SemiSyncEnabled cfg))
               (CurrentGtidStr n) (LastBinlogFile n) (LastFilePosition n) (ExecutedGtidSetStr n) purged
               ServerRunningStatus))) n
          else (Ok (Syncer_status (SyncerStatus.mk (SyncerArgs.mk 0 "" "" "" "" false) "" "" 0 "" "" ServerStoppedStatus)), n)
      | None => (Ok (Syncer_status (SyncerStatus.mk (SyncerArgs.mk 0 "" "" "" "" false) "" "" 0 "" "" ServerStoppedStatus)), n)
      end
  | BinlogServerType =>
      match master n with
      | Some m =>
          if Slaves.started (Master.state m) then
            (let! purged := purged_text in
             ret (Binlog_status (BinlogServerStatus.mk (Master.cfg m) (map_to_list (Slaves.slaves (Master.state m))).*2
               (CurrentGtidStr n) (LastBinlogFile n) (LastFilePosition n) (ExecutedGtidSetStr n) purged
               ServerRunningStatus))) n
          else (Ok (Binlog_status (BinlogServerStatus.mk (BinlogServerConfig.mk "" "" "") [] "" "" 0 "" "" ServerStoppedStatus)), n)
      | None => (Ok (Binlog_status (BinlogServerStatus.mk (BinlogServerConfig.mk "" "" "") [] "" "" 0 "" "" ServerStoppedStatus)), n)
      end
  end.

(** [updateLeadership]: the result tells whether the goroutine that starts the
    syncer ten seconds later was started. *)
Definition updateLeadership (leadChange : bool) : St t bool := fun n =>
  if negb (IsLeader n) && IsSyncerStarted n then (StopServer SyncerServerType ;! ret false) n
  else (Ok (leadChange && IsLeader n), n).

(** The goroutine after its ten seconds. *)
Definition start_syncer (fuel : nat) : St t unit := fun n =>
  match on_store (MetaStore.Get (StringToBytes SyncerArgsKey)) n with
  | (Ok (Some value), n) =>
      match json_Unmarshal value with
      | None => (Panic, n)
      | Some syncerArgs =>
          match StartServer fuel SyncerServerType (Syncer_args syncerArgs) n with
          | (Err _, n) => (Ok tt, n)
          | r => r
          end
      end
  | (Panic, n) => (Panic, n)
  | (_, n) => (Ok tt, n)
  end.

(** * [SyncAdminURL] *)

(** What the goroutine sees of the leader and of the cluster, one look after the
    other. *)
Definition view : Type := (Z * RaftCluster.t)%type.

(** Waiting for a leader: the looks after the first one that has a leader. *)
Fixpoint wait_leader (vs : list view) : list view :=
  match vs with
  | [] => []
  | v :: vs' => if v.1 =? None_id then wait_leader vs' else vs'
  end.

(** The loop for the admin URL of the leader; [None] when there is none yet. A
    leader that is not a member panics. *)
Fixpoint leader_url (vs : list view) : option (res string) :=
  match vs with
  | [] => None
  | (l, cl) :: vs' =>
      match RaftCluster.Member l cl with
      | None => Some Panic
      | Some m => match Member.AdminURLs m with [u] => Some (Ok u) | _ => leader_url vs' end
      end
  end.

Inductive sync_outcome : Type :=
  | Waiting
  | Proposes (data : bytes)
  | Sends (url : string) (body : bytes)
  | Gives_up
  | Crashes.

(** [urls] are the configured ones, [base_url] gives the scheme and the host of a
    URL. *)
Definition SyncAdminURL (base_url : string -> option string) (urls : list string) (n : t) (vs : list view) : sync_outcome :=
  match RaftCluster.MembersMap (KingbusServer.cluster (server n)) !! ID n with
  | None => Crashes
  | Some me =>
      let attributes := Attributes.mk (ID n) (Member.Name me) urls in
      match wait_leader vs with
      | [] => Waiting
      | (l, _) :: vs =>
          if ID n =? l then Proposes (Attributes.EncodeWithType attributes) else
          match leader_url vs with
          | None => Waiting
          | Some (Ok u) =>
              match base_url u with
              | None => Gives_up
              | Some b => Sends (b +:+ "/admin/url") (json_Marshal attributes)
              end
          | Some _ => Crashes
          end
      end
  end.
End Node.
End Node.

(** * What the leader records *)

Section record.
Context `{JsonLaws MasterInfo.t} `{JsonLaws MasterGtidPurged.t} `{JsonLaws SyncerArgs.t} `{JsonLaws Attributes.t}.
Context (connect : nat -> option error) (execute : nat -> string -> res Result.t) (startSync : MysqlGTIDSet.t -> option error).
Context (sleep : Sub.t -> Sub.t) (listen : string -> option error) (raft_Propose : bytes -> option error).


Context `{JsonLaws HardState.t} `{JsonLaws ConfState.t} `{JsonLaws RaftCluster.t} `{Json Member.t}.

(** The name and the admin URLs of a node become known: the entry that the
    node proposes as a leader, or the leader for it, sets them for its member on every
    server that applies the entry. *)
Theorem admin_url_recorded base_url urls n vs data e s m me :
  RaftCluster.MembersMap (KingbusServer.cluster (Node.server n)) !! Node.ID n = Some me ->
  Node.SyncAdminURL base_url urls n vs = Node.Proposes data \/
    (exists u body, Node.SyncAdminURL base_url urls n vs = Node.Sends u body /\
       exists a : Attributes.t, json_Unmarshal body = Some a /\ data = Attributes.EncodeWithType a) ->
  Entry.data e = data -> server_ok s -> RaftCluster.MembersMap (KingbusServer.cluster s) !! Node.ID n = Some m ->
  exists s', KingbusServer.applyNodeAttributes e s = (Ok tt, s') /\ server_ok s' /\
    RaftCluster.MembersMap (KingbusServer.cluster s') =
      <[Node.ID n := Member.set_Attributes (Member.Name me) urls m]> (RaftCluster.MembersMap (KingbusServer.cluster s)).
Proof.
  intros Hme Hsync He Hs Hm.
  assert (data = Attributes.EncodeWithType (Attributes.mk (Node.ID n) (Member.Name me) urls)) as ->.
  { unfold Node.SyncAdminURL in Hsync. rewrite Hme in Hsync.
    destruct (Node.wait_leader vs) as [|[l cl] vs']; [by destruct Hsync as [?|(? & ? & ? & _)]|].
    destruct (_ =? l); [by destruct Hsync as [[= <-]|(? & ? & ? & _)]|].
    destruct (Node.leader_url _) as [[u| |]|]; try by destruct Hsync as [?|(? & ? & ? & _)].
    destruct (base_url u) as [b|]; [|by destruct Hsync as [?|(? & ? & ? & _)]].
    destruct Hsync as [?|(u' & body & [= <- <-] & a & Ha & ->)]; [done|]. rewrite json_roundtrip in Ha. by injection Ha as <-. }
  unfold KingbusServer.applyNodeAttributes. rewrite (bind_ok _ _ _ _ _ (payload_encoded _ _ _ _ He)).
  cbn [snd Attributes.ID Attributes.Name Attributes.AdminURLs]. destruct Hs as [Hst Hd Hl Hv].
  destruct (UpdateAttributes_stored (Node.ID n) (Member.Name me) urls _ Hst)
    as [(m' & st' & Hm' & E & Hst')|[(Hm' & _)|(Hm' & _)]]; cbn [fst snd] in *; rewrite Hm in Hm'; try done.
  injection Hm' as <-. rewrite (on_cluster_ok _ _ _ _ _ E). eexists. split; [reflexivity|]. split; [|done].
  split; [exact Hst'|exact Hd|exact Hl|]. cbn. rewrite dom_insert_lookup_L; [exact Hv|by eexists].
Qed.

(** The leader proposes whatever attributes it is sent. When they name no member,
    the entry ends every server that applies it. *)
Theorem unknown_attributes_end_process a e s :
  Entry.data e = Attributes.EncodeWithType a -> server_ok s ->
  RaftCluster.MembersMap (KingbusServer.cluster s) !! Attributes.ID a = None ->
  RaftCluster.RemovedMap (KingbusServer.cluster s) !! Attributes.ID a = None ->
  (KingbusServer.applyNodeAttributes e s).1 = Panic.
Proof.
  intros He Hs Hm Hr. unfold KingbusServer.applyNodeAttributes.
  rewrite (bind_ok _ _ _ _ _ (payload_encoded _ _ _ _ He)). cbn [snd].
  destruct (UpdateAttributes_stored (Attributes.ID a) (Attributes.Name a) (Attributes.AdminURLs a) _ (server_stored _ Hs))
    as [(m & st' & Hm' & _)|[(_ & [x Hr'] & _)|(_ & _ & E)]]; cbn [fst snd] in *; [congruence..|].
  by rewrite (on_cluster_ok _ _ _ _ _ E).
Qed.
End record.

(** * A sample node *)

#[local] Existing Instance hard_state_json.
#[local] Existing Instance conf_state_json.
#[local] Existing Instance cluster_json.
#[local] Existing Instance member_json.
#[local] Existing Instance cluster_laws.
#[local] Existing Instance conf_state_laws.
#[local] Instance sample_hard_laws : JsonLaws HardState.t := code_json_laws _.
#[local] Instance sample_args_json : Json SyncerArgs.t := code_json _.
#[local] Instance sample_args_laws : JsonLaws SyncerArgs.t := code_json_laws _.
#[local] Instance sample_attributes_json : Json Attributes.t := code_json _.
#[local] Instance sample_attributes_laws : JsonLaws Attributes.t := code_json_laws _.
#[local] Instance sample_info_json : Json MasterInfo.t := code_json _.
#[local] Instance sample_purged_json : Json MasterGtidPurged.t := code_json _.

Definition sample_node (s : KingbusServer.t) : Node.t := Node.mk s 1 0 None 0 None "10.0.0.1:9595" [].
Definition sample_entry (data : bytes) : Entry.t := Entry.mk 1 7 Entry.EntryNormal (Some data) None.
Definition sample_attributes : Attributes.t := Attributes.mk 1 "n1" ["http://10.0.0.1:9595"].

Lemma args_keep_id e s s' : KingbusServer.applySyncerArgs e s = (Ok tt, s') -> KingbusServer.id s' = KingbusServer.id s.
Proof.
  intros E. unfold KingbusServer.applySyncerArgs in E. apply bind_inv in E as (x & s1 & E1 & E2).
  assert (s1 = s) as ->.
  { unfold KingbusServer.payload in E1. apply bind_inv in E1 as (d & s2 & E1 & E3). apply bind_inv in E3 as (a & s3 & E3 & E4).
    unfold must in E1, E3. destruct (slice _ _ _); [|done]. injection E1 as <- <-.
    destruct (json_Unmarshal _); [|done]. injection E3 as <- <-. by injection E4 as <- <-. }
  unfold fatal_on_err, KingbusServer.on_store, zoom in E2. destruct (MetaStore.Set_ _ _ _) as [[u| |] st]; [|done..].
  by injection E2 as _ <-.
Qed.

Lemma sample_leads s' e : KingbusServer.applySyncerArgs e conf_server = (Ok tt, s') -> Node.IsLeader (sample_node s') = true.
Proof. intros E%args_keep_id. unfold Node.IsLeader, Node.ID, sample_node. cbn [Node.server]. by rewrite E. Qed.


Lemma sample_me : RaftCluster.MembersMap (KingbusServer.cluster conf_server) !! 1 = Some (sample_member 1 "http://n1" "n1").
Proof. vm_compute. reflexivity. Qed.

Lemma admin_url_recorded_witness :
  exists s', KingbusServer.applyNodeAttributes (sample_entry (Attributes.EncodeWithType sample_attributes)) conf_server = (Ok tt, s') /\
    RaftCluster.MembersMap (KingbusServer.cluster s') !! 1 = Some (Member.mk 1 ["http://n1"] "n1" ["http://10.0.0.1:9595"]).
Proof.
  destruct (admin_url_recorded (fun u => Some u) ["http://10.0.0.1:9595"] (sample_node conf_server) [(0, conf_cluster); (1, conf_cluster); (1, conf_cluster)]
    (Attributes.EncodeWithType sample_attributes) (sample_entry (Attributes.EncodeWithType sample_attributes)) conf_server
    (sample_member 1 "http://n1" "n1") (sample_member 1 "http://n1" "n1")) as (s' & E & _ & Hm).
  - exact sample_me.
  - left. unfold Node.SyncAdminURL, sample_node, Node.ID. cbn [Node.server]. change (KingbusServer.id conf_server) with 1.
    rewrite sample_me. reflexivity.
  - reflexivity.
  - exact conf_server_ok.
  - exact sample_me.
  - exists s'. split; [exact E|]. rewrite Hm. apply lookup_insert_eq.
Defined.
