(* ===== verification/Api.v ===== *)
(** The admin interface: the handlers of api/membership_handler.go,
    api/binlog_syncer_handler.go and api/binlog_server_handler.go over the interface [Server]
    of api/api_server.go, the routes of [RegisterURL], and [Resp] and [SendRequest] of
    utils/http_utils.go. *)
From S2P Require Import Prelude.
From S2P Require Import Names.
From S2P Require Import Text.
From S2P Require Import Wire.
From S2P Require Import TrxParser.
From S2P Require Import Gtid.
From S2P Require Import Storage.
From S2P Require Import MetaStore.
From S2P Require Import MetaTheorems.
From S2P Require Import Progress.
From S2P Require Import Syncer.
From S2P Require Import Membership.
From S2P Require Import Config.
From S2P Require Import NodeConfig.
From S2P Require Import Apply.
From S2P Require Import ConfTheorems.
From S2P Require Import Admin.
From S2P Require Import SubServers.
From stdpp Require Import list strings.
Local Open Scope string_scope.
Local Open Scope list_scope.
Local Open Scope Z_scope.
Local Open Scope go_scope.

(** * The interface of the server *)

(** The methods that the handlers call, over a server of type [S], with the
    cluster that they look into. *)
Class Server (S : Type) : Type := {
  srv_AddMember : Member.t -> St S (list Member.t);
  srv_RemoveMember : Z -> St S (list Member.t);
  srv_UpdateMember : Member.t -> St S (list Member.t);
  srv_GetIP : S -> string;
  srv_IsLeader : S -> bool;
  srv_Leader : S -> Z;
  srv_Propose : bytes -> St S unit;
  srv_StartServer : SubServerType -> server_args -> St S unit;
  srv_StopServer : SubServerType -> St S unit;
  srv_GetServerStatus : SubServerType -> St S server_status;
  srv_cluster : S -> RaftCluster.t }.

(** * Responses *)

Definition StatusOK : Z := 200.
Definition StatusForbidden : Z := 403.
Definition StatusNotFound : Z := 404.
Definition StatusMethodNotAllowed : Z := 405.
Definition StatusConflict : Z := 409.
Definition StatusGone : Z := 410.
Definition StatusInternalServerError : Z := 500.

(** [fmt.Sprintf("%x", n)] of a uint64: at most 16 digits. *)
Fixpoint hex_digits (fuel : nat) (n : Z) (acc : string) : string :=
  match fuel with
  | O => acc
  | S f => let acc := String (hex_digit (n mod 16)) acc in if n <? 16 then acc else hex_digits f (n / 16) acc
  end.
Definition fmt_x (n : Z) : string := hex_digits 16 n "".

(** membership_handler.go: a member with whether it leads. *)
Module Role.
Record t : Type := mk { ID : string; PeerURLs : list string; Name : string; AdminURLs : list string; IsLeader : bool }.
End Role.

(** The data of a response; [Raw] is JSON that a leader has sent. *)
Inductive data (J : Type) : Type :=
  | NoData
  | Members (l : list Member.t)
  | Roles (l : list Role.t)
  | Status (st : server_status)
  | Text (s : string)
  | Int (n : Z)
  | Raw (j : J).
Arguments NoData {J}.
Arguments Members {J} l.
Arguments Roles {J} l.
Arguments Status {J} st.
Arguments Text {J} s.
Arguments Int {J} n.
Arguments Raw {J} j.

Module Resp.
Record t (D : Type) : Type := mk { Message : string; Data : D }.
Arguments mk {D}.
Arguments Message {D}.
Arguments Data {D}.

Definition NewResp {J} : t (data J) := mk "success" NoData.
Definition SetData {J} (d : data J) (r : t (data J)) : t (data J) := mk (Message r) d.
Definition SetError {J} (msg : string) (r : t (data J)) : t (data J) := mk msg (Data r).
End Resp.

(** What a handler writes: a status and a response, or a status and a text. *)
Inductive reply (J : Type) : Type :=
  | Reply (code : Z) (r : Resp.t (data J))
  | Plain (code : Z) (msg : string).
Arguments Reply {J} code r.
Arguments Plain {J} code msg.

Definition code {J} (r : reply J) : Z := match r with Reply c _ | Plain c _ => c end.

(** * Arguments of the requests *)

Module AddArgs.
Record t : Type := mk { NodeName : string; PeerURL : string; AdminURL : string }.
#[global] Instance t_eq_dec : EqDecision t.
Proof. solve_decision. Defined.
#[global] Instance t_countable : Countable t.
Proof. apply (inj_countable' (fun a => (NodeName a, PeerURL a, AdminURL a)) (fun '(n, p, a) => mk n p a)). by intros []. Defined.
End AddArgs.

Module UpdateArgs.
Record t : Type := mk { NodeName : string; NewPeerURL : string }.
#[global] Instance t_eq_dec : EqDecision t.
Proof. solve_decision. Defined.
#[global] Instance t_countable : Countable t.
Proof. apply (inj_countable' (fun a => (NodeName a, NewPeerURL a)) (fun '(n, p) => mk n p)). by intros []. Defined.
End UpdateArgs.

Module DeleteArgs.
Record t : Type := mk { NodeName : string; PeerURL : string }.
#[global] Instance t_eq_dec : EqDecision t.
Proof. solve_decision. Defined.
#[global] Instance t_countable : Countable t.
Proof. apply (inj_countable' (fun a => (NodeName a, PeerURL a)) (fun '(n, p) => mk n p)). by intros []. Defined.
End DeleteArgs.

(** * The handlers *)

Inductive handler : Type :=
  | GetMembers | AddMember | UpdateMember | DeleteMember | GetCluster | UpdateAdminURL
  | StartBinlogSyncer | StopBinlogSyncer | GetBinlogSyncerStatus
  | StartBinlogServer | StopBinlogServer | GetBinlogServerStatus.

(** [RegisterURL] *)
Definition routes : list (string * string * handler) :=
  [("GET", "/members", GetMembers);
   ("POST", "/members", AddMember);
   ("PUT", "/members", UpdateMember);
   ("DELETE", "/members", DeleteMember);
   ("GET", "/cluster", GetCluster);
   ("PUT", "/admin/url", UpdateAdminURL);
   ("PUT", "/binlog/syncer/start", StartBinlogSyncer);
   ("PUT", "/binlog/syncer/stop", StopBinlogSyncer);
   ("GET", "/binlog/syncer/status", GetBinlogSyncerStatus);
   ("PUT", "/binlog/server/start", StartBinlogServer);
   ("PUT", "/binlog/server/stop", StopBinlogServer);
   ("GET", "/binlog/server/status", GetBinlogServerStatus)].

Definition RegisterURL (method path : string) : option handler :=
  snd <$> find (fun x => String.eqb x.1.1 method && String.eqb x.1.2 path) routes.

Section Api.
Context {S J : Type} `{Server S} `{URLParser}.
Context `{Json AddArgs.t} `{Json UpdateArgs.t} `{Json DeleteArgs.t} `{Json Attributes.t} `{Json SyncerArgs.t}
        `{Json BinlogServerConfig.t}.
(** [Error()] of an error, the scheme and host of a URL as [url.Parse] finds
    them, and the request to another node: its method, URL and body. *)
Context (Error : error -> string) (base_url : string -> option string).
Context (SendRequest : string -> string -> bytes -> St S (Resp.t J)).

Definition ok (d : data J) : reply J := Reply StatusOK (Resp.SetData d Resp.NewResp).
Definition failed (c : Z) (msg : string) : reply J := Reply c (Resp.SetError msg Resp.NewResp).

(** A call whose error is answered by [on_err]. *)
Definition try_ {A} (m : St S A) (on_err : error -> reply J) (k : A -> St S (reply J)) : St S (reply J) := fun s =>
  match m s with
  | (Ok a, s) => k a s
  | (Err e, s) => (Ok (on_err e), s)
  | (Panic, s) => (Panic, s)
  end.
Definition internal (e : error) : reply J := failed StatusInternalServerError (Error e).

(** [echoCtx.Bind]: the JSON of the body. *)
Definition Bind {A} `{Json A} (body : bytes) : St S A :=
  match json_Unmarshal body with Some a => ret a | None => throw ErrJson end.

(** Of both handlers. *)
Definition sendToLeader (method uri : string) (req : bytes) : St S (Resp.t J) :=
  let! s := gets id in
  match RaftCluster.Member (srv_Leader s) (srv_cluster s) with
  | None => throw ErrNoLeader
  | Some leader =>
      match Member.AdminURLs leader with
      | [u] => match base_url u with
               | None => throw ErrFormat
               | Some b => SendRequest method (b +:+ uri) req
               end
      | _ => throw ErrNoLeader
      end
  end.

(** ** membership_handler.go *)

Definition role (leader : Z) (m : Member.t) : Role.t :=
  Role.mk (fmt_x (Member.ID m)) (Member.PeerURLs m) (Member.Name m) (Member.AdminURLs m) (Member.ID m =? leader).

Definition h_GetCluster : St S (reply J) :=
  let! s := gets id in
  ret (ok (Roles (map (role (srv_Leader s)) (RaftCluster.Members (srv_cluster s))))).

Definition h_GetMembers : St S (reply J) :=
  let! s := gets id in
  ret (ok (Members (RaftCluster.Members (srv_cluster s)))).

Definition h_UpdateAdminURL (body : bytes) : St S (reply J) :=
  let! isLeader := gets srv_IsLeader in
  if negb isLeader then ret (internal ErrNotLeader) else
  try_ (Bind (A := Attributes.t) body) internal (fun attributes =>
  try_ (srv_Propose (Attributes.EncodeWithType attributes)) internal (fun _ =>
  ret (ok (Text "")))).

(** The response of the leader to a forwarded request: its message is not
    looked at. *)
Definition forward_member (method : string) (req : bytes) : St S (reply J) :=
  try_ (sendToLeader method "/members" req) internal (fun resp => ret (ok (Raw (Resp.Data resp)))).

(** [now] is the time in seconds. *)
Definition h_AddMember (now : Z) (body : bytes) : St S (reply J) :=
  try_ (Bind (A := AddArgs.t) body) internal (fun args =>
  let! isLeader := gets srv_IsLeader in
  if negb isLeader then forward_member "POST" (json_Marshal args) else
  try_ (lift (NewURLs [AddArgs.PeerURL args])) internal (fun peerURLs =>
  try_ (lift (NewURLs [AddArgs.AdminURL args])) internal (fun adminURLs =>
  let member := Member.NewMember (AddArgs.NodeName args) peerURLs adminURLs (Some now) in
  try_ (srv_AddMember member)
    (fun err => match err with
                | ErrIDExists | ErrPeerURLexists => failed StatusConflict (Error err)
                | _ => internal err
                end) (fun members =>
  ret (ok (Members members)))))).

Definition h_UpdateMember (body : bytes) : St S (reply J) :=
  try_ (Bind (A := UpdateArgs.t) body) internal (fun args =>
  let! isLeader := gets srv_IsLeader in
  if negb isLeader then forward_member "PUT" (json_Marshal args) else
  let! s := gets id in
  let! m := lift (RaftCluster.MemberByName (UpdateArgs.NodeName args) (srv_cluster s)) in
  match m with
  | None => ret (failed StatusNotFound (Error ErrNoSuchMember))
  | Some m =>
      let newMember := Member.mk (Member.ID m) [UpdateArgs.NewPeerURL args] "" [] in
      try_ (srv_UpdateMember newMember)
        (fun err => match err with
                    | ErrPeerURLexists => failed StatusConflict (Error err)
                    | ErrIDNotFound => failed StatusNotFound (Error ErrNoSuchMember)
                    | _ => internal err
                    end) (fun members =>
      ret (ok (Members members)))
  end).

Definition h_DeleteMember (body : bytes) : St S (reply J) :=
  try_ (Bind (A := DeleteArgs.t) body) (fun err => Plain StatusForbidden (Error err)) (fun args =>
  let! isLeader := gets srv_IsLeader in
  if negb isLeader then forward_member "DELETE" (json_Marshal args) else
  let! s := gets id in
  let! m := lift (RaftCluster.MemberByName (DeleteArgs.NodeName args) (srv_cluster s)) in
  match m with
  | None => ret (failed StatusNotFound (Error ErrNoSuchMember))
  | Some m =>
      try_ (srv_RemoveMember (Member.ID m))
        (fun err => match err with
                    | ErrIDRemoved => failed StatusGone (Error ErrMemberRemoved)
                    | ErrIDNotFound => failed StatusNotFound (Error ErrNoSuchMember)
                    | _ => internal err
                    end) (fun members =>
      ret (ok (Members members)))
  end).

(** ** binlog_syncer_handler.go *)

Definition ProposeSyncerArgs (args : SyncerArgs.t) : St S unit := srv_Propose (SyncerArgs.EncodeWithType args).

(** The response of the leader to a forwarded request. *)
Definition forward_syncer (method uri : string) (req : bytes) : St S (reply J) :=
  try_ (sendToLeader method uri req) internal (fun resp =>
  ret (if String.eqb (Resp.Message resp) "success" then ok (Raw (Resp.Data resp))
       else failed StatusInternalServerError (Resp.Message resp))).

(** The error of every call before the last one is written by the deferred
    function. *)
Definition h_StartBinlogSyncer (body : bytes) : St S (reply J) :=
  try_ (Bind (A := SyncerArgs.t) body) internal (fun args =>
  try_ (lift (SyncerArgs.Check args)) internal (fun _ =>
  let! isLeader := gets srv_IsLeader in
  if negb isLeader then forward_syncer "PUT" "/binlog/syncer/start" (json_Marshal args) else
  try_ (srv_StartServer SyncerServerType (Syncer_args args)) internal (fun _ =>
  try_ (ProposeSyncerArgs args) internal (fun _ =>
  ret (ok (Int 0)))))).

Definition h_StopBinlogSyncer : St S (reply J) :=
  let! isLeader := gets srv_IsLeader in
  if negb isLeader then forward_syncer "PUT" "/binlog/syncer/stop" [] else
  srv_StopServer SyncerServerType ;! ret (ok (Text "")).

Definition h_GetBinlogSyncerStatus : St S (reply J) :=
  let! isLeader := gets srv_IsLeader in
  if negb isLeader then forward_syncer "GET" "/binlog/syncer/status" [] else
  let! status := srv_GetServerStatus SyncerServerType in
  match status with
  | Syncer_status st => ret (ok (Status (Syncer_status st)))
  | Binlog_status _ => ret (internal ErrNoResp)
  end.

(** ** binlog_server_handler.go *)

Definition h_StartBinlogServer (body : bytes) : St S (reply J) :=
  try_ (Bind (A := BinlogServerConfig.t) body) internal (fun args =>
  let! kingbusIP := gets srv_GetIP in
  try_ (lift (BinlogServerConfig.Check kingbusIP args)) internal (fun _ =>
  try_ (srv_StartServer BinlogServerType (Binlog_args args)) internal (fun _ =>
  ret (ok (Text ""))))).

Definition h_GetBinlogServerStatus : St S (reply J) :=
  let! status := srv_GetServerStatus BinlogServerType in
  match status with
  | Binlog_status st => ret (ok (Status (Binlog_status st)))
  | Syncer_status _ => ret (internal ErrNoResp)
  end.

Definition h_StopBinlogServer : St S (reply J) :=
  srv_StopServer BinlogServerType ;! ret (ok (Text "")).

(** ** The dispatch *)

Definition handle (now : Z) (h : handler) (body : bytes) : St S (reply J) :=
  match h with
  | GetMembers => h_GetMembers
  | AddMember => h_AddMember now body
  | UpdateMember => h_UpdateMember body
  | DeleteMember => h_DeleteMember body
  | GetCluster => h_GetCluster
  | UpdateAdminURL => h_UpdateAdminURL body
  | StartBinlogSyncer => h_StartBinlogSyncer body
  | StopBinlogSyncer => h_StopBinlogSyncer
  | GetBinlogSyncerStatus => h_GetBinlogSyncerStatus
  | StartBinlogServer => h_StartBinlogServer body
  | StopBinlogServer => h_StopBinlogServer
  | GetBinlogServerStatus => h_GetBinlogServerStatus
  end.

(** A path or a method that is not registered is answered by the error handler of
    echo, with the text of the status. *)
Definition serve (now : Z) (method path : string) (body : bytes) : St S (reply J) :=
  match RegisterURL method path with
  | Some h => handle now h body
  | None => ret (if existsb (fun x => String.eqb x.1.2 path) routes
                 then failed StatusMethodNotAllowed "Method Not Allowed" else failed StatusNotFound "Not Found")
  end.
End Api.

(** * Requests that a follower forwards *)

Fixpoint strip (prefix s : string) : option string :=
  match prefix, s with
  | "", _ => Some s
  | String a p, String b s' => if Ascii.eqb a b then strip p s' else None
  | String _ _, "" => None
  end.

Lemma strip_app b p : strip b (b +:+ p) = Some p.
Proof. induction b as [|a b IH]; [done|]. rewrite string_app_cons. cbn [strip]. by rewrite Ascii.eqb_refl. Qed.

Section two.
Context {S J : Type} `{Server S} `{URLParser}.
Context `{JsonLaws AddArgs.t} `{JsonLaws UpdateArgs.t} `{JsonLaws DeleteArgs.t} `{JsonLaws Attributes.t} `{JsonLaws SyncerArgs.t}
        `{JsonLaws BinlogServerConfig.t}.
Context (Error : error -> string) (base_url : string -> option string).
(** Where the leader would send its requests, and the JSON value that a client
    gets for some data. *)
Context (SendRequest : string -> string -> bytes -> St S (Resp.t J)) (raw : data J -> J).

(** No error reads as success. *)
Hypothesis errors_differ : forall e, Error e <> "success".

(** A follower and the leader. *)
Definition local {A} (m : St S A) : St (S * S) A := zoom fst (fun x w => (x, w.2)) m.

#[local] Instance follower_server : Server (S * S) := {
  srv_AddMember m := local (srv_AddMember m);
  srv_RemoveMember i := local (srv_RemoveMember i);
  srv_UpdateMember m := local (srv_UpdateMember m);
  srv_GetIP w := srv_GetIP w.1;
  srv_IsLeader w := srv_IsLeader w.1;
  srv_Leader w := srv_Leader w.1;
  srv_Propose d := local (srv_Propose d);
  srv_StartServer ty a := local (srv_StartServer ty a);
  srv_StopServer ty := local (srv_StopServer ty);
  srv_GetServerStatus ty := local (srv_GetServerStatus ty);
  srv_cluster w := srv_cluster w.1 }.

(** [SendRequest] when its URL is one of the leader with the base [b]: the leader
    serves the request, and its response is decoded; a body that is no [Resp] is an error,
    and so is a request whose server ends. *)
Definition deliver (now : Z) (b method url : string) (body : bytes) : St (S * S) (Resp.t J) := fun w =>
  match strip b url with
  | None => (Err ErrFormat, w)
  | Some path =>
      match serve Error base_url SendRequest now method path body w.2 with
      | (Ok (Reply _ r), l) => (Ok (Resp.mk (Resp.Message r) (raw (Resp.Data r))), (w.1, l))
      | (Ok (Plain _ _), l) => (Err ErrJson, (w.1, l))
      | (_, l) => (Err ErrEOF, (w.1, l))
      end
  end.

(** The leader that the follower knows has the admin URL with the base [b]. *)
Definition knows_leader (b : string) (f : S) : Prop :=
  exists m u, RaftCluster.Member (srv_Leader f) (srv_cluster f) = Some m /\ Member.AdminURLs m = [u] /\ base_url u = Some b.

Lemma sent_to_leader now b f l method path body : knows_leader b f ->
  sendToLeader (S := S * S) base_url (deliver now b) method path body (f, l) =
    deliver now b method (b +:+ path) body (f, l).
Proof.
  intros (m & u & Hm & Hu & Hb). unfold sendToLeader. rewrite bind_gets.
  cbn [srv_Leader srv_cluster follower_server fst id]. by rewrite Hm, Hu, Hb.
Qed.

Lemma delivered now b f l method path body h : RegisterURL method path = Some h ->
  deliver now b method (b +:+ path) body (f, l) =
    match handle Error base_url SendRequest now h body l with
    | (Ok (Reply _ r), l) => (Ok (Resp.mk (Resp.Message r) (raw (Resp.Data r))), (f, l))
    | (Ok (Plain _ _), l) => (Err ErrJson, (f, l))
    | (_, l) => (Err ErrEOF, (f, l))
    end.
Proof. intros Hr. unfold deliver. rewrite strip_app. unfold serve. by rewrite Hr. Qed.

(** Binding the JSON of arguments gives the arguments. *)
Lemma bind_marshal {A T} `{JsonLaws A} (a : A) (s : T) : Bind (json_Marshal a) s = (Ok a, s).
Proof. unfold Bind. by rewrite json_roundtrip. Qed.

Definition syncer_handler (h : handler) : Prop :=
  h = StartBinlogSyncer \/ h = StopBinlogSyncer \/ h = GetBinlogSyncerStatus.

(** The reply of a follower to a forwarded request for the syncer. *)
Definition passed_on (resp : Resp.t (data J)) : reply J :=
  if String.eqb (Resp.Message resp) "success" then ok (Raw (raw (Resp.Data resp)))
  else failed StatusInternalServerError (Resp.Message resp).

Lemma forward_syncer_reply now b f l method path body h c resp l' :
  knows_leader b f -> RegisterURL method path = Some h ->
  handle Error base_url SendRequest now h body l = (Ok (Reply c resp), l') ->
  forward_syncer (S := S * S) Error base_url (deliver now b) method path body (f, l) = (Ok (passed_on resp), (f, l')).
Proof.
  intros Hk Hr Hl. unfold forward_syncer, try_. rewrite sent_to_leader, (delivered _ _ _ _ _ _ _ h), Hl by done. done.
Qed.

(** C33: A request for the syncer has the same effect and the same message at every
    node: a follower that knows the leader sends it on, the leader carries it out as if it had
    been asked itself, and the client of the follower gets the message and the data of the leader,
    with the status 500 when the message is not success. *)
Theorem syncer_request_forwarded now b f l h body c resp l' :
  syncer_handler h -> srv_IsLeader f = false -> knows_leader b f ->
  handle Error base_url SendRequest now h body l = (Ok (Reply c resp), l') ->
  exists c' d, handle (S := S * S) Error base_url (deliver now b) now h body (f, l) =
      (Ok (Reply c' (Resp.mk (Resp.Message resp) d)), (f, l')) /\
    (Resp.Message resp = "success" -> c' = StatusOK /\ d = Raw (raw (Resp.Data resp))) /\
    (Resp.Message resp <> "success" -> c' = StatusInternalServerError).
Proof.
  intros Hh Hf Hk Hl.
  assert (forall resp : Resp.t (data J), exists c' d, passed_on resp = Reply c' (Resp.mk (Resp.Message resp) d) /\
    (Resp.Message resp = "success" -> c' = StatusOK /\ d = Raw (raw (Resp.Data resp))) /\
    (Resp.Message resp <> "success" -> c' = StatusInternalServerError)) as Hp.
  { intros r. unfold passed_on. destruct (String.eqb_spec (Resp.Message r) "success") as [E|E];
      eexists _, _; (split; [by rewrite ?E|by split]). }
  destruct Hh as [-> |[-> | ->]]; cbn [handle].
  - destruct (json_Unmarshal (A := SyncerArgs.t) body) as [args|] eqn:Hb.
    2: { cbn [handle] in Hl. unfold h_StartBinlogSyncer, try_, Bind in *. rewrite Hb in Hl |- *. injection Hl as <- <- <-.
         eexists _, _. split; [reflexivity|]. split; [intros E; by destruct (errors_differ _ E)|done]. }
    destruct (SyncerArgs.Check args) as [u|e|] eqn:Hc.
    + assert (handle Error base_url SendRequest now StartBinlogSyncer (json_Marshal args) l = (Ok (Reply c resp), l')) as Hl'.
      { rewrite <- Hl. cbn [handle]. unfold h_StartBinlogSyncer, try_, Bind. by rewrite json_roundtrip, Hb. }
      destruct (Hp resp) as (c' & d & E & HE). exists c', d. split; [|done]. rewrite <- E.
      rewrite <- (forward_syncer_reply now b f l "PUT" "/binlog/syncer/start" _ _ _ _ _ Hk eq_refl Hl').
      unfold h_StartBinlogSyncer, try_ at 1, Bind. rewrite Hb. unfold ret at 1, try_ at 1, lift. rewrite Hc, bind_gets.
      cbn [srv_IsLeader follower_server fst]. by rewrite Hf.
    + cbn [handle] in Hl. unfold h_StartBinlogSyncer, try_, Bind, lift in *. rewrite Hb in Hl |- *. cbn in Hl |- *. rewrite Hc in Hl |- *.
      injection Hl as <- <- <-. eexists _, _. split; [reflexivity|]. split; [intros E; by destruct (errors_differ _ E)|done].
    + cbn [handle] in Hl. unfold h_StartBinlogSyncer, try_, Bind, lift in Hl. rewrite Hb in Hl. cbn in Hl. by rewrite Hc in Hl.
  - destruct (Hp resp) as (c' & d & E & HE). exists c', d. split; [|done]. rewrite <- E.
    rewrite <- (forward_syncer_reply now b f l "PUT" "/binlog/syncer/stop" [] _ _ _ _ Hk eq_refl Hl).
    unfold h_StopBinlogSyncer. rewrite bind_gets. cbn [srv_IsLeader follower_server fst]. by rewrite Hf.
  - destruct (Hp resp) as (c' & d & E & HE). exists c', d. split; [|done]. rewrite <- E.
    rewrite <- (forward_syncer_reply now b f l "GET" "/binlog/syncer/status" [] _ _ _ _ Hk eq_refl Hl).
    unfold h_GetBinlogSyncerStatus. rewrite bind_gets. cbn [srv_IsLeader follower_server fst]. by rewrite Hf.
Qed.

Definition member_handler (h : handler) : Prop := h = AddMember \/ h = UpdateMember \/ h = DeleteMember.

(** The body of such a request can be bound. *)
Definition body_binds (h : handler) (body : bytes) : Prop :=
  match h with
  | AddMember => exists a : AddArgs.t, json_Unmarshal body = Some a
  | UpdateMember => exists a : UpdateArgs.t, json_Unmarshal body = Some a
  | DeleteMember => exists a : DeleteArgs.t, json_Unmarshal body = Some a
  | _ => False
  end.

Lemma forward_member_reply now b f l method body h c resp l' :
  knows_leader b f -> RegisterURL method "/members" = Some h ->
  handle Error base_url SendRequest now h body l = (Ok (Reply c resp), l') ->
  forward_member (S := S * S) Error base_url (deliver now b) method body (f, l) =
    (Ok (ok (Raw (raw (Resp.Data resp)))), (f, l')).
Proof.
  intros Hk Hr Hl. unfold forward_member, try_. rewrite sent_to_leader, (delivered _ _ _ _ _ _ _ h), Hl by done. done.
Qed.

(** A request for a change of the members that a follower sends on is carried
    out by the leader, but the client of the follower is told of success whatever the leader
    answers: the reply is the same when the change was refused. *)
Theorem member_request_forwarded now b f l h body c resp l' :
  member_handler h -> body_binds h body -> srv_IsLeader f = false -> knows_leader b f ->
  handle Error base_url SendRequest now h body l = (Ok (Reply c resp), l') ->
  handle (S := S * S) Error base_url (deliver now b) now h body (f, l) =
    (Ok (Reply StatusOK (Resp.mk "success" (Raw (raw (Resp.Data resp))))), (f, l')).
Proof.
  intros Hh Hb Hf Hk Hl. destruct Hh as [-> |[-> | ->]]; destruct Hb as [a Hb]; cbn [handle];
    change (Reply StatusOK (Resp.mk "success" (Raw (raw (Resp.Data resp))))) with (ok (Raw (raw (Resp.Data resp)))).
  - rewrite <- (forward_member_reply now b f l "POST" (json_Marshal a) AddMember c resp l' Hk eq_refl).
    + unfold h_AddMember, try_ at 1, Bind. rewrite Hb. unfold ret at 1. rewrite bind_gets.
      cbn [srv_IsLeader follower_server fst]. by rewrite Hf.
    + rewrite <- Hl. cbn [handle]. unfold h_AddMember, try_, Bind. by rewrite json_roundtrip, Hb.
  - rewrite <- (forward_member_reply now b f l "PUT" (json_Marshal a) UpdateMember c resp l' Hk eq_refl).
    + unfold h_UpdateMember, try_ at 1, Bind. rewrite Hb. unfold ret at 1. rewrite bind_gets.
      cbn [srv_IsLeader follower_server fst]. by rewrite Hf.
    + rewrite <- Hl. cbn [handle]. unfold h_UpdateMember, try_, Bind. by rewrite json_roundtrip, Hb.
  - rewrite <- (forward_member_reply now b f l "DELETE" (json_Marshal a) DeleteMember c resp l' Hk eq_refl).
    + unfold h_DeleteMember, try_ at 1, Bind. rewrite Hb. unfold ret at 1. rewrite bind_gets.
      cbn [srv_IsLeader follower_server fst]. by rewrite Hf.
    + rewrite <- Hl. cbn [handle]. unfold h_DeleteMember, try_, Bind. by rewrite json_roundtrip, Hb.
Qed.
End two.

(** * The kingbus server behind the interface *)

Section kingbus.
Context `{Transport} `{Json Member.t} `{Json MasterInfo.t} `{Json MasterGtidPurged.t}.
Context (connect : nat -> option error) (execute : nat -> string -> res Result.t) (startSync : MysqlGTIDSet.t -> option error).
Context (sleep : Sub.t -> Sub.t) (fuel : nat) (listen : string -> option error) (raft_Propose : bytes -> option error).
(** [StrictReconfigCheck], the time of the request in nanoseconds, the id that the
    generator gives it, the error of [ProposeConfChange], and what wakes the request that has
    proposed a change. *)
Context (strict : bool) (now next : Z) (propose_err : option error) (wakes : ConfChange.t -> list Admin.wake).

(** A request for a change, with what it waits for; the context of a handler ends
    the wait after ten seconds. *)
Definition await_change (request : option error -> list Admin.wake -> option ConfChange.t * option (res (list Member.t)))
    : St Node.t (list Member.t) :=
  let ws := match (request propose_err []).1 with Some cc => wakes cc | None => [] end in
  lift (default (Err ErrTimeout) (request propose_err ws).2).

#[export] Instance node_server : Server Node.t := {
  srv_AddMember m := fun n => await_change (Admin.AddMember strict now m (Node.server n) next) n;
  srv_RemoveMember i := fun n => await_change (Admin.RemoveMember strict now i (Node.server n) next) n;
  srv_UpdateMember m := await_change (Admin.UpdateMember m next);
  srv_GetIP := Node.GetIP;
  srv_IsLeader := Node.IsLeader;
  srv_Leader := Node.Leader;
  srv_Propose := Node.Propose raft_Propose;
  srv_StartServer := Node.StartServer connect execute startSync sleep listen fuel;
  srv_StopServer := Node.StopServer;
  srv_GetServerStatus := Node.GetServerStatus;
  srv_cluster n := KingbusServer.cluster (Node.server n) }.
End kingbus.

(** * A follower and a leader *)

#[local] Existing Instance member_json.
#[local] Instance add_json : Json AddArgs.t := code_json _.
#[local] Instance add_laws : JsonLaws AddArgs.t := code_json_laws _.
#[local] Instance update_json : Json UpdateArgs.t := code_json _.
#[local] Instance update_laws : JsonLaws UpdateArgs.t := code_json_laws _.
#[local] Instance delete_json : Json DeleteArgs.t := code_json _.
#[local] Instance delete_laws : JsonLaws DeleteArgs.t := code_json_laws _.
#[local] Instance attributes_json : Json Attributes.t := code_json _.
#[local] Instance attributes_laws : JsonLaws Attributes.t := code_json_laws _.
#[local] Instance syncer_json : Json SyncerArgs.t := code_json _.
#[local] Instance syncer_laws : JsonLaws SyncerArgs.t := code_json_laws _.
#[local] Instance info_json : Json MasterInfo.t := code_json _.
#[local] Instance binlog_server_json : Json BinlogServerConfig.t := code_json _.
#[local] Instance purged_json : Json MasterGtidPurged.t := code_json _.
#[local] Instance sample_parser : URLParser := fun s => Some s.
#[local] Instance sample_transport : Transport := fun _ => None.
#[local] Instance sample_server : Server Node.t :=
  node_server (fun _ => None) (fun _ _ => Err ErrFormat) (fun _ => None) (fun s => s) 3 (fun _ => None) (fun _ => None)
    true 0 7 None (fun _ => []).

Definition two_members : RaftCluster.t := RaftCluster.NewClusterFromMembers 7
  [Member.mk 1 ["http://n1"] "n1" ["http://a1"]; Member.mk 2 ["http://n2"] "n2" ["http://a2"]].
(** The node [id] of a cluster that the node 2 leads. *)
Definition node_of (id : Z) : Node.t :=
  Node.mk (KingbusServer.mk id two_members (BinlogProgress.mk "" "" "" 0 "" (TransactionBoundaryParser.mk EventParserNone) 0 0 ∅
             new_store) (RaftConf.mk {[1; 2]} ∅ false) 0 0 []) 2 0 None 0 None "10.0.0.1:1" [].
Definition nowhere (method url : string) (body : bytes) : St Node.t (Resp.t nat) := throw ErrFormat.

Lemma sample_knows : knows_leader (fun u => Some u) "http://a2" (node_of 1).
Proof. exists (Member.mk 2 ["http://n2"] "n2" ["http://a2"]), "http://a2". split; [vm_compute; reflexivity|done]. Qed.

Lemma syncer_request_forwarded_witness :
  exists c' d, handle (S := Node.t * Node.t) (H := follower_server) (fun _ => "error") (fun u => Some u)
      (deliver (fun _ => "error") (fun u => Some u) nowhere (fun _ => 0%nat) 0 "http://a2") 0 StopBinlogSyncer [] (node_of 1, node_of 2) =
    (Ok (Reply c' (Resp.mk "success" d)), (node_of 1, node_of 2)).
Proof.
  destruct (syncer_request_forwarded (fun _ => "error") (fun u => Some u) nowhere (fun _ => 0%nat) ltac:(discriminate) 0 "http://a2"
    (node_of 1) (node_of 2) StopBinlogSyncer [] StatusOK (Resp.mk "success" (Text "")) (node_of 2)) as (c' & d & E & _).
  - right. left. reflexivity.
  - reflexivity.
  - exact sample_knows.
  - reflexivity.
  - exists c', d. exact E.
Defined.

(** The leader does not know the member that is to be removed. *)
Lemma member_request_forwarded_witness :
  let body := json_Marshal (DeleteArgs.mk "n9" "") in
  (handle (fun _ => "error") (fun u => Some u) nowhere 0 DeleteMember body (node_of 2)).1 =
    Ok (Reply StatusNotFound (Resp.mk "error" NoData)) /\
  handle (S := Node.t * Node.t) (H := follower_server) (fun _ => "error") (fun u => Some u)
    (deliver (fun _ => "error") (fun u => Some u) nowhere (fun _ => 0%nat) 0 "http://a2") 0 DeleteMember body (node_of 1, node_of 2) =
    (Ok (Reply StatusOK (Resp.mk "success" (Raw 0%nat))), (node_of 1, node_of 2)).
Proof.
  intros body.
  assert (handle (fun _ => "error") (fun u => Some u) nowhere 0 DeleteMember body (node_of 2) =
    (Ok (Reply StatusNotFound (Resp.mk "error" NoData)), node_of 2)) as E.
  { cbn [handle]. unfold h_DeleteMember, try_, Bind, body. rewrite json_roundtrip. reflexivity. }
  split; [by rewrite E|].
  apply (member_request_forwarded (fun _ => "error") (fun u => Some u) nowhere (fun _ => 0%nat) 0 "http://a2"
    (node_of 1) (node_of 2) DeleteMember body StatusNotFound (Resp.mk "error" NoData) (node_of 2)).
  - right. right. reflexivity.
  - exists (DeleteArgs.mk "n9" ""). apply json_roundtrip.
  - reflexivity.
  - exact sample_knows.
  - exact E.
Defined.
