(* ===== verification/Messages.v ===== *)
(** Messages on a connection: the stream of several of them, a client that reads
    them, and the connection after some were sent. *)
From S2P Require Import Prelude.
From S2P Require Import Wire.
From S2P Require Import Packets.
From S2P Require Import MetaStore.
From S2P Require Import BinlogServer.
From stdpp Require Import list strings.
Local Open Scope list_scope.
Local Open Scope Z_scope.
Local Open Scope go_scope.

(** * Messages *)

(** The stream with the given payloads, each in one packet. *)
Fixpoint messages (s : Z) (ps : list bytes) : bytes :=
  match ps with
  | [] => []
  | p :: ps' => packet s p ++ messages (u8 (s + 1)) ps'
  end.

Fixpoint sequence_after (s : Z) (n : nat) : Z :=
  match n with O => s | S n' => sequence_after (u8 (s + 1)) n' end.

(** A client that reads [n] messages. *)
Fixpoint client_reads (n : nat) (s : Z) (stream : bytes) : option (list bytes * Z * bytes) :=
  match n with
  | O => Some ([], s, stream)
  | S n' =>
      match client_read (length stream) s stream with
      | None => None
      | Some (p, s1, rest) =>
          match client_reads n' s1 rest with
          | None => None
          | Some (ps, s2, rest2) => Some (p :: ps, s2, rest2)
          end
      end
  end.

Lemma messages_app s ps qs :
  messages s (ps ++ qs) = messages s ps ++ messages (sequence_after s (length ps)) qs.
Proof. revert s. induction ps as [|p ps IH]; intros s; [done|]. cbn. by rewrite IH, app_assoc. Qed.

Lemma sequence_after_app s n k : sequence_after s (n + k) = sequence_after (sequence_after s n) k.
Proof. revert s. induction n as [|n IH]; intros s; [done|]. cbn. by rewrite IH. Qed.

(** Short messages are read one by one. *)
Lemma client_reads_messages ps : forall s rest, Forall (fun p => blen p < MaxPayloadLen) ps ->
  client_reads (length ps) s (messages s ps ++ rest) = Some (ps, sequence_after s (length ps), rest).
Proof.
  induction ps as [|p ps IH]; intros s rest Hp; [done|].
  apply Forall_cons in Hp as [Hp Hps]. cbn [length client_reads messages sequence_after]. rewrite <-app_assoc.
  pose proof (blen_packet s p) as Hl. pose proof (blen_nonneg p).
  destruct (length (packet s p ++ messages (u8 (s + 1)) ps ++ rest)) as [|f] eqn:Ef.
  { rewrite length_app in Ef. unfold blen in Hl. lia. }
  rewrite client_read_packet by lia. rewrite (proj2 (Z.ltb_lt _ _) Hp). by rewrite IH.
Qed.

(** * Sending *)

(** The connection after [ps] was sent on it. *)
Definition after_sent (ps : list bytes) (c : Conn.t) : Conn.t :=
  let b := Conn.BaseConn_ c in
  Conn.set_BaseConn (BaseConn.mk (sequence_after (BaseConn.Sequence b) (length ps)) (BaseConn.input b)
    (BaseConn.output b ++ messages (BaseConn.Sequence b) ps) []) c.

Lemma after_sent_app ps qs c : after_sent qs (after_sent ps c) = after_sent (ps ++ qs) c.
Proof.
  unfold after_sent, Conn.set_BaseConn. cbn. by rewrite messages_app, length_app, sequence_after_app, app_assoc.
Qed.

Lemma after_sent_nil c : BaseConn.faults (Conn.BaseConn_ c) = [] -> after_sent [] c = c.
Proof. destruct c as [[s i o f]]. cbn. intros ->. unfold after_sent, Conn.set_BaseConn. cbn. by rewrite app_nil_r. Qed.

Lemma set_store_same c : Conn.set_store (Conn.store c) c = c.
Proof. by destruct c. Qed.

Lemma on_store_ok {A} (m : St MetaStore.t A) a c :
  m (Conn.store c) = (Ok a, Conn.store c) -> Conn.on_store m c = (Ok a, c).
Proof. intros E. unfold Conn.on_store, zoom. rewrite E. by rewrite set_store_same. Qed.

Lemma write_sent data c : BaseConn.faults (Conn.BaseConn_ c) = [] -> blen data + 1 <= MaxPayloadLen ->
  Conn.on_base (BaseConn.WriteEvent data true) c = (Ok tt, after_sent [0 :: data] c).
Proof.
  intros Hf Hl. unfold Conn.on_base, zoom. rewrite WriteEvent_ok by (rewrite ?blen_cons; (done || lia)).
  unfold after_sent. cbn. by rewrite app_nil_r.
Qed.


Lemma closed_after_sent ps c : Conn.closed (after_sent ps c) = Conn.closed c.
Proof. reflexivity. Qed.

Lemma write_packet_sent p c : Conn.closed c = false -> BaseConn.faults (Conn.BaseConn_ c) = [] ->
  blen p < MaxPayloadLen -> Conn.WritePacket (zeros 4 ++ p) c = (Ok tt, after_sent [p] c).
Proof.
  intros Hc Hf Hl. pose proof (blen_nonneg p). unfold Conn.WritePacket, Conn.on_base, zoom. rewrite Hc.
  rewrite WritePacket_ok by done. rewrite seq_after_short by lia. cbn [packets].
  rewrite (proj2 (Z.leb_gt _ _) Hl). unfold after_sent. cbn [messages length sequence_after]. by rewrite app_nil_r.
Qed.
