(* ===== verification/DumpTheorems.v ===== *)
(** What a slave receives: the dump reads the applied entries in order and
    sends the events of the transactions that the slave does not have; and what
    the registration of slaves and the checks before a dump do. *)
From S2P Require Import Prelude.
From S2P Require Import Names.
From S2P Require Import Text.
From S2P Require Import Wire.
From S2P Require Import Disk.
From S2P Require Import Segments.
From S2P Require Import Events.
From S2P Require Import Packets.
From S2P Require Import TrxParser.
From S2P Require Import Gtid.
From S2P Require Import GtidCodec.
From S2P Require Import Storage.
From S2P Require Import LogStore.
From S2P Require Import StorageTheorems.
From S2P Require Import MetaStore.
From S2P Require Import MetaTheorems.
From S2P Require Import Progress.
From S2P Require Import Apply.
From S2P Require Import ApplyTheorems.
From S2P Require Import BinlogServer.
From stdpp Require Import list strings.
Local Open Scope string_scope.
Local Open Scope list_scope.
Local Open Scope Z_scope.
Local Open Scope go_scope.

(** * The reader *)

(** What the dump needs of a reader: [rd_log base es s] says that the log of
    [s] is [es], the first entry at index [base]. *)
Class EntryReaderLaws (S : Type) `{EntryReader S} : Type := {
  rd_log : Z -> list Entry.t -> S -> Prop;
  law_new base es s i : rd_log base es s -> base <= i < base + blen es -> rd_NewEntryReaderAt i s = (Ok i, s);
  law_next base es s i e : rd_log base es s -> base <= i -> es !! Z.to_nat (i - base) = Some e ->
    rd_GetNext i s = (Ok (e, i + 1), s) }.

(** The disk storage gives such a reader. *)
#[export] Instance disk_reader {M} `{MetaStorage M} : EntryReader (DiskStorage.t M * FS) := {|
  rd_NewEntryReaderAt := DiskStorage.NewEntryReaderAt;
  rd_GetNext := DiskStorage.GetNext |}.

#[export, program] Instance disk_reader_laws `{Settings} {M} `{MetaStorage M} : EntryReaderLaws (DiskStorage.t M * FS) := {|
  rd_log base es s := keeps base es s /\ base + blen es < MaxUint64 /\ 0 < SegmentSize <= 2 ^ 32 |}.
Next Obligation.
  intros HS M HM base es s i (Hk & Hm & Hseg) Hi. cbn. unfold DiskStorage.NewEntryReaderAt.
  assert (es <> []) as Hne by (intros ->; rewrite blen_nil in Hi; lia).
  rewrite (bind_ok _ _ s tt s); [done|]. rewrite (keeps_check base es) by done.
  rewrite !(proj2 (Z.ltb_ge _ _)) by lia. done.
Qed.
Next Obligation.
  intros HS M HM base es s i e (Hk & Hm & Hseg) Hi He. cbn. apply (keeps_next Hseg base es); [done| |done].
  apply lookup_lt_Some in He. unfold blen in Hm. lia.
Qed.

(** * The rounds of a dump *)

(** The entries [l] read one after the other. *)
Fixpoint read_all (slave : MysqlGTIDSet.t) (l : list Entry.t) (d : Dumper.t) : res Dumper.t :=
  match l with
  | [] => Ok d
  | e :: l' =>
      match Dumper.take_entry slave e (Dumper.nextRaftIndex d + 1) d with
      | Ok d => read_all slave l' d
      | r => r
      end
  end.

Lemma read_all_app slave l1 l2 d d1 :
  read_all slave l1 d = Ok d1 -> read_all slave (l1 ++ l2) d = read_all slave l2 d1.
Proof.
  revert d. induction l1 as [|e l1 IH]; intros d; cbn [read_all app]; [by injection 1 as ->|].
  destruct (Dumper.take_entry _ _ _ d); [apply IH|done..].
Qed.

Lemma take_entry_next slave e n d d' : Dumper.take_entry slave e n d = Ok d' -> Dumper.nextRaftIndex d' = n.
Proof.
  unfold Dumper.take_entry. destruct (negb _); [by injection 1 as <-|].
  destruct (DecodeBinlogEvent e); [|done..]. destruct (skipEvent _ _ _) as [[]| |]; try done; by injection 1 as <-.
Qed.

Lemma read_all_next slave l : forall d d', read_all slave l d = Ok d' ->
  Dumper.nextRaftIndex d' = Dumper.nextRaftIndex d + blen l.
Proof.
  induction l as [|e l IH]; intros d d' E; cbn [read_all] in E.
  { injection E as <-. rewrite blen_nil. lia. }
  destruct (Dumper.take_entry _ _ _ d) as [d1| |] eqn:E1; try done. apply take_entry_next in E1.
  apply IH in E. rewrite blen_cons. lia.
Qed.

(** * The events that are sent *)

(** The event of an entry, if it has one. *)
Definition event_of (e : Entry.t) : list BinlogEvent.t :=
  if IsBinlogEvent e then match DecodeBinlogEvent e with Ok ev => [ev] | _ => [] end else [].
Definition events_of (es : list Entry.t) : list BinlogEvent.t := concat (map event_of es).

(** Whether the slave has the transaction. *)
Definition has (slave : MysqlGTIDSet.t) (tr : trx) : bool :=
  MysqlGTIDSet.Contain slave {[UUID.String (trx_sid tr) := single (trx_sid tr) (trx_gno tr)]}.

(** An entry with an event that neither starts a transaction nor a file. *)
Definition plain (e : Entry.t) : Prop := exists ev, IsBinlogEvent e = true /\ DecodeBinlogEvent e = Ok ev /\
  u8 (BinlogEvent.Type_ ev) <> GTID_EVENT /\ u8 (BinlogEvent.Type_ ev) <> ROTATE_EVENT.

Definition rotate (e : Entry.t) : Prop := exists ev, IsBinlogEvent e = true /\ DecodeBinlogEvent e = Ok ev /\
  u8 (BinlogEvent.Type_ ev) = ROTATE_EVENT.

(** A log is a sequence of transactions, of changes to the next binlog file
    with the events at its start, and of entries that are not events. *)
Inductive item : Type :=
  | Transaction (tr : trx)
  | NextFile (e : Entry.t) (es : list Entry.t)
  | Internal (e : Entry.t).

Definition item_ok (it : item) : Prop :=
  match it with
  | Transaction tr => is_trx tr
  | NextFile e es => rotate e /\ Forall plain es
  | Internal e => IsBinlogEvent e = false
  end.

Definition item_entries (it : item) : list Entry.t :=
  match it with Transaction tr => trx_entries tr | NextFile e es => e :: es | Internal e => [e] end.

Definition item_sent (slave : MysqlGTIDSet.t) (it : item) : list BinlogEvent.t :=
  match it with
  | Transaction tr => if has slave tr then [] else events_of (trx_entries tr)
  | NextFile e es => events_of (e :: es)
  | Internal _ => []
  end.

Lemma plain_taken slave e n d : plain e ->
  Dumper.take_entry slave e n d =
    Ok (Dumper.mk n (Dumper.inExcludeGroup d)
          (Dumper.eventC d ++ if Dumper.inExcludeGroup d then [] else event_of e)).
Proof.
  intros (ev & Hb & Hd & Hg & Hr). unfold Dumper.take_entry, event_of. rewrite Hb, Hd. cbn [negb].
  unfold skipEvent. rewrite (proj2 (Z.eqb_neq _ _) Hg), (proj2 (Z.eqb_neq _ _) Hr).
  destruct (Dumper.inExcludeGroup d); [by rewrite app_nil_r|done].
Qed.

Lemma plain_read slave es : Forall plain es -> forall d,
  read_all slave es d =
    Ok (Dumper.mk (Dumper.nextRaftIndex d + blen es) (Dumper.inExcludeGroup d)
          (Dumper.eventC d ++ if Dumper.inExcludeGroup d then [] else events_of es)).
Proof.
  induction 1 as [|e es He Hes IH]; intros d; cbn [read_all].
  - rewrite blen_nil, Z.add_0_r. destruct d as [n [] ev]; cbn; by rewrite app_nil_r.
  - rewrite plain_taken by done. rewrite IH. cbn [Dumper.nextRaftIndex Dumper.inExcludeGroup Dumper.eventC].
    do 2 f_equal; [rewrite blen_cons; lia|]. unfold events_of. cbn [map concat].
    destruct (Dumper.inExcludeGroup d); [by rewrite !app_nil_r|by rewrite app_assoc].
Qed.

Lemma follows_plain e b : follows e b -> plain e.
Proof.
  intros (raw & h & [Hb (fl & seq & x & Hd) Ht _] & Hn). eexists. split; [done|]. split; [exact Hd|].
  cbn [BinlogEvent.Type_]. rewrite u8_small by done. unfold needApply in Hn.
  apply orb_false_iff in Hn as [Hn _]. apply orb_false_iff in Hn as [Hn Hr]. apply orb_false_iff in Hn as [Hg _].
  lia.
Qed.

Lemma gtid_taken slave e u gno n d :
  gtid_event e u gno -> UUID.ok u -> 0 <= gno < 2 ^ 63 - 1 ->
  Dumper.take_entry slave e n d =
    Ok (let b := MysqlGTIDSet.Contain slave {[UUID.String u := single u gno]} in
        Dumper.mk n b (Dumper.eventC d ++ if b then [] else event_of e)).
Proof.
  intros (raw & h & ev & [Hb (fl & seq & x & Hd) Ht Hw] & Hty & Hdec & HSID & HGNO) Hu Hg.
  unfold Dumper.take_entry, event_of. rewrite Hb, Hd. cbn [negb]. unfold skipEvent.
  cbn [BinlogEvent.Type_ BinlogEvent.Data from_option id]. rewrite u8_small, Hty by done.
  change (GTID_EVENT =? GTID_EVENT) with true. cbv iota.
  destruct (slice_body raw (whole_crc _ _ _ Hw)) as [E1 E2]. rewrite E1, E2, Hdec.
  unfold UUID.FromBytes. rewrite HSID, HGNO, (proj2 (Z.eqb_eq _ _)) by (destruct Hu; unfold blen; lia).
  change (UUID.String u +:+ ":" +:+ fmt_d gno) with (gtid_text u gno).
  rewrite (proj2 (single_set_ok u gno Hu Hg)).
  destruct (MysqlGTIDSet.Contain _ _); cbn; [by rewrite app_nil_r|done].
Qed.

Lemma item_read slave it d : item_ok it -> exists b,
  read_all slave (item_entries it) d =
    Ok (Dumper.mk (Dumper.nextRaftIndex d + blen (item_entries it)) b (Dumper.eventC d ++ item_sent slave it)).
Proof.
  destruct it as [tr|e es|e]; cbn [item_ok item_entries item_sent].
  - intros [(e & es & bs & E & Hg & Hgr & Hes) Hu Hgno]. rewrite E. cbn [read_all].
    rewrite (gtid_taken slave e _ _ _ _ Hg Hu Hgno). fold (has slave tr).
    rewrite plain_read. 2:{ clear -Hes. induction Hes; constructor; [by eapply follows_plain|done]. }
    cbn [Dumper.nextRaftIndex Dumper.inExcludeGroup Dumper.eventC]. exists (has slave tr).
    do 2 f_equal; [rewrite blen_cons; lia|]. unfold events_of. cbn [map concat].
    destruct (has slave tr); [by rewrite !app_nil_r|by rewrite app_assoc].
  - intros [(ev & Hb & Hd & Hty) Hes]. cbn [read_all]. exists false.
    unfold Dumper.take_entry. rewrite Hb, Hd. cbn [negb]. unfold skipEvent. rewrite Hty.
    change (ROTATE_EVENT =? GTID_EVENT) with false. change (ROTATE_EVENT =? ROTATE_EVENT) with true. cbv iota.
    rewrite plain_read by done. cbn [Dumper.nextRaftIndex Dumper.inExcludeGroup Dumper.eventC].
    do 2 f_equal; [rewrite blen_cons; lia|]. unfold events_of, event_of. cbn [map concat].
    rewrite Hb, Hd. by rewrite <- app_assoc.
  - intros Hb. exists (Dumper.inExcludeGroup d). cbn [read_all]. unfold Dumper.take_entry. rewrite Hb. cbn [negb].
    by rewrite app_nil_r.
Qed.

Lemma items_read slave items : Forall item_ok items -> forall d, exists b,
  read_all slave (concat (map item_entries items)) d =
    Ok (Dumper.mk (Dumper.nextRaftIndex d + blen (concat (map item_entries items))) b
          (Dumper.eventC d ++ concat (map (item_sent slave) items))).
Proof.
  induction 1 as [|it items Hit Hits IH]; intros d; cbn [map concat].
  - exists (Dumper.inExcludeGroup d). rewrite app_nil_r, blen_nil, Z.add_0_r. by destruct d.
  - destruct (item_read slave it d Hit) as [b1 E1]. rewrite (read_all_app _ _ _ _ _ E1).
    match goal with |- context [read_all _ _ ?d1] => destruct (IH d1) as [b E] end. exists b. rewrite E.
    cbn [Dumper.nextRaftIndex Dumper.eventC]. do 2 f_equal; [rewrite blen_app; lia|by rewrite app_assoc].
Qed.

Section dump.
Context {S : Type} `{EntryReaderLaws S}.

Lemma round_reads slave a base es s d e :
  rd_log base es s -> base <= Dumper.nextRaftIndex d <= a -> es !! Z.to_nat (Dumper.nextRaftIndex d - base) = Some e ->
  Dumper.round slave a (s, d) =
    match Dumper.take_entry slave e (Dumper.nextRaftIndex d + 1) d with
    | Ok d' => (Ok tt, (s, d')) | Err x => (Err x, (s, d)) | Panic => (Panic, (s, d)) end.
Proof.
  intros Hl Hb He. unfold Dumper.round. rewrite (proj2 (Z.leb_le _ _)) by lia.
  by rewrite (law_next base es) with (e := e) by (done || lia).
Qed.

(** The states of a dump from index [start] on: rounds, and in between the log
    grows and more of it is applied. *)
Inductive dumping (slave : MysqlGTIDSet.t) (start base : Z) : list Entry.t -> Z -> S * Dumper.t -> Prop :=
  | dumping_start es a s d : rd_log base es s -> base <= start < base + blen es -> a < base + blen es ->
      Dumper.DumpBinlogAt start s = (Ok d, s) -> dumping slave start base es a (s, d)
  | dumping_round es a x x' : dumping slave start base es a x ->
      Dumper.round slave a x = (Ok tt, x') -> dumping slave start base es a x'
  | dumping_grow es more a a' s s' d : dumping slave start base es a (s, d) ->
      rd_log base (es ++ more) s' -> a <= a' < base + blen (es ++ more) ->
      dumping slave start base (es ++ more) a' (s', d).

Lemma dumping_inv slave start base es a x : dumping slave start base es a x ->
  rd_log base es x.1 /\ base <= start /\ a < base + blen es /\
  let n := Dumper.nextRaftIndex x.2 - start in
  0 <= n /\ (n = 0 \/ start + n <= a + 1) /\ start + n <= base + blen es /\
  read_all slave (take (Z.to_nat n) (drop (Z.to_nat (start - base)) es)) (Dumper.mk start false []) = Ok x.2.
Proof.
  induction 1 as [es a s0 d0 Hl Hst Ha E|es a [s0 d0] [s1 d1] Hx IH E|es more a a' s0 s1 d0 Hx IH Hl Ha].
  - unfold Dumper.DumpBinlogAt in E. rewrite (bind_ok _ _ _ _ _ (law_new _ _ _ _ Hl Hst)) in E.
    injection E as <-. cbn. rewrite Z.sub_diag. split_and!; try done; try lia.
  - destruct IH as (Hl & Hb & Ha & Hn0 & Hn & Hle & E0). cbn [fst snd] in *.
    set (n := Dumper.nextRaftIndex d0 - start) in *.
    destruct (Z.le_gt_cases (Dumper.nextRaftIndex d0) a) as [Hr|Hr].
    + destruct (lookup_lt_is_Some_2 es (Z.to_nat (Dumper.nextRaftIndex d0 - base))) as [e He];
        [unfold blen in *; lia|].
      rewrite (round_reads slave a base es s0 d0 e) in E by (done || lia).
      destruct (Dumper.take_entry _ _ _ d0) as [d2| |] eqn:E1; try done. injection E as <- <-.
      pose proof (take_entry_next _ _ _ _ _ E1) as Hnx. rewrite Hnx.
      split_and!; try done; try lia.
      replace (Z.to_nat (Dumper.nextRaftIndex d0 + 1 - start)) with (Datatypes.S (Z.to_nat n)) by lia.
      rewrite (take_S_r _ _ e), (read_all_app _ _ _ _ _ E0); [cbn [read_all]; by rewrite E1|].
      rewrite lookup_drop. rewrite <- He. f_equal. lia.
    + unfold Dumper.round in E. rewrite (proj2 (Z.leb_gt _ _)) in E by lia. injection E as <- <-. done.
  - destruct IH as (_ & Hb & Ha0 & Hn0 & Hn & Hle & E0). cbn [fst snd] in *.
    rewrite blen_app in *. pose proof (blen_nonneg more).
    split_and!; try done; try lia.
    rewrite drop_app_le by (unfold blen in *; lia). rewrite take_app_le; [done|]. rewrite length_drop. unfold blen in *. lia.
Qed.

(** C10: Whatever the interleaving with new entries, a dump has read the entries
    from its start on, each of them once and in order, none of them before it was
    applied, and has sent what reading them one after the other sends. *)
Theorem dump_reads_applied slave start base es a s d :
  dumping slave start base es a (s, d) ->
  let n := Dumper.nextRaftIndex d - start in
  0 <= n /\ (n = 0 \/ start + n <= a + 1) /\ start + n <= base + blen es /\
  read_all slave (take (Z.to_nat n) (drop (Z.to_nat (start - base)) es)) (Dumper.mk start false []) = Ok d.
Proof. intros Hd. apply dumping_inv in Hd as (_ & _ & _ & Hr). exact Hr. Qed.

(** [n] rounds, with the applied index [a] all the time. *)
Fixpoint rounds (n : nat) (slave : MysqlGTIDSet.t) (a : Z) : St (S * Dumper.t) unit :=
  match n with
  | O => ret tt
  | Datatypes.S n' => Dumper.round slave a ;! rounds n' slave a
  end.

Lemma rounds_read slave a base es s l : forall d d',
  rd_log base es s -> base <= Dumper.nextRaftIndex d -> Dumper.nextRaftIndex d + blen l <= a + 1 ->
  (forall k e, l !! k = Some e -> es !! (Z.to_nat (Dumper.nextRaftIndex d - base) + k)%nat = Some e) ->
  read_all slave l d = Ok d' -> rounds (length l) slave a (s, d) = (Ok tt, (s, d')).
Proof.
  induction l as [|e l IH]; intros d d' Hl Hb Ha Hin E; cbn [length rounds].
  { by injection E as <-. }
  cbn [read_all] in E. rewrite blen_cons in Ha. pose proof (blen_nonneg l).
  destruct (Dumper.take_entry _ _ _ d) as [d1| |] eqn:E1; try done. pose proof (take_entry_next _ _ _ _ _ E1) as Hn.
  rewrite (bind_ok _ _ _ tt (s, d1)).
  - apply IH; [done|lia|lia| |done]. intros k e' Hk. rewrite <- (Hin (Datatypes.S k) e' Hk). f_equal. lia.
  - rewrite (round_reads slave a base es s d e); [by rewrite E1|done|lia|].
    rewrite <- (Hin 0%nat e eq_refl). f_equal. lia.
Qed.

(** A dump of the entries from an index on, all of them applied. *)
Lemma dump_rounds slave base es s pre items :
  let l := pre ++ concat (map item_entries items) in
  let start := base + blen es - blen l in
  rd_log base es s -> Forall plain pre -> Forall item_ok items -> l <> [] ->
  drop (Z.to_nat (start - base)) es = l -> base <= start ->
  exists d d', Dumper.DumpBinlogAt start s = (Ok d, s) /\
    rounds (length l) slave (base + blen es - 1) (s, d) = (Ok tt, (s, d')) /\
    Dumper.eventC d' = events_of pre ++ concat (map (item_sent slave) items).
Proof.
  intros l start Hl Hpre Hits Hne Hdrop Hb.
  assert (0 < blen l) as Hpos by (destruct l; [done|rewrite blen_cons; pose proof (blen_nonneg l); lia]).
  exists (Dumper.mk start false []). destruct (items_read slave items Hits
    (Dumper.mk (start + blen pre) false (events_of pre))) as [b E].
  eexists. split; [|split].
  - unfold Dumper.DumpBinlogAt. rewrite (bind_ok _ _ _ _ _ (law_new base es s start Hl ltac:(lia))). done.
  - eapply (rounds_read slave _ base es); [done|exact Hb|cbn; unfold start; lia| |].
    + intros k e Hk. cbn [Dumper.nextRaftIndex]. by rewrite <- lookup_drop, Hdrop.
    + unfold l. rewrite (read_all_app _ _ _ _ _ (plain_read slave pre Hpre _)).
      cbn [Dumper.nextRaftIndex Dumper.inExcludeGroup Dumper.eventC app]. exact E.
  - reflexivity.
Qed.

(** C8: A slave receives the transactions that it does not have: from an index
    where the log consists of some events at the start of a binlog file, then
    transactions, file changes and internal entries, a dump with all of it applied
    ends up with every event sent, in order and once, except those of the
    transactions in the executed set of the slave, which are left out as a
    whole. *)
Theorem dump_sends_missing slave base es s pre items :
  let start := base + blen es - blen (pre ++ concat (map item_entries items)) in
  rd_log base es s -> gtids_ok slave -> Forall plain pre -> Forall item_ok items ->
  pre ++ concat (map item_entries items) <> [] ->
  drop (Z.to_nat (start - base)) es = pre ++ concat (map item_entries items) -> base <= start ->
  exists d d', Dumper.DumpBinlogAt start s = (Ok d, s) /\
    rounds (length (pre ++ concat (map item_entries items))) slave (base + blen es - 1) (s, d) = (Ok tt, (s, d')) /\
    Dumper.eventC d' = events_of pre ++ concat (map (item_sent slave) items) /\
    forall tr, is_trx tr -> has slave tr = true <-> gmem (trx_sid tr) (trx_gno tr) slave.
Proof.
  intros start Hl Hs Hpre Hits Hne Hdrop Hb.
  destruct (dump_rounds slave base es s pre items Hl Hpre Hits Hne Hdrop Hb) as (d & d' & E1 & E2 & E3).
  exists d, d'. split; [exact E1|]. split; [exact E2|]. split; [exact E3|].
  intros tr [_ Hu Hg]. by apply Contain_single.
Qed.
End dump.

(** * A sample log *)

(** A log in memory, its first entry at index 1. *)
#[export] Instance list_reader : EntryReader (list Entry.t) := {|
  rd_NewEntryReaderAt i := fun s => (if (1 <=? i) && (i <? 1 + blen s) then Ok i else Err ErrOutOfBound, s);
  rd_GetNext i := fun s => (match s !! Z.to_nat (i - 1) with Some e => Ok (e, i + 1) | None => Err ErrOutOfBound end, s) |}.

#[export, program] Instance list_reader_laws : EntryReaderLaws (list Entry.t) := {|
  rd_log base es s := base = 1 /\ s = es |}.
Next Obligation.
  intros base es s i [-> ->] Hi. cbn. by rewrite (proj2 (Z.leb_le 1 i)), (proj2 (Z.ltb_lt _ _)) by lia.
Qed.
Next Obligation. intros base es s i e [-> ->] Hi He. cbn. by rewrite He. Qed.

Definition sample_log : list Entry.t := trx_entries (sample_trx 1 5) ++ trx_entries (sample_trx 4 6).
Definition sample_slave : MysqlGTIDSet.t := {[UUID.String sid1 := single sid1 5]}.

Lemma sample_slave_ok : gtids_ok sample_slave.
Proof. apply single_set_ok; [apply sids_ok|lia]. Qed.

Lemma dump_sends_missing_witness :
  exists d d', Dumper.DumpBinlogAt 1 sample_log = (Ok d, sample_log) /\
    rounds 6 sample_slave 6 (sample_log, d) = (Ok tt, (sample_log, d')) /\
    Dumper.eventC d' = events_of (trx_entries (sample_trx 4 6)).
Proof.
  destruct (dump_sends_missing sample_slave 1 sample_log sample_log [] [Transaction (sample_trx 1 5); Transaction (sample_trx 4 6)])
    as (d & d' & E1 & E2 & E3 & _).
  - done.
  - exact sample_slave_ok.
  - constructor.
  - constructor; [apply sample_trx_ok; lia|constructor; [apply sample_trx_ok; lia|constructor]].
  - discriminate.
  - reflexivity.
  - by vm_compute.
  - exists d, d'. split; [exact E1|]. split; [exact E2|]. rewrite E3. by vm_compute.
Defined.

Lemma dump_reads_applied_witness :
  exists d, Dumper.nextRaftIndex d = 2 /\ read_all sample_slave (take 1 sample_log) (Dumper.mk 1 false []) = Ok d.
Proof.
  destruct (Dumper.take_entry sample_slave (sample_entry 1 GTID_EVENT (gtid_body sid1 5)) 2 (Dumper.mk 1 false []))
    as [d| |] eqn:E; [|by vm_compute in E..].
  pose proof (take_entry_next _ _ _ _ _ E) as Hn. exists d. split; [exact Hn|].
  destruct (dump_reads_applied (S := list Entry.t) sample_slave 1 1 sample_log 1 sample_log d) as (_ & _ & _ & Hr).
  - apply (dumping_round _ _ _ _ _ (sample_log, Dumper.mk 1 false [])).
    + apply dumping_start; [split; reflexivity|vm_compute; split; [discriminate|reflexivity]|vm_compute; reflexivity|reflexivity].
    + rewrite (round_reads sample_slave 1 1 sample_log sample_log (Dumper.mk 1 false [])
        (sample_entry 1 GTID_EVENT (gtid_body sid1 5))); [|split; reflexivity|cbn [Dumper.nextRaftIndex]; lia|vm_compute; reflexivity].
      cbn [Dumper.nextRaftIndex]. change (1 + 1) with 2. rewrite E. reflexivity.
  - rewrite Hn in Hr. exact Hr.
Defined.

(** * The checks before a dump *)

(** The slave has no transaction of a server of the master that the master does
    not have. *)
Definition not_ahead (slave master : MysqlGTIDSet.t) : Prop :=
  forall u x, UUID.ok u -> is_Some (master !! UUID.String u) -> gmem u x slave -> gmem u x master.

Lemma executed_contains_spec master slave : gtids_ok master -> gtids_ok slave ->
  executed_contains master slave = true <-> not_ahead slave master.
Proof.
  intros Hm Hs. unfold executed_contains. rewrite forallb_map_to_list. split.
  - intros Hf u x Hu [o Ho] (set & Hset & Hx). specialize (Hf _ _ Hset). cbn in Hf. rewrite Ho in Hf.
    exists o. split; [done|]. by eapply Contain_mem.
  - intros Hn k set Hset. cbn. destruct (master !! k) as [o|] eqn:Ho; [|done].
    destruct (Hs _ _ Hset) as (-> & Hok). destruct (Hm _ _ Ho) as (K & Hoo).
    apply mem_Contain; [apply Hoo|apply normal_valid, Hok|apply normal_starts, Hok|].
    intros x Hx. destruct (Hn (UUIDSet.SID set) x (sid_ok _ Hok)) as (o' & Ho' & Hx'); [by eexists|by exists set|].
    congruence.
Qed.

(** A dump is allowed exactly when the slave is not ahead of the executed
    set and has every transaction that was purged from the log; otherwise it is
    refused. *)
Theorem dump_checked st master l slave purged :
  gtids_ok master -> MysqlGTIDSet.orders master l -> gtids_ok slave -> gtids_ok purged ->
  MetaStore.GetGtidSet MySQLFlavor GtidPurgedKey st = (Ok purged, st) ->
  exists r, CheckGtidSet (MysqlGTIDSet.sets_text l) slave st = (r, st) /\
    (r = Ok tt <-> not_ahead slave master /\ forall u x, UUID.ok u -> gmem u x purged -> gmem u x slave) /\
    (r <> Ok tt -> r = Err ErrSlaveNotContain).
Proof.
  intros Hm Hl Hs Hp Hget. unfold CheckGtidSet. rewrite (parse_orders _ _ Hm Hl).
  destruct (executed_contains master slave) eqn:E; cbn [negb].
  - rewrite Hget. apply (executed_contains_spec _ _ Hm Hs) in E. eexists. split; [reflexivity|].
    rewrite <- (gtids_Contain_spec slave purged) by done.
    destruct (MysqlGTIDSet.Contain slave purged); split; try done; by split; [|intros []].
  - eexists. split; [reflexivity|]. split; [|done]. split; [done|].
    intros [Hn _]. apply (executed_contains_spec _ _ Hm Hs) in Hn. congruence.
Qed.

Lemma dump_checked_witness :
  exists r, CheckGtidSet (MysqlGTIDSet.sets_text [single sid1 5]) sample_slave new_store = (r, new_store) /\
    (r <> Ok tt -> r = Err ErrSlaveNotContain).
Proof.
  destruct (dump_checked new_store sample_slave [single sid1 5] sample_slave ∅) as (r & E & _ & Hr).
  - exact sample_slave_ok.
  - unfold MysqlGTIDSet.orders, sample_slave. by rewrite map_to_list_singleton.
  - exact sample_slave_ok.
  - exact gtids_ok_empty.
  - vm_compute. reflexivity.
  - exists r. exact (conj E Hr).
Defined.

(** A store without a format description event before the index ends the
    connection with a panic: the error of the store is dropped, and the server id is
    read from the nil event. *)
Lemma missing_fde_panics executed slave c i e :
  CheckGtidSet executed slave (Conn.store c) = (Ok tt, Conn.store c) ->
  GetMySQLDumpAt slave (Conn.store c) = (Ok i, Conn.store c) -> i <> 0 ->
  MetaStore.GetFde i (Conn.store c) = (Err e, Conn.store c) ->
  (Conn.start_dump executed slave c).1 = Panic.
Proof.
  intros Hc Hd Hi Hf. unfold Conn.start_dump, Conn.on_store, bind, zoom. rewrite Hc.
  cbn [Conn.store Conn.set_store]. rewrite Hd. cbn [Conn.store Conn.set_store]. unfold GetFde.
  rewrite (proj2 (Z.eqb_neq _ _) Hi). by rewrite Hf.
Qed.

(** * Two connections of one slave *)

(** When a slave connects again, its old connection takes the new one down:
    the registration closes the old connection, whose dump then ends, and its
    deferred [UnregisterSlave] finds the new slave under the same UUID, closes its
    connection and removes it. *)
Theorem reconnect_unregisters_new data c uuid old new :
  Conn.userVariables c !! SlaveUUID = Some (VString uuid) -> uuid <> "" ->
  Slaves.slaves (Conn.binlogServer c) !! uuid = Some old -> Slave.Conn old <> Conn.connectionID c ->
  Conn.parse_register uuid (Conn.connectionID c) data = Some new ->
  let srv1 := Conn.binlogServer (Conn.handleRegisterSlave data c).2 in
  Slaves.slaves srv1 !! uuid = Some new /\ Slave.Conn old ∈ Slaves.closed srv1 /\
  forall (m : St Conn.t unit) o e, m o = (Err e, o) -> Conn.binlogServer o = srv1 ->
    let srv2 := Conn.binlogServer (Conn.deferred uuid m o).2 in
    Slaves.slaves srv2 !! uuid = None /\ Conn.connectionID c ∈ Slaves.closed srv2.
Proof.
  intros Hv Hne Hold Hc Hp srv1.
  assert (Slave.UUID new = uuid /\ Slave.Conn new = Conn.connectionID c) as [Hu Hn].
  { unfold Conn.parse_register in Hp. repeat (apply bind_Some in Hp as (? & _ & Hp)). by injection Hp as <-. }
  assert (srv1 = Slaves.mk (Slaves.started (Conn.binlogServer c)) (<[uuid := new]> (delete uuid (Slaves.slaves (Conn.binlogServer c))))
    ({[Slave.Conn old]} ∪ Slaves.closed (Conn.binlogServer c))) as Hsrv.
  { unfold srv1, Conn.handleRegisterSlave. rewrite bind_gets. unfold id. rewrite Hv, Hp, bind_must.
    unfold bind at 1, Conn.killZombieDumpThreads. rewrite bind_gets. unfold id. rewrite Hv.
    rewrite (proj2 (String.eqb_neq _ _) Hne). unfold Conn.on_server, zoom, Slaves.GetSlaves, gets, bind.
    rewrite Hold, (proj2 (Z.eqb_neq _ _) Hc). unfold Slaves.UnregisterSlave, bind, gets. cbn [Conn.binlogServer Conn.set_binlogServer].
    rewrite Hold. unfold modify, Slaves.RegisterSlave. rewrite Hu, (proj2 (String.eqb_neq _ _) Hne).
    unfold Conn.writeOK, Conn.WritePacket, Conn.on_base, zoom, modify, bind, gets. cbv iota beta.
    case_match; [done|].
    match goal with |- context [BaseConn.WritePacket ?d ?b] => by destruct (BaseConn.WritePacket d b) end. }
  rewrite Hsrv. cbn [Slaves.slaves Slaves.closed]. rewrite lookup_insert_eq. split; [done|].
  split; [by apply elem_of_union_l, elem_of_singleton|].
  intros m o e Hm Ho. unfold Conn.deferred. rewrite Hm. unfold Conn.on_server, zoom, Slaves.UnregisterSlave.
  rewrite Ho, bind_gets. cbn [Slaves.slaves]. rewrite lookup_insert_eq. cbn.
  rewrite lookup_delete_eq, Hn. split; [done|]. by apply elem_of_union_l, elem_of_singleton.
Qed.

(** The packet of a slave without name, user and password. *)
Definition sample_register : bytes := le_bytes 4 2 ++ [0; 0; 0] ++ le_bytes 2 3306 ++ le_bytes 4 0 ++ le_bytes 4 1.
Definition old_slave : Slave.t := Slave.mk REGISTERED 2 "u" "" 3306 0 1 "" "" 0 7.
Definition new_conn : Conn.t :=
  Conn.mk fresh_conn 512 8 2 "root" [] {[SlaveUUID := VString "u"]} (Slaves.mk true {["u" := old_slave]} ∅) new_store.

Lemma reconnect_unregisters_new_witness :
  let srv1 := Conn.binlogServer (Conn.handleRegisterSlave sample_register new_conn).2 in
  7 ∈ Slaves.closed srv1 /\ forall (m : St Conn.t unit) o e, m o = (Err e, o) -> Conn.binlogServer o = srv1 ->
    8 ∈ Slaves.closed (Conn.binlogServer (Conn.deferred "u" m o).2).
Proof.
  destruct (reconnect_unregisters_new sample_register new_conn "u" old_slave
    (Slave.mk REGISTERED 2 "u" "" 3306 0 1 "" "" 0 8)) as (_ & Hc & Hd).
  - reflexivity.
  - discriminate.
  - reflexivity.
  - discriminate.
  - vm_compute. reflexivity.
  - split; [exact Hc|]. intros m o e Hm Ho. exact (proj2 (Hd m o e Hm Ho)).
Defined.
