(* ===== verification/Wakeup.v ===== *)
(** How a dump learns of new entries: the channel of utils/broadcast.go, which the
    goroutine that applies entries closes and replaces after each event, and the loop of
    [DumpBinlogAt] that waits for it, interleaved. *)
From S2P Require Import Prelude.
From S2P Require Import Wire.
From S2P Require Import Events.
From S2P Require Import Packets.
From S2P Require Import Gtid.
From S2P Require Import Apply.
From S2P Require Import BinlogServer.
From S2P Require Import DumpTheorems.
From stdpp Require Import list gmap relations.
Local Open Scope list_scope.
Local Open Scope Z_scope.
Local Open Scope go_scope.

(** * The broadcast *)

(** Channels are numbered in the order in which they are made; [closed] holds the
    closed ones. *)
Module Broadcast.
Record t : Type := mk { ch : nat; closed : gset nat }.

Definition NewBroadcast : t := mk 0 ∅.
Definition Receive (b : t) : nat := ch b.
Definition Send (b : t) : t := mk (S (ch b)) ({[ch b]} ∪ closed b).
End Broadcast.

(** * The two goroutines *)

(** Where the goroutine that applies entries is: before the next entry, before
    [applyBroadcast.Send()] of an event, before [SetAppliedIndex]. *)
Inductive applier : Type := ANext | ASend | ASet.

(** Where the goroutine of [DumpBinlogAt] is: before the comparison with the
    applied index, before [GetNext], before [Receive()], in the [select] with a channel that
    it has received, at its end after an error. *)
Inductive reader : Type := RCheck | RRead | RRecv | RWait (c : nat) | REnd.

(** The entries whose application broadcasts. *)
Definition broadcasts (e : Entry.t) : bool :=
  (Entry.Type_ e =? Entry.EntryNormal) && match Entry.data e with t :: _ => t =? MySQLBinlogEventType | [] => false end.

Record applying : Type := Apl { appliedIndex : Z; doing : applier; broadcast : Broadcast.t }.
Record dumper (S : Type) : Type := Dmp { at_ : reader; store : S; dump : Dumper.t }.
Arguments Dmp {S}.
Arguments at_ {S}.
Arguments store {S}.
Arguments dump {S}.

Section wakeup.
Context {S : Type} `{EntryReaderLaws S} (slave : MysqlGTIDSet.t) (base : Z) (es : list Entry.t).

Definition entry_at (i : Z) : option Entry.t := es !! Z.to_nat (i - base).

(** The loop of [apply] over the entries of the log; the event is broadcast by
    [applyEntryNormal], before the index is set. *)
Inductive apply_step : applying -> applying -> Prop :=
  | apply_take a b e : entry_at (a + 1) = Some e ->
      apply_step (Apl a ANext b) (Apl a (if broadcasts e then ASend else ASet) b)
  | apply_send a b : apply_step (Apl a ASend b) (Apl a ASet (Broadcast.Send b))
  | apply_set a b : apply_step (Apl a ASet b) (Apl (a + 1) ANext b).

(** The loop of the goroutine of [DumpBinlogAt] on a connection that stays open. *)
Inductive read_step (p : applying) : dumper S -> dumper S -> Prop :=
  | read_more s d : Dumper.nextRaftIndex d <= appliedIndex p -> read_step p (Dmp RCheck s d) (Dmp RRead s d)
  | read_no_more s d : appliedIndex p < Dumper.nextRaftIndex d -> read_step p (Dmp RCheck s d) (Dmp RRecv s d)
  | read_entry s d s' d' : Dumper.round slave (Dumper.nextRaftIndex d) (s, d) = (Ok tt, (s', d')) ->
      read_step p (Dmp RRead s d) (Dmp RCheck s' d')
  | read_error s d s' d' e : Dumper.round slave (Dumper.nextRaftIndex d) (s, d) = (Err e, (s', d')) ->
      read_step p (Dmp RRead s d) (Dmp REnd s' d')
  | read_receive s d : read_step p (Dmp RRecv s d) (Dmp (RWait (Broadcast.Receive (broadcast p))) s d)
  | read_wake c s d : c ∈ Broadcast.closed (broadcast p) -> read_step p (Dmp (RWait c) s d) (Dmp RCheck s d).

Inductive step : applying * dumper S -> applying * dumper S -> Prop :=
  | step_apply p p' r : apply_step p p' -> step (p, r) (p', r)
  | step_read p r r' : read_step p r r' -> step (p, r) (p, r').

(** A dump from the index [start] on, begun when [a] was applied. *)
Inductive begins (start : Z) : applying * dumper S -> Prop :=
  | begins_at a s d : rd_log base es s -> base <= start < base + blen es -> base - 1 <= a < base + blen es ->
      Dumper.DumpBinlogAt start s = (Ok d, s) ->
      begins start (Apl a ANext Broadcast.NewBroadcast, Dmp RCheck s d).

Definition reachable (start : Z) (x : applying * dumper S) : Prop := exists x0, begins start x0 /\ rtc step x0 x.

(** The reader waits for the channel that is open. *)
Definition blocked (x : applying * dumper S) : Prop := at_ x.2 = RWait (Broadcast.Receive (broadcast x.1)).

(** The reader is going to compare its index with the applied one. *)
Definition awake (x : applying * dumper S) : Prop :=
  match at_ x.2 with
  | RCheck | RRead => True
  | RWait c => c <> Broadcast.Receive (broadcast x.1)
  | RRecv | REnd => False
  end.

(** * What holds in every state *)

Record inv (start : Z) (x : applying * dumper S) : Prop := {
  inv_log : rd_log base es (store x.2);
  inv_start : base <= start < base + blen es;
  inv_applied : base - 1 <= appliedIndex x.1 < base + blen es;
  inv_doing : doing x.1 <> ANext -> appliedIndex x.1 + 1 < base + blen es;
  inv_closed : forall c, c ∈ Broadcast.closed (broadcast x.1) <-> (c < Broadcast.ch (broadcast x.1))%nat;
  inv_wait : forall c, at_ x.2 = RWait c -> (c <= Broadcast.ch (broadcast x.1))%nat;
  inv_read : at_ x.2 = RRead -> Dumper.nextRaftIndex (dump x.2) <= appliedIndex x.1;
  inv_dump : dumping slave start base es (appliedIndex x.1) (store x.2, dump x.2) }.

Lemma round_any a b (s : S) d : Dumper.nextRaftIndex d <= a -> Dumper.nextRaftIndex d <= b ->
  Dumper.round slave a (s, d) = Dumper.round slave b (s, d).
Proof. intros Ha Hb. unfold Dumper.round. by rewrite !(proj2 (Z.leb_le _ _)) by lia. Qed.

Lemma round_store a (s : S) d r s' d' : rd_log base es s -> base <= Dumper.nextRaftIndex d <= a -> a < base + blen es ->
  Dumper.round slave a (s, d) = (r, (s', d')) -> s' = s /\ (r <> Ok tt -> d' = d).
Proof.
  intros Hl Hd Ha E. destruct (lookup_lt_is_Some_2 es (Z.to_nat (Dumper.nextRaftIndex d - base))) as [e He];
    [unfold blen in *; lia|].
  rewrite (round_reads slave a base es s d e) in E by (done || lia).
  destruct (Dumper.take_entry _ _ _ d); by injection E as <- <- <-.
Qed.

Lemma begins_inv start x : begins start x -> inv start x.
Proof.
  intros [a s d Hl Hst Ha E]. split; cbn; try done; try set_solver by lia.
  by apply dumping_start; try done; lia.
Qed.

Lemma dumping_applied start a a' s d : rd_log base es s -> a <= a' < base + blen es ->
  dumping slave start base es a (s, d) -> dumping slave start base es a' (s, d).
Proof.
  intros Hl Ha Hd. rewrite <- (app_nil_r es). eapply dumping_grow; [exact Hd|by rewrite app_nil_r|by rewrite app_nil_r].
Qed.

Lemma inv_apply start p p' r : apply_step p p' -> inv start (p, r) -> inv start (p', r).
Proof.
  intros Hp [Hl Hst Ha Hd Hc Hw Hr Hdu]. destruct Hp as [a b e He|a b|a b]; cbn in *.
  - apply lookup_lt_Some in He. split; cbn; try done. unfold blen. lia.
  - specialize (Hd ltac:(discriminate)). split; cbn; try done; [|intros c E; specialize (Hw c E); lia].
    intros c. rewrite elem_of_union, elem_of_singleton, Hc. lia.
  - specialize (Hd ltac:(discriminate)). split; cbn; try done; [lia|intros E; specialize (Hr E); lia|].
    eapply dumping_applied; [exact Hl| |exact Hdu]. lia.
Qed.

Lemma inv_reading start p r r' : read_step p r r' -> inv start (p, r) -> inv start (p, r').
Proof.
  intros Hr0 Hi. destruct Hr0 as [s d Hle|s d Hlt|s d s' d' E|s d s' d' e E|s d|c s d Hcl]; destruct Hi as [Hl Hst Ha Hd Hc Hw Hr Hdu];
    cbn -[Dumper.round] in *; try by (split; cbn; try done; unfold Broadcast.Receive; intros ? [= <-]; lia).
  all: specialize (Hr eq_refl); destruct (dumping_inv _ _ _ _ _ _ Hdu) as (_ & _ & _ & Hn & _); cbn in Hn.
  - rewrite (round_any _ (appliedIndex p)) in E by lia.
    destruct (round_store (appliedIndex p) s d _ s' d' Hl ltac:(lia) ltac:(lia) E) as [-> _].
    split; cbn; try done. eapply dumping_round; [exact Hdu|exact E].
  - rewrite (round_any _ (appliedIndex p)) in E by lia.
    destruct (round_store (appliedIndex p) s d _ s' d' Hl ltac:(lia) ltac:(lia) E) as [-> Hd']. rewrite Hd' by done. by split; cbn.
Qed.

Lemma reachable_inv start x : reachable start x -> inv start x.
Proof.
  intros (x0 & Hbg & Hs). apply begins_inv in Hbg. induction Hs as [x|x y z Hxy _ IH]; [done|]. apply IH. clear IH.
  destruct Hxy as [p p' r Hp|p r r' Hr]; [by eapply inv_apply|by eapply inv_reading].
Qed.

(** * Catching up *)

(** Every entry from [start] on can be read. *)
Definition readable (start : Z) : Prop :=
  exists d, read_all slave (drop (Z.to_nat (start - base)) es) (Dumper.mk start false []) = Ok d.

Lemma read_all_prefix l1 l2 : forall d d', read_all slave (l1 ++ l2) d = Ok d' -> exists d1, read_all slave l1 d = Ok d1.
Proof.
  induction l1 as [|e l1 IH]; intros d d' E; cbn [read_all app] in *; [by eexists|].
  destruct (Dumper.take_entry _ _ _ d) as [d1| |]; [by eapply IH|done..].
Qed.

Lemma reads_next start p s d : inv start (p, Dmp RRead s d) -> readable start ->
  exists d', read_step p (Dmp RRead s d) (Dmp RCheck s d') /\ Dumper.nextRaftIndex d' = Dumper.nextRaftIndex d + 1.
Proof.
  intros Hi [dend Hend]. destruct Hi as [Hl Hst Ha Hd Hc Hw Hr Hdu]; cbn in *. specialize (Hr eq_refl).
  destruct (dumping_inv _ _ _ _ _ _ Hdu) as (_ & _ & _ & Hn & _ & _ & E). cbn [fst snd] in *.
  set (l := drop _ es) in *. set (n := Z.to_nat (Dumper.nextRaftIndex d - start)) in *.
  destruct (lookup_lt_is_Some_2 es (Z.to_nat (Dumper.nextRaftIndex d - base))) as [e He]; [unfold blen in *; lia|].
  assert (l !! n = Some e) as Hle by (unfold l, n; rewrite lookup_drop, <- He; f_equal; lia).
  rewrite <- (take_drop_middle _ _ _ Hle), (read_all_app _ _ _ _ _ E) in Hend. cbn [read_all] in Hend.
  destruct (Dumper.take_entry _ e _ d) as [d'| |] eqn:Et; try done.
  exists d'. split; [|by eapply take_entry_next]. apply read_entry.
  rewrite (round_reads slave _ base es s d e) by (done || lia). by rewrite Et.
Qed.

(** The reader alone, from the comparison on. *)
Lemma catch_up start p : readable start -> forall n s d,
  inv start (p, Dmp RCheck s d) -> appliedIndex p + 1 - Dumper.nextRaftIndex d <= Z.of_nat n ->
  exists d', rtc (read_step p) (Dmp RCheck s d) (Dmp (RWait (Broadcast.Receive (broadcast p))) s d') /\
    appliedIndex p < Dumper.nextRaftIndex d'.
Proof.
  intros Hr. induction n as [|n IH]; intros s d Hi Hn.
  - exists d. split; [|lia]. eapply rtc_l; [apply read_no_more; lia|]. apply rtc_once, read_receive.
  - destruct (Z.lt_ge_cases (appliedIndex p) (Dumper.nextRaftIndex d)) as [Hlt|Hle].
    { exists d. split; [|lia]. eapply rtc_l; [apply read_no_more; lia|]. apply rtc_once, read_receive. }
    assert (inv start (p, Dmp RRead s d)) as Hi' by (eapply inv_reading; [apply read_more; lia|exact Hi]).
    destruct (reads_next start p s d Hi' Hr) as (d1 & Hstep & Hn1).
    destruct (IH s d1) as (d' & Hsteps & Hd'); [by eapply inv_reading|lia|].
    exists d'. split; [|exact Hd']. eapply rtc_l; [apply read_more; lia|]. eapply rtc_l; [exact Hstep|exact Hsteps].
Qed.

(** What the slave has been sent when the entries up to [a] have been read. *)
Definition sent_up_to (start a : Z) (d : Dumper.t) : Prop :=
  a < Dumper.nextRaftIndex d /\
  read_all slave (take (Z.to_nat (Dumper.nextRaftIndex d - start)) (drop (Z.to_nat (start - base)) es)) (Dumper.mk start false []) = Ok d.

Lemma inv_reads start p r r' : rtc (read_step p) r r' -> inv start (p, r) -> inv start (p, r').
Proof. induction 1 as [|x y z Hxy _ IH]; [done|]. intros Hi. by apply IH, (inv_reading _ _ _ _ Hxy). Qed.

(** An awake reader compares. *)
Lemma awake_checks start p r : inv start (p, r) -> readable start -> awake (p, r) ->
  exists d, rtc (read_step p) r (Dmp RCheck (store r) d).
Proof.
  intros Hi Hr Ha. destruct r as [pc s d]. cbn [store]. destruct pc as [| | |c|]; try done; [by exists d| |].
  - destruct (reads_next start p s d Hi Hr) as (d1 & Hstep & _). exists d1. by apply rtc_once.
  - exists d. apply rtc_once, read_wake. apply (inv_closed _ _ Hi). pose proof (inv_wait _ _ Hi c eq_refl).
    cbn in *. unfold Broadcast.Receive in Ha. lia.
Qed.

(** C23: A dump catches up: a reader that a broadcast has woken, or that has not
    begun to wait, gets by its own steps to the entry behind the applied ones before it waits
    again, and has then sent what reading the entries one after the other sends; and the
    broadcast of the next event wakes a reader that waits. *)
Theorem dump_catches_up start x : reachable start x -> readable start ->
  (awake x -> exists y, rtc step x y /\ y.1 = x.1 /\ blocked y /\ sent_up_to start (appliedIndex x.1) (dump y.2)) /\
  (blocked x -> doing x.1 = ASend -> forall p, apply_step x.1 p -> awake (p, x.2)).
Proof.
  intros Hx%reachable_inv Hr. destruct x as [p r]. split.
  - intros Ha. destruct (awake_checks start p r Hx Hr Ha) as (d & Hs).
    pose proof (inv_reads _ _ _ _ Hs Hx) as Hi.
    destruct (catch_up start p Hr (Z.to_nat (appliedIndex p + 1 - Dumper.nextRaftIndex d)) _ d Hi ltac:(lia)) as (d' & Hs' & Hd').
    assert (rtc (read_step p) r (Dmp (RWait (Broadcast.Receive (broadcast p))) (store r) d')) as Hall by (by etrans).
    exists (p, Dmp (RWait (Broadcast.Receive (broadcast p))) (store r) d').
    split; [|split; [done|split; [done|split; [exact Hd'|]]]].
    + clear -Hall. induction Hall as [|r1 r2 r3 H12 _ IH]; [done|]. eapply rtc_l; [by apply step_read|exact IH].
    + pose proof (inv_reads _ _ _ _ Hall Hx) as Hi'. destruct (dumping_inv _ _ _ _ _ _ (inv_dump _ _ Hi')) as (_ & _ & _ & _ & _ & _ & E).
      exact E.
  - unfold blocked, awake. cbn. intros Hb Hd p' Hp. rewrite Hb. by destruct Hp.
Qed.

(** C24: The wake-up for an event can be lost: the event is broadcast before its
    index is set, so that a reader that has read everything before it can find nothing new
    and wait for the next channel. When the event is the last one that is committed, it is applied and
    the slave is not sent it: nothing happens any more. *)
Theorem wakeup_can_be_lost start p s d e :
  reachable start (p, Dmp RCheck s d) -> doing p = ANext -> Dumper.nextRaftIndex d = appliedIndex p + 1 ->
  entry_at (appliedIndex p + 1) = Some e -> broadcasts e = true ->
  exists q, reachable start (q, Dmp (RWait (Broadcast.Receive (broadcast q))) s d) /\
    doing q = ANext /\ appliedIndex q = appliedIndex p + 1 /\
    (appliedIndex p + 1 = base + blen es - 1 -> forall y, ~ step (q, Dmp (RWait (Broadcast.Receive (broadcast q))) s d) y).
Proof.
  intros Hx Hd Hn He Hb. pose proof (reachable_inv _ _ Hx) as Hi. destruct Hx as (x0 & Hbg & Hs). destruct p as [a pc b]. cbn in *. subst pc.
  eexists (Apl (a + 1) ANext (Broadcast.Send b)). split; [|split; [done|split; [done|]]].
  - exists x0. split; [exact Hbg|]. etrans; [exact Hs|].
    eapply rtc_l; [apply step_apply, (apply_take _ _ e He)|]. rewrite Hb.
    eapply rtc_l; [apply step_apply, apply_send|].
    eapply rtc_l; [apply step_read, read_no_more; cbn; lia|]. eapply rtc_l; [apply step_read, read_receive|].
    apply rtc_once, step_apply, apply_set.
  - intros Hlast y Hy. assert (base <= a + 1) by (pose proof (inv_applied _ _ Hi); cbn in *; lia).
    inversion Hy as [q q' r Hq|q r r' Hr]; subst.
    + inversion Hq as [? ? e' He'| |]; subst. apply lookup_lt_Some in He'. unfold blen in *. lia.
    + inversion Hr as [| | | | |c ? ? Hc]; subst. cbn in Hc. unfold Broadcast.Receive in Hc. cbn in Hc.
      rewrite elem_of_union, elem_of_singleton in Hc. pose proof (inv_closed _ _ Hi) as Hcl. cbn in Hcl. rewrite Hcl in Hc. lia.
Qed.
End wakeup.

(** * On the sample log *)

Definition sample_start (start a : Z) : applying * dumper (list Entry.t) :=
  (Apl a ANext Broadcast.NewBroadcast, Dmp RCheck sample_log (Dumper.mk start false [])).

Lemma sample_begins start a : 1 <= start < 7 -> 0 <= a < 7 ->
  reachable (S := list Entry.t) sample_slave 1 sample_log start (sample_start start a).
Proof.
  intros Hs Ha. exists (sample_start start a). split; [|reflexivity]. assert (blen sample_log = 6) as Hl by reflexivity.
  constructor; [done|lia|lia|]. unfold Dumper.DumpBinlogAt.
  assert (rd_NewEntryReaderAt start sample_log = (Ok start, sample_log)) as E
    by (apply (law_new (S := list Entry.t) 1 sample_log); [done|lia]).
  by rewrite (bind_ok _ _ _ _ _ E).
Qed.

Lemma sample_readable : readable sample_slave 1 sample_log 1.
Proof. eexists. vm_compute. reflexivity. Qed.

Lemma dump_catches_up_witness :
  exists y : applying * dumper (list Entry.t), rtc (step sample_slave 1 sample_log) (sample_start 1 6) y /\
    6 < Dumper.nextRaftIndex (dump y.2).
Proof.
  destruct (dump_catches_up (S := list Entry.t) sample_slave 1 sample_log 1 (sample_start 1 6)) as [Hc _].
  - apply sample_begins; lia.
  - exact sample_readable.
  - destruct (Hc I) as (y & Hs & _ & _ & Hd & _). exists y. exact (conj Hs Hd).
Defined.

(** The last event of the log is applied and not sent. *)
Lemma wakeup_can_be_lost_witness :
  exists q, reachable (S := list Entry.t) sample_slave 1 sample_log 6
      (q, Dmp (RWait (Broadcast.Receive (broadcast q))) sample_log (Dumper.mk 6 false [])) /\ appliedIndex q = 6.
Proof.
  destruct (wakeup_can_be_lost (S := list Entry.t) sample_slave 1 sample_log 6 (Apl 5 ANext Broadcast.NewBroadcast)
    sample_log (Dumper.mk 6 false []) (default (Entry.mk 0 0 0 None None) (sample_log !! 5%nat))) as (q & Hq & _ & Ha & _).
  - apply (sample_begins 6 5); lia.
  - reflexivity.
  - reflexivity.
  - vm_compute. reflexivity.
  - vm_compute. reflexivity.
  - exists q. exact (conj Hq Ha).
Defined.
