(* ===== verification/Delivery.v ===== *)
(** The whole way of the binlog to a slave: from the entries of the log through
    [DumpBinlogAt] and [handleBinlogDumpGtid] to the messages that a client reads
    from the connection. *)
From S2P Require Import Prelude.
From S2P Require Import Names.
From S2P Require Import Text.
From S2P Require Import Wire.
From S2P Require Import Events.
From S2P Require Import Packets.
From S2P Require Import Gtid.
From S2P Require Import GtidCodec.
From S2P Require Import MetaStore.
From S2P Require Import MetaTheorems.
From S2P Require Import ApplyTheorems.
From S2P Require Import BinlogServer.
From S2P Require Import Messages.
From S2P Require Import DumpTheorems.
From stdpp Require Import list strings.
Local Open Scope string_scope.
Local Open Scope list_scope.
Local Open Scope Z_scope.
Local Open Scope go_scope.

(** * Sending *)

(** What the input of the loop in [handleBinlogDumpGtid] sends. *)
Definition payload (masterServerID : Z) (i : Conn.input) : bytes :=
  match i with
  | Conn.Event event => 0 :: default [] (BinlogEvent.Data event)
  | Conn.Timer binlogFile filePosition => 0 :: buildHeartbeatEvent (StringToBytes binlogFile) masterServerID filePosition
  | _ => []
  end.

(** An event that is not divided, or a heartbeat. *)
Definition sendable (i : Conn.input) : Prop :=
  match i with
  | Conn.Event event => BinlogEvent.DividedCount event = 0 /\ blen (default [] (BinlogEvent.Data event)) + 1 < MaxPayloadLen
  | Conn.Timer binlogFile _ => blen (StringToBytes binlogFile) < 2 ^ 20
  | _ => False
  end.

Definition input_events (l : list Conn.input) : list BinlogEvent.t :=
  concat (map (fun i => match i with Conn.Event event => [event] | _ => [] end) l).

Lemma input_events_map evs : input_events (map Conn.Event evs) = evs.
Proof. unfold input_events. induction evs as [|ev evs IH]; [done|]. cbn. by rewrite IH. Qed.

Lemma fde_on_sent head pos body crc c : BaseConn.faults (Conn.BaseConn_ c) = [] ->
  blen head = 13 -> blen pos = 4 -> blen crc = 4 -> blen (head ++ pos ++ body ++ crc) < MaxPayloadLen ->
  Conn.on_base (sendFormatDescriptionEvent (head ++ pos ++ body ++ crc)) c =
    (Ok tt, after_sent [0 :: with_checksum (head ++ zeros 4 ++ body)] c).
Proof.
  intros Hf Hh Hp Hc Hl. unfold Conn.on_base, zoom. rewrite fde_sent by done.
  unfold after_sent. cbn [messages length sequence_after]. by rewrite app_nil_r.
Qed.

Lemma blen_heartbeat fileName id pos : blen (buildHeartbeatEvent fileName id pos) = blen fileName + 23.
Proof. unfold buildHeartbeatEvent. rewrite blen_with_checksum, blen_app, blen_encodeEventHeader. lia. Qed.

Lemma blen_rotate id fileName crc : blen (buildFakeRotateEvent id fileName crc) <= blen fileName + 31.
Proof.
  unfold buildFakeRotateEvent. destruct crc;
    rewrite ?blen_with_checksum, !blen_app, blen_encodeEventHeader, blen_le_bytes; lia.
Qed.

Lemma payload_short id i : sendable i -> blen (payload id i) < MaxPayloadLen.
Proof.
  destruct i as [ev|e| |f pos]; intros Hi; [|done..|]; cbn [payload]; rewrite blen_cons.
  - destruct Hi. lia.
  - cbn in Hi. rewrite blen_heartbeat. mp. lia.
Qed.

Lemma dump_case_sent id i c : BaseConn.faults (Conn.BaseConn_ c) = [] -> sendable i ->
  Conn.dump_case id i c = (Ok tt, after_sent [payload id i] c).
Proof.
  intros Hf Hi. destruct i as [ev|e| |f pos]; [|done..|].
  - destruct Hi as [Hd Hl]. unfold Conn.dump_case, send_event. rewrite Hd. cbn [Z.eqb orb].
    apply write_sent; [done|lia].
  - cbn in Hi. apply write_sent; [done|]. rewrite blen_heartbeat. mp. lia.
Qed.

Lemma dump_cases_sent id l : forall c, BaseConn.faults (Conn.BaseConn_ c) = [] -> Forall sendable l ->
  Conn.dump_cases id l c = (Ok tt, after_sent (map (payload id) l) c).
Proof.
  induction l as [|i l IH]; intros c Hf Hl; cbn [Conn.dump_cases map].
  { by rewrite after_sent_nil. }
  apply Forall_cons in Hl as [Hi Hl]. rewrite (bind_ok _ _ _ _ _ (dump_case_sent id i c Hf Hi)).
  rewrite IH by done. by rewrite after_sent_app.
Qed.

(** The rotate event and the format description that a dump starts with. *)
Definition needs_crc32 (c : Conn.t) : bool :=
  match Conn.userVariables c !! MasterBinlogChecksum with Some (VString v) => String.eqb v "crc32" | _ => false end.

Definition greeting (c : Conn.t) (masterServerID : Z) (fileName : string) (head body : bytes) : list bytes :=
  [0 :: buildFakeRotateEvent masterServerID (StringToBytes fileName) (needs_crc32 c);
   0 :: with_checksum (head ++ zeros 4 ++ body)].

(** The store has everything that a dump for [slave] needs: the index to start
    from, a format description event and the name of the binlog file. *)
Record dumpable (executed : string) (slave : MysqlGTIDSet.t) (st : MetaStore.t) (i : Z)
    (head pos body crc : bytes) (fileName : string) : Prop := {
  du_check : CheckGtidSet executed slave st = (Ok tt, st);
  du_start : GetMySQLDumpAt slave st = (Ok i, st);
  du_fde : GetFde i st = (Ok (head ++ pos ++ body ++ crc), st);
  du_file : GetNextBinlogFile i st = (Ok fileName, st);
  du_head : blen head = 13; du_pos : blen pos = 4; du_crc : blen crc = 4;
  du_fde_short : blen (head ++ pos ++ body ++ crc) < 2 ^ 20;
  du_file_short : blen (StringToBytes fileName) < 2 ^ 20 }.

Lemma start_dump_sent executed slave c i head pos body crc fileName :
  BaseConn.faults (Conn.BaseConn_ c) = [] -> dumpable executed slave (Conn.store c) i head pos body crc fileName ->
  let masterID := le_val (take 4 (drop 5 head)) in
  Conn.start_dump executed slave c = (Ok (i, masterID), after_sent (greeting c masterID fileName head body) c).
Proof.
  intros Hf [Hc Hs Hfd Hfi Hh Hp Hcr Hl Hn] masterID. unfold Conn.start_dump.
  rewrite (bind_ok _ _ _ _ _ (on_store_ok _ _ _ Hc)), (bind_ok _ _ _ _ _ (on_store_ok _ _ _ Hs)),
    (bind_ok _ _ _ _ _ (on_store_ok _ _ _ Hfd)).
  assert (slice (head ++ pos ++ body ++ crc) 5 9 = Some (take 4 (drop 5 head))) as ->.
  { rewrite <- (take_drop 5 head) at 1. rewrite <- (take_drop 4 (drop 5 head)) at 1. rewrite <-!app_assoc.
    unfold blen in Hh. apply slice_mid; unfold blen; rewrite ?length_take, ?length_drop; lia. }
  rewrite bind_must. fold masterID. rewrite (bind_ok _ _ _ _ _ (on_store_ok _ _ _ Hfi)).
  assert (Conn.sendFakeRotateEvent masterID fileName c =
    (Ok tt, after_sent [0 :: buildFakeRotateEvent masterID (StringToBytes fileName) (needs_crc32 c)] c)) as E1.
  { apply write_sent; [done|]. pose proof (blen_rotate masterID (StringToBytes fileName) (needs_crc32 c)). mp. lia. }
  rewrite (bind_ok _ _ _ _ _ E1). unfold greeting.
  rewrite (bind_ok _ _ _ tt (after_sent [0 :: with_checksum (head ++ zeros 4 ++ body)] 
    (after_sent [0 :: buildFakeRotateEvent masterID (StringToBytes fileName) (needs_crc32 c)] c))); [by rewrite after_sent_app|].
  by apply fde_on_sent; [done..|mp; lia].
Qed.

Lemma greeting_short executed slave st i head pos body crc fileName c id :
  dumpable executed slave st i head pos body crc fileName ->
  Forall (fun p => blen p < MaxPayloadLen) (greeting c id fileName head body).
Proof.
  intros [_ _ _ _ Hh Hp Hcr Hl Hn]. repeat constructor; rewrite blen_cons.
  - pose proof (blen_rotate id (StringToBytes fileName) (needs_crc32 c)). mp. lia.
  - rewrite !blen_app in Hl. pose proof (blen_nonneg body). rewrite blen_with_checksum, !blen_app, blen_zeros. mp. lia.
Qed.

(** What a client reads of a dump whose channel gave the inputs. *)
Lemma dump_client_reads executed data slave serverID c uuid i head pos body crc fileName inputs :
  Conn.parseMysqlGtidDumpPacket data = Ok (slave, serverID) ->
  Conn.userVariables c !! SlaveUUID = Some (VString uuid) -> BaseConn.faults (Conn.BaseConn_ c) = [] ->
  dumpable executed slave (Conn.store c) i head pos body crc fileName -> Forall sendable inputs ->
  exists c' stream, Conn.handleBinlogDumpGtid executed data inputs c = (Ok tt, c') /\
    BaseConn.output (Conn.BaseConn_ c') = BaseConn.output (Conn.BaseConn_ c) ++ stream /\
    let masterID := le_val (take 4 (drop 5 head)) in
    forall rest, client_reads (2 + length inputs) (BaseConn.Sequence (Conn.BaseConn_ c)) (stream ++ rest) =
      Some (greeting c masterID fileName head body ++ map (payload masterID) inputs, BaseConn.Sequence (Conn.BaseConn_ c'), rest).
Proof.
  intros Hp Hu Hf Hd Hs. set (masterID := le_val (take 4 (drop 5 head))).
  set (ps := greeting c masterID fileName head body ++ map (payload masterID) inputs).
  exists (after_sent ps c), (messages (BaseConn.Sequence (Conn.BaseConn_ c)) ps). split; [|split; [done|]].
  - unfold Conn.handleBinlogDumpGtid. rewrite (bind_ok _ _ c (slave, serverID) c) by (unfold lift; by rewrite Hp).
    rewrite bind_gets. change (Conn.userVariables (id c)) with (Conn.userVariables c). rewrite Hu. unfold Conn.deferred.
    rewrite (bind_ok _ _ _ _ _ (start_dump_sent _ _ _ _ _ _ _ _ _ Hf Hd)).
    rewrite dump_cases_sent by done. by rewrite after_sent_app.
  - intros masterID' rest. subst masterID'. fold masterID ps.
    replace (2 + length inputs)%nat with (length ps) by (unfold ps; rewrite length_app, length_map; done).
    apply client_reads_messages, Forall_app. split; [by eapply greeting_short|].
    apply Forall_map. eapply Forall_impl; [exact Hs|]. intros j. apply payload_short.
Qed.

Section delivery.
Context {S : Type} `{EntryReaderLaws S}.

(** C5: The binlog reaches a slave: when the store has what a dump needs and the
    log from the start index on consists of events at the start of a binlog file,
    transactions, file changes and internal entries, all of them applied, the dump
    puts the events of the transactions that the slave does not have into the
    channel, and [handleBinlogDumpGtid], which takes them with heartbeats in between,
    sends a stream that a client reads as the rotate event, the format description
    and exactly these events and heartbeats. *)
Theorem slave_receives_binlog executed data slave serverID c uuid base es s i head pos body crc fileName pre items :
  let l := pre ++ concat (map item_entries items) in
  Conn.parseMysqlGtidDumpPacket data = Ok (slave, serverID) ->
  Conn.userVariables c !! SlaveUUID = Some (VString uuid) -> BaseConn.faults (Conn.BaseConn_ c) = [] ->
  dumpable executed slave (Conn.store c) i head pos body crc fileName ->
  rd_log base es s -> base <= i -> i + blen l = base + blen es -> drop (Z.to_nat (i - base)) es = l -> l <> [] ->
  Forall plain pre -> Forall item_ok items ->
  exists d d', Dumper.DumpBinlogAt i s = (Ok d, s) /\
    rounds (length l) slave (base + blen es - 1) (s, d) = (Ok tt, (s, d')) /\
    Dumper.eventC d' = events_of pre ++ concat (map (item_sent slave) items) /\
    forall inputs, input_events inputs = Dumper.eventC d' -> Forall sendable inputs ->
    exists c' stream, Conn.handleBinlogDumpGtid executed data inputs c = (Ok tt, c') /\
      BaseConn.output (Conn.BaseConn_ c') = BaseConn.output (Conn.BaseConn_ c) ++ stream /\
      let masterID := le_val (take 4 (drop 5 head)) in
      forall rest, client_reads (2 + length inputs) (BaseConn.Sequence (Conn.BaseConn_ c)) (stream ++ rest) =
        Some (greeting c masterID fileName head body ++ map (payload masterID) inputs, BaseConn.Sequence (Conn.BaseConn_ c'), rest).
Proof.
  intros l Hp Hu Hf Hd Hl Hb Hi Hdrop Hne Hpre Hits. assert (i = base + blen es - blen l) as Hst by lia.
  rewrite Hst in Hdrop, Hb.
  destruct (dump_rounds slave base es s pre items Hl Hpre Hits Hne Hdrop Hb) as (d & d' & E1 & E2 & E3).
  fold l in E1, E2. rewrite <- Hst in E1. exists d, d'. split; [exact E1|]. split; [exact E2|]. split; [exact E3|].
  intros inputs _ Hs. by eapply dump_client_reads.
Qed.
End delivery.

(** A log with the events at the start of a file and two transactions, a store
    that knows the file, and a slave that has the first transaction. *)
Definition file_log : list Entry.t :=
  [sample_entry 1 ROTATE_EVENT (zeros 8); sample_entry 2 FORMAT_DESCRIPTION_EVENT (zeros 10);
   sample_entry 3 PREVIOUS_GTIDS_EVENT (zeros 8)] ++ trx_entries (sample_trx 4 5) ++ trx_entries (sample_trx 7 6).

Definition fde_head : bytes := zeros 5 ++ [1; 0; 0; 0] ++ zeros 4.

Definition file_store : MetaStore.t :=
  MetaStore.mk {[ index_key FdePrefix 2 := fde_head ++ zeros 4 ++ zeros 12 ++ zeros 4;
                  index_key NextBinlogPrefix 1 := StringToBytes "bin.000007";
                  index_key PgePrefix 3 := MysqlGTIDSet.Encode ∅;
                  path_Join MySQLFlavor GtidPurgedKey := MysqlGTIDSet.Encode ∅ ]} false [].

Definition dump_packet : bytes := zeros 2 ++ [2; 0; 0; 0] ++ zeros 4 ++ zeros 8 ++ zeros 4 ++ MysqlGTIDSet.Encode sample_slave.

Definition file_conn : Conn.t :=
  Conn.mk fresh_conn 512 8 2 "root" [] {[SlaveUUID := VString "u"]} Slaves.NewBinlogServer file_store.

Definition executed_text : string := MysqlGTIDSet.sets_text [UUIDSet.mk sid1 [Interval.mk 5 7]].

Lemma events_sendable evs :
  forallb (fun ev => (BinlogEvent.DividedCount ev =? 0) && (blen (default [] (BinlogEvent.Data ev)) + 1 <? MaxPayloadLen)) evs = true ->
  Forall sendable (map Conn.Event evs).
Proof.
  induction evs as [|ev evs IH]; cbn [forallb map]; [constructor|]. rewrite !andb_true_iff. intros [[Hd Hl] Hevs].
  constructor; [|by apply IH]. split; [by apply Z.eqb_eq|by apply Z.ltb_lt].
Qed.

Lemma plain_entry i ty body ev :
  IsBinlogEvent (sample_entry i ty body) = true -> DecodeBinlogEvent (sample_entry i ty body) = Ok ev ->
  u8 (BinlogEvent.Type_ ev) <> GTID_EVENT -> u8 (BinlogEvent.Type_ ev) <> ROTATE_EVENT -> plain (sample_entry i ty body).
Proof. intros Hb Hd Hg Hr. by exists ev. Qed.

Lemma slave_receives_binlog_witness :
  exists d', Dumper.eventC d' = events_of [sample_entry 3 PREVIOUS_GTIDS_EVENT (zeros 8)] ++ events_of (trx_entries (sample_trx 7 6)) /\
    exists c' stream, Conn.handleBinlogDumpGtid executed_text dump_packet
        (map Conn.Event (Dumper.eventC d')) file_conn = (Ok tt, c') /\
      BaseConn.output (Conn.BaseConn_ c') = stream.
Proof.
  destruct (slave_receives_binlog (S := list Entry.t) executed_text dump_packet sample_slave 2
    file_conn "u" 1 file_log file_log 3 fde_head (zeros 4) (zeros 12) (zeros 4) "bin.000007"
    [sample_entry 3 PREVIOUS_GTIDS_EVENT (zeros 8)] [Transaction (sample_trx 4 5); Transaction (sample_trx 7 6)])
    as (d & d' & _ & _ & E & Hall).
  - vm_compute. reflexivity.
  - reflexivity.
  - reflexivity.
  - split; vm_compute; reflexivity.
  - split; reflexivity.
  - lia.
  - vm_compute. reflexivity.
  - reflexivity.
  - discriminate.
  - constructor; [|constructor]. eapply plain_entry; vm_compute; (reflexivity || discriminate).
  - constructor; [apply sample_trx_ok; lia|constructor; [apply sample_trx_ok; lia|constructor]].
  - exists d'. split; [rewrite E; vm_compute; reflexivity|].
    destruct (Hall (map Conn.Event (Dumper.eventC d'))) as (c' & stream & E1 & E2 & _).
    + apply input_events_map.
    + apply events_sendable. rewrite E. vm_compute. reflexivity.
    + exists c', stream. split; [exact E1|exact E2].
Defined.
