(* ===== verification/EndToEnd.v ===== *)
(** From the master to a slave: the syncer of the leader proposes what the master
    sends (Pipeline), raft commits a beginning of it, and a dump reads the committed entries
    once they are applied and sends what the slave does not have (DumpTheorems, Delivery). *)
From S2P Require Import Prelude.
From S2P Require Import Wire.
From S2P Require Import Events.
From S2P Require Import Packets.
From S2P Require Import Gtid.
From S2P Require Import GtidCodec.
From S2P Require Import MetaStore.
From S2P Require Import ApplyTheorems.
From S2P Require Import Pipeline.
From S2P Require Import BinlogServer.
From S2P Require Import Messages.
From S2P Require Import DumpTheorems.
From S2P Require Import Delivery.
From stdpp Require Import list strings relations.
Local Open Scope string_scope.
Local Open Scope list_scope.
Local Open Scope Z_scope.
Local Open Scope go_scope.

(** * The events of the master *)

(** An event whose header tells its length and that fits into a packet. *)
Record src_ok (e : SrcEvent) : Prop := {
  src_type : is_u32 (EventHeader.EventType (Header e));
  src_size : EventHeader.EventSize (Header e) = blen (RawData e);
  src_small : blen (RawData e) + OKHeaderByte < MaxPayloadLen;
  src_bytes : Forall (fun b => 0 <= b < 256) (RawData e) }.

(** The entry of a value. *)
Definition value_entry (v : bytes) : Entry.t := Entry.mk 0 0 Entry.EntryNormal (Some v) None.

(** The stream of the master, as entries, is a sequence of events at the start of a
    file, and of transactions and changes to the next file. *)
Record master_stream (evs : list SrcEvent) (pre : list Entry.t) (items : list item) : Prop := {
  ms_events : Forall src_ok evs;
  ms_entries : map value_entry (values_of evs) = pre ++ concat (map item_entries items);
  ms_pre : Forall plain pre;
  ms_items : Forall item_ok items }.

(** Events without heartbeats. *)
Definition binlog (evs : list SrcEvent) : list SrcEvent := filter (fun e => is_heartbeat e = false) evs.

(** The value that raft commits for an entry of the leader. *)
Definition committed (es : list Entry.t) : list bytes :=
  map Entry.data (filter (fun e => Entry.Type_ e = Entry.EntryNormal /\ Entry.data e <> []) es).

Definition binlog_value (v : bytes) : bool := match v with b :: _ => b =? MySQLBinlogEventType | [] => false end.

Lemma event_part_eq e : src_ok e ->
  proposeBinlogEvent true e = Ok [event_part e] /\
  event_part e = BinlogEvent.mk (EventHeader.EventType (Header e)) BinlogEvent.FlavorType_MySQL 0 0 (Some (RawData e)) None.
Proof.
  intros [Ht Hs Hm _]. unfold event_part, proposeBinlogEvent. rewrite Hs.
  assert ((u32 (blen (RawData e) + OKHeaderByte) <? MaxPayloadLen) = true) as ->; [|done].
  apply Z.ltb_lt. pose proof (blen_nonneg (RawData e)). rewrite u32_small; [done|]. unfold OKHeaderByte, is_u32 in *. mp. lia.
Qed.

Lemma src_undivided e : src_ok e -> undivided e.
Proof. intros He. eexists. by apply event_part_eq. Qed.

Lemma event_value_eq p : event_value p = MySQLBinlogEventType :: event_bytes p.
Proof. unfold event_value, EncodeBinlogEvent. by rewrite Event_Marshal_eq. Qed.

Lemma values_binlog evs : Forall (fun v => binlog_value v = true) (values_of evs).
Proof. unfold values_of. apply Forall_map, Forall_true. intros p. by rewrite event_value_eq. Qed.

Lemma sov_loop_le k v : 0 <= sov_loop k v <= Z.of_nat k.
Proof. revert v. induction k as [|k IH]; intros v; cbn [sov_loop]; [lia|]. destruct (_ =? 0); [lia|]. specialize (IH (Z.shiftr v 7)). lia. Qed.

Lemma part_ok e : src_ok e -> event_ok (event_part e) /\ BinlogEvent.Size (event_part e) < 2 ^ 63.
Proof.
  intros He. rewrite (proj2 (event_part_eq e He)). destruct He as [Ht Hs Hm Hb]. split.
  - constructor; cbn; unfold is_u32, BinlogEvent.FlavorType_MySQL; try done; try lia.
    split; [done|]. unfold OKHeaderByte in *. mp. lia.
  - unfold BinlogEvent.Size, sovRecord. cbn [BinlogEvent.Type_ BinlogEvent.Flavor BinlogEvent.DividedCount BinlogEvent.DividedSeqNum BinlogEvent.Data
      BinlogEvent.XXX_unrecognized size_opt size_raw]. unfold sovRecord.
    repeat match goal with |- context [sov_loop ?k ?v] => let H := fresh in pose proof (sov_loop_le k v) as H; generalize dependent (sov_loop k v); intros end.
    unfold varint_fuel, OKHeaderByte in *. mp. lia.
Qed.

Lemma binlog_ok evs : Forall src_ok evs -> Forall src_ok (binlog evs).
Proof. rewrite !Forall_forall. intros Hevs e [_ He]%list_elem_of_filter. by apply Hevs. Qed.

(** Decoding the entries gives the events back, and the bytes of an event are those that
    the master sent. *)
Lemma stream_events evs : Forall src_ok evs -> events_of (map value_entry (values_of evs)) = parts_of evs.
Proof.
  intros Hevs. unfold values_of, parts_of. pose proof (binlog_ok _ Hevs) as Hb.
  unfold binlog in Hb. induction Hb as [|e l He _ IH]; [done|]. unfold events_of. cbn [map concat]. fold (events_of (map value_entry (map event_value (map event_part l)))).
  rewrite IH. unfold event_of. destruct (part_ok e He) as [Hok Hs]. rewrite event_value_eq.
  destruct (event_decodes (event_part e) 0 0 Hok Hs) as [Hi Hd]. unfold value_entry. by rewrite Hi, Hd.
Qed.

Lemma stream_data evs : Forall src_ok evs -> map (fun p => default [] (BinlogEvent.Data p)) (parts_of evs) = map RawData (binlog evs).
Proof.
  intros Hevs. unfold parts_of. pose proof (binlog_ok _ Hevs) as Hb. unfold binlog in *.
  induction Hb as [|e l He _ IH]; [done|]. cbn [map]. rewrite IH. by rewrite (proj2 (event_part_eq e He)).
Qed.

(** * Reading entries by their values *)

(** What is left of a dump without the index. *)
Definition progress (d : Dumper.t) : bool * list BinlogEvent.t := (Dumper.inExcludeGroup d, Dumper.eventC d).

Lemma is_binlog_value e : IsBinlogEvent e = true -> Entry.Type_ e = Entry.EntryNormal /\ binlog_value (Entry.data e) = true.
Proof. unfold IsBinlogEvent, binlog_value. intros [Ht%Z.eqb_eq Hv]%andb_true_iff. done. Qed.

Lemma take_entry_value slave e d d' n1 n2 e1 : Dumper.take_entry slave e n1 d = Ok e1 -> IsBinlogEvent e = true -> progress d' = progress d ->
  exists e2, Dumper.take_entry slave (value_entry (Entry.data e)) n2 d' = Ok e2 /\ progress e2 = progress e1.
Proof.
  intros E Hb Hp. unfold progress in *. injection Hp as Hx Hc. destruct (is_binlog_value _ Hb) as [Ht Hv].
  unfold Dumper.take_entry in *. rewrite Hb in E.
  assert (IsBinlogEvent (value_entry (Entry.data e)) = true) as -> by (unfold IsBinlogEvent; cbn; exact Hv).
  change (DecodeBinlogEvent (value_entry (Entry.data e))) with (DecodeBinlogEvent e). cbn [negb] in *.
  destruct (DecodeBinlogEvent e) as [ev| |]; [|done..]. rewrite Hx, Hc.
  destruct (skipEvent _ _ _) as [[]| |]; try done; injection E as <-; eexists; (split; [reflexivity|done]).
Qed.

Lemma take_entry_other slave e d n : IsBinlogEvent e = false -> exists e1, Dumper.take_entry slave e n d = Ok e1 /\ progress e1 = progress d.
Proof. intros Hb. unfold Dumper.take_entry. rewrite Hb. by eexists. Qed.

(** Only the values of the events matter for what is sent. *)
Lemma read_all_values slave l : forall d d' d1, read_all slave l d = Ok d1 -> progress d' = progress d ->
  exists d2, read_all slave (map (fun e => value_entry (Entry.data e)) (filter (fun e => IsBinlogEvent e = true) l)) d' = Ok d2 /\
    progress d2 = progress d1.
Proof.
  induction l as [|e l IH]; intros d d' d1 E Hp; cbn [read_all] in E.
  { injection E as <-. by exists d'. }
  rewrite filter_cons. destruct (decide (IsBinlogEvent e = true)) as [Hb|Hb].
  - destruct (Dumper.take_entry slave e _ d) as [d3| |] eqn:E3; [|done..]. cbn [map read_all].
    destruct (take_entry_value _ _ _ d' _ (Dumper.nextRaftIndex d' + 1) _ E3 Hb Hp) as (d4 & E4 & Hp4). rewrite E4. by eapply IH.
  - apply not_true_iff_false in Hb. destruct (take_entry_other slave e d (Dumper.nextRaftIndex d + 1) Hb) as (d3 & E3 & Hp3).
    rewrite E3 in E. eapply IH; [exact E|]. by rewrite Hp3.
Qed.

(** Reading on only adds events. *)
Lemma read_all_adds slave l : forall d d', read_all slave l d = Ok d' -> Dumper.eventC d `prefix_of` Dumper.eventC d'.
Proof.
  induction l as [|e l IH]; intros d d' E; cbn [read_all] in E; [by injection E as <-|].
  destruct (Dumper.take_entry slave e _ d) as [d1| |] eqn:E1; [|done..]. etrans; [|by eapply IH].
  unfold Dumper.take_entry in E1. destruct (negb _); [by injection E1 as <-|]. destruct (DecodeBinlogEvent e); [|done..].
  destruct (skipEvent _ _ _) as [[]| |]; try done; injection E1 as <-; cbn; [done|by apply prefix_app_r].
Qed.

(** * The values that raft commits *)

Lemma committed_binlog es :
  filter (fun v => binlog_value v = true) (committed es) = map Entry.data (filter (fun e => IsBinlogEvent e = true) es).
Proof.
  unfold committed. induction es as [|e es IH]; [done|]. rewrite !filter_cons.
  destruct (decide (IsBinlogEvent e = true)) as [Hb|Hb].
  - destruct (is_binlog_value _ Hb) as [Ht Hv]. rewrite decide_True; cycle 1.
    { split; [done|]. intros E. by rewrite E in Hv. }
    cbn [map]. rewrite filter_cons, decide_True by done. by rewrite IH.
  - destruct (decide _) as [[Ht Hne]|]; [|done]. cbn [map]. rewrite filter_cons, decide_False; [done|]. intros Hv. apply Hb.
    unfold IsBinlogEvent. by rewrite (proj2 (Z.eqb_eq _ _) Ht).
Qed.

Lemma merge_filter {A} (P : A -> Prop) `{forall x, Decision (P x)} te td m :
  Pipeline.merge te td m -> Forall P te -> Forall (fun x => ~ P x) td -> filter P m = te.
Proof.
  induction 1 as [|x a b l _ IH|x a b l _ IH]; intros Ha Hb; [done|..]; rewrite filter_cons.
  - apply Forall_cons in Ha as [Hx Ha]. rewrite decide_True by done. by rewrite IH.
  - apply Forall_cons in Hb as [Hx Hb]. rewrite decide_False by done. by apply IH.
Qed.

Lemma filter_prefix {A} (P : A -> Prop) `{forall x, Decision (P x)} (l k : list A) : l `prefix_of` k -> filter P l `prefix_of` filter P k.
Proof. intros [r ->]. rewrite filter_app. by apply prefix_app_r. Qed.

Lemma committed_prefix es es' : es `prefix_of` es' -> committed es `prefix_of` committed es'.
Proof. intros [r ->]. unfold committed. rewrite filter_app, map_app. by apply prefix_app_r. Qed.

Lemma sublist_map {A B} (f : A -> B) (l k : list A) : l `sublist_of` k -> map f l `sublist_of` map f k.
Proof. induction 1; cbn; by constructor. Qed.

Lemma elem_of_sublist {A} (x : A) (l k : list A) : l `sublist_of` k -> x ∈ l -> x ∈ k.
Proof. induction 1; intros Hx; [done| |]; [apply elem_of_cons in Hx as [->|Hx]|]; apply elem_of_cons; tauto. Qed.

Lemma Forall_prefix {A} (P : A -> Prop) (l k : list A) : l `prefix_of` k -> Forall P k -> Forall P l.
Proof. intros [r ->] [? _]%Forall_app. done. Qed.

(** What a slave is sent of the stream. *)
Definition sent (slave : MysqlGTIDSet.t) (pre : list Entry.t) (items : list item) : list BinlogEvent.t :=
  events_of pre ++ concat (map (item_sent slave) items).

(** A dump of a beginning of the stream, among other entries. *)
Lemma read_stream slave evs pre items es start d :
  master_stream evs pre items -> filter (fun v => binlog_value v = true) (committed es) `prefix_of` values_of evs ->
  read_all slave es (Dumper.mk start false []) = Ok d ->
  Dumper.eventC d `prefix_of` sent slave pre items /\
  (filter (fun v => binlog_value v = true) (committed es) = values_of evs -> Dumper.eventC d = sent slave pre items).
Proof.
  intros [_ He Hpre Hits] Hp E. rewrite committed_binlog in *.
  destruct (read_all_values slave es _ (Dumper.mk start false []) _ E eq_refl) as (d2 & E2 & [= _ <-]).
  rewrite <-(map_map Entry.data value_entry) in E2.
  destruct (items_read slave items Hits (Dumper.mk (start + blen pre) false (events_of pre))) as [b Ef].
  assert (read_all slave (map value_entry (values_of evs)) (Dumper.mk start false []) =
    Ok (Dumper.mk (start + blen pre + blen (concat (map item_entries items))) b (sent slave pre items))) as Efull.
  { rewrite He. by rewrite (read_all_app _ _ _ _ _ (plain_read slave pre Hpre _)). }
  split.
  - destruct Hp as [rest Hr]. rewrite Hr, map_app, (read_all_app _ _ _ _ _ E2) in Efull. by apply read_all_adds in Efull.
  - intros Eq. rewrite Eq, Efull in E2. by injection E2 as <-.
Qed.

Lemma events_app l1 l2 : events_of (l1 ++ l2) = events_of l1 ++ events_of l2.
Proof. unfold events_of. by rewrite map_app, concat_app. Qed.

Lemma item_sent_sublist slave it : item_sent slave it `sublist_of` events_of (item_entries it).
Proof. destruct it; cbn [item_sent item_entries]; [destruct (has _ _); [apply sublist_nil_l|done]|done|apply sublist_nil_l]. Qed.

Lemma items_sent_sublist slave items : concat (map (item_sent slave) items) `sublist_of` events_of (concat (map item_entries items)).
Proof.
  induction items as [|it items IH]; [constructor|]. cbn [map concat]. rewrite events_app. apply sublist_app; [apply item_sent_sublist|done].
Qed.

(** The events that are sent are events of the master. *)
Lemma sent_sublist slave evs pre items : master_stream evs pre items -> sent slave pre items `sublist_of` parts_of evs.
Proof.
  intros [Hevs He _ _]. rewrite <- (stream_events evs Hevs), He, events_app. apply sublist_app; [done|apply items_sent_sublist].
Qed.

Lemma parts_sendable evs p : Forall src_ok evs -> p ∈ parts_of evs -> sendable (Conn.Event p).
Proof.
  intros Hevs (e & -> & [_ He]%list_elem_of_filter)%list_elem_of_fmap. rewrite Forall_forall in Hevs. specialize (Hevs e He).
  rewrite (proj2 (event_part_eq e Hevs)). destruct Hevs as [_ _ Hm _]. done.
Qed.

(** The heartbeats among what the loop of a connection takes. *)
Definition heartbeats_ok (inputs : list Conn.input) : Prop :=
  Forall (fun i => match i with Conn.Event _ => True | _ => sendable i end) inputs.

Lemma inputs_sendable evs inputs :
  Forall src_ok evs -> (forall p, p ∈ input_events inputs -> p ∈ parts_of evs) -> heartbeats_ok inputs -> Forall sendable inputs.
Proof.
  intros Hevs Hin Hh. induction Hh as [|i inputs Hi _ IH]; [constructor|]. unfold input_events in Hin. cbn [map concat] in Hin. constructor.
  - destruct i; try done. apply (parts_sendable evs); [done|]. apply Hin, elem_of_app. left. by apply list_elem_of_singleton.
  - apply IH. intros p Hp. apply Hin, elem_of_app. by right.
Qed.

Section stream.
Context {S : Type} `{EntryReaderLaws S}.

(** C4: From the master to a slave: when the syncer of the leader has not been stopped and gave up
    no value, and the log from the start of a dump on holds a beginning of what it
    proposed, the dump has put a beginning of the stream of the master into the channel, without the
    transactions that the slave has, and all of it once everything is committed and
    read. The bytes of these events are bytes that the master sent, in their order; and
    the connection, which takes them with heartbeats in between, sends a stream that a client
    reads as the greeting and exactly these events and heartbeats. *)
Theorem master_to_slave evs pre items data l p slave start base es a st d :
  master_stream evs pre items -> Forall (fun v => binlog_value v = false) data ->
  rtc Pipeline.step (Pipeline.start evs data l) p -> gaveUp (prp p) = false -> done (syn p) = false ->
  dumping slave start base es a (st, d) ->
  committed (drop (Z.to_nat (start - base)) es) `prefix_of` proposed (prp p) ->
  Dumper.eventC d `prefix_of` sent slave pre items /\
  (Dumper.nextRaftIndex d = base + blen es ->
   filter (fun v => binlog_value v = true) (committed (drop (Z.to_nat (start - base)) es)) = values_of evs ->
   Dumper.eventC d = sent slave pre items) /\
  map (fun ev => default [] (BinlogEvent.Data ev)) (sent slave pre items) `sublist_of` map RawData (binlog evs) /\
  forall executed packet serverID c uuid head pos body crc fileName inputs,
  Conn.parseMysqlGtidDumpPacket packet = Ok (slave, serverID) ->
  Conn.userVariables c !! SlaveUUID = Some (VString uuid) -> BaseConn.faults (Conn.BaseConn_ c) = [] ->
  dumpable executed slave (Conn.store c) start head pos body crc fileName ->
  input_events inputs `prefix_of` Dumper.eventC d -> heartbeats_ok inputs ->
  exists c' stream, Conn.handleBinlogDumpGtid executed packet inputs c = (Ok tt, c') /\
    BaseConn.output (Conn.BaseConn_ c') = BaseConn.output (Conn.BaseConn_ c) ++ stream /\
    let masterID := le_val (take 4 (drop 5 head)) in
    forall rest, client_reads (2 + length inputs) (BaseConn.Sequence (Conn.BaseConn_ c)) (stream ++ rest) =
      Some (greeting c masterID fileName head body ++ map (payload masterID) inputs, BaseConn.Sequence (Conn.BaseConn_ c'), rest).
Proof.
  intros Hms Hdata Hrun Hg Hdn Hd Hc. pose proof (ms_events _ _ _ Hms) as Hevs.
  assert (filter (fun v => binlog_value v = true) (proposed (prp p)) `prefix_of` values_of evs) as Hpr.
  { destruct (proposals_exact evs data l p) as (te & td & Hte & Htd & Hm); [by eapply Forall_impl, src_undivided|done..|].
    rewrite (merge_filter _ _ _ _ Hm); [done|by eapply Forall_prefix, values_binlog|]. eapply Forall_prefix; [done|].
    eapply Forall_impl; [exact Hdata|]. intros v. cbn. congruence. }
  destruct (dumping_inv _ _ _ _ _ _ Hd) as (_ & Hb & _ & Hn & _ & Hle & E). cbn [fst snd] in *.
  set (all := drop _ es) in *. set (n := Z.to_nat _) in E.
  assert (committed (take n all) `prefix_of` committed all) as Hcp.
  { apply committed_prefix. exists (drop n all). by rewrite take_drop. }
  destruct (read_stream slave evs pre items (take n all) start d Hms) as [Hp Heq]; [|exact E|].
  { etrans; [apply filter_prefix, Hcp|]. etrans; [apply filter_prefix, Hc|done]. }
  split; [exact Hp|]. split; [|split].
  - intros Hend Hall. apply Heq. rewrite take_ge; [done|]. unfold all, n. rewrite length_drop. unfold blen in *. lia.
  - rewrite <- (stream_data evs Hevs). by apply sublist_map, sent_sublist.
  - intros executed packet serverID c uuid head pos body crc fileName inputs Hpk Hu Hf Hdp Hin Hh.
    eapply dump_client_reads; [done..|]. apply (inputs_sendable evs); [done| |done].
    intros q Hq. eapply elem_of_sublist; [by apply (sent_sublist slave _ _ _ Hms)|]. eapply elem_of_prefix; [exact Hq|]. by etrans.
Qed.

Lemma rounds_dumping slave start base es a n : forall x x',
  dumping slave start base es a x -> rounds n slave a x = (Ok tt, x') -> dumping slave start base es a x'.
Proof.
  induction n as [|n IH]; intros x x' Hx E; cbn [rounds] in E; [by injection E as <-|].
  apply bind_inv in E as ([] & y & E1 & E2). eapply IH; [|exact E2]. by eapply dumping_round.
Qed.
End stream.

(** * A sample: a file with two transactions, of which the slave has the first *)

Definition stream_src (ty : Z) (body : bytes) : SrcEvent :=
  mkSrcEvent (sample_header ty (23 + blen body)) (sample_raw ty body).

Definition stream_trx (gno : Z) : list SrcEvent :=
  [stream_src GTID_EVENT (gtid_body sid1 gno); stream_src QUERY_EVENT (query_body "BEGIN"); stream_src XID_EVENT (zeros 8)].

Definition stream_evs : list SrcEvent :=
  [stream_src PREVIOUS_GTIDS_EVENT (zeros 8); stream_src HEARTBEAT_EVENT (zeros 8)] ++ stream_trx 5 ++ stream_trx 6.

Definition only_value (e : Entry.t) : Entry.t := value_entry (Entry.data e).

Definition trx_values (tr : trx) : trx := Trx (map only_value (trx_entries tr)) (trx_sid tr) (trx_gno tr).

Definition stream_pre : list Entry.t := [only_value (sample_entry 3 PREVIOUS_GTIDS_EVENT (zeros 8))].
Definition stream_items : list item := [Transaction (trx_values (sample_trx 4 5)); Transaction (trx_values (sample_trx 7 6))].

(** The purged GTIDs come after the first event. *)
Definition stream_order : list bytes :=
  match values_of stream_evs with a :: vs => a :: [5] :: vs ++ [[4]] | [] => [] end.

Definition stream_log : list Entry.t :=
  take 2 file_log ++ imap (fun k v => Entry.mk 1 (3 + Z.of_nat k) Entry.EntryNormal (Some v) None) stream_order.

Lemma only_value_same e : IsBinlogEvent e = true -> IsBinlogEvent (only_value e) = true /\ DecodeBinlogEvent (only_value e) = DecodeBinlogEvent e.
Proof. intros Hb. destruct (is_binlog_value _ Hb) as [_ Hv]. split; [|done]. unfold IsBinlogEvent. cbn. exact Hv. Qed.

Lemma carries_value e raw h b : carries e raw h b -> carries (only_value e) raw h b.
Proof. intros [Hb Hd Ht Hw]. destruct (only_value_same e Hb) as [Hb' Hd']. split; [done| |done|done]. by rewrite Hd'. Qed.

Lemma trx_values_ok tr : is_trx tr -> is_trx (trx_values tr).
Proof.
  intros [(e & es & bs & E & (raw & h & ev & Hc & Hev) & Hg & Hes) Hu Hgno]. split; [|done..]. exists (only_value e), (map only_value es), bs.
  cbn [trx_values trx_entries trx_sid trx_gno]. rewrite E. split; [done|]. split; [|split; [done|]].
  - exists raw, h, ev. split; [by apply carries_value|done].
  - clear -Hes. induction Hes as [|x b xs bs (r & k & Hc & Hn)]; cbn; constructor; [|done]. exists r, k. split; [by apply carries_value|done].
Qed.

(** The well-formedness of an event, by evaluation. *)
Definition src_ok_b (e : SrcEvent) : bool :=
  (0 <=? EventHeader.EventType (Header e)) && (EventHeader.EventType (Header e) <? 2 ^ 32) &&
  (EventHeader.EventSize (Header e) =? blen (RawData e)) && (blen (RawData e) + OKHeaderByte <? MaxPayloadLen) &&
  forallb (fun b => (0 <=? b) && (b <? 256)) (RawData e).

Lemma src_ok_by_computation evs : forallb src_ok_b evs = true -> Forall src_ok evs.
Proof.
  rewrite forallb_forall, Forall_forall. intros Hb e He%list_elem_of_In%Hb. unfold src_ok_b in He. rewrite !andb_true_iff in He.
  destruct He as [[[[H1 H2] H3] H4] H5]. split; [unfold is_u32; lia|lia|lia|]. rewrite Forall_forall. rewrite forallb_forall in H5.
  intros b Hx%list_elem_of_In%H5. lia.
Qed.

Lemma stream_events_ok : Forall src_ok stream_evs.
Proof. apply src_ok_by_computation. by vm_compute. Qed.

Lemma stream_ok : master_stream stream_evs stream_pre stream_items.
Proof.
  split; [exact stream_events_ok|by vm_compute| |].
  - constructor; [|constructor]. eexists. split_and!; [by vm_compute|by vm_compute|vm_compute; discriminate..].
  - constructor; [|constructor; [|constructor]]; apply trx_values_ok, sample_trx_ok; lia.
Qed.

Lemma merge_left_all {A} (a b : list A) : Pipeline.merge a b (a ++ b).
Proof. induction a as [|x a IH]; cbn; [|by constructor]. induction b; by constructor. Qed.

Lemma stream_merge : Pipeline.merge (values_of stream_evs) [[5]; [4]] stream_order.
Proof. unfold stream_order. destruct (values_of stream_evs) as [|a vs] eqn:E; [by vm_compute in E|]. constructor. constructor. apply merge_left_all. Qed.

Lemma stream_run : exists p, rtc Pipeline.step (Pipeline.start stream_evs [[5]; [4]] (Led true false)) p /\
  proposed (prp p) = stream_order /\ gaveUp (prp p) = false /\ done (syn p) = false.
Proof.
  apply (run_merge _ _ _ stream_merge stream_evs [] false eq_refl).
  - eapply Forall_impl; [exact stream_events_ok|exact src_undivided].
  - apply Forall_true. intros q. unfold encodable, EncodeBinlogEvent. rewrite Event_Marshal_eq. by eexists.
Qed.

(** The dump of the sample when everything is read. *)
Definition stream_end : Dumper.t :=
  match rounds 9 sample_slave 11 (stream_log, Dumper.mk 3 false []) with (_, (_, d)) => d end.

Lemma stream_dumped : dumping (S := list Entry.t) sample_slave 3 1 stream_log 11 (stream_log, stream_end).
Proof.
  apply (rounds_dumping _ _ _ _ _ 9 (stream_log, Dumper.mk 3 false [])); [|vm_compute; reflexivity].
  apply dumping_start; [done|by vm_compute..].
Qed.

Lemma stream_committed : committed (drop (Z.to_nat (3 - 1)) stream_log) = stream_order.
Proof. by vm_compute. Qed.

Lemma stream_read : Dumper.nextRaftIndex stream_end = 1 + blen stream_log /\
  filter (fun v => binlog_value v = true) (committed (drop (Z.to_nat (3 - 1)) stream_log)) = values_of stream_evs.
Proof. split; by vm_compute. Qed.

Lemma master_to_slave_witness :
  Dumper.eventC stream_end = sent sample_slave stream_pre stream_items /\
  exists c' stream, Conn.handleBinlogDumpGtid executed_text dump_packet
      (map Conn.Event (Dumper.eventC stream_end)) file_conn = (Ok tt, c') /\
    BaseConn.output (Conn.BaseConn_ c') = stream.
Proof.
  destruct stream_run as (p & Hr & Hp & Hg & Hd).
  destruct (master_to_slave (S := list Entry.t) stream_evs stream_pre stream_items [[5]; [4]] (Led true false) p sample_slave 3 1
    stream_log 11 stream_log stream_end) as (_ & Heq & _ & Hall).
  - exact stream_ok.
  - repeat constructor.
  - exact Hr.
  - exact Hg.
  - exact Hd.
  - exact stream_dumped.
  - rewrite Hp, stream_committed. reflexivity.
  - split; [exact (Heq (proj1 stream_read) (proj2 stream_read))|].
    destruct (Hall executed_text dump_packet 2 file_conn "u" fde_head (zeros 4) (zeros 12) (zeros 4) "bin.000007"
      (map Conn.Event (Dumper.eventC stream_end))) as (c' & stream & E1 & E2 & _).
    + vm_compute. reflexivity.
    + reflexivity.
    + reflexivity.
    + split; vm_compute; reflexivity.
    + rewrite input_events_map. reflexivity.
    + unfold heartbeats_ok. apply Forall_map, Forall_true. intros ev. exact I.
    + exists c', stream. split; [exact E1|exact E2].
Defined.
