(* ===== verification/Commands.v ===== *)
(** What a client may ask: the authentication of mysql/auth.go, the answers of
    mysql/resp.go, the commands and SQL statements of mysql/command.go and the
    connection of mysql/conn.go. The SQL parser is a parameter; of its syntax
    trees the model has what the handlers look at. *)
From S2P Require Import Prelude.
From S2P Require Import Names.
From S2P Require Import Text.
From S2P Require Import Wire.
From S2P Require Import Events.
From S2P Require Import Packets.
From S2P Require Import Gtid.
From S2P Require Import MetaStore.
From S2P Require Import Membership.
From S2P Require Import Config.
From S2P Require Import BinlogServer.
From Stdlib Require Import Ascii.
From stdpp Require Import list strings.
Local Open Scope string_scope.
Local Open Scope list_scope.
Local Open Scope Z_scope.
Local Open Scope go_scope.

(** * Answers *)

(** The vendored package mysql: integers and strings with their length. *)
Definition PutLengthEncodedInt (n : Z) : bytes :=
  if n <=? 250 then [u8 n]
  else if n <=? 65535 then 252 :: le_bytes 2 n
  else if n <=? 16777215 then 253 :: le_bytes 3 n
  else 254 :: le_bytes 8 n.

Definition PutLengthEncodedString (b : bytes) : bytes := PutLengthEncodedInt (blen b) ++ b.

(** [LengthEncodedInt]: the number, whether it is null, and how many bytes it
    takes; [None] where the slice is too short. *)
Definition LengthEncodedInt (b : bytes) : option (Z * bool * Z) :=
  index b 0 ≫= fun b0 =>
  if b0 =? 251 then Some (0, true, 1)
  else if b0 =? 252 then (slice b 1 3 ≫= fun l => Some (le_val l, false, 3))
  else if b0 =? 253 then (slice b 1 4 ≫= fun l => Some (le_val l, false, 4))
  else if b0 =? 254 then (slice b 1 9 ≫= fun l => Some (le_val l, false, 9))
  else Some (b0, false, 1).

(** A value of a result, an integer or a string. *)
Inductive cell : Type := CellInt (n : Z) | CellString (s : string).

Definition MYSQL_TYPE_LONGLONG : Z := 8.
Definition MYSQL_TYPE_VAR_STRING : Z := 253.

Definition fieldType (value : cell) : Z :=
  match value with CellInt _ => MYSQL_TYPE_LONGLONG | CellString _ => MYSQL_TYPE_VAR_STRING end.

Definition formatTextValue (value : cell) : bytes :=
  match value with CellInt n => StringToBytes (fmt_d n) | CellString s => StringToBytes s end.

(** The parts of a field that are always nil or zero are left out. *)
Module Field.
Record t : Type := mk { Name : bytes; Charset : Z; Type_ : Z; Flag : Z }.

(** [formatField]: integers are binary and not null. *)
Definition new (name : string) (value : cell) : t :=
  match value with
  | CellInt _ => mk (StringToBytes name) 63 (fieldType value) (128 + 1)
  | CellString _ => mk (StringToBytes name) 33 (fieldType value) 0
  end.

Definition Dump (f : t) : bytes :=
  PutLengthEncodedString (StringToBytes "def") ++
  PutLengthEncodedString [] ++ PutLengthEncodedString [] ++ PutLengthEncodedString [] ++
  PutLengthEncodedString (Name f) ++ PutLengthEncodedString [] ++
  [12] ++ le_bytes 2 (Charset f) ++ le_bytes 4 0 ++ [u8 (Type_ f)] ++ le_bytes 2 (Flag f) ++ [0] ++ [0; 0].
End Field.

Module Resultset.
Record t : Type := mk { Fields : list Field.t; RowDatas : list bytes }.

(** [BuildSimpleResultset([]string{name}, [][]interface{}{{value}}, false)]. *)
Definition BuildSimpleResultset (name : string) (value : cell) : t :=
  mk [Field.new name value] [PutLengthEncodedString (formatTextValue value)].
End Resultset.

(** [mysql.MyError], and the one of an error: itself, or the unknown error with
    the text of the error. *)
Module MyError.
Record t : Type := mk { Code : Z; Message : bytes; State : bytes }.
End MyError.
Class ErrorText : Type := my_error : error -> MyError.t.

Module Resp.
Import Conn.

Definition protocol41 (c : Conn.t) : bool := 0 <? Z.land (capability c) CLIENT_PROTOCOL_41.

Definition writeError `{ErrorText} (e : error) : St Conn.t unit :=
  let! c := gets id in
  let m := my_error e in
  WritePacket (zeros 4 ++ [255; u8 (MyError.Code m); u8 (Z.shiftr (MyError.Code m) 8)] ++
    (if protocol41 c then 35 :: MyError.State m else []) ++ MyError.Message m).

Definition writeEOF : St Conn.t unit :=
  let! c := gets id in
  WritePacket (zeros 4 ++ [254] ++
    (if protocol41 c then [0; 0; u8 (status c); u8 (Z.shiftr (status c) 8)] else [])).

Fixpoint write_all (l : list bytes) : St Conn.t unit :=
  match l with
  | [] => ret tt
  | data :: l' => WritePacket (zeros 4 ++ data) ;! write_all l'
  end.

(** A nil result set panics. *)
Definition writeResultset (r : option Resultset.t) : St Conn.t unit :=
  let! r := must r in
  WritePacket (zeros 4 ++ PutLengthEncodedInt (blen (Resultset.Fields r))) ;!
  write_all (map Field.Dump (Resultset.Fields r)) ;!
  writeEOF ;!
  write_all (Resultset.RowDatas r) ;!
  writeEOF.
End Resp.

(** * Authentication *)

(** [crypt] is SHA-1. *)
Definition CalcPassword (scramble password : bytes) : bytes :=
  match password with
  | [] => []
  | _ =>
      let stage1 := Sha1.Sum password in
      zip_with Z.lxor (Sha1.Sum (scramble ++ Sha1.Sum stage1)) stage1
  end.

(** [bytes.IndexByte], -1 when the byte does not occur. *)
Fixpoint IndexByte (l : bytes) (c : Z) : Z :=
  match l with
  | [] => -1
  | x :: l' => if x =? c then 0 else let i := IndexByte l' c in if i <? 0 then i else i + 1
  end.

Module Auth.
Import Conn.

Definition DEFAULT_COLLATION_ID : Z := 33.

(** Long passwords and flags, a database at the start, protocol 4.1,
    transactions and secure connections. *)
Definition server_capability : Z := Z.lor 1 (Z.lor 4 (Z.lor 8 (Z.lor 512 (Z.lor 8192 32768)))).

Definition writeInitialHandshake (serverVersion : string) : St Conn.t unit :=
  let! c := gets id in
  let! part1 := must (slice (salt c) 0 8) in
  let! part2 := must (slice (salt c) 8 (blen (salt c))) in
  WritePacket (zeros 4 ++ [10] ++ StringToBytes serverVersion ++ [0] ++ le_bytes 4 (connectionID c) ++
    part1 ++ [0] ++ le_bytes 2 server_capability ++ [DEFAULT_COLLATION_ID] ++
    [u8 (status c); u8 (Z.shiftr (status c) 8)] ++ le_bytes 2 (Z.shiftr server_capability 16) ++
    [21] ++ zeros 10 ++ part2 ++ [0]).

(** The test of the capability for a database uses [|] and always holds. *)
Definition readHandshakeResponse (password : string) : St Conn.t unit :=
  let! data := on_base BaseConn.ReadPacket in
  let! cap := must (slice data 0 4) in
  modify (set_capability (le_val cap)) ;!
  let pos := 4 + 4 + 1 + 23 in
  let! rest := must (slice data pos (blen data)) in
  let! user_ := must (slice data pos (pos + IndexByte rest 0)) in
  let pos := pos + blen user_ + 1 in
  let! c := gets id in
  if negb (String.eqb (user c) (BytesToString user_)) then throw ErrNoSuchUser else
  let! authLen := must (index data pos) in
  let pos := pos + 1 in
  let! auth := must (slice data pos (pos + authLen)) in
  if negb (bool_decide (auth = CalcPassword (salt c) (StringToBytes password))) then throw ErrAccessDenied else
  let pos := pos + authLen in
  let! rest := must (slice data pos (blen data)) in
  if blen rest =? 0 then ret tt else
  let! _ := must (slice data pos (pos + IndexByte rest 0)) in
  ret tt.
End Auth.

(** * SQL statements *)

(** Literals with the text that [GetString] gives for them. *)
Inductive literal : Type := LInt (n : Z) | LString (s : string) | LOther (s : string).

Definition GetString (l : literal) : string :=
  match l with LInt _ => "" | LString s => s | LOther s => s end.

Inductive expr : Type :=
  | VariableExpr (Name : string) (IsGlobal IsSystem : bool)
  | FuncCallExpr (FnName : string)
  | ValueExpr (l : literal)
  | OtherExpr.

(** The pattern of a SHOW may be missing; fields are expressions with their
    text, variables are set to an expression. *)
Inductive stmt : Type :=
  | ShowStmt (Pattern : option string)
  | SelectStmt (Fields : list (string * expr))
  | SetStmt (Variables : list (string * expr))
  | KillStmt (ConnectionID : Z)
  | OtherStmt.

(** [parser.ParseOneStmt]. *)
Class SqlParser : Type := ParseOneStmt : string -> option stmt.

(** [strings.ToLower] of ASCII text. *)
Definition lower (c : ascii) : ascii :=
  if (65 <=? N_of_ascii c)%N && (N_of_ascii c <=? 90)%N then ascii_of_N (N_of_ascii c + 32) else c.
Fixpoint ToLower (s : string) : string :=
  match s with EmptyString => EmptyString | String c s' => String (lower c) (ToLower s') end.

Definition ServerID : string := "server_id".
Definition ServerUUID : string := "server_uuid".
Definition GtidMode : string := "gtid_mode".
Definition GtidPurged : string := "gtid_purged".
Definition VersionComment : string := "version_comment".
Definition BinlogFormat : string := "binlog_format".
Definition BinlogChecksum : string := "binlog_checksum".
Definition SetNames : string := "setnames".
Definition UnixTimestamp : string := "unix_timestamp".
Definition Version : string := "version".

Module Command.
Import Conn.

Section Command.
Context `{Json MasterInfo.t} `{ErrorText} `{SqlParser}.

Definition master_info : St Conn.t MasterInfo.t := on_store GetMasterInfo.

Definition answer (columnName : string) (value : cell) : St Conn.t unit :=
  Resp.writeResultset (Some (Resultset.BuildSimpleResultset columnName value)).

(** Another variable has no result set. *)
Definition handleSelectVariableExpr (Name columnName : string) : St Conn.t unit :=
  let name := ToLower Name in
  if String.eqb name ServerID || String.eqb name ServerUUID then
    let! masterInfo := master_info in
    if String.eqb Name ServerUUID then answer columnName (CellString (MasterInfo.ServerUUID masterInfo))
    else answer columnName (CellInt (MasterInfo.ServerID masterInfo))
  else if String.eqb name GtidMode then answer columnName (CellString "ON")
  else if String.eqb name GtidPurged then
    let! gtidSet := on_store (GetGtidSet MySQLFlavor GtidPurgedKey) in
    answer columnName (CellString (MysqlGTIDSet.String gtidSet))
  else if String.eqb name VersionComment then answer columnName (CellString "MySQL Community Server (GPL)")
  else if String.eqb name BinlogFormat then answer columnName (CellString "ROW")
  else if String.eqb name BinlogChecksum then answer columnName (CellString "CRC32")
  else if String.eqb name MasterBinlogChecksum then answer columnName (CellString "CRC32")
  else Resp.writeResultset None.

Definition handleSelectFuncCallExpr (now : Z) (FnName columnName : string) : St Conn.t unit :=
  if String.eqb FnName UnixTimestamp then answer columnName (CellInt now)
  else if String.eqb FnName Version then
    let! masterInfo := master_info in
    answer columnName (CellString (MasterInfo.Version masterInfo))
  else Resp.writeResultset None.

Definition handleSelect (now : Z) (Fields : list (string * expr)) : St Conn.t unit :=
  match Fields with
  | [(columnName, VariableExpr Name _ _)] => handleSelectVariableExpr Name columnName
  | [(columnName, FuncCallExpr FnName)] => handleSelectFuncCallExpr now FnName columnName
  | _ => throw ErrSQLNotSupport
  end.

(** The statement is refused also after it was answered. *)
Definition handleShow (Pattern : option string) : St Conn.t unit :=
  let! showVariable := must Pattern in
  (if String.eqb (ToLower showVariable) ServerID then
     let! masterInfo := master_info in
     answer showVariable (CellInt (MasterInfo.ServerID masterInfo))
   else ret tt) ;!
  throw ErrSQLNotSupport.

(** A slave is registered under its UUID. *)
Definition set_heartbeat (period : Z) : St Conn.t unit :=
  let! c := gets id in
  match userVariables c !! SlaveUUID with
  | Some (VString slaveUUID) =>
      on_server (modify (fun s => Slaves.mk (Slaves.started s)
        (alter (Slave.set_HeartBeat period) slaveUUID (Slaves.slaves s)) (Slaves.closed s)))
  | _ => ret tt
  end.

Definition checksum_supported (Value : expr) : bool :=
  match Value with
  | VariableExpr Name IsGlobal IsSystem => IsSystem && IsGlobal && String.eqb (ToLower Name) "binlog_checksum"
  | ValueExpr l => String.eqb (ToLower (GetString l)) "crc32"
  | _ => true
  end.

Definition handleSet (Variables : list (string * expr)) : St Conn.t unit :=
  match Variables with
  | [(Name, Value)] =>
      let name := ToLower Name in
      if String.eqb name MasterHeartbeatPeriod then
        match Value with
        | ValueExpr (LInt period) =>
            modify (set_userVariable MasterHeartbeatPeriod (VInt period)) ;!
            set_heartbeat period ;!
            writeOK
        | _ => panic
        end
      else if String.eqb name SlaveUUID then
        match Value with
        | ValueExpr l => modify (set_userVariable SlaveUUID (VString (GetString l))) ;! writeOK
        | _ => panic
        end
      else if String.eqb name MasterBinlogChecksum then
        if negb (checksum_supported Value) then throw ErrChecksum else
        modify (set_userVariable MasterBinlogChecksum (VString "crc32")) ;! writeOK
      else if String.eqb name SetNames then
        match Value with
        | ValueExpr l => modify (set_userVariable SetNames (VString (GetString l))) ;! writeOK
        | _ => panic
        end
      else throw ErrSQLNotSupport
  | _ => throw ErrSQLNotSupport
  end.

(** The first slave with the connection, in some order. *)
Definition handleKill (ConnectionID : Z) : St Conn.t unit :=
  let! slaves := on_server Slaves.GetSlaves in
  (match List.find (fun s => Slave.Conn s =? u32 ConnectionID) (map_to_list slaves).*2 with
   | Some s => on_server (Slaves.UnregisterSlave (Slave.UUID s))
   | None => ret tt
   end) ;!
  writeOK.

(** A panic of the handlers is recovered and returned. *)
Definition recovered (m : St Conn.t unit) : St Conn.t unit := fun c =>
  match m c with (Panic, c) => (Err ErrRuntime, c) | r => r end.

Definition handleQuery (now : Z) (sql : string) : St Conn.t unit :=
  recovered (
    match ParseOneStmt sql with
    | None => throw Prelude.ErrSyntax
    | Some (ShowStmt Pattern) => handleShow Pattern
    | Some (SelectStmt Fields) => handleSelect now Fields
    | Some (SetStmt Variables) => handleSet Variables
    | Some (KillStmt ConnectionID) => handleKill ConnectionID
    | Some OtherStmt => throw ErrSQLNotSupport
    end).

Definition COM_QUIT : Z := 1.
Definition COM_QUERY : Z := 3.
Definition COM_PING : Z := 14.
Definition COM_REGISTER_SLAVE : Z := 21.
Definition COM_BINLOG_DUMP_GTID : Z := 30.

Definition Close : St Conn.t unit :=
  let! c := gets id in on_server (modify (Slaves.Close (connectionID c))).

(** What a command needs from outside of the connection: the executed set of
    the server, the time, and the inputs of the loop of a dump. *)
Record Outside : Type := mkOutside { executedGtidSetStr : string; now : Z; inputs : list input }.

Definition dispatch (o : Outside) (data : bytes) : St Conn.t unit :=
  let! cmd := must (index data 0) in
  let! data := must (slice data 1 (blen data)) in
  if cmd =? COM_QUIT then Close
  else if cmd =? COM_QUERY then handleQuery (now o) (BytesToString data)
  else if cmd =? COM_PING then writeOK
  else if cmd =? COM_BINLOG_DUMP_GTID then handleBinlogDumpGtid (executedGtidSetStr o) data (inputs o)
  else if cmd =? COM_REGISTER_SLAVE then handleRegisterSlave data
  else Resp.writeError ErrSQLNotSupport.

End Command.
End Command.

(** * A connection from its start to its end *)

Module Session.
Import Conn.

Section Session.
Context `{Json MasterInfo.t} `{ErrorText} `{SqlParser}.

Definition handshake (serverVersion password : string) : St Conn.t unit :=
  Auth.writeInitialHandshake serverVersion ;!
  (fun c => match Auth.readHandshakeResponse password c with
            | (Err e, c) => match Resp.writeError e c with (Panic, c) => (Panic, c) | (_, c) => (Err e, c) end
            | r => r
            end) ;!
  writeOK ;!
  on_base BaseConn.ResetSequence.

(** A connection before the handshake, with its id and salt. *)
Definition new_conn (b : BaseConn.t) (connectionID : Z) (user : string) (salt : bytes)
    (srv : Slaves.t) (store : MetaStore.t) : Conn.t := Conn.mk b 0 connectionID 0 user salt ∅ srv store.

Definition NewConn (password : string) : St Conn.t unit :=
  let! masterInfo := on_store GetMasterInfo in
  handshake (MasterInfo.Version masterInfo) password.

(** One round of the loop of [Run]: whether there is another one. *)
Definition round (o : Command.Outside) : St Conn.t bool := fun c =>
  if closed c then (Ok false, c) else
  match on_base BaseConn.ReadPacket c with
  | (Ok data, c) =>
      match Command.dispatch o data c with
      | (Ok _, c) =>
          if closed c then (Ok false, c)
          else (Ok true, set_BaseConn (BaseConn.set_Sequence 0 (BaseConn_ c)) c)
      | (Err e, c) =>
          if negb (bool_decide (e = ErrCanceled)) && negb (closed c)
          then match Resp.writeError e c with (Panic, c) => (Panic, c) | (_, c) => (Ok false, c) end
          else (Ok false, c)
      | (Panic, c) => (Panic, c)
      end
  | (Err _, c) => (Ok false, c)
  | (Panic, c) => (Panic, c)
  end.

(** [Run] with what the rounds need from outside; it ends with [Close], also
    after a panic. *)
Fixpoint rounds (os : list Command.Outside) : St Conn.t unit :=
  match os with
  | [] => ret tt
  | o :: os' => let! more := round o in if more then rounds os' else Command.Close
  end.

Definition Run (os : list Command.Outside) : St Conn.t unit := fun c =>
  match rounds os c with (Panic, c) => Command.Close c | r => r end.

(** [onConn] of server/binlog_server.go: nothing recovers a panic of [NewConn],
    so that it ends the process. *)
Definition onConn (password : string) (os : list Command.Outside) : St Conn.t unit := fun c =>
  match NewConn password c with
  | (Ok _, c) => Run os c
  | (Err _, c) => Command.Close c
  | (Panic, c) => (Panic, c)
  end.

End Session.
End Session.
