(* ===== verification/CommandTheorems.v ===== *)
(** What a client gets: who may log in, what a malformed answer to the handshake
    does, and the result sets of the variables that can be asked for. *)
From S2P Require Import Prelude.
From S2P Require Import Names.
From S2P Require Import Text.
From S2P Require Import Wire.
From S2P Require Import Events.
From S2P Require Import Packets.
From S2P Require Import Gtid.
From S2P Require Import MetaStore.
From S2P Require Import MetaTheorems.
From S2P Require Import Membership.
From S2P Require Import Config.
From S2P Require Import BinlogServer.
From S2P Require Import Messages.
From S2P Require Import Commands.
From stdpp Require Import list strings.
Local Open Scope string_scope.
Local Open Scope list_scope.
Local Open Scope Z_scope.
Local Open Scope go_scope.

(** * Numbers with their length *)

Lemma tagged_int tag k n rest hi : hi = 1 + Z.of_nat k -> 0 <= n < 2 ^ (8 * Z.of_nat k) ->
  (slice (tag :: le_bytes k n ++ rest) 1 hi ≫= fun l => Some (le_val l, false, hi)) = Some (n, false, hi).
Proof.
  intros -> Hn. rewrite (slice_mid [tag] (le_bytes k n) rest) by (rewrite ?blen_le_bytes; (done || lia)).
  cbn. by rewrite le_val_bytes_small.
Qed.

Lemma lenenc_roundtrip n rest : 0 <= n < 2 ^ 64 ->
  LengthEncodedInt (PutLengthEncodedInt n ++ rest) = Some (n, false, blen (PutLengthEncodedInt n)).
Proof.
  intros Hn. unfold PutLengthEncodedInt, LengthEncodedInt.
  destruct (Z.leb_spec n 250); [|destruct (Z.leb_spec n 65535); [|destruct (Z.leb_spec n 16777215)]]; cbn [app].
  - rewrite u8_small by (unfold is_u8; lia). change (index (n :: rest) 0) with (Some n). cbn [mbind option_bind].
    by rewrite !(proj2 (Z.eqb_neq _ _)) by lia.
  - exact (tagged_int 252 2 n rest 3 eq_refl ltac:(lia)).
  - exact (tagged_int 253 3 n rest 4 eq_refl ltac:(lia)).
  - exact (tagged_int 254 8 n rest 9 eq_refl ltac:(lia)).
Qed.

(** * Logging in *)

Lemma IndexByte_first l rest : 0 ∉ l -> IndexByte (l ++ 0 :: rest) 0 = blen l.
Proof.
  induction l as [|x l IH]; intros Hl; [done|]. apply not_elem_of_cons in Hl as [Hx Hl].
  cbn [app IndexByte]. rewrite (proj2 (Z.eqb_neq _ _)) by done. rewrite IH by done.
  pose proof (blen_nonneg l). by rewrite (proj2 (Z.ltb_ge _ _)), blen_cons, Z.add_comm by lia.
Qed.

Lemma IndexByte_none l : 0 ∉ l -> IndexByte l 0 = -1.
Proof.
  induction l as [|x l IH]; intros Hl; [done|]. apply not_elem_of_cons in Hl as [Hx Hl].
  cbn [IndexByte]. rewrite (proj2 (Z.eqb_neq _ _)) by done. by rewrite IH.
Qed.

Lemma IndexByte_some l : 0 ∈ l -> 0 <= IndexByte l 0 < blen l.
Proof.
  induction l as [|x l IH]; intros Hl; [by apply elem_of_nil in Hl|]. cbn [IndexByte]. pose proof (blen_nonneg l).
  rewrite blen_cons. destruct (Z.eqb_spec x 0) as [->|Hx]; [lia|].
  apply elem_of_cons in Hl as [E|Hl]; [lia|]. specialize (IH Hl). rewrite (proj2 (Z.ltb_ge _ _)) by lia. lia.
Qed.

(** The answer to the handshake. *)
Definition response (cap : Z) (filler name auth rest : bytes) : bytes :=
  le_bytes 4 cap ++ filler ++ name ++ [0] ++ [blen auth] ++ auth ++ rest.

Definition after_read (more : bytes) (c : Conn.t) : Conn.t :=
  let b := Conn.BaseConn_ c in
  Conn.set_BaseConn (BaseConn.mk (u8 (BaseConn.Sequence b + 1)) more (BaseConn.output b) (BaseConn.faults b)) c.

Lemma read_packet_ok p more c :
  BaseConn.input (Conn.BaseConn_ c) = packet (BaseConn.Sequence (Conn.BaseConn_ c)) p ++ more -> 0 < blen p < MaxPayloadLen ->
  Conn.on_base BaseConn.ReadPacket c = (Ok p, after_read more c).
Proof.
  intros Hi Hp. unfold Conn.on_base, zoom, BaseConn.ReadPacket. rewrite bind_gets.
  rewrite (ReadPacketTo_packet _ [] _ p more Hi) by lia. by rewrite (proj2 (Z.ltb_lt _ _)) by lia.
Qed.

(** Whether a client with this name and authentication may log in. *)
Definition verdict (c : Conn.t) (password : string) (name auth : bytes) : res unit :=
  if negb (String.eqb (Conn.user c) (BytesToString name)) then Err ErrNoSuchUser
  else if negb (bool_decide (auth = CalcPassword (Conn.salt c) (StringToBytes password))) then Err ErrAccessDenied
  else Ok tt.

Section login.
Context (c : Conn.t) (password : string) (cap : Z) (filler name auth rest more : bytes).
Let data := response cap filler name auth rest.
Hypothesis Hcap : is_u32 cap.
Hypothesis Hfiller : blen filler = 28.
Hypothesis Hname : 0 ∉ name.
Hypothesis Hauth : blen auth < 256.
Hypothesis Hrest : rest = [] \/ 0 ∈ rest.
Hypothesis Hlen : blen data < MaxPayloadLen.
Hypothesis Hinput : BaseConn.input (Conn.BaseConn_ c) = packet (BaseConn.Sequence (Conn.BaseConn_ c)) data ++ more.

Lemma response_slices : let pos := 32 + blen name + 1 + 1 in
  slice data 0 4 = Some (le_bytes 4 cap) /\
  slice data 32 (blen data) = Some (name ++ 0 :: blen auth :: auth ++ rest) /\
  slice data 32 (32 + blen name) = Some name /\ index data (32 + blen name + 1) = Some (blen auth) /\
  slice data pos (pos + blen auth) = Some auth /\ slice data (pos + blen auth) (blen data) = Some rest.
Proof using Hfiller.
  intros pos. set (head := le_bytes 4 cap ++ filler).
  assert (blen head = 32) as Hh by (unfold head; rewrite blen_app, blen_le_bytes; lia).
  assert (data = head ++ name ++ 0 :: blen auth :: auth ++ rest) as Hdata
    by (unfold data, response, head; by rewrite <-app_assoc).
  assert (data = (head ++ name ++ [0]) ++ blen auth :: (auth ++ rest)) as Hdata1 by (rewrite Hdata; by rewrite <-!app_assoc).
  assert (data = (head ++ name ++ [0; blen auth]) ++ auth ++ rest) as Hdata2 by (rewrite Hdata; by rewrite <-!app_assoc).
  split_and!.
  - by apply slice_prefix; rewrite blen_le_bytes.
  - rewrite Hdata. by apply slice_suffix.
  - rewrite Hdata. apply slice_mid; lia.
  - rewrite Hdata1. apply index_mid. rewrite !blen_app, blen_cons, blen_nil. lia.
  - rewrite Hdata2. apply slice_mid; rewrite !blen_app, !blen_cons, blen_nil; lia.
  - rewrite Hdata2, app_assoc. apply slice_suffix; [|done]. rewrite !blen_app, !blen_cons, blen_nil. lia.
Qed.

Lemma read_response_ok :
  Auth.readHandshakeResponse password c = (verdict c password name auth, Conn.set_capability cap (after_read more c)).
Proof using All.
  assert (blen data = 34 + blen name + blen auth + blen rest) as Hd.
  { unfold data, response. rewrite !blen_app, blen_le_bytes, !blen_cons, blen_nil. lia. }
  pose proof (blen_nonneg name) as Hn0. pose proof (blen_nonneg auth) as Ha0. pose proof (blen_nonneg rest) as Hr0.
  destruct response_slices as (E1 & E2 & E3 & E4 & E5 & E6).
  unfold Auth.readHandshakeResponse. rewrite (bind_ok _ _ _ _ _ (read_packet_ok data more c Hinput ltac:(lia))).
  rewrite E1, bind_must, le_val_u32 by done.
  rewrite (bind_ok _ _ _ tt (Conn.set_capability cap (after_read more c))) by done.
  change (4 + 4 + 1 + 23) with 32. rewrite E2, bind_must, IndexByte_first by done.
  rewrite E3, bind_must, bind_gets. unfold verdict.
  change (Conn.user (id (Conn.set_capability cap (after_read more c)))) with (Conn.user c).
  change (Conn.salt (id (Conn.set_capability cap (after_read more c)))) with (Conn.salt c).
  destruct (negb (String.eqb _ _)); [done|]. rewrite E4, bind_must, E5, bind_must.
  destruct (negb (bool_decide _)); [done|]. rewrite E6, bind_must. destruct Hrest as [->|Hz]; [done|].
  pose proof (IndexByte_some _ Hz). rewrite (proj2 (Z.eqb_neq _ _)) by lia.
  rewrite slice_in_bounds by lia. by rewrite bind_must.
Qed.
End login.

(** ** The messages of the server *)

Definition initial_message (version : string) (c : Conn.t) : bytes :=
  [10] ++ StringToBytes version ++ [0] ++ le_bytes 4 (Conn.connectionID c) ++ take 8 (Conn.salt c) ++ [0] ++
  le_bytes 2 Auth.server_capability ++ [Auth.DEFAULT_COLLATION_ID] ++
  [u8 (Conn.status c); u8 (Z.shiftr (Conn.status c) 8)] ++ le_bytes 2 (Z.shiftr Auth.server_capability 16) ++
  [21] ++ zeros 10 ++ drop 8 (Conn.salt c) ++ [0].

Definition status_bytes (protocol41 : bool) (status : Z) : bytes :=
  if protocol41 then [u8 status; u8 (Z.shiftr status 8); 0; 0] else [].

Definition ok_message (c : Conn.t) : bytes := [0; 0; 0] ++ status_bytes (Resp.protocol41 c) (Conn.status c).

Definition error_message `{ErrorText} (e : error) (c : Conn.t) : bytes :=
  let m := my_error e in
  [255; u8 (MyError.Code m); u8 (Z.shiftr (MyError.Code m) 8)] ++
  (if Resp.protocol41 c then 35 :: MyError.State m else []) ++ MyError.Message m.

Definition ready (c : Conn.t) : Prop := Conn.closed c = false /\ BaseConn.faults (Conn.BaseConn_ c) = [].

Definition short_texts `{ErrorText} : Prop :=
  forall e, blen (MyError.State (my_error e)) + blen (MyError.Message (my_error e)) < 2 ^ 20.

Lemma ready_sent ps c : ready c -> ready (after_sent ps c).
Proof. intros [Hc _]. by split. Qed.

Lemma initial_sent version c : ready c -> blen (Conn.salt c) = 20 -> blen (StringToBytes version) < 2 ^ 20 ->
  Auth.writeInitialHandshake version c = (Ok tt, after_sent [initial_message version c] c).
Proof.
  intros [Hc Hf] Hs Hv. unfold Auth.writeInitialHandshake. rewrite bind_gets. unfold id.
  rewrite slice_in_bounds, bind_must by lia. rewrite slice_in_bounds, bind_must by lia.
  change (Z.to_nat (8 - 0)) with 8%nat. change (Z.to_nat 0) with 0%nat. change (Z.to_nat 8) with 8%nat.
  rewrite (take_ge (drop 8 (Conn.salt c))) by (rewrite length_drop; unfold blen in *; lia).
  apply write_packet_sent; [done..|]. change (drop 0 (Conn.salt c)) with (Conn.salt c).
  pose proof (blen_take 8 (Conn.salt c) ltac:(lia)) as Ht. pose proof (blen_drop 8 (Conn.salt c) ltac:(lia)) as Hd.
  change (Z.to_nat 8) with 8%nat in Ht, Hd.
  unfold initial_message. rewrite !blen_app, !blen_le_bytes, Ht, Hd, blen_zeros, !blen_cons, !blen_nil. mp. lia.
Qed.

Lemma ok_sent c : ready c -> Conn.writeOK c = (Ok tt, after_sent [ok_message c] c).
Proof.
  intros [Hc Hf]. unfold Conn.writeOK. rewrite bind_gets. apply write_packet_sent; [done..|].
  unfold ok_message. destruct (Resp.protocol41 c); by vm_compute.
Qed.

Lemma error_sent `{ErrorText} e c : ready c -> short_texts -> Resp.writeError e c = (Ok tt, after_sent [error_message e c] c).
Proof.
  intros [Hc Hf] Ht. specialize (Ht e). unfold Resp.writeError. rewrite bind_gets. apply write_packet_sent; [done..|].
  unfold error_message. pose proof (blen_nonneg (MyError.State (my_error e))). pose proof (blen_nonneg (MyError.Message (my_error e))).
  destruct (Resp.protocol41 c); rewrite !blen_app, ?blen_cons, ?blen_nil; mp; lia.
Qed.

(** The handshake up to the verdict and the answer to it. *)
Lemma handshake_eq `{ErrorText} version password c cap filler name auth rest more :
  let c1 := after_sent [initial_message version c] c in
  let c2 := Conn.set_capability cap (after_read more c1) in
  ready c -> short_texts -> BaseConn.Sequence (Conn.BaseConn_ c) = 0 -> blen (Conn.salt c) = 20 ->
  blen (StringToBytes version) < 2 ^ 20 ->
  is_u32 cap -> blen filler = 28 -> 0 ∉ name -> blen auth < 256 -> rest = [] \/ 0 ∈ rest ->
  blen (response cap filler name auth rest) < MaxPayloadLen ->
  BaseConn.input (Conn.BaseConn_ c) = packet 1 (response cap filler name auth rest) ++ more ->
  Session.handshake version password c =
    match verdict c password name auth with
    | Ok _ => Conn.on_base BaseConn.ResetSequence (after_sent [ok_message c2] c2)
    | Err e => (Err e, after_sent [error_message e c2] c2)
    | Panic => (Panic, c2)
    end.
Proof.
  intros c1 c2 Hr Ht Hseq Hsalt Hv Hcap Hfil Hname Hauth Hrest Hlen Hin.
  unfold Session.handshake. rewrite (bind_ok _ _ _ _ _ (initial_sent version c Hr Hsalt Hv)). fold c1.
  assert (Hin1 : BaseConn.input (Conn.BaseConn_ c1) =
    packet (BaseConn.Sequence (Conn.BaseConn_ c1)) (response cap filler name auth rest) ++ more) by (cbn; by rewrite Hseq).
  pose proof (read_response_ok c1 password cap filler name auth rest more Hcap Hfil Hname Hauth Hrest Hlen Hin1) as E.
  fold c2 in E. assert (ready c2) as Hr2 by (split; [apply Hr|done]).
  change (verdict c1 password name auth) with (verdict c password name auth) in E.
  unfold bind at 1. rewrite E. destruct (verdict c password name auth) as [[]|e|]; [|by rewrite error_sent|done].
  by rewrite (bind_ok _ _ _ _ _ (ok_sent c2 Hr2)).
Qed.

(** C36: A client may log in exactly with the user of the configuration and with
    the authentication that follows from the salt and the password: the server sends
    its initial message, reads the answer and sends an OK, after which the connection
    is at the next command, or the error. *)
Theorem login_checked `{ErrorText} version password c cap filler name auth rest more :
  ready c -> short_texts -> BaseConn.Sequence (Conn.BaseConn_ c) = 0 -> blen (Conn.salt c) = 20 ->
  blen (StringToBytes version) < 2 ^ 20 ->
  is_u32 cap -> blen filler = 28 -> 0 ∉ name -> blen auth < 256 -> rest = [] \/ 0 ∈ rest ->
  blen (response cap filler name auth rest) < MaxPayloadLen ->
  BaseConn.input (Conn.BaseConn_ c) = packet 1 (response cap filler name auth rest) ++ more ->
  let granted := BytesToString name = Conn.user c /\ auth = CalcPassword (Conn.salt c) (StringToBytes password) in
  exists c', BaseConn.input (Conn.BaseConn_ c') = more /\ Conn.capability c' = cap /\
    (granted /\ Session.handshake version password c = (Ok tt, c') /\ BaseConn.Sequence (Conn.BaseConn_ c') = 0 /\
       BaseConn.output (Conn.BaseConn_ c') =
         BaseConn.output (Conn.BaseConn_ c) ++ packet 0 (initial_message version c) ++ packet 2 (ok_message c') \/
     ~ granted /\ exists e, Session.handshake version password c = (Err e, c') /\ e ∈ [ErrNoSuchUser; ErrAccessDenied] /\
       BaseConn.output (Conn.BaseConn_ c') =
         BaseConn.output (Conn.BaseConn_ c) ++ packet 0 (initial_message version c) ++ packet 2 (error_message e c')).
Proof.
  intros Hr Ht Hseq Hsalt Hv Hcap Hfil Hname Hauth Hrest Hlen Hin granted.
  rewrite (handshake_eq version password c cap filler name auth rest more) by done.
  set (c2 := Conn.set_capability cap (after_read more (after_sent [initial_message version c] c))).
  assert (forall m, BaseConn.output (Conn.BaseConn_ (after_sent [m] c2)) =
    BaseConn.output (Conn.BaseConn_ c) ++ packet 0 (initial_message version c) ++ packet 2 m) as Hout.
  { intros m. cbn. rewrite Hseq. change (u8 (u8 (0 + 1) + 1)) with 2. by rewrite !app_nil_r, <-app_assoc. }
  unfold verdict. destruct (String.eqb_spec (Conn.user c) (BytesToString name)) as [Hu|Hu]; cbn [negb].
  2:{ exists (after_sent [error_message ErrNoSuchUser c2] c2). split; [done|]. split; [done|].
      right. split; [intros [Hn _]; congruence|]. exists ErrNoSuchUser. split; [done|]. split; [by left|]. apply Hout. }
  destruct (decide (auth = CalcPassword (Conn.salt c) (StringToBytes password))) as [Ha|Ha].
  - rewrite bool_decide_eq_true_2 by done. cbn [negb].
    exists (Conn.on_base BaseConn.ResetSequence (after_sent [ok_message c2] c2)).2. split; [done|]. split; [done|].
    left. split; [done|]. split; [done|]. split; [done|]. apply (Hout (ok_message c2)).
  - rewrite bool_decide_eq_false_2 by done. cbn [negb].
    exists (after_sent [error_message ErrAccessDenied c2] c2). split; [done|]. split; [done|].
    right. split; [by intros [_ ?]|]. exists ErrAccessDenied. split; [done|]. split; [by right; left|]. apply Hout.
Qed.

(** An answer without the end of a user name panics. *)
Lemma read_response_panics password c data more :
  BaseConn.input (Conn.BaseConn_ c) = packet (BaseConn.Sequence (Conn.BaseConn_ c)) data ++ more ->
  0 < blen data < MaxPayloadLen -> 0 ∉ drop 32 data -> (Auth.readHandshakeResponse password c).1 = Panic.
Proof.
  intros Hin Hl H0. unfold Auth.readHandshakeResponse.
  rewrite (bind_ok _ _ _ _ _ (read_packet_ok data more c Hin Hl)).
  destruct (slice data 0 4) as [cap|]; [rewrite bind_must|done].
  rewrite (bind_ok _ _ _ tt (Conn.set_capability (le_val cap) (after_read more c))) by done.
  change (4 + 4 + 1 + 23) with 32. destruct (slice data 32 (blen data)) as [rest|] eqn:E; [rewrite bind_must|done].
  assert (rest = drop 32 data) as ->.
  { pose proof (slice_Some _ _ _ _ E) as (Hb & _). rewrite slice_in_bounds in E by lia. injection E as <-.
    change (Z.to_nat 32) with 32%nat. apply take_ge. rewrite length_drop. unfold blen. lia. }
  rewrite IndexByte_none by done. done.
Qed.

(** Anyone who can connect can end the process: an answer to the handshake
    that is too short for a user name, or has a name without an end, panics before the
    password is looked at, in a goroutine that does not recover. *)
Theorem malformed_login_ends_process `{Json MasterInfo.t} `{ErrorText} `{SqlParser} password os c data more info :
  ready c -> BaseConn.Sequence (Conn.BaseConn_ c) = 0 -> blen (Conn.salt c) = 20 ->
  GetMasterInfo (Conn.store c) = (Ok info, Conn.store c) -> blen (StringToBytes (MasterInfo.Version info)) < 2 ^ 20 ->
  BaseConn.input (Conn.BaseConn_ c) = packet 1 data ++ more -> 0 < blen data < MaxPayloadLen -> 0 ∉ drop 32 data ->
  (Session.onConn password os c).1 = Panic.
Proof.
  intros Hr Hseq Hsalt Hinfo Hv Hin Hl Hz. unfold Session.onConn, Session.NewConn.
  rewrite (bind_ok _ _ _ _ _ (on_store_ok _ _ _ Hinfo)). unfold Session.handshake.
  rewrite (bind_ok _ _ _ _ _ (initial_sent _ c Hr Hsalt Hv)). unfold bind at 1.
  set (c1 := after_sent _ c).
  pose proof (read_response_panics password c1 data more ltac:(cbn; by rewrite Hseq) Hl Hz) as E.
  destruct (Auth.readHandshakeResponse password c1) as [r c2]. cbn in E. by subst r.
Qed.

(** * Asking for variables *)

Definition eof_message (c : Conn.t) : bytes :=
  [254] ++ (if Resp.protocol41 c then [0; 0; u8 (Conn.status c); u8 (Z.shiftr (Conn.status c) 8)] else []).

Definition result_messages (columnName : string) (value : cell) (c : Conn.t) : list bytes :=
  [[1]; Field.Dump (Field.new columnName value); eof_message c;
   PutLengthEncodedString (formatTextValue value); eof_message c].

Lemma eof_sent c : ready c -> Resp.writeEOF c = (Ok tt, after_sent [eof_message c] c).
Proof.
  intros [Hc Hf]. unfold Resp.writeEOF. rewrite bind_gets. apply write_packet_sent; [done..|].
  unfold eof_message. destruct (Resp.protocol41 c); by vm_compute.
Qed.

Lemma blen_lenenc b : blen b < 2 ^ 20 -> blen (PutLengthEncodedString b) <= blen b + 9.
Proof.
  intros Hb. unfold PutLengthEncodedString, PutLengthEncodedInt. rewrite blen_app.
  destruct (_ <=? 250); [rewrite blen_cons, blen_nil; lia|].
  destruct (_ <=? 65535); [rewrite blen_cons, blen_le_bytes; lia|].
  destruct (_ <=? 16777215); rewrite blen_cons, blen_le_bytes; lia.
Qed.

Lemma blen_field columnName value : blen (StringToBytes columnName) < 2 ^ 20 ->
  blen (Field.Dump (Field.new columnName value)) < MaxPayloadLen.
Proof.
  intros Hc. pose proof (blen_lenenc _ Hc). unfold Field.Dump. rewrite !blen_app, !blen_le_bytes.
  replace (Field.Name (Field.new columnName value)) with (StringToBytes columnName) by (by destruct value).
  change (blen (PutLengthEncodedString (StringToBytes "def"))) with 4. change (blen (PutLengthEncodedString [])) with 1.
  rewrite !blen_cons, !blen_nil. mp. lia.
Qed.

Lemma result_sent columnName value c : ready c ->
  blen (StringToBytes columnName) < 2 ^ 20 -> blen (formatTextValue value) < 2 ^ 20 ->
  Command.answer columnName value c = (Ok tt, after_sent (result_messages columnName value c) c).
Proof.
  intros Hr Hc Hv. pose proof (blen_field columnName value Hc). pose proof (blen_lenenc _ Hv).
  unfold Command.answer, Resp.writeResultset. rewrite bind_must.
  assert (forall p c', ready c' -> blen p < MaxPayloadLen -> Conn.WritePacket (zeros 4 ++ p) c' = (Ok tt, after_sent [p] c')) as Hw
    by (intros p c' []; by apply write_packet_sent).
  set (field := Field.Dump _) in *. set (row := PutLengthEncodedString _) in *.
  change (Resultset.Fields _) with [Field.new columnName value]. change (Resultset.RowDatas _) with [row].
  change (map Field.Dump _) with [field]. change (PutLengthEncodedInt (blen _)) with [1]. cbn [Resp.write_all].
  rewrite (bind_ok _ _ _ _ _ (Hw [1] c Hr ltac:(done))).
  rewrite (bind_ok _ _ _ tt (after_sent [[1]; field] c)).
  2:{ rewrite (bind_ok _ _ _ _ _ (Hw field _ (ready_sent _ _ Hr) ltac:(done))). by rewrite after_sent_app. }
  rewrite (bind_ok _ _ _ _ _ (eof_sent _ (ready_sent _ _ Hr))), after_sent_app.
  rewrite (bind_ok _ _ _ tt (after_sent ([[1]; field; eof_message c] ++ [row]) c)).
  2:{ rewrite (bind_ok _ _ _ _ _ (Hw row _ (ready_sent _ _ Hr) ltac:(mp; lia))). by rewrite after_sent_app. }
  rewrite eof_sent by (by apply ready_sent). by rewrite after_sent_app.
Qed.

(** The value of a variable or a function, by its name in lower case. *)
Definition value_of (info : MasterInfo.t) (purged : MysqlGTIDSet.t) (now : Z) (e : expr) : option cell :=
  match e with
  | VariableExpr name _ _ =>
      if String.eqb name ServerID then Some (CellInt (MasterInfo.ServerID info))
      else if String.eqb name ServerUUID then Some (CellString (MasterInfo.ServerUUID info))
      else if String.eqb name GtidMode then Some (CellString "ON")
      else if String.eqb name GtidPurged then Some (CellString (MysqlGTIDSet.String purged))
      else if String.eqb name VersionComment then Some (CellString "MySQL Community Server (GPL)")
      else if String.eqb name BinlogFormat then Some (CellString "ROW")
      else if String.eqb name BinlogChecksum || String.eqb name MasterBinlogChecksum then Some (CellString "CRC32")
      else None
  | FuncCallExpr name =>
      if String.eqb name UnixTimestamp then Some (CellInt now)
      else if String.eqb name Version then Some (CellString (MasterInfo.Version info))
      else None
  | _ => None
  end.

Definition lower_case (e : expr) : Prop :=
  match e with VariableExpr name _ _ => ToLower name = name | FuncCallExpr _ => True | _ => False end.

(** The handlers answer with the value or, for another name, panic before
    anything is sent. *)
Lemma select_value `{Json MasterInfo.t} `{ErrorText} `{SqlParser} info purged now columnName e c :
  GetMasterInfo (Conn.store c) = (Ok info, Conn.store c) ->
  GetGtidSet MySQLFlavor GtidPurgedKey (Conn.store c) = (Ok purged, Conn.store c) -> lower_case e ->
  Command.handleSelect now [(columnName, e)] c =
    match value_of info purged now e with Some v => Command.answer columnName v c | None => (Panic, c) end.
Proof.
  intros Hi Hp He. destruct e as [name g sys|name|l|]; [|..|done|done].
  - unfold Command.handleSelect, Command.handleSelectVariableExpr, value_of, Command.master_info. rewrite He.
    destruct (String.eqb_spec name ServerID) as [->|Hn1]; cbn [orb]; [by rewrite (bind_ok _ _ _ _ _ (on_store_ok _ _ _ Hi))|].
    destruct (String.eqb_spec name ServerUUID) as [->|Hn2]; cbn [orb]; [by rewrite (bind_ok _ _ _ _ _ (on_store_ok _ _ _ Hi))|].
    cbn [orb]. destruct (String.eqb name GtidMode); [done|].
    destruct (String.eqb name GtidPurged); [by rewrite (bind_ok _ _ _ _ _ (on_store_ok _ _ _ Hp))|].
    destruct (String.eqb name VersionComment); [done|]. destruct (String.eqb name BinlogFormat); [done|].
    destruct (String.eqb name BinlogChecksum); [done|]. by destruct (String.eqb name MasterBinlogChecksum).
  - unfold Command.handleSelect, Command.handleSelectFuncCallExpr, value_of, Command.master_info.
    destruct (String.eqb name UnixTimestamp); [done|].
    destruct (String.eqb name Version); [by rewrite (bind_ok _ _ _ _ _ (on_store_ok _ _ _ Hi))|done].
Qed.

(** A query for a variable or a function that kingbus knows is answered with
    a result set of one row, which a client reads back as the value; for any other
    name the connection gets an error and nothing is sent. *)
Theorem select_answered `{Json MasterInfo.t} `{ErrorText} `{SqlParser} info purged now sql columnName e c :
  ready c -> ParseOneStmt sql = Some (SelectStmt [(columnName, e)]) -> lower_case e ->
  GetMasterInfo (Conn.store c) = (Ok info, Conn.store c) ->
  GetGtidSet MySQLFlavor GtidPurgedKey (Conn.store c) = (Ok purged, Conn.store c) ->
  blen (StringToBytes columnName) < 2 ^ 20 ->
  match value_of info purged now e with
  | None => Command.handleQuery now sql c = (Err ErrRuntime, c)
  | Some v => blen (formatTextValue v) < 2 ^ 20 ->
      exists c' stream row, Command.handleQuery now sql c = (Ok tt, c') /\
        BaseConn.output (Conn.BaseConn_ c') = BaseConn.output (Conn.BaseConn_ c) ++ stream /\
        (forall rest, client_reads 5 (BaseConn.Sequence (Conn.BaseConn_ c)) (stream ++ rest) =
           Some ([[1]; Field.Dump (Field.new columnName v); eof_message c; row; eof_message c],
                 BaseConn.Sequence (Conn.BaseConn_ c'), rest)) /\
        exists n k, LengthEncodedInt row = Some (n, false, k) /\ slice row k (k + n) = Some (formatTextValue v) /\ k + n = blen row
  end.
Proof.
  intros Hr Hsql He Hi Hp Hc. unfold Command.handleQuery, Command.recovered. rewrite Hsql.
  rewrite (select_value info purged) by done. destruct (value_of info purged now e) as [v|]; [|done].
  intros Hv. rewrite result_sent by done. set (row := PutLengthEncodedString (formatTextValue v)).
  pose proof (blen_nonneg (formatTextValue v)) as Hv0.
  exists (after_sent (result_messages columnName v c) c),
    (messages (BaseConn.Sequence (Conn.BaseConn_ c)) (result_messages columnName v c)), row.
  split; [done|]. split; [done|]. split.
  - intros rest. apply (client_reads_messages (result_messages columnName v c)).
    pose proof (blen_field columnName v Hc). pose proof (blen_lenenc _ Hv).
    assert (blen (eof_message c) < MaxPayloadLen) by (unfold eof_message; destruct (Resp.protocol41 c); by vm_compute).
    repeat constructor; [done|done|mp; lia|done].
  - exists (blen (formatTextValue v)), (blen (PutLengthEncodedInt (blen (formatTextValue v)))). unfold row, PutLengthEncodedString.
    split; [apply lenenc_roundtrip; lia|]. rewrite blen_app. split; [|done]. apply slice_suffix; [done|by rewrite blen_app].
Qed.

(** ** A sample connection *)

#[local] Instance sample_texts : ErrorText := fun e => MyError.mk 1105 [] (zeros 5).

Definition sample_salt : bytes := [1; 2; 3; 4; 5; 6; 7; 8; 9; 10; 11; 12; 13; 14; 15; 16; 17; 18; 19; 20].
Definition login (name auth : bytes) : bytes := response 512 (zeros 28) name auth [].
Definition login_conn (data : bytes) : Conn.t :=
  Session.new_conn (BaseConn.mk 0 (packet 1 data) [] []) 7 "root" sample_salt Slaves.NewBinlogServer (MetaStore.mk ∅ false []).

Lemma sample_texts_short : short_texts.
Proof. intros e. by vm_compute. Qed.

Lemma login_checked_witness :
  exists c', Session.handshake "5.7" "pw" (login_conn (login (StringToBytes "root")
    (CalcPassword sample_salt (StringToBytes "pw")))) = (Ok tt, c').
Proof.
  destruct (login_checked "5.7" "pw" (login_conn (login (StringToBytes "root") (CalcPassword sample_salt (StringToBytes "pw"))))
    512 (zeros 28) (StringToBytes "root") (CalcPassword sample_salt (StringToBytes "pw")) [] [])
    as (c' & _ & _ & [(_ & E & _)|(Hn & _)]).
  - by split.
  - exact sample_texts_short.
  - reflexivity.
  - reflexivity.
  - by vm_compute.
  - by vm_compute.
  - reflexivity.
  - apply (bool_decide_eq_true_1 (0 ∉ StringToBytes "root")). vm_compute. reflexivity.
  - by vm_compute.
  - by left.
  - by vm_compute.
  - cbn [login_conn Session.new_conn Conn.BaseConn_ BaseConn.input]. by rewrite app_nil_r.
  - exists c'. exact E.
  - destruct Hn. split; [by vm_compute|reflexivity].
Defined.

#[local] Instance sample_info_json : Json MasterInfo.t := code_json MasterInfo.t.
#[local] Instance no_sql : SqlParser := fun _ => None.

Lemma malformed_login_ends_process_witness : (Session.onConn "pw" [] (login_conn [1])).1 = Panic.
Proof.
  apply (malformed_login_ends_process "pw" [] (login_conn [1]) [1] [] (MasterInfo.mk 0 "" "")).
  - by split.
  - reflexivity.
  - reflexivity.
  - by vm_compute.
  - by vm_compute.
  - reflexivity.
  - split; by vm_compute.
  - apply not_elem_of_nil.
Defined.

#[local] Instance uuid_sql : SqlParser := fun _ => Some (SelectStmt [("@@SERVER_UUID", VariableExpr "server_uuid" true true)]).

Definition info_conn : Conn.t :=
  Session.new_conn fresh_conn 7 "root" sample_salt Slaves.NewBinlogServer
    (MetaStore.mk {[ MasterInfoKey := json_Marshal (MasterInfo.mk 1 "u-1" "5.7");
                     path_Join MySQLFlavor GtidPurgedKey := MysqlGTIDSet.Encode ∅ ]} false []).

Lemma select_answered_witness :
  exists c' stream row, Command.handleQuery (H1 := uuid_sql) 0 "SELECT @@GLOBAL.SERVER_UUID" info_conn = (Ok tt, c') /\
    BaseConn.output (Conn.BaseConn_ c') = stream /\
    exists n k, LengthEncodedInt row = Some (n, false, k) /\ slice row k (k + n) = Some (StringToBytes "u-1").
Proof.
  destruct (select_answered (H1 := uuid_sql) (MasterInfo.mk 1 "u-1" "5.7") ∅ 0 "SELECT @@GLOBAL.SERVER_UUID" "@@SERVER_UUID"
    (VariableExpr "server_uuid" true true) info_conn) as (c' & stream & row & E1 & E2 & _ & n & k & E3 & E4 & _).
  - by split.
  - reflexivity.
  - reflexivity.
  - by vm_compute.
  - by vm_compute.
  - by vm_compute.
  - by vm_compute.
  - exists c', stream, row. split; [exact E1|]. split; [exact E2|]. exists n, k. split; [exact E3|exact E4].
Defined.
